(* ===== verification/_CoqProject ===== *)
-Q . S2P
Prelude.v
CLib.v
Log.v
Hex.v
Router.v
Network.v
Config.v
Slots.v
Reader.v
Addr.v
HashTable.v
IpAcl.v
RateLimiter.v
LimiterSpec.v
Rpc.v
Tls.v
Sockets.v
Security.v
State.v
Endpoints.v
Metrics.v
Http2.v
StaticFiles.v
Connection.v
Balance.v
Worker.v
WorkerSpec.v
Http1.v
Timing.v
Segments.v
Counters.v
AccessLog.v
Http2Spec.v
RpcSpec.v
RpcAsync.v
Broadcast.v
Master.v
Main.v
Report.v
