(* ===== verification/Prelude.v ===== *)
(** * sendrawtx: a verification of the raw-transaction relay server

    ** The program

    sendrawtx is an event-driven web server in C that takes Bitcoin
    transactions in the path of a request.  A master process forks workers;
    each worker runs one libevent loop and shares nothing with the others.
    A worker accepts connections ([src/worker.c]) after asking the IP access
    lists ([src/ip_acl.c]), the rate limiter ([src/rate_limiter.c]) and the
    slot manager ([src/slot_manager.c]); a connection is then driven by its
    read, write and event callbacks ([src/connection.c]), or, when ALPN chose
    h2, by the callbacks nghttp2 makes ([src/http2.c]).  Both protocols send
    the path through the same validation and router ([src/router.c],
    [src/hex.c]) to the same endpoints ([src/endpoints.c],
    [src/static_files.c]).  [src/config.c] and [src/network.c] read the
    configuration and know the Bitcoin chains; [src/tls.c] keeps the worker's
    OpenSSL context, [src/log.c] writes the log, [src/security.c] confines a
    worker to a table of system calls before its loop starts.

    ** The files

    - [Prelude], [CLib]: characters, machine integers, list lemmas,
      tactics; the C library functions the program calls.
    - [Log]: [src/log.c], both record formats and the settings.
    - [Hex], [Router]: [src/hex.c], [src/router.c], and the two path
      validators ([validate_path_early] of [src/connection.c],
      [validate_hex_path] of [src/endpoints.c]).
    - [Network], [Config]: [src/network.c], [src/config.c].
    - [Slots]: [src/slot_manager.c], and [size_to_tier] of [src/reader.c].
      The class [SlotPool] is what the manager promises to the handlers.
    - [Reader]: [src/buffer.c] and the rest of [src/reader.c].
    - [Addr], [HashTable]: the 16-byte address keys, their hash, and the
      theory of chained hash tables that [IpAcl] and [RateLimiter] share.
    - [IpAcl], [RateLimiter]: [src/ip_acl.c], [src/rate_limiter.c].
    - [LimiterSpec]: the finite map of token buckets that the limiter's hash
      table implements, and what follows from it.
    - [Rpc]: [src/rpc.c], the client of the Bitcoin node: authentication,
      JSON-RPC, synchronous calls and asynchronous requests.
    - [Tls], [Sockets], [Security]: [src/tls.c]; [src/tcp_opts.c] and the
      listening sockets of [src/worker.c]; [src/security.c] with the BPF
      machine that runs its filter.
    - [State]: the structures of [include/worker.h],
      [include/connection.h], [include/http2.h] as records.
    - [Endpoints], [Metrics], [StaticFiles]: [src/endpoints.c], with the
      report of [/metrics] in a file of its own, and [src/static_files.c].
    - [Http2], [Connection], [Worker]: [src/http2.c],
      [src/connection.c], [src/worker.c]; one definition per function, and
      the long callbacks cut into the blocks their comments announce.
    - [Balance]: what every handler preserves of slots and streams.
    - [WorkerSpec]: properties of runs of the event loop beyond the slots:
      TLS contexts, HTTP/2 sessions, draining.
    - [Counters]: the statistics of a worker as sums over the exchanges it
      completed.
    - [Http1], [Http2Spec]: the properties of the two protocols.
    - [Timing], [Segments]: sequences of reads on one connection: how long a
      client may take, and how its requests may be cut into segments.
    - [AccessLog]: the calls of the access log, which join [Log],
      [Connection] and [Http2].
    - [RpcSpec], [RpcAsync]: the properties of the node client.
    - [Broadcast]: what becomes of a transaction, from the route to the node
      client.
    - [Master], [Main]: [src/master.c], limits, forking, supervision, reload
      and shutdown; [src/main.c], the command line.
    - [Report]: what the program prints about itself: [config_print], the
      banner, the usage text and the status messages.

    Names are those of the source.  A definition's place in the source is the
    function or type of the same name.

    ** The theorems

    - The worker as a whole ([Worker]): the event loop is the relation
      [step], one constructor per callback, over states reached from
      [worker_main].  In every reachable state the used count of each slot
      tier is the number of slots that live connections and streams hold,
      the gauges are exact, and after SIGUSR1 the worker drains and tells
      the loop to exit when the last connection is gone.  [WorkerSpec] adds
      that a drain ends once every open connection has had a time-out, an
      error or its end, that a worker with TLS owns exactly one hardened
      [SSL_CTX] through any reloads, successful or not, and frees it, and
      that HTTP/2 is only spoken after a TLS hand-shake on a server with
      HTTP/2 on.  [Counters]: in every reachable state the histogram and the
      status, method and byte counters are the sums over one list of
      completed exchanges, so they agree with each other.
    - Operation: ALPN selects from what the client offers; the seccomp
      program lets through exactly its table; [/metrics] writes whole blocks
      within its buffer, and all of them in the size the callers provide; a
      JSON log record is one line from which the message can be read back.
    - Admission: the rate limiter's hash table implements a finite map of
      token buckets ([LimiterSpec]), from every reachable state and with the
      clean-up of a full table included, so in a window with [n] clean-ups
      at most [burst * (1 + n) + rate * time] requests of an address pass;
      its table keeps its invariant.  The access lists answer what their files say;
      [cidr_match] is equality of leading bits; the blocklist wins.
    - Requests: the router decides a grammar; early validation rejects only
      what every continuation would have rejected, and nothing that the
      router serves, ACME challenges apart;
      the adaptive reader of [Reader] stops at every tier threshold and
      always returns;
      the resumed search for the end of the headers misses nothing, and a
      request that fits a normal slot, cut into any segments that come within
      five seconds, is answered as if it came at once ([Segments]); a client that drips its headers is cut off after 120
      seconds at most, and sooner unless it sends 100 bytes for each window
      ([Timing]); what a read leaves in the buffer is covered by the tier of the slot; request lines
      round trip; ACME tokens cannot leave their directory.
    - Responses: a client that reads a response line by line gets its headers,
      each once, and its body; close means that the write callback frees the
      connection, keep-alive that it waits for the next request unless it
      cannot have a normal slot; both protocols give the same answer to a
      path that validation accepts, and refuse the others; the HTTP/2 body provider delivers the body; pages are loaded whole.
    - Configuration: a loaded configuration is well formed, with the tiers
      in order unless the large threshold is 0 or at least 2^63; chain names
      round trip; no address crosses the mainnet boundary.
    - The node client: the node decodes the configured credentials from the
      header; requests are framed and cut by no buffer; the node's usual
      answers are understood; in any run of the relation [async_step] each
      registered callback is in flight, called or withdrawn exactly once,
      and no response overruns its buffer.
    - The master: over the relation [master_step] running and draining
      workers are distinct children and every slot is staffed while forks
      work; the loop of [master_run] makes only steps of the relation
      ([Master.master_loop_steps]); SIGTERM or SIGINT ends it, and shutdown
      leaves no worker in a slot.
    - Defects: theorems of kind "error" state behaviour that the code has and
      does not mean to have, in general form (the clock mix-up of the rate
      limiter's clean-up, the throughput check on idle clients and on steady
      uploads, pipelined requests that wait, transactions that no node ever
      sees, forged lines of the access log, the missing directory call of the seccomp table, the
      worker count of the command line, ...).

    ** Modelling choices

    - Machine integers are [Z] with the range or the wrap-around written
      where the code can reach it.  A C string is a [list ascii] without its
      NUL; a reader that runs off the list reads NUL.
    - A configured rate, a burst and the tokens of a bucket are values of
      [CLib.double]: a rational, an infinity or NaN, compared as IEEE 754
      says.  Rounding is not modelled, nor overflow of finite values.
      Durations and printed latencies are rationals.
      Clock readings are arguments, in nanoseconds where the code uses
      [struct timespec].
    - Outcomes the program does not decide (allocation, libevent, OpenSSL,
      nghttp2, [read], [fork]) are arguments, arbitrary in the theorems:
      the environment records [AcceptEnv], [ReadEnv], [RequestEnv],
      [StartEnv], [SslEnv], [SocketEnv], [PrctlEnv] and the like; what
      [select] and [read] answer the reader is the list [ReadStep].
      What the platform fixes at compile time is a class: [SslBuild] for the
      options OpenSSL defines, [Platform] for system call numbers.
      [inet_pton] and [strtod] are parameters;
      [Inet] states what [inet_pton] documents, and [Addr] has an instance.
    - A pointer to a connection or table entry is its key; a freed
      connection is [None], so use after free cannot be expressed by accident:
      handlers return what is left.
    - nghttp2 is the sequence of callbacks it makes, in any order.
    - Loops are structural on the bytes, the lines or the outcomes they
      consume, and the chunked ones ([read_loop], the body provider) come
      with theorems that they deliver everything.  Fuel is used where a loop
      is on a number or on a cursor.  Doubling a capacity in
      [rpc_async_read_cb] ([grow_cap]) has 64 rounds, which exhaust [size_t]
      ([RpcAsync.grow_cap_spec]); the growth of a [Buffer] ([grow_loop]) has
      129, since it first doubles and then adds a half
      ([Reader.grow_loop_fuel]).  [bpf_run] has the length of the program,
      [alpn_scan] that of the list ([Tls.alpn_scan_encode]), [file_lines] that
      of the file ([CLib.file_lines_concat] shows that nothing is lost).
    - Writing outside an array, where the code can be driven to it, is the
      result [None] of the definition ([base64_encode_into],
      [start_workers]); [worker_main] has the result [Undefined] beside a
      started worker and [exit(1)].
    - OpenSSL contexts live on a [Heap] that records which are allocated and
      whether anything was freed that was not.

    ** Not modelled

    The log calls inside handlers other than the access log, and the warnings
    on stderr.  Calls that leave no trace in the state: [pin_to_cpu], the
    frees of [master_cleanup], [config_free] and [rpc_request_free].  The
    OpenSSL, libevent and nghttp2 libraries themselves; the header files'
    prototypes.  The node client is verified as a component of its own: its
    events are not constructors of the worker's [step], and [Broadcast] proves
    that none can occur there, because no handler of a worker starts a
    request. *)
From Stdlib Require Import ZArith Lia Ascii String.
From stdpp Require Import base list numbers strings.

#[global] Set Default Goal Selector "!".
#[local] Open Scope Z_scope.

Declare Scope relay_scope.
Delimit Scope relay_scope with relay.

(** ** C strings and byte buffers

    A buffer of [char] is a list of 8-bit characters.  A C string is the
    list of its characters before the terminating NUL. *)

Abbreviation chars := (list ascii).

Definition str (s : string) : chars := list_ascii_of_string s.

(** The numeric value of a character read as [unsigned char]. *)
Definition code (c : ascii) : Z := Z.of_N (N_of_ascii c).

Definition chr (z : Z) : ascii := ascii_of_N (Z.to_N z).

Definition NUL : ascii := chr 0.
Definition TAB : ascii := chr 9.
Definition LF : ascii := chr 10.
Definition CR : ascii := chr 13.
Definition SP : ascii := chr 32.
Definition DQ : ascii := chr 34.
Definition BSL : ascii := chr 92.
Definition CRLF : list ascii := [CR; LF].

Definition eqc (a b : ascii) : bool := Ascii.eqb a b.

(** The length of a buffer as a [size_t]. *)
Definition zlen {A} (l : list A) : Z := Z.of_nat (length l).

(** ** Machine integers *)

Definition wrap (w z : Z) : Z := z mod 2 ^ w.
Definition u8 (z : Z) : Z := wrap 8 z.
Definition u32 (z : Z) : Z := wrap 32 z.
Definition u64 (z : Z) : Z := wrap 64 z.
Definition SIZE_MAX : Z := 2 ^ 64 - 1.
Definition INT_MAX : Z := 2 ^ 31 - 1.
Definition LONG_MAX : Z := 2 ^ 63 - 1.
Definition LONG_MIN : Z := - 2 ^ 63.
Definition ULONG_MAX : Z := 2 ^ 64 - 1.

(** Conversion of a value to [int]: two's complement truncation. *)
Definition to_int (z : Z) : Z :=
  let r := z mod 2 ^ 32 in if (r <? 2 ^ 31)%Z then r else (r - 2 ^ 32)%Z.

#[global] Arguments eqc : simpl never.
#[global] Arguments code : simpl never.
#[global] Arguments chr : simpl never.
#[global] Arguments NUL : simpl never.
#[global] Arguments wrap : simpl never.
#[global] Arguments zlen : simpl never.

(** ** Notation *)

Notation "a =c b" := (eqc a b) (at level 70) : relay_scope.

(** ** Record update

    [r <| f := v |>] is the record [r] with field [f] set to [v], and
    [r <| f ::= g |>] applies [g] to it.  A record type declares its eta
    expansion once; the updates are derived from it. *)

Class Eta (R : Type) := eta : R -> R.

Class Update {R E : Type} (proj : R -> E) := update : (E -> E) -> R -> R.

#[global] Arguments update {R E} proj {_} f r /.

Ltac derive_update :=
  lazymatch goal with
  | |- @Update ?R ?E ?proj =>
      let i := constr:(_ : Eta R) in
      let e := eval hnf in i in
      lazymatch eval pattern proj in e with
      | ?mk _ => exact (fun (f : E -> E) (r : R) => mk (fun r' => f (proj r')) r)
      end
  end.

#[global] Hint Extern 1 (Update _) => derive_update : typeclass_instances.

Notation "r <| f := v |>" := (update f (fun _ => v) r)
  (at level 1, f at level 1, left associativity, format "r  <| f  :=  v |>") : stdpp_scope.
Notation "r <| f ::= g |>" := (update f g r)
  (at level 1, f at level 1, left associativity, format "r  <| f  ::=  g |>") : stdpp_scope.

(** ** Tactics *)

(** Turn the boolean tests of executable code into arithmetic facts. *)
Ltac b2p :=
  repeat match goal with
  | H : (_ && _)%bool = true |- _ => apply andb_true_iff in H as [? ?]
  | H : (_ || _)%bool = false |- _ => apply orb_false_iff in H as [? ?]
  | H : negb _ = true |- _ => apply negb_true_iff in H
  | H : negb _ = false |- _ => apply negb_false_iff in H
  | H : (_ <? _)%Z = true |- _ => apply Z.ltb_lt in H
  | H : (_ <? _)%Z = false |- _ => apply Z.ltb_ge in H
  | H : (_ <=? _)%Z = true |- _ => apply Z.leb_le in H
  | H : (_ <=? _)%Z = false |- _ => apply Z.leb_gt in H
  | H : (_ >? _)%Z = true |- _ => rewrite Z.gtb_ltb in H; apply Z.ltb_lt in H
  | H : (_ >? _)%Z = false |- _ => rewrite Z.gtb_ltb in H; apply Z.ltb_ge in H
  | H : (_ >=? _)%Z = true |- _ => rewrite Z.geb_leb in H; apply Z.leb_le in H
  | H : (_ >=? _)%Z = false |- _ => rewrite Z.geb_leb in H; apply Z.leb_gt in H
  | H : (_ =? _)%Z = true |- _ => apply Z.eqb_eq in H
  | H : (_ =? _)%Z = false |- _ => apply Z.eqb_neq in H
  | H : eqc _ _ = true |- _ => apply Ascii.eqb_eq in H
  | H : eqc _ _ = false |- _ => apply Ascii.eqb_neq in H
  end.

(** Case analysis on the boolean that guards the next branch. *)
Ltac branch :=
  match goal with
  | |- context [if ?b then _ else _] => destruct b eqn:?
  | H : context [if ?b then _ else _] |- _ => destruct b eqn:?
  end.

Ltac branches := repeat (branch; b2p; simplify_eq/=; try done).

(** ** Characters *)

Lemma eqc_eq a b : eqc a b = true <-> a = b.
Proof. apply Ascii.eqb_eq. Qed.

Lemma eqc_neq a b : eqc a b = false <-> a <> b.
Proof. apply Ascii.eqb_neq. Qed.

Lemma eqc_refl a : eqc a a = true.
Proof. by apply eqc_eq. Qed.

Lemma code_range c : (0 <= code c < 256)%Z.
Proof. unfold code. pose proof (N_ascii_bounded c). lia. Qed.

Lemma chr_code c : chr (code c) = c.
Proof. unfold chr, code. by rewrite N2Z.id, ascii_N_embedding. Qed.

Lemma code_chr z : (0 <= z < 256)%Z -> code (chr z) = z.
Proof.
  intros Hz. unfold chr, code. rewrite N_ascii_embedding by lia. lia.
Qed.

Lemma code_inj a b : code a = code b -> a = b.
Proof. intros H. rewrite <- (chr_code a), <- (chr_code b). by rewrite H. Qed.

(** A property of characters that computes to [true] on all 256 codes
    holds of every character. *)
Definition all_chars : chars := map (fun n => chr (Z.of_nat n)) (seq 0%nat 256%nat).

Lemma all_chars_spec c : In c all_chars.
Proof.
  unfold all_chars. apply in_map_iff. exists (Z.to_nat (code c)).
  pose proof (code_range c). split.
  - rewrite Z2Nat.id by lia. apply chr_code.
  - apply in_seq. lia.
Qed.

Lemma char_exhaust (P : ascii -> bool) : forallb P all_chars = true -> forall c, P c = true.
Proof. intros H c. rewrite forallb_forall in H. apply H, all_chars_spec. Qed.

(** ** Lists and lengths *)

Lemma zlen_nonneg {A} (l : list A) : (0 <= zlen l)%Z.
Proof. unfold zlen. lia. Qed.

Lemma zlen_nil {A} : zlen (@nil A) = 0%Z.
Proof. done. Qed.

Lemma zlen_cons {A} (x : A) l : zlen (x :: l) = (1 + zlen l)%Z.
Proof. unfold zlen. simpl length. lia. Qed.

Lemma zlen_app {A} (l k : list A) : zlen (l ++ k) = (zlen l + zlen k)%Z.
Proof. unfold zlen. rewrite length_app. lia. Qed.

Lemma zlen_take {A} n (l : list A) : zlen (take n l) = Z.min (Z.of_nat n) (zlen l).
Proof. unfold zlen. rewrite length_take. lia. Qed.

Lemma zlen_drop {A} n (l : list A) : zlen (drop n l) = Z.max 0 (zlen l - Z.of_nat n).
Proof. unfold zlen. rewrite length_drop. lia. Qed.

Create HintDb relay.
Create Rewrite HintDb relay.
#[export] Hint Rewrite @zlen_nil @zlen_cons @zlen_app @zlen_take @zlen_drop : relay.
#[export] Hint Resolve zlen_nonneg code_range : relay.

Lemma forallb_app_iff {A} (f : A -> bool) l k :
  forallb f (l ++ k) = forallb f l && forallb f k.
Proof. apply forallb_app. Qed.

Lemma forallb_take {A} (f : A -> bool) n l : forallb f l = true -> forallb f (take n l) = true.
Proof.
  intros H. rewrite <- (take_drop n l), forallb_app in H.
  by apply andb_true_iff in H as [? _].
Qed.

Lemma forallb_drop {A} (f : A -> bool) n l : forallb f l = true -> forallb f (drop n l) = true.
Proof.
  intros H. rewrite <- (take_drop n l), forallb_app in H.
  by apply andb_true_iff in H as [_ ?].
Qed.

(** ** Machine integers *)

Lemma wrap_range w z : (0 <= w)%Z -> (0 <= wrap w z < 2 ^ w)%Z.
Proof. intros. unfold wrap. apply Z.mod_pos_bound. lia. Qed.

Lemma wrap_small w z : (0 <= z < 2 ^ w)%Z -> wrap w z = z.
Proof. intros. unfold wrap. by apply Z.mod_small. Qed.

Lemma to_int_small z : (- 2 ^ 31 <= z < 2 ^ 31)%Z -> to_int z = z.
Proof.
  intros H. unfold to_int. destruct (Z.le_gt_cases 0 z).
  - rewrite Z.mod_small by lia. destruct (Z.ltb_spec z (2 ^ 31)); lia.
  - replace (z mod 2 ^ 32)%Z with (z + 2 ^ 32)%Z.
    + destruct (Z.ltb_spec (z + 2 ^ 32) (2 ^ 31)); lia.
    + symmetry. rewrite <- (Z.mod_add z 1) by lia. apply Z.mod_small. lia.
Qed.

#[export] Hint Resolve wrap_range : relay.
