(* ===== verification/CLib.v ===== *)
(** * The C library functions the server uses

    [strncmp], [strcasecmp], [memchr], [strstr], [memmem], [strtol],
    [strtoul], [atoi], [snprintf] truncation, [strncpy] and [fgets], on
    buffers represented as lists of characters, with the [trim] helper
    that [config.c] and [ip_acl.c] both define.  Reading at the end of a
    list reads the terminating NUL. *)
From Stdlib Require Import ZArith QArith Lia Ascii String DecimalString DecimalFacts DecimalPos.
From stdpp Require Import base list numbers strings.
From S2P Require Import Prelude.

#[local] Open Scope Z_scope.

(** ** Character classes (C locale) *)

Definition between (lo hi : Z) (c : ascii) : bool := (lo <=? code c) && (code c <=? hi).

Definition isspace (c : ascii) : bool := (code c =? 32) || between 9 13 c.
Definition isdigit (c : ascii) : bool := between 48 57 c.
Definition isupper (c : ascii) : bool := between 65 90 c.
Definition islower (c : ascii) : bool := between 97 122 c.
Definition tolower (c : ascii) : ascii := if isupper c then chr (code c + 32) else c.

(** ** Scanning *)

(** [*p] for a pointer into a NUL-terminated buffer. *)
Definition deref (l : chars) : ascii := match l with [] => NUL | c :: _ => c end.

Fixpoint take_while (P : ascii -> bool) (l : chars) : chars :=
  match l with [] => [] | c :: r => if P c then c :: take_while P r else [] end.

Fixpoint drop_while (P : ascii -> bool) (l : chars) : chars :=
  match l with [] => [] | c :: r => if P c then drop_while P r else l end.

(** The C string stored in a buffer: everything before the first NUL. *)
Definition c_string (l : chars) : chars := take_while (fun c => negb (eqc c NUL)) l.

Definition strlen (l : chars) : Z := zlen (c_string l).

(** [strncmp a b n == 0]. *)
Fixpoint strncmp_eq (a b : chars) (n : nat) : bool :=
  match n with
  | O => true
  | S n =>
      eqc (deref a) (deref b) &&
      (eqc (deref a) NUL || strncmp_eq (tail a) (tail b) n)
  end.

(** [strncasecmp a b n == 0]. *)
Fixpoint strncasecmp_eq (a b : chars) (n : nat) : bool :=
  match n with
  | O => true
  | S n =>
      eqc (tolower (deref a)) (tolower (deref b)) &&
      (eqc (deref a) NUL || strncasecmp_eq (tail a) (tail b) n)
  end.

Definition strcmp_eq (a b : chars) : bool := bool_decide (c_string a = c_string b).

Definition strcasecmp_eq (a b : chars) : bool :=
  bool_decide (map tolower (c_string a) = map tolower (c_string b)).

(** [memchr]: the offset of the first occurrence. *)
Fixpoint memchr (c : ascii) (l : chars) : option nat :=
  match l with
  | [] => None
  | x :: r => if eqc x c then Some O else S <$> memchr c r
  end.

Definition strchr (l : chars) (c : ascii) : option nat := memchr c (c_string l).

Fixpoint starts_with (p l : chars) : bool :=
  match p, l with
  | [], _ => true
  | _, [] => false
  | x :: p, y :: l => eqc x y && starts_with p l
  end.

(** [memmem]: the offset of the first occurrence of a needle. *)
Fixpoint memmem (l p : chars) : option nat :=
  if starts_with p l then Some O
  else match l with [] => None | _ :: r => S <$> memmem r p end.

Definition strstr (l p : chars) : option nat := memmem (c_string l) p.

(** ** Numbers *)

(** The outcome of [strtol] and friends: the value, the characters from
    [endptr] on, whether any digit was converted ([endptr != str]) and
    whether [errno] was set to [ERANGE]. *)
Record strto := Strto { st_val : Z; st_end : chars; st_conv : bool; st_erange : bool }.

Definition read_sign (l : chars) : bool * chars :=
  match l with
  | c :: r => if eqc c "-"%char then (true, r) else if eqc c "+"%char then (false, r) else (false, l)
  | [] => (false, [])
  end.

Fixpoint read_digits (acc : Z) (l : chars) : Z * chars :=
  match l with
  | c :: r => if isdigit c then read_digits (acc * 10 + (code c - 48)) r else (acc, l)
  | [] => (acc, [])
  end.

Definition strto_raw (finish : bool -> Z -> Z * bool) (l : chars) : strto :=
  let '(neg, ds) := read_sign (drop_while isspace l) in
  if isdigit (deref ds) then
    let '(v, rest) := read_digits 0 ds in
    let '(r, e) := finish neg v in Strto r rest true e
  else Strto 0 l false false.

Definition strtol : chars -> strto :=
  strto_raw (fun neg v =>
    let s := if neg then - v else v in
    if s >? LONG_MAX then (LONG_MAX, true)
    else if s <? LONG_MIN then (LONG_MIN, true) else (s, false)).

(** A leading minus sign negates modulo 2^64. *)
Definition strtoul : chars -> strto :=
  strto_raw (fun neg v =>
    if v >? ULONG_MAX then (ULONG_MAX, true)
    else ((if neg then u64 (- v) else v), false)).

Definition atoi (l : chars) : Z := to_int (st_val (strtol l)).

(** [%d], [%zu], [%lu]. *)
Definition print_dec (z : Z) : chars := str (NilZero.string_of_int (Z.to_int z)).

(** ** Floating-point numbers

    A [double] is a rational number, an infinity or NaN.  Finite results are
    exact: rounding, overflow and the sign of NaN are not modelled.  A
    comparison with NaN is false. *)

Inductive double := Finite (q : Q) | Infinity (negative : bool) | NaN.

Definition Qlt_bool (a b : Q) : bool := negb (Qle_bool b a).

Definition double_ltb (a b : double) : bool :=
  match a, b with
  | NaN, _ | _, NaN => false
  | Finite x, Finite y => Qlt_bool x y
  | Infinity n, Infinity m => n && negb m
  | Infinity n, Finite _ => n
  | Finite _, Infinity m => negb m
  end.

Definition double_leb (a b : double) : bool :=
  match a, b with
  | NaN, _ | _, NaN => false
  | Finite x, Finite y => Qle_bool x y
  | Infinity n, Infinity m => n || negb m
  | Infinity n, Finite _ => n
  | Finite _, Infinity m => negb m
  end.

Definition double_add (a b : double) : double :=
  match a, b with
  | NaN, _ | _, NaN => NaN
  | Finite x, Finite y => Finite (x + y)
  | Infinity n, Infinity m => if eqb n m then Infinity n else NaN
  | Infinity n, Finite _ | Finite _, Infinity n => Infinity n
  end.

Definition double_opp (a : double) : double :=
  match a with Finite x => Finite (- x) | Infinity n => Infinity (negb n) | NaN => NaN end.

Definition double_sub (a b : double) : double := double_add a (double_opp b).

Definition double_mul (a b : double) : double :=
  match a, b with
  | NaN, _ | _, NaN => NaN
  | Finite x, Finite y => Finite (x * y)
  | Infinity n, Infinity m => Infinity (xorb n m)
  | Infinity n, Finite x | Finite x, Infinity n =>
      if Qeq_bool x 0 then NaN else Infinity (xorb n (Qlt_bool x 0))
  end.

(** ** Copies into fixed arrays *)

(** [%.nf] of a rational: rounded to nearest, ties to even. *)
Definition print_fixed (n : nat) (q : Q) : chars :=
  let unit_ := 10 ^ Z.of_nat n in
  let num := Z.abs (Qnum q) * unit_ in
  let d := Zpos (Qden q) in
  let r := num / d in
  let twice := 2 * (num mod d) in
  let r := if (twice >? d) || ((twice =? d) && Z.odd r) then r + 1 else r in
  let frac := print_dec (r mod unit_) in
  (if Qnum q <? 0 then str "-" else []) ++
  print_dec (r / unit_) ++ str "." ++ replicate (n - length frac) "0"%char ++ frac.

(** [%.nf] of any [double]. *)
Definition print_double (n : nat) (d : double) : chars :=
  match d with
  | Finite q => print_fixed n q
  | Infinity negative => (if negative then str "-" else []) ++ str "inf"
  | NaN => str "nan"
  end.

(** [snprintf(buf, n, ...)]: the C string left in [buf]. *)
Definition snprintf (n : nat) (s : chars) : chars := take (n - 1) s.

(** [strncpy(dst, src, n)] where [dst\[n\]] is NUL: the C string left in [dst]. *)
Definition strncpy (n : nat) (s : chars) : chars := take n (c_string s).

(** ** Lines of a text file *)

(** [fgets(buf, S n, f)]: at most [n] characters, up to and including a
    newline; the rest of the file is returned. *)
Fixpoint fgets (n : nat) (l : chars) : chars * chars :=
  match n, l with
  | O, _ => ([], l)
  | _, [] => ([], [])
  | S n, c :: r => if eqc c LF then ([c], r) else let '(a, b) := fgets n r in (c :: a, b)
  end.

(** [while (fgets(line, S n, f))]: the successive contents of [line]. *)
Fixpoint fgets_all (fuel n : nat) (l : chars) : list chars :=
  match fuel, l with
  | O, _ | _, [] => []
  | S fuel, _ => let '(a, b) := fgets n l in a :: fgets_all fuel n b
  end.

Definition file_lines (n : nat) (l : chars) : list chars := fgets_all (length l) n l.

(** [trim] of [config.c] and [ip_acl.c], on the C string of a buffer. *)
Definition trim (l : chars) : chars :=
  rev (drop_while isspace (rev (drop_while isspace (c_string l)))).

(** ** Lemmas *)

Lemma take_drop_while P l : take_while P l ++ drop_while P l = l.
Proof. induction l as [|c r IH]; [done|]. simpl. destruct (P c); simpl; congruence. Qed.

Lemma take_while_all P l : forallb P (take_while P l) = true.
Proof. induction l as [|c r IH]; [done|]. simpl. destruct (P c) eqn:E; simpl; by rewrite ?E. Qed.

Lemma take_while_id P l : forallb P l = true -> take_while P l = l.
Proof.
  induction l as [|c r IH]; [done|]. simpl. intros [-> H]%andb_true_iff. f_equal; auto.
Qed.

Lemma drop_while_head P l c r : drop_while P l = c :: r -> P c = false.
Proof.
  induction l as [|x l IH]; [done|]. simpl. destruct (P x) eqn:E; [done|].
  intros H. by simplify_eq.
Qed.

Lemma drop_while_idem P l : drop_while P (drop_while P l) = drop_while P l.
Proof.
  destruct (drop_while P l) as [|c r] eqn:E; [done|]. simpl.
  by rewrite (drop_while_head _ _ _ _ E).
Qed.

Lemma drop_while_length P l : (length (drop_while P l) <= length l)%nat.
Proof. induction l as [|c r IH]; [done|]. simpl. destruct (P c); simpl; lia. Qed.

Lemma no_nul_c_string l : forallb (fun c => negb (eqc c NUL)) l = true -> c_string l = l.
Proof. apply take_while_id. Qed.

Lemma c_string_idem l : c_string (c_string l) = c_string l.
Proof. apply take_while_id, take_while_all. Qed.

Lemma starts_with_app p l : starts_with p l = true <-> exists k, l = p ++ k.
Proof.
  revert l. induction p as [|x p IH]; intros [|y l]; simpl.
  - split; eauto.
  - split; eauto.
  - split; [done|]. intros [k ?]. done.
  - rewrite andb_true_iff, eqc_eq, IH. split.
    + intros [-> [k ->]]. eauto.
    + intros [k [= -> ->]]. eauto.
Qed.

Lemma starts_with_take p l : starts_with p l = bool_decide (take (length p) l = p).
Proof.
  apply eq_true_iff_eq. rewrite bool_decide_eq_true, starts_with_app. split.
  - intros [k ->]. by rewrite take_app_length.
  - intros H. exists (drop (length p) l). by rewrite <- H at 1; rewrite take_drop.
Qed.

(** A comparison against a NUL-free literal, over the literal's length,
    is a prefix test. *)
Lemma strncmp_literal l p :
  forallb (fun c => negb (eqc c NUL)) p = true ->
  strncmp_eq l p (length p) = starts_with p l.
Proof.
  revert l. induction p as [|x p IH]; intros l; [done|].
  simpl. intros [Hx Hp]%andb_true_iff. apply negb_true_iff in Hx.
  destruct l as [|y l]; simpl.
  - destruct (eqc NUL x) eqn:E; [|done]. apply eqc_eq in E. subst. by rewrite eqc_refl in Hx.
  - rewrite (IH l Hp). destruct (eqc y x) eqn:E; simpl.
    + apply eqc_eq in E. subst. by rewrite Hx, eqc_refl.
    + destruct (eqc x y) eqn:F; [|done]. apply eqc_eq in F. subst. by rewrite eqc_refl in E.
Qed.

Lemma memchr_Some c l i :
  memchr c l = Some i <->
  exists a b, l = a ++ c :: b /\ length a = i /\ forallb (fun x => negb (eqc x c)) a = true.
Proof.
  revert i. induction l as [|x l IH]; intros i; simpl.
  - split; [done|]. intros ([|] & b & H & _); done.
  - destruct (eqc x c) eqn:E.
    + apply eqc_eq in E. subst x. split.
      * intros [= <-]. by exists [], l.
      * intros ([|y a] & b & H & Hl & Ha); simplify_eq/=; [done|].
        by rewrite eqc_refl in Ha.
    + rewrite fmap_Some. split.
      * intros (j & (a & b & -> & <- & Ha)%IH & ->). exists (x :: a), b.
        simpl. by rewrite E, Ha.
      * intros ([|y a] & b & H & Hl & Ha); simplify_eq/=; [by rewrite eqc_refl in E|].
        apply andb_true_iff in Ha as [_ Ha]. exists (length a). split; [|done].
        apply IH. eauto.
Qed.

Lemma memchr_None c l : memchr c l = None <-> forallb (fun x => negb (eqc x c)) l = true.
Proof.
  induction l as [|x l IH]; simpl; [done|].
  destruct (eqc x c); simpl; [done|]. rewrite fmap_None. done.
Qed.

Lemma memmem_Some_inv l p i : memmem l p = Some i -> starts_with p (drop i l) = true.
Proof.
  revert i. induction l as [|x l IH]; intros i; cbn [memmem].
  - destruct (starts_with p []) eqn:E; [|done]. by intros [= <-].
  - destruct (starts_with p (x :: l)) eqn:E.
    + by intros [= <-].
    + rewrite fmap_Some. intros (j & ? & ->). simpl. auto.
Qed.

Lemma memmem_bound l p i : memmem l p = Some i -> (i + length p <= length l)%nat.
Proof.
  revert i. induction l as [|x l IH]; intros i; cbn [memmem].
  - destruct p; simpl; [|done]. intros [= <-]. simpl. lia.
  - destruct (starts_with p (x :: l)) eqn:E.
    + intros [= <-]. apply starts_with_app in E as [k E]. apply (f_equal length) in E.
      rewrite length_app in E. simpl in *. lia.
    + rewrite fmap_Some. intros (j & ?%IH & ->). simpl. lia.
Qed.

Lemma memmem_None l p : memmem l p = None <-> forall a b, l <> a ++ p ++ b.
Proof.
  split.
  - intros H a b ->. induction a as [|x a IH]; cbn [app memmem] in H.
    + assert (starts_with p (p ++ b) = true) as E by (apply starts_with_app; eauto).
      destruct (p ++ b); cbn [memmem] in H; rewrite E in H; done.
    + destruct (starts_with _ _); [done|]. apply fmap_None in H. auto.
  - intros H. destruct (memmem l p) as [i|] eqn:E; [|done]. exfalso.
    pose proof (memmem_Some_inv _ _ _ E) as [k Hk]%starts_with_app.
    apply (H (take i l) k). by rewrite <- Hk, take_drop.
Qed.

Lemma memmem_skip p k : forall l,
  (forall j, (j < k)%nat -> starts_with p (drop j l) = false) -> (k <= length l)%nat ->
  memmem l p = (fun i => (k + i)%nat) <$> memmem (drop k l) p.
Proof.
  induction k as [|k IH]; intros l Hn Hk.
  - rewrite drop_0. by destruct (memmem l p).
  - destruct l as [|x l]; simpl in Hk; [lia|]. pose proof (Hn O ltac:(lia)) as H0.
    rewrite drop_0 in H0. cbn [memmem drop]. rewrite H0, (IH l); [|intros j Hj; apply (Hn (S j)); lia|lia].
    by destruct (memmem (drop k l) p).
Qed.

Lemma memchr_first (c : ascii) (a rest : chars) :
  forallb (fun x => negb (eqc x c)) a = true -> memchr c (a ++ [c] ++ rest) = Some (length a).
Proof.
  induction a as [|x a IH]; simpl; [by rewrite eqc_refl|].
  intros [Hx Ha]%andb_true_iff. apply negb_true_iff in Hx. rewrite Hx. simpl in IH. by rewrite IH.
Qed.

(** ** Decimal numbers *)

Lemma uint_digits d : forallb isdigit (str (NilEmpty.string_of_uint d)) = true.
Proof. induction d; simpl; try done; by rewrite IHd. Qed.

(** A printed number is made of digits and perhaps a sign. *)
Lemma print_dec_chars z : forallb (fun c => isdigit c || eqc c "-"%char) (print_dec z) = true.
Proof.
  assert (forall l, forallb isdigit l = true -> forallb (fun c => isdigit c || eqc c "-"%char) l = true) as Hw.
  { intros l. rewrite !forallb_forall. intros H x Hx. by rewrite (H x Hx). }
  assert (forall d, forallb isdigit (str (NilZero.string_of_uint d)) = true) as Hd
    by (intros [| | | | | | | | | |]; [done|apply uint_digits..]).
  unfold print_dec, NilZero.string_of_int. destruct (Z.to_int z); [apply Hw, Hd|]. apply (Hw _ (Hd _)).
Qed.

Lemma uint_length d : length (str (NilEmpty.string_of_uint d)) = Decimal.nb_digits d.
Proof. induction d; simpl; auto. Qed.

Lemma of_uint_acc_lower d acc :
  Z.pos acc * 10 ^ Z.of_nat (Decimal.nb_digits d) <= Z.pos (Pos.of_uint_acc d acc).
Proof.
  revert acc. induction d; intros acc; cbn [Decimal.nb_digits Pos.of_uint_acc]; [simpl; lia|..];
    rewrite Nat2Z.inj_succ, Z.pow_succ_r by lia; (etrans; [|apply IHd]);
    pose proof (Z.pow_nonneg 10 (Z.of_nat (Decimal.nb_digits d))); nia.
Qed.

(** A positive number is printed without a leading zero. *)
Lemma to_uint_lead p d : Pos.to_uint p <> Decimal.D0 d.
Proof.
  intros E. pose proof (DecimalPos.Unsigned.to_of (Pos.to_uint p)) as H.
  rewrite DecimalPos.Unsigned.of_to in H. simpl in H. rewrite E in H.
  destruct d as [|d|d|d|d|d|d|d|d|d|d];
    [pose proof (DecimalPos.Unsigned.of_to p) as H1; rewrite E in H1; done|..];
    apply (f_equal Decimal.nb_digits) in H; revert H; cbn [Decimal.unorm];
    change (Decimal.unorm (Decimal.D0 (Decimal.D0 d))) with (Decimal.unorm (Decimal.D0 d));
    try match goal with
    | |- _ = Decimal.nb_digits (Decimal.unorm ?x) -> _ =>
        pose proof (nb_digits_unorm x ltac:(discriminate)) as Hn
    end; cbn [Decimal.nb_digits Decimal.unorm Decimal.nzhead] in *; lia.
Qed.

(** A number below [10 ^ n] is printed with at most [n] digits. *)
Lemma print_dec_digits n z : 0 <= z < 10 ^ Z.of_nat n -> (0 < n)%nat -> (length (print_dec z) <= n)%nat.
Proof.
  intros Hz Hn. unfold print_dec. destruct z as [|p|p]; [simpl; lia| |lia].
  assert (Decimal.nb_digits (Pos.to_uint p) <= n)%nat as Hd.
  { pose proof (DecimalPos.Unsigned.of_to p) as Hp.
    assert (forall d acc, Pos.of_uint_acc d acc = p -> (S (Decimal.nb_digits d) <= n)%nat) as Hs.
    { intros d acc <-. pose proof (of_uint_acc_lower d acc) as Hl.
      assert (10 ^ Z.of_nat (Decimal.nb_digits d) < 10 ^ Z.of_nat n) as Hlt by nia.
      apply Z.pow_lt_mono_r_iff in Hlt; lia. }
    pose proof (to_uint_lead p) as Hl.
    destruct (Pos.to_uint p) as [|d|d|d|d|d|d|d|d|d|d]; cbn [Pos.of_uint] in Hp; try discriminate;
      [by destruct (Hl d)|injection Hp as Hp; cbn [Decimal.nb_digits]; eauto..]. }
  simpl Z.to_int. unfold NilZero.string_of_int, NilZero.string_of_uint.
  destruct (Pos.to_uint p) eqn:E; [simpl; lia|rewrite uint_length; exact Hd..].
Qed.

Lemma print_dec_neg p : print_dec (Z.neg p) = "-"%char :: print_dec (Z.pos p).
Proof. done. Qed.

(** Below [2 ^ n] in particular. *)
Lemma print_dec_length n z : 0 <= z < 2 ^ Z.of_nat n -> (0 < n)%nat -> (length (print_dec z) <= n)%nat.
Proof.
  intros Hz Hn. apply print_dec_digits; [|done]. split; [lia|].
  assert (2 ^ Z.of_nat n <= 10 ^ Z.of_nat n) by (apply Z.pow_le_mono_l; lia). lia.
Qed.

Lemma print_fixed_length n q :
  (0 < n)%nat -> Z.abs (Qnum q) < 10 ^ 20 * Zpos (Qden q) -> (length (print_fixed n q) <= 23 + n)%nat.
Proof.
  intros Hn Hq. unfold print_fixed. cbv zeta.
  set (u := 10 ^ Z.of_nat n). set (d := Z.pos (Qden q)) in *. set (m := Z.abs (Qnum q) * u).
  match goal with |- context [print_dec (?x / u)] => set (r := x) end.
  assert (0 < u) as Hu by (apply Z.pow_pos_nonneg; lia).
  assert (0 <= m / d < 10 ^ 20 * u) as Hm.
  { split; [apply Z.div_pos; nia|]. apply Z.div_lt_upper_bound; nia. }
  assert (0 <= r <= 10 ^ 20 * u) as Hr by (unfold r; case_match; lia).
  assert (0 <= r / u < 10 ^ 21) as Hi.
  { split; [apply Z.div_pos; lia|]. apply Z.div_lt_upper_bound; nia. }
  pose proof (Z.mod_pos_bound r u Hu) as Hf.
  pose proof (print_dec_digits 21 (r / u) Hi ltac:(lia)) as H1.
  pose proof (print_dec_digits n (r mod u) Hf Hn) as H2.
  rewrite !length_app, length_replicate. case_match; simpl; lia.
Qed.

Lemma fgets_app n l : fst (fgets n l) ++ snd (fgets n l) = l.
Proof.
  revert l. induction n as [|n IH]; intros [|c r]; simpl; try done.
  destruct (eqc c LF); [done|]. specialize (IH r). destruct (fgets n r). simpl in *. congruence.
Qed.

Lemma fgets_bound n l : (length (fst (fgets n l)) <= n)%nat.
Proof.
  revert l. induction n as [|n IH]; intros [|c r]; simpl; try lia.
  destruct (eqc c LF); simpl; [lia|]. specialize (IH r). destruct (fgets n r). simpl in *. lia.
Qed.

Lemma fgets_progress n c r : (length (snd (fgets (S n) (c :: r))) <= length r)%nat.
Proof.
  simpl. destruct (eqc c LF); [done|]. pose proof (fgets_app n r) as H.
  destruct (fgets n r) as [a b]. simpl in *. apply (f_equal length) in H.
  rewrite length_app in H. lia.
Qed.

Lemma fgets_all_app fuel n l :
  (length l <= fuel)%nat -> concat (fgets_all fuel (S n) l) = l.
Proof.
  revert l. induction fuel as [|fuel IH]; intros [|c r] H; try done; [simpl in H; lia|].
  cbn [fgets_all]. pose proof (fgets_app (S n) (c :: r)) as E.
  pose proof (fgets_progress n c r) as P.
  destruct (fgets (S n) (c :: r)) as [a b]. cbn [fst snd concat] in *.
  rewrite IH; [done|]. simpl in H. lia.
Qed.

(** The lines read are the whole file, cut into pieces that fit the buffer. *)
Lemma file_lines_concat n l : concat (file_lines (S n) l) = l.
Proof. by apply fgets_all_app. Qed.

Lemma file_lines_bound n l a : In a (file_lines n l) -> (length a <= n)%nat.
Proof.
  unfold file_lines. generalize (length l) as fuel. intros fuel. revert l.
  induction fuel as [|fuel IH]; intros [|c r]; simpl; try done.
  pose proof (fgets_bound n (c :: r)). destruct (fgets n (c :: r)) as [x y]. simpl in *.
  intros [<-|?]; eauto.
Qed.

Lemma drop_while_nil P l : drop_while P l = [] -> forallb P l = true.
Proof.
  intros H. rewrite <- (take_drop_while P l), H, app_nil_r. apply take_while_all.
Qed.

Lemma trim_length l : (length (trim l) <= length (c_string l))%nat.
Proof.
  unfold trim. rewrite length_rev.
  etrans; [apply drop_while_length|]. rewrite length_rev. apply drop_while_length.
Qed.

Lemma read_digits_app acc ds l :
  forallb isdigit ds = true -> isdigit (deref l) = false ->
  read_digits acc (ds ++ l) = (fst (read_digits acc ds), l).
Proof.
  revert acc. induction ds as [|d ds IH]; intros acc; simpl.
  - intros _. destruct l as [|c l]; simpl; [done|]. by intros ->.
  - intros [-> H]%andb_true_iff. auto.
Qed.

Lemma read_digits_mono acc l : 0 <= acc -> acc <= fst (read_digits acc l).
Proof.
  revert acc. induction l as [|c l IH]; intros acc Hacc; simpl; [lia|].
  destruct (isdigit c) eqn:E; [|simpl; lia].
  unfold isdigit, between in E. b2p. etrans; [|apply IH]; lia.
Qed.

Lemma strtoul_range l : 0 <= st_val (strtoul l) <= ULONG_MAX.
Proof.
  unfold strtoul, strto_raw, ULONG_MAX. destruct (read_sign _) as [neg ds].
  destruct (isdigit _); [|simpl; lia].
  pose proof (read_digits_mono 0 ds ltac:(lia)) as H.
  destruct (read_digits 0 ds) as [v rest]. simpl in *.
  destruct (v >? _) eqn:E; b2p; simpl; [lia|].
  destruct neg; [|lia]. unfold u64. pose proof (wrap_range 64 (- v)). lia.
Qed.

Lemma strtol_range l : LONG_MIN <= st_val (strtol l) <= LONG_MAX.
Proof.
  unfold strtol, strto_raw, LONG_MIN, LONG_MAX. destruct (read_sign _) as [neg ds].
  destruct (isdigit _); [|simpl; lia]. destruct (read_digits 0 ds) as [v rest].
  branches; lia.
Qed.

#[export] Hint Resolve strtoul_range strtol_range : relay.
