(* ===== verification/Log.v ===== *)
(** * Logging ([src/log.c], [include/log.h])

    The logger's global variables are the record [LogState]; a function that
    prints returns the text it adds to [stderr].  The broken-down local time
    and whether [stderr] is a terminal are arguments.  Messages are taken
    after their format has been expanded. *)
From Stdlib Require Import ZArith QArith Lia Ascii String.
From stdpp Require Import base list numbers strings.
From S2P Require Import Prelude CLib.

#[local] Open Scope Z_scope.

Inductive LogLevel := LOG_DEBUG | LOG_INFO | LOG_WARN | LOG_ERROR.

Definition level_num (l : LogLevel) : Z :=
  match l with LOG_DEBUG => 0 | LOG_INFO => 1 | LOG_WARN => 2 | LOG_ERROR => 3 end.

Record LogState := mkLog {
  g_log_level : LogLevel;
  g_identity : chars;
  g_json_mode : bool;
  g_verbose : bool
}.

#[export] Instance eta_LogState : Eta LogState := fun r =>
  mkLog (g_log_level r) (g_identity r) (g_json_mode r) (g_verbose r).

(** The initial values of the variables. *)
Definition log_start : LogState := mkLog LOG_INFO (str "main") false false.

Definition level_names (l : LogLevel) : chars :=
  match l with
  | LOG_DEBUG => str "DEBUG" | LOG_INFO => str "INFO" | LOG_WARN => str "WARN" | LOG_ERROR => str "ERROR"
  end.

Definition ESC : ascii := chr 27.

Definition level_colors (l : LogLevel) : chars :=
  ESC :: match l with
         | LOG_DEBUG => str "[36m" | LOG_INFO => str "[32m" | LOG_WARN => str "[33m" | LOG_ERROR => str "[31m"
         end.

Definition color_reset : chars := ESC :: str "[0m".

(** ** Settings *)

Definition log_init (level : LogLevel) (g : LogState) : LogState := g <| g_log_level := level |>.
Definition log_set_level (level : LogLevel) (g : LogState) : LogState := g <| g_log_level := level |>.

(** [strncpy] into 32 bytes, with the last one cleared. *)
Definition log_set_identity (identity : chars) (g : LogState) : LogState :=
  g <| g_identity := strncpy 31 identity |>.

Definition log_set_json_mode (json_mode : Z) (g : LogState) : LogState :=
  g <| g_json_mode := negb (json_mode =? 0) |>.

Definition log_set_verbose (verbose : Z) (g : LogState) : LogState :=
  let g := g <| g_verbose := negb (verbose =? 0) |> in
  if negb (verbose =? 0) then g <| g_log_level := LOG_DEBUG |> else g <| g_log_level := LOG_INFO |>.

Definition log_is_verbose (g : LogState) : bool := g_verbose g.

(** [None] is a null pointer. *)
Definition log_format_ip (g : LogState) (ip : option chars) : chars :=
  match ip with
  | None => str "client"
  | Some ip =>
      if eqc (deref ip) NUL then str "client" else
      if g_verbose g then ip else str "client"
  end.

(** ** Numbers and times *)

(** [%0nd] of a non-negative number, and [%-ns]. *)
Definition print_pad (n : nat) (z : Z) : chars :=
  let d := print_dec z in replicate (n - length d) "0"%char ++ d.
Definition pad_right (n : nat) (s : chars) : chars := s ++ replicate (n - length s) SP.

(** [struct tm] and the microseconds; [tm_z] is what [%z] prints. *)
Record Tm := mkTm {
  tm_year : Z; tm_mon : nat; tm_mday : Z; tm_hour : Z; tm_min : Z; tm_sec : Z; tm_z : chars; tv_usec : Z
}.

Definition months : list string :=
  ["Jan"; "Feb"; "Mar"; "Apr"; "May"; "Jun"; "Jul"; "Aug"; "Sep"; "Oct"; "Nov"; "Dec"]%string.

Definition time_of_day (t : Tm) : chars :=
  print_pad 2 (tm_hour t) ++ str ":" ++ print_pad 2 (tm_min t) ++ str ":" ++ print_pad 2 (tm_sec t).

(** The three [strftime] formats; [sep] is the T or the blank. *)
Definition iso_time (sep : chars) (t : Tm) : chars :=
  print_dec (1900 + tm_year t) ++ str "-" ++ print_pad 2 (Z.of_nat (S (tm_mon t))) ++ str "-" ++
  print_pad 2 (tm_mday t) ++ sep ++ time_of_day t.
Definition clf_time (t : Tm) : chars :=
  print_pad 2 (tm_mday t) ++ str "/" ++ str (default ""%string (months !! tm_mon t)) ++ str "/" ++
  print_dec (1900 + tm_year t) ++ str ":" ++ time_of_day t ++ str " " ++ tm_z t.

(** ** JSON strings *)

Definition hex_digit (d : Z) : ascii := if d <? 10 then chr (48 + d) else chr (87 + d).

(** One round of the loop of [json_escape_string]. *)
Definition json_escape_char (c : ascii) : chars :=
  if eqc c DQ then [BSL; DQ] else
  if eqc c BSL then [BSL; BSL] else
  if eqc c LF then [BSL; "n"%char] else
  if eqc c CR then [BSL; "r"%char] else
  if eqc c TAB then [BSL; "t"%char] else
  if code c <? 32
  then [BSL; "u"%char; "0"%char; "0"%char; hex_digit (code c / 16); hex_digit (code c mod 16)]
  else [c].

Definition json_escape_string (s : chars) : chars := flat_map json_escape_char s.

Definition json_key (k : string) : chars := [DQ] ++ str k ++ [DQ] ++ str ":".
Definition json_text (s : chars) : chars := [DQ] ++ s ++ [DQ].

(** ** Messages *)

Definition json_timestamp (t : Tm) : chars :=
  json_key "timestamp" ++ json_text (iso_time (str "T") t ++ str "." ++ print_pad 6 (tv_usec t) ++ str "Z").

Definition log_prefix (g : LogState) (t : Tm) (level : LogLevel) : chars :=
  str "{" ++ json_timestamp t ++ str "," ++
  json_key "level" ++ json_text (level_names level) ++ str "," ++
  json_key "worker" ++ json_text (g_identity g) ++ str "," ++ json_key "message" ++ [DQ].

Definition log_write (g : LogState) (t : Tm) (tty : bool) (level : LogLevel) (msg : chars) : chars :=
  if level_num level <? level_num (g_log_level g) then [] else
  if g_json_mode g then
    let message := snprintf 1024 msg in
    log_prefix g t level ++ json_escape_string (c_string message) ++ [DQ] ++ str "}" ++ [LF]
  else
    let ts_display := iso_time (str " ") t in
    (if tty
     then color_reset ++ str "[" ++ ts_display ++ str "] " ++ level_colors level ++ str "[" ++
          pad_right 5 (level_names level) ++ str "]" ++ color_reset ++ str " [" ++ g_identity g ++ str "] "
     else str "[" ++ ts_display ++ str "] [" ++ pad_right 5 (level_names level) ++ str "] [" ++
          g_identity g ++ str "] ") ++
    msg ++ [LF].

Definition log_debug (g : LogState) (t : Tm) (tty : bool) (msg : chars) : chars := log_write g t tty LOG_DEBUG msg.
Definition log_info (g : LogState) (t : Tm) (tty : bool) (msg : chars) : chars := log_write g t tty LOG_INFO msg.
Definition log_warn (g : LogState) (t : Tm) (tty : bool) (msg : chars) : chars := log_write g t tty LOG_WARN msg.
Definition log_error (g : LogState) (t : Tm) (tty : bool) (msg : chars) : chars := log_write g t tty LOG_ERROR msg.

(** ** The access log *)

Definition log_access (g : LogState) (t : Tm) (client_ip method path : chars) (status bytes_sent : Z)
    (duration_ms : Q) (request_id : chars) : chars :=
  if negb (g_verbose g) then [] else
  if g_json_mode g then
    str "{" ++ json_timestamp t ++ str "," ++ json_key "type" ++ json_text (str "access") ++ str "," ++
    json_key "client_ip" ++ json_text (c_string client_ip) ++ str "," ++
    json_key "method" ++ json_text (c_string method) ++ str "," ++
    json_key "path" ++ [DQ] ++ json_escape_string (c_string path) ++ [DQ] ++ str "," ++
    json_key "status" ++ print_dec status ++ str "," ++
    json_key "bytes" ++ print_dec bytes_sent ++ str "," ++
    json_key "duration_ms" ++ print_fixed 3 duration_ms ++ str "," ++
    json_key "request_id" ++ json_text (c_string request_id) ++ str "," ++
    json_key "worker" ++ json_text (g_identity g) ++ str "}" ++ [LF]
  else
    c_string client_ip ++ str " - - [" ++ clf_time t ++ str "] " ++ [DQ] ++ c_string method ++ str " " ++ c_string path ++
    str " HTTP/1.1" ++ [DQ] ++ str " " ++ print_dec status ++ str " " ++ print_dec bytes_sent ++ str " " ++
    print_fixed 3 duration_ms ++ str "ms " ++ c_string request_id ++ [LF].

(** In text mode the path is printed as it is. *)
Lemma log_access_text g t client_ip method status bytes_sent duration_ms request_id :
  g_verbose g = true -> g_json_mode g = false ->
  exists before after, forall path,
    log_access g t client_ip method path status bytes_sent duration_ms request_id =
    before ++ c_string path ++ str " HTTP/1.1" ++ after.
Proof.
  intros Hv Hj.
  exists (c_string client_ip ++ str " - - [" ++ clf_time t ++ str "] " ++ [DQ] ++ c_string method ++ str " "),
    ([DQ] ++ str " " ++ print_dec status ++ str " " ++ print_dec bytes_sent ++ str " " ++
     print_fixed 3 duration_ms ++ str "ms " ++ c_string request_id ++ [LF]).
  intros path. unfold log_access. rewrite Hv, Hj. by rewrite <- !app_assoc.
Qed.

(** ** Reading a JSON string *)

Definition json_hex (c : ascii) : option Z :=
  if between 48 57 c then Some (code c - 48) else
  if between 97 102 c then Some (code c - 87) else
  if between 65 70 c then Some (code c - 55) else None.

Definition json_escaped (c : ascii) : option ascii :=
  if eqc c DQ then Some DQ else if eqc c BSL then Some BSL else
  if eqc c "/"%char then Some "/"%char else
  if eqc c "n"%char then Some LF else if eqc c "r"%char then Some CR else
  if eqc c "t"%char then Some TAB else
  if eqc c "b"%char then Some (chr 8) else if eqc c "f"%char then Some (chr 12) else None.

(** The characters of a JSON string literal after its opening quote, up to
    its closing quote, and what follows: as RFC 8259 has it, for code points
    of one byte. *)
Fixpoint json_read (s : chars) : option (chars * chars) :=
  match s with
  | [] => None
  | c :: r =>
      if eqc c DQ then Some ([], r) else
      if eqc c BSL then
        match r with
        | e :: r =>
            if eqc e "u"%char then
              match r with
              | a :: b :: h :: l :: r =>
                  match json_hex a, json_hex b, json_hex h, json_hex l with
                  | Some 0, Some 0, Some h, Some l =>
                      '(v, rest) ← json_read r; Some (chr (16 * h + l) :: v, rest)
                  | _, _, _, _ => None
                  end
              | _ => None
              end
            else match json_escaped e with
                 | Some x => '(v, rest) ← json_read r; Some (x :: v, rest)
                 | None => None
                 end
        | [] => None
        end
      else if code c <? 32 then None
      else '(v, rest) ← json_read r; Some (c :: v, rest)
  end.

Lemma json_read_char c r :
  json_read (json_escape_char c ++ r) = ('(v, rest) ← json_read r; Some (c :: v, rest)).
Proof. destruct c as [[] [] [] [] [] [] [] []]; reflexivity. Qed.

Lemma json_read_escape s rest : json_read (json_escape_string s ++ DQ :: rest) = Some (s, rest).
Proof.
  induction s as [|c s IH]; [reflexivity|]. unfold json_escape_string in *. cbn [flat_map].
  by rewrite <- app_assoc, json_read_char, IH.
Qed.

(** An escaped string has no control characters, so no line breaks. *)
Definition printable (c : ascii) : bool := 32 <=? code c.

Lemma json_escape_printable s : forallb printable (json_escape_string s) = true.
Proof.
  induction s as [|c s IH]; [done|]. unfold json_escape_string in *. cbn [flat_map].
  rewrite forallb_app, IH, andb_true_r. revert c. apply char_exhaust. vm_compute. reflexivity.
Qed.

Lemma digits_printable l :
  forallb (fun c => isdigit c || eqc c "-"%char) l = true -> forallb printable l = true.
Proof.
  assert (forall c, (negb (isdigit c || eqc c "-"%char) || printable c) = true) as Hc
    by (apply char_exhaust; vm_compute; reflexivity).
  rewrite !forallb_forall. intros H x Hx. specialize (H x Hx). specialize (Hc x). rewrite H in Hc. exact Hc.
Qed.

Lemma print_dec_printable z : forallb printable (print_dec z) = true.
Proof. apply digits_printable, print_dec_chars. Qed.

Lemma print_pad_printable n z : forallb printable (print_pad n z) = true.
Proof.
  unfold print_pad. rewrite forallb_app, print_dec_printable, andb_true_r.
  induction (n - length (print_dec z))%nat; [done|]. simpl. rewrite IHn0. reflexivity.
Qed.

Create Rewrite HintDb printable.
#[export] Hint Rewrite @forallb_app print_dec_printable print_pad_printable json_escape_printable : printable.

Lemma json_timestamp_printable t : forallb printable (json_timestamp t) = true.
Proof.
  unfold json_timestamp, json_key, json_text, iso_time, time_of_day. autorewrite with printable. reflexivity.
Qed.

Lemma log_prefix_printable g t level :
  forallb printable (g_identity g) = true -> forallb printable (log_prefix g t level) = true.
Proof.
  intros Hi. unfold log_prefix. autorewrite with printable. rewrite json_timestamp_printable.
  unfold json_key, json_text. rewrite !forallb_app, Hi. by destruct level.
Qed.

(** C22: A JSON log record is one line that gives the message back.  Whatever bytes a message
    contains, line breaks, quotes and control characters included, the record that
    [log_write] prints is a single line, and reading the "message" member as a JSON string
    yields exactly the message (its first 1023 bytes), followed by the end of the record: a
    message can neither break out of its string nor start another record. *)
Theorem log_record_roundtrip (g : LogState) (t : Tm) (tty : bool) (level : LogLevel) (msg : chars) :
  g_json_mode g = true -> level_num (g_log_level g) <= level_num level ->
  forallb printable (g_identity g) = true ->
  let record := log_write g t tty level msg in
  json_read (drop (length (log_prefix g t level)) record) =
    Some (c_string (take 1023 msg), str "}" ++ [LF]) /\
  exists body, record = body ++ [LF] /\ forallb printable body = true.
Proof.
  intros Hj Hl Hi record. assert (record = log_prefix g t level ++
    json_escape_string (c_string (take 1023 msg)) ++ [DQ] ++ str "}" ++ [LF]) as E.
  { unfold record, log_write. rewrite (proj2 (Z.ltb_ge _ _)) by lia. by rewrite Hj. }
  rewrite E. split.
  - rewrite drop_app_length. apply json_read_escape.
  - exists (log_prefix g t level ++ json_escape_string (c_string (take 1023 msg)) ++ [DQ] ++ str "}").
    split; [by rewrite <- !app_assoc|].
    rewrite !forallb_app, json_escape_printable, log_prefix_printable by done. reflexivity.
Qed.

Lemma log_record_roundtrip_witness :
  let g := log_set_json_mode 1 log_start in
  let t := mkTm 124 0 1 0 0 0 (str "+0000") 0 in
  let msg := str "path " ++ [DQ; LF] ++ str "{evil" in
  json_read (drop (length (log_prefix g t LOG_WARN)) (log_write g t false LOG_WARN msg)) =
    Some (msg, str "}" ++ [LF]).
Proof.
  intros g t msg. destruct (log_record_roundtrip g t false LOG_WARN msg eq_refl) as [H _];
    [vm_compute; discriminate|reflexivity|exact H].
Defined.
