(* ===== verification/Hex.v ===== *)
(** * Hex validation ([src/hex.c], [include/hex.h])

    The 256-entry lookup table, the inline per-character test and the
    whole-string loop, with the proof that the table is the three range
    comparisons it replaces. *)
From Stdlib Require Import ZArith Lia Ascii String.
From stdpp Require Import base list numbers strings.
From S2P Require Import Prelude CLib.

#[local] Open Scope Z_scope.

Definition hex_char_valid : list Z :=
  [ 0; 0; 0; 0; 0; 0; 0; 0; 0; 0; 0; 0; 0; 0; 0; 0;
    0; 0; 0; 0; 0; 0; 0; 0; 0; 0; 0; 0; 0; 0; 0; 0;
    0; 0; 0; 0; 0; 0; 0; 0; 0; 0; 0; 0; 0; 0; 0; 0;
    1; 1; 1; 1; 1; 1; 1; 1; 1; 1; 0; 0; 0; 0; 0; 0;
    0; 1; 1; 1; 1; 1; 1; 0; 0; 0; 0; 0; 0; 0; 0; 0;
    0; 0; 0; 0; 0; 0; 0; 0; 0; 0; 0; 0; 0; 0; 0; 0;
    0; 1; 1; 1; 1; 1; 1; 0; 0; 0; 0; 0; 0; 0; 0; 0;
    0; 0; 0; 0; 0; 0; 0; 0; 0; 0; 0; 0; 0; 0; 0; 0;
    0; 0; 0; 0; 0; 0; 0; 0; 0; 0; 0; 0; 0; 0; 0; 0;
    0; 0; 0; 0; 0; 0; 0; 0; 0; 0; 0; 0; 0; 0; 0; 0;
    0; 0; 0; 0; 0; 0; 0; 0; 0; 0; 0; 0; 0; 0; 0; 0;
    0; 0; 0; 0; 0; 0; 0; 0; 0; 0; 0; 0; 0; 0; 0; 0;
    0; 0; 0; 0; 0; 0; 0; 0; 0; 0; 0; 0; 0; 0; 0; 0;
    0; 0; 0; 0; 0; 0; 0; 0; 0; 0; 0; 0; 0; 0; 0; 0;
    0; 0; 0; 0; 0; 0; 0; 0; 0; 0; 0; 0; 0; 0; 0; 0;
    0; 0; 0; 0; 0; 0; 0; 0; 0; 0; 0; 0; 0; 0; 0; 0 ].

Definition is_hex_char (c : ascii) : bool :=
  negb (nth (Z.to_nat (code c)) hex_char_valid 0 =? 0).

Fixpoint is_all_hex (data : chars) : bool :=
  match data with
  | [] => true
  | c :: rest => if negb (is_hex_char c) then false else is_all_hex rest
  end.

(** The three range comparisons the table stands for. *)
Definition hex_digit (c : ascii) : bool :=
  between 48 57 c || between 65 70 c || between 97 102 c.

#[global] Arguments is_hex_char : simpl never.

Lemma is_hex_char_ranges c : is_hex_char c = hex_digit c.
Proof.
  apply eqb_prop.
  apply (char_exhaust (fun c => Bool.eqb (is_hex_char c) (hex_digit c))). by vm_compute.
Qed.

Lemma is_all_hex_forallb l : is_all_hex l = forallb is_hex_char l.
Proof. induction l as [|c l IH]; [done|]. simpl. rewrite IH. by destruct (is_hex_char c). Qed.

Lemma is_all_hex_app l k : is_all_hex (l ++ k) = is_all_hex l && is_all_hex k.
Proof. rewrite !is_all_hex_forallb. apply forallb_app. Qed.

(** A hex string contains no character outside the three ranges. *)
Lemma is_all_hex_not_in c l : is_hex_char c = false -> is_all_hex l = true -> c ∉ l.
Proof.
  intros Hc Hl Hin. rewrite is_all_hex_forallb, forallb_forall in Hl.
  apply list_elem_of_In, Hl in Hin. congruence.
Qed.

(** The table-driven validator accepts exactly the strings all of whose
    characters lie in 0-9, A-F or a-f: one table lookup per character is
    equivalent to the three range comparisons it replaced. *)
Theorem hex_table_equiv :
  forall l : chars, is_all_hex l = forallb hex_digit l.
Proof.
  intros l. rewrite is_all_hex_forallb. induction l as [|c l IH]; [done|].
  simpl. by rewrite IH, is_hex_char_ranges.
Qed.
