(* ===== verification/Router.v ===== *)
(** * Request routing and path validation

    [route_request] of [src/router.c], [validate_hex_path] of
    [src/endpoints.c] (HTTP/2) and [validate_path_early] of
    [src/connection.c] (HTTP/1.1).  The router is shown to implement a
    grammar of paths, and the two validators are compared with it and
    with each other. *)
From Stdlib Require Import ZArith Lia Ascii String.
From stdpp Require Import base list numbers strings.
From S2P Require Import Prelude CLib Hex.

#[local] Open Scope Z_scope.

Inductive RouteType :=
  | ROUTE_HOME | ROUTE_BROADCAST | ROUTE_RESULT | ROUTE_ERROR
  | ROUTE_DOCS | ROUTE_STATUS | ROUTE_LOGOS
  | ROUTE_HEALTH | ROUTE_READY | ROUTE_ALIVE | ROUTE_METRICS
  | ROUTE_VERSION | ROUTE_ACME_CHALLENGE.

#[export] Instance RouteType_eq_dec : EqDecision RouteType.
Proof. solve_decision. Defined.

Definition MIN_TX_HEX_LENGTH : Z := 164.
Definition TXID_HEX_LENGTH : Z := 64.

(** [path] is the buffer of exactly [path_len] bytes the parser filled. *)
Definition route_request (path : chars) : RouteType :=
  let path_len := zlen path in
  if (path_len =? 0) || negb (eqc (deref path) "/"%char) then ROUTE_ERROR else
  let content := tail path in
  let content_len := path_len - 1 in
  if content_len =? 0 then ROUTE_HOME else
  if (content_len =? 6) && strncmp_eq content (str "health") 6 then ROUTE_HEALTH else
  if (content_len =? 5) && strncmp_eq content (str "ready") 5 then ROUTE_READY else
  if (content_len =? 7) && strncmp_eq content (str "version") 7 then ROUTE_VERSION else
  if (content_len =? 5) && strncmp_eq content (str "alive") 5 then ROUTE_ALIVE else
  if (content_len =? 7) && strncmp_eq content (str "metrics") 7 then ROUTE_METRICS else
  if (content_len =? 4) && strncmp_eq content (str "docs") 4 then ROUTE_DOCS else
  if (content_len =? 6) && strncmp_eq content (str "status") 6 then ROUTE_STATUS else
  if (content_len =? 5) && strncmp_eq content (str "logos") 5 then ROUTE_LOGOS else
  if (content_len >? 27) && strncmp_eq content (str ".well-known/acme-challenge/") 27
  then ROUTE_ACME_CHALLENGE else
  if (content_len >? 3) && strncmp_eq content (str "tx/") 3 then
    let txid := drop 3 content in
    let txid_len := content_len - 3 in
    if (txid_len =? TXID_HEX_LENGTH) && is_all_hex txid then ROUTE_RESULT else ROUTE_ERROR
  else
  if negb (is_all_hex content) then ROUTE_ERROR else
  if negb (content_len mod 2 =? 0) then ROUTE_ERROR else
  if content_len =? TXID_HEX_LENGTH then ROUTE_RESULT else
  if content_len >=? MIN_TX_HEX_LENGTH then ROUTE_BROADCAST else
  ROUTE_ERROR.

(** [validate_hex_path]: 0 when the path is acceptable, -1 otherwise. *)
Definition tx_prefixed (path : chars) : bool :=
  match path with
  | a :: b :: c :: _ => eqc a "t"%char && eqc b "x"%char && eqc c "/"%char
  | _ => false
  end.

Definition validate_hex_path (path : chars) : Z :=
  let path_len := zlen path in
  if path_len <? 64 then 0 else
  let p := if (path_len >? 3) && tx_prefixed path then drop 3 path else path in
  if forallb is_hex_char p then 0 else -1.

(** The two flags of a connection that early validation updates. *)
Record PathFlags := { path_validated : bool; validation_failed : bool }.

Definition path_stop (c : ascii) : bool := eqc c SP || eqc c CR || eqc c LF.

(** [validate_path_early] on the bytes received so far. *)
Definition validate_path_early (fl : PathFlags) (data : chars) : PathFlags * Z :=
  if validation_failed fl then (fl, -1) else
  match memchr SP data with
  | None => (fl, 0)
  | Some i =>
      let path_start := drop (S i) data in
      match path_start with
      | [] => (fl, 0)
      | c :: _ =>
          let path_start := if eqc c "/"%char then tail path_start else path_start in
          if eqc c "/"%char && (zlen path_start =? 0) then (fl, 0) else
          let path := take_while (fun c => negb (path_stop c)) path_start in
          let path_len := zlen path in
          if path_len <? 64 then (fl, 0) else
          let p := if (path_len >? 3) && tx_prefixed path then drop 3 path else path in
          if forallb is_hex_char p
          then ({| path_validated := true; validation_failed := validation_failed fl |}, 0)
          else ({| path_validated := path_validated fl; validation_failed := true |}, -1)
      end
  end.

(** ** The grammar of paths *)

Definition fixed_routes : list (chars * RouteType) :=
  [ (str "/", ROUTE_HOME); (str "/health", ROUTE_HEALTH); (str "/ready", ROUTE_READY);
    (str "/version", ROUTE_VERSION); (str "/alive", ROUTE_ALIVE);
    (str "/metrics", ROUTE_METRICS); (str "/docs", ROUTE_DOCS);
    (str "/status", ROUTE_STATUS); (str "/logos", ROUTE_LOGOS) ].

Inductive routes : chars -> RouteType -> Prop :=
  | routes_fixed p r : (p, r) ∈ fixed_routes -> routes p r
  | routes_acme token : token <> [] ->
      routes (str "/.well-known/acme-challenge/" ++ token) ROUTE_ACME_CHALLENGE
  | routes_tx h : is_all_hex h = true -> length h = 64%nat ->
      routes (str "/tx/" ++ h) ROUTE_RESULT
  | routes_txid h : is_all_hex h = true -> length h = 64%nat ->
      routes (str "/" ++ h) ROUTE_RESULT
  | routes_broadcast h : is_all_hex h = true -> Nat.even (length h) = true ->
      (164 <= length h)%nat -> routes (str "/" ++ h) ROUTE_BROADCAST.

#[export] Hint Constructors routes : relay.

(** ** Routing lemmas *)

Lemma lit_no_nul s : forallb (fun c => negb (eqc c NUL)) (str s) = true ->
  forall l, strncmp_eq l (str s) (length (str s)) = starts_with (str s) l.
Proof. intros H l. by apply strncmp_literal. Qed.

Lemma lit_match s n content :
  forallb (fun c => negb (eqc c NUL)) (str s) = true -> length (str s) = n ->
  (zlen content =? Z.of_nat n) && strncmp_eq content (str s) n = bool_decide (content = str s).
Proof.
  intros H <-. rewrite lit_no_nul by done. apply eq_true_iff_eq.
  rewrite andb_true_iff, bool_decide_eq_true, Z.eqb_eq, starts_with_app. unfold zlen. split.
  - intros [Hl [k ->]]. rewrite length_app in Hl. destruct k; simpl in Hl; [|lia].
    by rewrite app_nil_r.
  - intros ->. split; [lia|]. exists []. by rewrite app_nil_r.
Qed.

Lemma hex_starts_false c p l :
  is_hex_char c = false -> is_all_hex l = true -> starts_with (c :: p) l = false.
Proof.
  intros Hc Hl. destruct (starts_with _ _) eqn:E; [|done].
  apply starts_with_app in E as [k ->]. simpl in Hl. by rewrite Hc in Hl.
Qed.

Definition acme_prefix : chars := str ".well-known/acme-challenge/".

(** The decision list of [route_request] on the content after the slash. *)
Lemma route_request_slash content :
  route_request ("/"%char :: content) =
  if bool_decide (content = []) then ROUTE_HOME else
  if bool_decide (content = str "health") then ROUTE_HEALTH else
  if bool_decide (content = str "ready") then ROUTE_READY else
  if bool_decide (content = str "version") then ROUTE_VERSION else
  if bool_decide (content = str "alive") then ROUTE_ALIVE else
  if bool_decide (content = str "metrics") then ROUTE_METRICS else
  if bool_decide (content = str "docs") then ROUTE_DOCS else
  if bool_decide (content = str "status") then ROUTE_STATUS else
  if bool_decide (content = str "logos") then ROUTE_LOGOS else
  if (zlen content >? 27) && starts_with acme_prefix content then ROUTE_ACME_CHALLENGE else
  if (zlen content >? 3) && starts_with (str "tx/") content then
    if (zlen content - 3 =? 64) && is_all_hex (drop 3 content) then ROUTE_RESULT else ROUTE_ERROR
  else
  if negb (is_all_hex content) then ROUTE_ERROR else
  if negb (zlen content mod 2 =? 0) then ROUTE_ERROR else
  if zlen content =? 64 then ROUTE_RESULT else
  if zlen content >=? 164 then ROUTE_BROADCAST else ROUTE_ERROR.
Proof.
  unfold route_request. cbn [deref tail]. rewrite zlen_cons, eqc_refl.
  replace (1 + zlen content - 1) with (zlen content) by lia.
  pose proof (zlen_nonneg content).
  destruct (1 + zlen content =? 0) eqn:E0; b2p; [lia|]. cbn [orb negb].
  replace (zlen content =? 0) with (bool_decide (content = [])).
  2: { apply eq_true_iff_eq. rewrite bool_decide_eq_true, Z.eqb_eq.
       destruct content; [done|]. rewrite zlen_cons in *. pose proof (zlen_nonneg content).
       split; [done|lia]. }
  rewrite (lit_match "health" 6), (lit_match "ready" 5), (lit_match "version" 7),
    (lit_match "alive" 5), (lit_match "metrics" 7), (lit_match "docs" 4),
    (lit_match "status" 6), (lit_match "logos" 5) by reflexivity.
  change 27%nat with (length (str ".well-known/acme-challenge/")).
  change 3%nat with (length (str "tx/")) at 1.
  by rewrite !lit_no_nul by reflexivity.
Qed.

Lemma route_request_no_slash path :
  head path <> Some "/"%char -> route_request path = ROUTE_ERROR.
Proof.
  intros H. unfold route_request. destruct path as [|c path]; [done|].
  cbn [deref]. destruct (eqc c "/"%char) eqn:E; [|by rewrite orb_true_r].
  apply eqc_eq in E. subst. done.
Qed.

Lemma zlen_even {A} (l : list A) : (zlen l mod 2 =? 0) = Nat.even (length l).
Proof.
  unfold zlen. rewrite <- Nat.negb_odd. apply eq_true_iff_eq.
  rewrite Z.eqb_eq, negb_true_iff, <- not_true_iff_false, Nat.odd_spec.
  split.
  - intros H [m Hm]. subst. rewrite Hm in H. replace (Z.of_nat (2 * m + 1)) with (1 + Z.of_nat m * 2) in H by lia.
    rewrite Z.mod_add in H by lia. done.
  - intros H. destruct (Nat.Even_or_Odd (length l)) as [[m Hm]|Ho]; [|done].
    rewrite Hm. replace (Z.of_nat (2 * m)) with (Z.of_nat m * 2) by lia. apply Z.mod_mul. lia.
Qed.

Lemma hex_not_literal s c p l :
  str s = c :: p -> is_hex_char c = false -> is_all_hex l = true -> bool_decide (l = str s) = false.
Proof.
  intros Hs Hc Hl. apply bool_decide_eq_false. intros ->. rewrite Hs in Hl. simpl in Hl.
  by rewrite Hc in Hl.
Qed.

(** A literal name is never equal to a content of another length. *)
Lemma length_not_literal s (l : chars) :
  length l <> length (str s) -> bool_decide (l = str s) = false.
Proof. intros H. apply bool_decide_eq_false. by intros ->. Qed.

Ltac route_literals := rewrite ?length_not_literal by (simpl in *; lia).

Lemma route_request_hex h :
  is_all_hex h = true -> (64 <= length h)%nat ->
  route_request ("/"%char :: h) =
  if negb (Nat.even (length h)) then ROUTE_ERROR else
  if (length h =? 64)%nat then ROUTE_RESULT else
  if (164 <=? length h)%nat then ROUTE_BROADCAST else ROUTE_ERROR.
Proof.
  intros Hh Hl. rewrite route_request_slash, zlen_even.
  rewrite (bool_decide_eq_false_2 (h = [])) by (intros ->; simpl in *; lia).
  route_literals. unfold acme_prefix. cbn [str list_ascii_of_string].
  rewrite !hex_starts_false, !andb_false_r, Hh by done. cbn [negb].
  destruct (Nat.even (length h)); [|done]. cbn [negb].
  destruct (Nat.eqb_spec (length h) 64) as [E|E].
  - replace (zlen h =? 64) with true by (symmetry; apply Z.eqb_eq; unfold zlen; lia). done.
  - replace (zlen h =? 64) with false by (symmetry; apply Z.eqb_neq; unfold zlen; lia).
    rewrite Z.geb_leb. destruct (Nat.leb_spec 164 (length h)).
    + by replace (164 <=? zlen h) with true by (symmetry; apply Z.leb_le; unfold zlen; lia).
    + by replace (164 <=? zlen h) with false by (symmetry; apply Z.leb_gt; unfold zlen; lia).
Qed.

Lemma route_request_acme token :
  token <> [] -> route_request (str "/.well-known/acme-challenge/" ++ token) = ROUTE_ACME_CHALLENGE.
Proof.
  intros Ht. change (str "/.well-known/acme-challenge/" ++ token) with ("/"%char :: acme_prefix ++ token).
  rewrite route_request_slash.
  assert (28 <= length (acme_prefix ++ token))%nat as Hl.
  { rewrite length_app. destruct token; [done|]. simpl. lia. }
  rewrite (bool_decide_eq_false_2 (_ = [])) by done. route_literals.
  assert (starts_with acme_prefix (acme_prefix ++ token) = true) as -> by (apply starts_with_app; eauto).
  replace (zlen _ >? 27) with true; [done|]. symmetry. rewrite Z.gtb_ltb. apply Z.ltb_lt.
  unfold zlen. lia.
Qed.

Lemma route_request_tx h :
  is_all_hex h = true -> length h = 64%nat -> route_request (str "/tx/" ++ h) = ROUTE_RESULT.
Proof.
  intros Hh Hl. change (str "/tx/" ++ h) with ("/"%char :: str "tx/" ++ h).
  rewrite route_request_slash.
  assert (length (str "tx/" ++ h) = 67)%nat as Hc by (rewrite length_app, Hl; done).
  rewrite (bool_decide_eq_false_2 (_ = [])) by done. route_literals.
  assert (starts_with acme_prefix (str "tx/" ++ h) = false) as -> by done.
  assert (starts_with (str "tx/") (str "tx/" ++ h) = true) as -> by (apply starts_with_app; eauto).
  rewrite andb_false_r. change (drop 3 (str "tx/" ++ h)) with h. rewrite Hh.
  by replace (zlen (str "tx/" ++ h)) with 67 by (unfold zlen; lia).
Qed.

Lemma routes_sound p r : routes p r -> route_request p = r.
Proof.
  destruct 1 as [p r Hin|token Ht|h Hh Hl|h Hh Hl|h Hh He Hl].
  - unfold fixed_routes in Hin. repeat (apply elem_of_cons in Hin as [[= -> ->]|Hin]; [by vm_compute|]).
    by apply elem_of_nil in Hin.
  - by apply route_request_acme.
  - by apply route_request_tx.
  - change (str "/" ++ h) with ("/"%char :: h). rewrite route_request_hex by (done || lia).
    by rewrite Hl.
  - change (str "/" ++ h) with ("/"%char :: h). rewrite route_request_hex by (done || lia).
    rewrite He. destruct (Nat.eqb_spec (length h) 64); [lia|].
    by destruct (Nat.leb_spec 164 (length h)); [|lia].
Qed.

Lemma routes_complete p : route_request p <> ROUTE_ERROR -> routes p (route_request p).
Proof.
  destruct (decide (head p = Some "/"%char)) as [Hh|Hh].
  2: { by rewrite route_request_no_slash. }
  destruct p as [|c content]; [done|]. injection Hh as ->.
  rewrite route_request_slash.
  repeat match goal with
  | |- context [bool_decide (content = ?x)] =>
      destruct (bool_decide_reflect (content = x)) as [->|?];
      [by intros _; apply routes_fixed; repeat constructor|]
  end.
  destruct ((zlen content >? 27) && starts_with acme_prefix content) eqn:Ea.
  { intros _. b2p. apply starts_with_app in H0 as [k ->]. apply (routes_acme k). intros ->.
    rewrite app_nil_r in H. by vm_compute in H. }
  destruct ((zlen content >? 3) && starts_with (str "tx/") content) eqn:Et.
  { b2p. apply starts_with_app in H0 as [k ->]. change (drop 3 (str "tx/" ++ k)) with k.
    destruct ((_ =? 64) && is_all_hex k) eqn:E; [|done]. intros _. b2p.
    apply (routes_tx k); [done|]. rewrite zlen_app in H0. change (zlen (str "tx/")) with 3 in H0.
    unfold zlen in H0. lia. }
  destruct (is_all_hex content) eqn:Eh; [|done]. cbn [negb].
  rewrite zlen_even. destruct (Nat.even (length content)) eqn:Ee; [|done]. cbn [negb].
  destruct (zlen content =? 64) eqn:E64.
  { intros _. b2p. apply (routes_txid content); [done|]. unfold zlen in *. lia. }
  destruct (zlen content >=? 164) eqn:E164; [|done]. intros _. b2p.
  apply (routes_broadcast content); [done..|]. unfold zlen in *. lia.
Qed.

Lemma routes_not_error p : ~ routes p ROUTE_ERROR.
Proof.
  inversion 1; subst. unfold fixed_routes in *.
  repeat match goal with H : _ ∈ _ :: _ |- _ => apply elem_of_cons in H as [[=]|H] end.
  by apply elem_of_nil in H0.
Qed.

(** C11: [route_request] implements the path grammar [routes]: it answers a
    route exactly when the path derives it, answers [ROUTE_ERROR] exactly
    when no production matches, and so the grammar is unambiguous.  In
    particular only '/' followed by an even number (at least 164) of hex
    digits reaches [ROUTE_BROADCAST]. *)
Theorem route_request_refines_grammar :
  forall p : chars,
    (forall r, r <> ROUTE_ERROR -> (route_request p = r <-> routes p r)) /\
    (route_request p = ROUTE_ERROR <-> forall r, ~ routes p r).
Proof.
  intros p. split.
  - intros r Hr. split; [|apply routes_sound]. intros <-. by apply routes_complete.
  - split.
    + intros He r Hr. pose proof (routes_sound _ _ Hr). subst. rewrite He in Hr.
      by apply routes_not_error in Hr.
    + intros Hn. destruct (decide (route_request p = ROUTE_ERROR)) as [|Hne]; [done|].
      by destruct (Hn _ (routes_complete _ Hne)).
Qed.

(** ** Path validation *)

(** The part of the request line that early validation inspects. *)
Definition path_seen (data : chars) : option chars :=
  match memchr SP data with
  | None => None
  | Some i =>
      match drop (S i) data with
      | [] => None
      | c :: r =>
          if eqc c "/"%char then
            match r with [] => None | _ => Some (take_while (fun c => negb (path_stop c)) r) end
          else Some (take_while (fun c => negb (path_stop c)) (c :: r))
      end
  end.

Definition no_flags : PathFlags := {| path_validated := false; validation_failed := false |}.

Lemma early_verdict fl data :
  validation_failed fl = false ->
  snd (validate_path_early fl data) =
  match path_seen data with None => 0 | Some path => validate_hex_path path end.
Proof.
  intros Hf. unfold validate_path_early, path_seen, validate_hex_path. rewrite Hf.
  destruct (memchr SP data) as [i|]; [|done].
  destruct (drop (S i) data) as [|c r]; [done|]. cbn [tail].
  destruct (eqc c "/"%char) eqn:Ec; cbn [andb].
  - destruct r as [|c' r]; [done|].
    rewrite zlen_cons. pose proof (zlen_nonneg r).
    destruct (1 + zlen r =? 0) eqn:E; b2p; [lia|].
    set (path := take_while _ _). destruct (zlen path <? 64); [done|].
    by destruct (forallb _ _).
  - set (path := take_while _ _). destruct (zlen path <? 64); [done|].
    by destruct (forallb _ _).
Qed.

Lemma memchr_app c l k i : memchr c l = Some i -> memchr c (l ++ k) = Some i.
Proof.
  rewrite !memchr_Some. intros (a & b & -> & Hl & Ha). exists a, (b ++ k).
  by rewrite <- app_assoc.
Qed.

Lemma memchr_lt c l i : memchr c l = Some i -> (i < length l)%nat.
Proof. intros (a & b & -> & <- & _)%memchr_Some. rewrite length_app. simpl. lia. Qed.

Lemma take_while_prefix P l k : exists q, take_while P (l ++ k) = take_while P l ++ q.
Proof.
  induction l as [|c l [q IH]]; simpl; [eauto|].
  destruct (P c); simpl; [|eauto]. exists q. by rewrite IH.
Qed.

Lemma path_seen_prefix d e p : path_seen d = Some p -> exists q, path_seen (d ++ e) = Some (p ++ q).
Proof.
  unfold path_seen. destruct (memchr SP d) as [i|] eqn:E; [|done].
  rewrite (memchr_app _ _ e _ E). pose proof (memchr_lt _ _ _ E).
  rewrite drop_app_le by lia. destruct (drop (S i) d) as [|c r]; [done|]. cbn [app].
  destruct (eqc c "/"%char).
  - destruct r as [|c' r]; [done|]. intros [= <-].
    destruct (take_while_prefix (fun c => negb (path_stop c)) (c' :: r) e) as [q Hq].
    exists q. f_equal. exact Hq.
  - intros [= <-]. destruct (take_while_prefix (fun c => negb (path_stop c)) (c :: r) e) as [q Hq].
    exists q. f_equal. exact Hq.
Qed.

Lemma validate_hex_path_cases p : validate_hex_path p = 0 \/ validate_hex_path p = -1.
Proof. unfold validate_hex_path. destruct (zlen p <? 64); [by left|]. destruct (forallb _ _); auto. Qed.

Lemma tx_prefixed_app p q : (3 <= length p)%nat -> tx_prefixed (p ++ q) = tx_prefixed p.
Proof. destruct p as [|? [|? [|? ?]]]; simpl; (lia || done). Qed.

Lemma validate_hex_path_mono p q : validate_hex_path p = -1 -> validate_hex_path (p ++ q) = -1.
Proof.
  unfold validate_hex_path. destruct (zlen p <? 64) eqn:El; [done|]. b2p.
  rewrite zlen_app. pose proof (zlen_nonneg q).
  replace (zlen p + zlen q <? 64) with false by (symmetry; apply Z.ltb_ge; lia).
  replace (zlen p + zlen q >? 3) with (zlen p >? 3).
  2: { rewrite !Z.gtb_ltb. etrans; [|symmetry]; apply Z.ltb_lt; lia. }
  assert (3 <= length p)%nat by (unfold zlen in *; lia).
  rewrite tx_prefixed_app by done.
  destruct ((zlen p >? 3) && tx_prefixed p).
  - rewrite drop_app_le by done. rewrite forallb_app.
    destruct (forallb is_hex_char (drop 3 p)); done.
  - rewrite forallb_app. destruct (forallb is_hex_char p); done.
Qed.

(** Early rejection is sound: when validation rejects the bytes received
    so far, it also rejects every continuation, so no client is turned away
    for a prefix of a request that would have been accepted in full. *)
Theorem early_rejection_sound :
  forall (fl : PathFlags) (received more : chars),
    validation_failed fl = false ->
    snd (validate_path_early fl received) = -1 ->
    snd (validate_path_early fl (received ++ more)) = -1.
Proof.
  intros fl d e Hf. rewrite !early_verdict by done.
  destruct (path_seen d) as [p|] eqn:E; [|done].
  destruct (path_seen_prefix d e p E) as [q ->]. apply validate_hex_path_mono.
Qed.

Lemma early_rejection_sound_witness :
  let d := str "GET /" ++ repeat "z"%char 64 in
  snd (validate_path_early no_flags (d ++ str " HTTP/1.1")) = -1.
Proof. apply early_rejection_sound; vm_compute; reflexivity. Defined.

Lemma path_seen_full m path stop rest :
  memchr SP m = None -> path_stop stop = true ->
  forallb (fun c => negb (path_stop c)) path = true ->
  path_seen (m ++ SP :: "/"%char :: path ++ stop :: rest) = Some path.
Proof.
  intros Hm Hs Hp. unfold path_seen.
  assert (memchr SP (m ++ SP :: "/"%char :: path ++ stop :: rest) = Some (length m)) as ->.
  { apply memchr_Some. exists m. eexists. split_and!; [done..|]. by apply memchr_None. }
  replace (drop (S (length m)) (m ++ SP :: "/"%char :: path ++ stop :: rest))
    with ("/"%char :: path ++ stop :: rest).
  2: { change (m ++ SP :: "/"%char :: path ++ stop :: rest)
         with (m ++ ([SP] ++ ("/"%char :: path ++ stop :: rest))).
       rewrite app_assoc. symmetry. replace (S (length m)) with (length (m ++ [SP])).
       - apply drop_app_length.
       - rewrite length_app. simpl. lia. }
  rewrite eqc_refl.
  assert (take_while (fun c => negb (path_stop c)) (path ++ stop :: rest) = path) as Ht.
  { clear -Hs Hp. induction path as [|c path IH]; simpl in *.
    - by rewrite Hs.
    - apply andb_true_iff in Hp as [-> Hp]. simpl. f_equal. auto. }
  rewrite Ht. by destruct path.
Qed.

(** HTTP/1.1 and HTTP/2 validate alike: on a complete request line whose
    path is '/' followed by [path], the HTTP/1.1 validator answers what the
    HTTP/2 validator answers on [path]. *)
Theorem early_matches_h2 :
  forall (fl : PathFlags) (m path rest : chars) (stop : ascii),
    validation_failed fl = false ->
    memchr SP m = None -> path_stop stop = true ->
    forallb (fun c => negb (path_stop c)) path = true ->
    snd (validate_path_early fl (m ++ SP :: "/"%char :: path ++ stop :: rest)) =
    validate_hex_path path.
Proof. intros. rewrite early_verdict by done. by rewrite path_seen_full. Qed.

Lemma early_matches_h2_witness :
  snd (validate_path_early no_flags
        (str "GET" ++ SP :: "/"%char :: str "tx/12" ++ SP :: str "HTTP/1.1")) =
  validate_hex_path (str "tx/12").
Proof. apply early_matches_h2; reflexivity. Defined.

Lemma hex_no_stop h : is_all_hex h = true -> forallb (fun c => negb (path_stop c)) h = true.
Proof.
  rewrite is_all_hex_forallb. intros H. apply forallb_forall. intros c Hc.
  rewrite forallb_forall in H. specialize (H c Hc).
  pose proof (char_exhaust (fun c => implb (is_hex_char c) (negb (path_stop c))) ltac:(by vm_compute) c) as E.
  simpl in E. by rewrite H in E.
Qed.

Lemma routes_tail_no_stop p r :
  routes p r -> r <> ROUTE_ACME_CHALLENGE ->
  exists path, p = "/"%char :: path /\ validate_hex_path path = 0 /\
    forallb (fun c => negb (path_stop c)) path = true.
Proof.
  assert (forall h, is_all_hex h = true -> validate_hex_path h = 0) as Hv.
  { intros h Hh. unfold validate_hex_path. destruct (zlen h <? 64); [done|].
    assert (tx_prefixed h = false) as ->.
    { destruct h as [|a [|b [|c h]]]; try done. simpl in *.
      destruct (eqc a "t"%char) eqn:E; [|done]. apply eqc_eq in E. by subst. }
    rewrite andb_false_r, <- is_all_hex_forallb. by rewrite Hh. }
  intros Hr Hor. destruct Hr as [p r Hin|token Ht|h Hh Hl|h Hh Hl|h Hh He Hl].
  - unfold fixed_routes in Hin.
    repeat (apply elem_of_cons in Hin as [[= -> ->]|Hin]; [by eexists|]). by apply elem_of_nil in Hin.
  - by destruct Hor.
  - exists (str "tx/" ++ h). split_and!; [done| |].
    + unfold validate_hex_path. replace (zlen (str "tx/" ++ h)) with 67 by (unfold zlen; simpl; lia).
      simpl. rewrite <- is_all_hex_forallb. change (drop 0 h) with h. by rewrite Hh.
    + rewrite forallb_app. by rewrite (hex_no_stop h Hh).
  - exists h. split_and!; [done|auto|by apply hex_no_stop].
  - exists h. split_and!; [done|auto|by apply hex_no_stop].
Qed.

(** C29: Whatever the router serves, ACME challenges apart, is never refused by
    validation: if the complete request line asks for a path that the router
    sends to a page, a health or metrics endpoint, the broadcast of a
    transaction or the result of a transaction id, then validating any
    prefix of the bytes, in any chunking, answers 0. *)
Theorem routable_never_rejected :
  forall (fl : PathFlags) (m path rest received more : chars) (stop : ascii),
    validation_failed fl = false ->
    memchr SP m = None -> path_stop stop = true ->
    route_request path <> ROUTE_ERROR -> route_request path <> ROUTE_ACME_CHALLENGE ->
    received ++ more = m ++ SP :: path ++ stop :: rest ->
    snd (validate_path_early fl received) = 0.
Proof.
  intros fl m path rest d e stop Hf Hm Hs Hne Hna Hd.
  assert (routes path (route_request path)) as Hroute by by apply routes_complete.
  destruct (routes_tail_no_stop _ _ Hroute Hna) as (p & -> & Hv & Hn).
  rewrite early_verdict by done. destruct (path_seen d) as [q|] eqn:E; [|done].
  destruct (validate_hex_path_cases q) as [?|Hq]; [done|].
  destruct (path_seen_prefix d e q E) as [k Hk].
  rewrite Hd in Hk. cbn [app] in Hk. rewrite path_seen_full in Hk by done. injection Hk as ->.
  apply (validate_hex_path_mono q k) in Hq. congruence.
Qed.

Lemma routable_never_rejected_witness :
  snd (validate_path_early no_flags (str "GET /" ++ repeat "a"%char 100)) = 0 /\
  snd (validate_path_early no_flags (str "GET /stat")) = 0.
Proof.
  split.
  - apply (routable_never_rejected no_flags (str "GET") ("/"%char :: repeat "a"%char 164)
             (str "HTTP/1.1") _ (repeat "a"%char 64 ++ SP :: str "HTTP/1.1") SP);
      vm_compute; (reflexivity || discriminate).
  - apply (routable_never_rejected no_flags (str "GET") (str "/status") (str "HTTP/1.1") _
             (str "us HTTP/1.1") SP); vm_compute; (reflexivity || discriminate).
Defined.

(** C40: ACME challenges with ordinary tokens are refused: for every token of
    37 or more characters (base64url tokens of 32 random bytes have 43) the
    router answers [ROUTE_ACME_CHALLENGE], yet both validators reject the
    path, so the request ends in 400 (HTTP/1.1) or a stream reset (HTTP/2)
    and the challenge is never served. *)
Theorem acme_long_token_rejected :
  forall (m token rest : chars) (stop : ascii),
    memchr SP m = None -> path_stop stop = true ->
    forallb (fun c => negb (path_stop c)) token = true ->
    (37 <= length token)%nat ->
    let path := acme_prefix ++ token in
    route_request ("/"%char :: path) = ROUTE_ACME_CHALLENGE /\
    validate_hex_path path = -1 /\
    snd (validate_path_early no_flags (m ++ SP :: "/"%char :: path ++ stop :: rest)) = -1.
Proof.
  intros m token rest stop Hm Hs Ht Hl path.
  assert (validate_hex_path path = -1) as Hv.
  { unfold validate_hex_path, path. rewrite zlen_app. change (zlen acme_prefix) with 27.
    replace (27 + zlen token <? 64) with false; [|symmetry; apply Z.ltb_ge; unfold zlen; lia].
    by rewrite andb_false_r. }
  split_and!; [|done|].
  - apply route_request_acme. intros ->. simpl in Hl. lia.
  - by rewrite early_verdict, path_seen_full.
Qed.

Lemma acme_long_token_rejected_witness :
  validate_hex_path (acme_prefix ++ repeat "A"%char 43) = -1.
Proof.
  apply (acme_long_token_rejected (str "GET") (repeat "A"%char 43) (str "HTTP/1.1") SP);
    vm_compute; try reflexivity. lia.
Defined.
