(* ===== verification/Network.v ===== *)
(** * Bitcoin chains and address prefixes ([src/network.c], [include/network.h])

    Chain names, address classification by prefix, the match against the
    configured chain, the warning table and the banners. *)
From Stdlib Require Import ZArith Lia Ascii String.
From stdpp Require Import base list numbers strings.
From S2P Require Import Prelude CLib.

#[local] Open Scope Z_scope.

Inductive BitcoinChain :=
  | CHAIN_MAINNET | CHAIN_TESTNET | CHAIN_SIGNET | CHAIN_REGTEST | CHAIN_MIXED.

Inductive AddressCheckResult := ADDR_MATCH | ADDR_WRONG_NETWORK | ADDR_INVALID.

#[export] Instance BitcoinChain_eq_dec : EqDecision BitcoinChain.
Proof. solve_decision. Defined.
#[export] Instance AddressCheckResult_eq_dec : EqDecision AddressCheckResult.
Proof. solve_decision. Defined.

(** The enumeration value of a chain. *)
Definition chain_index (c : BitcoinChain) : Z :=
  match c with
  | CHAIN_MAINNET => 0 | CHAIN_TESTNET => 1 | CHAIN_SIGNET => 2
  | CHAIN_REGTEST => 3 | CHAIN_MIXED => 4
  end.

(** [None] is the return value -1; the argument is [NULL] or a C string. *)
Definition network_chain_from_string (name : option chars) : option BitcoinChain :=
  match name with
  | None => None
  | Some name =>
      if strcasecmp_eq name (str "mainnet") || strcasecmp_eq name (str "main")
      then Some CHAIN_MAINNET else
      if strcasecmp_eq name (str "testnet") || strcasecmp_eq name (str "testnet3") ||
         strcasecmp_eq name (str "test")
      then Some CHAIN_TESTNET else
      if strcasecmp_eq name (str "signet") then Some CHAIN_SIGNET else
      if strcasecmp_eq name (str "regtest") || strcasecmp_eq name (str "reg")
      then Some CHAIN_REGTEST else
      if strcasecmp_eq name (str "mixed") || strcasecmp_eq name (str "multi") ||
         strcasecmp_eq name (str "multichain")
      then Some CHAIN_MIXED else
      None
  end.

Definition network_chain_to_string (chain : BitcoinChain) : chars :=
  match chain with
  | CHAIN_MAINNET => str "mainnet"
  | CHAIN_TESTNET => str "testnet"
  | CHAIN_SIGNET => str "signet"
  | CHAIN_REGTEST => str "regtest"
  | CHAIN_MIXED => str "mixed"
  end.

Definition network_get_header_value (chain : BitcoinChain) : chars :=
  network_chain_to_string chain.

(** [None] is -1.  The regtest prefix is compared over 4 characters. *)
Definition detect_address_network (address : option chars) : option BitcoinChain :=
  match address with
  | None => None
  | Some address =>
      if strlen address <? 2 then None else
      if strncmp_eq address (str "bc1") 3 then Some CHAIN_MAINNET else
      if strncmp_eq address (str "tb1") 3 then Some CHAIN_TESTNET else
      if strncmp_eq address (str "bcrt1") 4 then Some CHAIN_REGTEST else
      let first := deref address in
      if eqc first "1"%char then Some CHAIN_MAINNET else
      if eqc first "3"%char then Some CHAIN_MAINNET else
      if eqc first "m"%char || eqc first "n"%char then Some CHAIN_TESTNET else
      if eqc first "2"%char then Some CHAIN_TESTNET else
      None
  end.

(** The result and the value stored through [detected_network]. *)
Definition network_check_address (expected : BitcoinChain) (address : option chars)
  : AddressCheckResult * option BitcoinChain :=
  match detect_address_network address with
  | None => (ADDR_INVALID, None)
  | Some detected =>
      let addr := default [] address in
      let result :=
        if bool_decide (expected = CHAIN_REGTEST) && bool_decide (detected = CHAIN_TESTNET) then
          if strncmp_eq addr (str "tb1") 3 then ADDR_WRONG_NETWORK else ADDR_MATCH
        else if bool_decide (expected = CHAIN_SIGNET) && bool_decide (detected = CHAIN_TESTNET)
        then ADDR_MATCH
        else if bool_decide (expected = CHAIN_TESTNET) && bool_decide (detected = CHAIN_TESTNET)
        then ADDR_MATCH
        else if chain_index expected =? chain_index detected then ADDR_MATCH
        else ADDR_WRONG_NETWORK in
      (result, Some detected)
  end.

Definition warning (what server : string) : option chars :=
  Some (str "Warning: This appears to be a " ++ str what ++
        str " address. Server is running on " ++ str server ++ str ".").

Definition network_get_address_warning (server_chain address_chain : BitcoinChain) : option chars :=
  if (chain_index server_chain >? chain_index CHAIN_REGTEST) ||
     (chain_index address_chain >? chain_index CHAIN_REGTEST)
  then Some (str "Warning: Unknown network mismatch detected.") else
  match server_chain, address_chain with
  | CHAIN_MAINNET, CHAIN_MAINNET => None
  | CHAIN_MAINNET, CHAIN_TESTNET => warning "TESTNET" "MAINNET"
  | CHAIN_MAINNET, CHAIN_SIGNET => warning "SIGNET" "MAINNET"
  | CHAIN_MAINNET, CHAIN_REGTEST => warning "REGTEST" "MAINNET"
  | CHAIN_TESTNET, CHAIN_MAINNET => warning "MAINNET" "TESTNET"
  | CHAIN_TESTNET, CHAIN_TESTNET => None
  | CHAIN_TESTNET, CHAIN_SIGNET => None
  | CHAIN_TESTNET, CHAIN_REGTEST => warning "REGTEST" "TESTNET"
  | CHAIN_SIGNET, CHAIN_MAINNET => warning "MAINNET" "SIGNET"
  | CHAIN_SIGNET, CHAIN_TESTNET => None
  | CHAIN_SIGNET, CHAIN_SIGNET => None
  | CHAIN_SIGNET, CHAIN_REGTEST => warning "REGTEST" "SIGNET"
  | CHAIN_REGTEST, CHAIN_MAINNET => warning "MAINNET" "REGTEST"
  | CHAIN_REGTEST, CHAIN_TESTNET => warning "TESTNET" "REGTEST"
  | CHAIN_REGTEST, CHAIN_SIGNET => warning "SIGNET" "REGTEST"
  | CHAIN_REGTEST, CHAIN_REGTEST => None
  | CHAIN_MIXED, _ | _, CHAIN_MIXED => None
  end.

Definition network_is_test_network (chain : BitcoinChain) : bool :=
  negb (bool_decide (chain = CHAIN_MAINNET)) && negb (bool_decide (chain = CHAIN_MIXED)).

Definition network_get_banner_text (chain : BitcoinChain) : option chars :=
  match chain with
  | CHAIN_MAINNET | CHAIN_MIXED => None
  | CHAIN_TESTNET => Some (str "TESTNET - Coins have no value")
  | CHAIN_SIGNET => Some (str "SIGNET - Coins have no value")
  | CHAIN_REGTEST => Some (str "REGTEST - Local test network")
  end.

Definition network_get_banner_class (chain : BitcoinChain) : option chars :=
  match chain with
  | CHAIN_MAINNET | CHAIN_MIXED => None
  | CHAIN_TESTNET => Some (str "network-banner-testnet")
  | CHAIN_SIGNET => Some (str "network-banner-signet")
  | CHAIN_REGTEST => Some (str "network-banner-regtest")
  end.

Definition network_detect_chain_from_address (address : option chars) : option BitcoinChain :=
  detect_address_network address.

Definition network_detect_chain_from_address_with_hint
    (address : option chars) (hint : BitcoinChain) : option BitcoinChain :=
  match detect_address_network address with
  | None => None
  | Some detected =>
      let addr := default [] address in
      if bool_decide (detected = CHAIN_TESTNET) && bool_decide (hint = CHAIN_SIGNET) then
        if strncmp_eq addr (str "tb1") 3 then Some CHAIN_SIGNET else
        if eqc (deref addr) "m"%char || eqc (deref addr) "n"%char || eqc (deref addr) "2"%char
        then Some CHAIN_SIGNET else Some detected
      else Some detected
  end.

(** ** Lemmas *)

Lemma tolower_idem c : tolower (tolower c) = tolower c.
Proof.
  apply eqc_eq. apply (char_exhaust (fun c => eqc (tolower (tolower c)) (tolower c))).
  by vm_compute.
Qed.

Lemma tolower_nul c : eqc (tolower c) NUL = eqc c NUL.
Proof.
  apply eqb_prop. apply (char_exhaust (fun c => Bool.eqb (eqc (tolower c) NUL) (eqc c NUL))).
  by vm_compute.
Qed.

Lemma c_string_tolower l : c_string (map tolower l) = map tolower (c_string l).
Proof.
  unfold c_string. induction l as [|c l IH]; [done|]. cbn [map take_while].
  rewrite tolower_nul. destruct (eqc c NUL); simpl; congruence.
Qed.

Lemma strcasecmp_tolower a b : strcasecmp_eq (map tolower a) b = strcasecmp_eq a b.
Proof.
  unfold strcasecmp_eq. rewrite c_string_tolower, map_map.
  by rewrite (map_ext _ tolower) by (intros; apply tolower_idem).
Qed.

(** The address only decides between the real chains, and a mixed-mode
    server has no address of its own. *)
Lemma detect_not_mixed a : detect_address_network a <> Some CHAIN_MIXED.
Proof. unfold detect_address_network. destruct a; [|done]. by repeat case_match. Qed.

Lemma detect_not_signet a : detect_address_network a <> Some CHAIN_SIGNET.
Proof. unfold detect_address_network. destruct a; [|done]. by repeat case_match. Qed.

(** Chain names round trip: every chain is recovered from its printed
    name, whatever the letter case of the name in the configuration file. *)
Theorem chain_name_roundtrip :
  forall (c : BitcoinChain) (name : chars),
    map tolower name = network_chain_to_string c ->
    network_chain_from_string (Some name) = Some c.
Proof.
  intros c name H.
  enough (network_chain_from_string (Some (map tolower name)) = Some c) as <-.
  { cbn [network_chain_from_string]. by rewrite !strcasecmp_tolower. }
  rewrite H. by destruct c; vm_compute.
Qed.

Lemma chain_name_roundtrip_witness :
  network_chain_from_string (Some (str "RegTest")) = Some CHAIN_REGTEST.
Proof. apply chain_name_roundtrip. reflexivity. Defined.

(** The address check never lets an address cross the mainnet boundary:
    when it answers [ADDR_MATCH] the address was recognised, and it carries
    a mainnet prefix exactly when the server runs on mainnet; a mixed-mode
    server matches no address at all. *)
Theorem address_match_same_world :
  forall (expected : BitcoinChain) (address : option chars),
    fst (network_check_address expected address) = ADDR_MATCH ->
    expected <> CHAIN_MIXED /\
    exists detected,
      detect_address_network address = Some detected /\
      (detected = CHAIN_MAINNET <-> expected = CHAIN_MAINNET) /\
      (detected = CHAIN_REGTEST -> expected = CHAIN_REGTEST).
Proof.
  intros expected address. unfold network_check_address.
  pose proof (detect_not_mixed address). pose proof (detect_not_signet address).
  destruct (detect_address_network address) as [d|]; [|done].
  destruct expected, d; simpl; try done; intros _;
    (split; [done|]); by eexists.
Qed.

Lemma address_match_same_world_witness :
  exists d, detect_address_network (Some (str "bc1qxyz")) = Some d.
Proof.
  destruct (address_match_same_world CHAIN_MAINNET (Some (str "bc1qxyz"))) as [_ (d & Hd & _)];
    [reflexivity|]. exists d. exact Hd.
Defined.
