(* ===== verification/Config.v ===== *)
(** * Configuration ([src/config.c], [include/config.h])

    The [Config] and [RPCConfig] structures, their defaults, the value
    parsers and the INI reader, one definition per section of the file.
    A [char] array holds a C string, and [strtod] is the parameter that
    converts text to a [double] (binary rounding, infinities and NaN
    included).  The chain field is [None] until it is set
    ([CHAIN_NOT_SET]). *)
From Stdlib Require Import ZArith QArith Lia Ascii String.
From stdpp Require Import base list numbers strings.
From S2P Require Import Prelude CLib Network.

#[local] Open Scope Z_scope.

Record RPCConfig := mkRPCConfig {
  enabled : Z;
  host : chars;
  port : Z;
  user : chars;
  password : chars;
  cookie_file : chars;
  datadir : chars;
  timeout_sec : Z;
  wallet : chars;
}.

#[export] Instance eta_RPCConfig : Eta RPCConfig := fun r =>
  mkRPCConfig (enabled r) (host r) (port r) (user r) (password r) (cookie_file r) (datadir r) (timeout_sec r) (wallet r).

Record Config := mkConfig {
  chain : option BitcoinChain;
  initial_buffer_size : Z;
  max_buffer_size : Z;
  tier_large_threshold : Z;
  tier_huge_threshold : Z;
  listen_port : Z;
  max_connections : Z;
  read_timeout_sec : Z;
  static_dir : chars;
  cache_max_age : Z;
  slots_normal_max : Z;
  slots_large_max : Z;
  slots_huge_max : Z;
  rate_limit_rps : double;
  rate_limit_burst : double;
  tls_enabled : Z;
  tls_port : Z;
  tls_cert_file : chars;
  tls_key_file : chars;
  http2_enabled : Z;
  json_logging : Z;
  verbose : Z;
  acme_challenge_dir : chars;
  blocklist_file : chars;
  allowlist_file : chars;
  seccomp_enabled : Z;
  rpc_mainnet : RPCConfig;
  rpc_testnet : RPCConfig;
  rpc_signet : RPCConfig;
  rpc_regtest : RPCConfig;
}.

#[export] Instance eta_Config : Eta Config := fun r =>
  mkConfig (chain r) (initial_buffer_size r) (max_buffer_size r) (tier_large_threshold r) (tier_huge_threshold r) (listen_port r) (max_connections r) (read_timeout_sec r) (static_dir r) (cache_max_age r) (slots_normal_max r) (slots_large_max r) (slots_huge_max r) (rate_limit_rps r) (rate_limit_burst r) (tls_enabled r) (tls_port r) (tls_cert_file r) (tls_key_file r) (http2_enabled r) (json_logging r) (verbose r) (acme_challenge_dir r) (blocklist_file r) (allowlist_file r) (seccomp_enabled r) (rpc_mainnet r) (rpc_testnet r) (rpc_signet r) (rpc_regtest r).

Definition DEFAULT_INITIAL_BUFFER_SIZE : Z := 4096.
Definition DEFAULT_MAX_BUFFER_SIZE : Z := 16 * 1024 * 1024.
Definition DEFAULT_TIER_LARGE_THRESHOLD : Z := 64 * 1024.
Definition DEFAULT_TIER_HUGE_THRESHOLD : Z := 1024 * 1024.
Definition DEFAULT_LISTEN_PORT : Z := 8080.
Definition DEFAULT_MAX_CONNECTIONS : Z := 100.
Definition DEFAULT_READ_TIMEOUT_SEC : Z := 30.
Definition DEFAULT_CACHE_MAX_AGE : Z := 3600.
Definition DEFAULT_SLOTS_NORMAL_MAX : Z := 100.
Definition DEFAULT_SLOTS_LARGE_MAX : Z := 20.
Definition DEFAULT_SLOTS_HUGE_MAX : Z := 5.
Definition DEFAULT_TLS_ENABLED : Z := 0.
Definition DEFAULT_TLS_PORT : Z := 8443.
Definition DEFAULT_HTTP2_ENABLED : Z := 1.
Definition DEFAULT_JSON_LOGGING : Z := 0.
Definition DEFAULT_VERBOSE : Z := 0.
Definition DEFAULT_RPC_TIMEOUT_SEC : Z := 30.
Definition DEFAULT_RPC_PORT_MAINNET : Z := 8332.
Definition DEFAULT_RPC_PORT_TESTNET : Z := 18332.
Definition DEFAULT_RPC_PORT_SIGNET : Z := 38332.
Definition DEFAULT_RPC_PORT_REGTEST : Z := 18443.
Definition DEFAULT_RATE_LIMIT_RPS : double := Finite 100.
Definition DEFAULT_RATE_LIMIT_BURST : double := Finite 200.

Definition rpc_config_default (default_port : Z) : RPCConfig :=
  {| enabled := 0; host := strncpy 255 (str "127.0.0.1"); port := default_port;
     user := []; password := []; cookie_file := []; datadir := [];
     timeout_sec := DEFAULT_RPC_TIMEOUT_SEC; wallet := [] |}.

(** The parsers warn on standard error and fall back to the default. *)
Definition parse_size_t (s : chars) (def_val : Z) : Z :=
  let r := strtoul s in
  if st_erange r || negb (st_conv r) || negb (eqc (deref (st_end r)) NUL) then def_val
  else if st_val r >? SIZE_MAX then def_val
  else st_val r.

Definition parse_int (s : chars) (def_val : Z) : Z :=
  let r := strtol s in
  if st_erange r || negb (st_conv r) || negb (eqc (deref (st_end r)) NUL) then def_val
  else if (st_val r <? 0) || (st_val r >? INT_MAX) then def_val
  else st_val r.

Definition default_values : Config :=
  {| chain := None;
     initial_buffer_size := DEFAULT_INITIAL_BUFFER_SIZE;
     max_buffer_size := DEFAULT_MAX_BUFFER_SIZE;
     tier_large_threshold := DEFAULT_TIER_LARGE_THRESHOLD;
     tier_huge_threshold := DEFAULT_TIER_HUGE_THRESHOLD;
     listen_port := DEFAULT_LISTEN_PORT;
     max_connections := DEFAULT_MAX_CONNECTIONS;
     read_timeout_sec := DEFAULT_READ_TIMEOUT_SEC;
     static_dir := strncpy 255 (str "./static");
     cache_max_age := DEFAULT_CACHE_MAX_AGE;
     slots_normal_max := DEFAULT_SLOTS_NORMAL_MAX;
     slots_large_max := DEFAULT_SLOTS_LARGE_MAX;
     slots_huge_max := DEFAULT_SLOTS_HUGE_MAX;
     rate_limit_rps := DEFAULT_RATE_LIMIT_RPS;
     rate_limit_burst := DEFAULT_RATE_LIMIT_BURST;
     tls_enabled := DEFAULT_TLS_ENABLED;
     tls_port := DEFAULT_TLS_PORT;
     tls_cert_file := [];
     tls_key_file := [];
     http2_enabled := DEFAULT_HTTP2_ENABLED;
     json_logging := DEFAULT_JSON_LOGGING;
     verbose := DEFAULT_VERBOSE;
     acme_challenge_dir := strncpy 255 (str ".well-known/acme-challenge");
     blocklist_file := [];
     allowlist_file := [];
     seccomp_enabled := 0;
     rpc_mainnet := rpc_config_default DEFAULT_RPC_PORT_MAINNET;
     rpc_testnet := rpc_config_default DEFAULT_RPC_PORT_TESTNET;
     rpc_signet := rpc_config_default DEFAULT_RPC_PORT_SIGNET;
     rpc_regtest := rpc_config_default DEFAULT_RPC_PORT_REGTEST |}.

(** [malloc_ok] tells whether the allocation succeeds. *)
Definition config_default (malloc_ok : bool) : option Config :=
  if malloc_ok then Some default_values else None.

(** What [fopen] finds at the path given to [config_load]. *)
Inductive ConfigFile :=
  | NoPath
  | CannotOpen
  | Contents (text : chars).

Section Parsing.

(** [strtod]: value, remaining text, [endptr != str], [errno != 0]. *)
Variable strtod : chars -> double * chars * bool * bool.

Definition parse_double (s : chars) (def_val : double) : double :=
  let '(v, rest, conv, err) := strtod s in
  if err || negb conv || negb (eqc (deref rest) NUL) then def_val
  else if double_ltb v (Finite 0) then def_val
  else v.

Definition key_is (key : chars) (name : string) : bool := strcmp_eq key (str name).

Definition cfg_buffer (c : Config) (key value : chars) : Config :=
  if key_is key "initial_size" then c <| initial_buffer_size := parse_size_t value DEFAULT_INITIAL_BUFFER_SIZE |> else
  if key_is key "max_size" then c <| max_buffer_size := parse_size_t value DEFAULT_MAX_BUFFER_SIZE |> else
  c.

Definition cfg_tiers (c : Config) (key value : chars) : Config :=
  if key_is key "large_threshold" then c <| tier_large_threshold := parse_size_t value DEFAULT_TIER_LARGE_THRESHOLD |> else
  if key_is key "huge_threshold" then c <| tier_huge_threshold := parse_size_t value DEFAULT_TIER_HUGE_THRESHOLD |> else
  c.

Definition cfg_server (c : Config) (key value : chars) : Config :=
  if key_is key "port" then c <| listen_port := parse_int value DEFAULT_LISTEN_PORT |> else
  if key_is key "max_connections" then c <| max_connections := parse_int value DEFAULT_MAX_CONNECTIONS |> else
  if key_is key "read_timeout" then c <| read_timeout_sec := parse_int value DEFAULT_READ_TIMEOUT_SEC |> else
  c.

Definition cfg_static (c : Config) (key value : chars) : Config :=
  if key_is key "dir" then c <| static_dir := strncpy 255 value |> else
  if key_is key "cache_max_age" then c <| cache_max_age := parse_int value DEFAULT_CACHE_MAX_AGE |> else
  c.

Definition cfg_slots (c : Config) (key value : chars) : Config :=
  if key_is key "normal_max" then c <| slots_normal_max := parse_int value DEFAULT_SLOTS_NORMAL_MAX |> else
  if key_is key "large_max" then c <| slots_large_max := parse_int value DEFAULT_SLOTS_LARGE_MAX |> else
  if key_is key "huge_max" then c <| slots_huge_max := parse_int value DEFAULT_SLOTS_HUGE_MAX |> else
  c.

Definition cfg_ratelimit (c : Config) (key value : chars) : Config :=
  if key_is key "rps" then c <| rate_limit_rps := parse_double value DEFAULT_RATE_LIMIT_RPS |> else
  if key_is key "burst" then c <| rate_limit_burst := parse_double value DEFAULT_RATE_LIMIT_BURST |> else
  c.

Definition cfg_tls (c : Config) (key value : chars) : Config :=
  if key_is key "enabled" then c <| tls_enabled := parse_int value DEFAULT_TLS_ENABLED |> else
  if key_is key "port" then c <| tls_port := parse_int value DEFAULT_TLS_PORT |> else
  if key_is key "cert_file" then c <| tls_cert_file := strncpy 255 value |> else
  if key_is key "key_file" then c <| tls_key_file := strncpy 255 value |> else
  if key_is key "http2_enabled" then c <| http2_enabled := parse_int value DEFAULT_HTTP2_ENABLED |> else
  c.

Definition cfg_logging (c : Config) (key value : chars) : Config :=
  if key_is key "json" then c <| json_logging := parse_int value DEFAULT_JSON_LOGGING |> else
  if key_is key "verbose" then c <| verbose := parse_int value DEFAULT_VERBOSE |> else
  c.

Definition cfg_acme (c : Config) (key value : chars) : Config :=
  if key_is key "challenge_dir" then c <| acme_challenge_dir := strncpy 255 value |> else
  c.

Definition cfg_security (c : Config) (key value : chars) : Config :=
  if key_is key "blocklist_file" then c <| blocklist_file := strncpy 255 value |> else
  if key_is key "allowlist_file" then c <| allowlist_file := strncpy 255 value |> else
  if key_is key "seccomp" then c <| seccomp_enabled := parse_int value 0 |> else
  c.

(** An unknown chain name is reported and leaves the field unchanged. *)
Definition cfg_network (c : Config) (key value : chars) : Config :=
  if key_is key "chain" then
    match network_chain_from_string (Some value) with
    | None => c
    | Some ch => c <| chain := Some ch |>
    end
  else c.

Definition cfg_rpc_key (default_port : Z) (rpc : RPCConfig) (key value : chars) : RPCConfig :=
  if key_is key "enabled" then rpc <| enabled := parse_int value 0 |> else
  if key_is key "host" then rpc <| host := strncpy 255 value |> else
  if key_is key "port" then rpc <| port := parse_int value default_port |> else
  if key_is key "user" then rpc <| user := strncpy 63 value |> else
  if key_is key "password" then rpc <| password := strncpy 63 value |> else
  if key_is key "cookie_file" then rpc <| cookie_file := strncpy 255 value |> else
  if key_is key "datadir" then rpc <| datadir := strncpy 255 value |> else
  if key_is key "timeout" then rpc <| timeout_sec := parse_int value DEFAULT_RPC_TIMEOUT_SEC |> else
  if key_is key "wallet" then rpc <| wallet := strncpy 63 value |> else
  rpc.

Definition cfg_rpc_mainnet (c : Config) (key value : chars) : Config :=
  c <| rpc_mainnet ::= fun rpc => cfg_rpc_key DEFAULT_RPC_PORT_MAINNET rpc key value |>.

Definition cfg_rpc_testnet (c : Config) (key value : chars) : Config :=
  c <| rpc_testnet ::= fun rpc => cfg_rpc_key DEFAULT_RPC_PORT_TESTNET rpc key value |>.

Definition cfg_rpc_signet (c : Config) (key value : chars) : Config :=
  c <| rpc_signet ::= fun rpc => cfg_rpc_key DEFAULT_RPC_PORT_SIGNET rpc key value |>.

Definition cfg_rpc_regtest (c : Config) (key value : chars) : Config :=
  c <| rpc_regtest ::= fun rpc => cfg_rpc_key DEFAULT_RPC_PORT_REGTEST rpc key value |>.

Definition config_key (section : chars) (c : Config) (key value : chars) : Config :=
  if strcmp_eq section (str "buffer") then cfg_buffer c key value else
  if strcmp_eq section (str "tiers") then cfg_tiers c key value else
  if strcmp_eq section (str "server") then cfg_server c key value else
  if strcmp_eq section (str "static") then cfg_static c key value else
  if strcmp_eq section (str "slots") then cfg_slots c key value else
  if strcmp_eq section (str "ratelimit") then cfg_ratelimit c key value else
  if strcmp_eq section (str "tls") then cfg_tls c key value else
  if strcmp_eq section (str "logging") then cfg_logging c key value else
  if strcmp_eq section (str "acme") then cfg_acme c key value else
  if strcmp_eq section (str "security") then cfg_security c key value else
  if strcmp_eq section (str "network") then cfg_network c key value else
  if strcmp_eq section (str "rpc.mainnet") then cfg_rpc_mainnet c key value else
  if strcmp_eq section (str "rpc.testnet") then cfg_rpc_testnet c key value else
  if strcmp_eq section (str "rpc.signet") then cfg_rpc_signet c key value else
  if strcmp_eq section (str "rpc.regtest") then cfg_rpc_regtest c key value else
  c.

(** One iteration of the loop: the state is the configuration and the
    current section name. *)
Definition config_line (st : Config * chars) (line : chars) : Config * chars :=
  let '(c, section) := st in
  let trimmed := trim line in
  let first := deref trimmed in
  if eqc first NUL || eqc first "#"%char || eqc first ";"%char then st else
  if eqc first "["%char then
    match strchr trimmed "]"%char with
    | Some e => (c, strncpy 63 (tail (take e trimmed)))
    | None => st
    end
  else
  match strchr trimmed "="%char with
  | None => st
  | Some e =>
      let key := trim (take e trimmed) in
      let value := trim (drop (S e) trimmed) in
      (config_key section c key value, section)
  end.

Definition config_read (c : Config) (text : chars) : Config :=
  fst (foldl config_line (c, []) (file_lines 511 text)).

(** The checks after the file is closed; [None] is the [NULL] result. *)
Definition config_validate (c : Config) : option Config :=
  if bool_decide (chain c = None) then None else
  if bool_decide (chain c = Some CHAIN_MIXED) &&
     (enabled (rpc_mainnet c) =? 0) && (enabled (rpc_testnet c) =? 0) &&
     (enabled (rpc_signet c) =? 0) && (enabled (rpc_regtest c) =? 0)
  then None else
  if tier_large_threshold c >=? tier_huge_threshold c
  then Some (c <| tier_huge_threshold := u64 (tier_large_threshold c * 2) |>)
  else Some c.

Definition config_load (malloc_ok : bool) (file : ConfigFile) : option Config :=
  match config_default malloc_ok with
  | None => None
  | Some c =>
      match file with
      | NoPath | CannotOpen => Some c
      | Contents text => config_validate (config_read c text)
      end
  end.

End Parsing.

(** ** Well-formed configurations *)

Definition size_ok (z : Z) : Prop := 0 <= z <= SIZE_MAX.
Definition int_ok (z : Z) : Prop := 0 <= z <= INT_MAX.

(** A C string and its NUL fit an array of [n] characters. *)
Definition fits (n : nat) (s : chars) : Prop := (length s < n)%nat.

(** What the test [val < 0] lets through: NaN and the infinity pass. *)
Definition not_negative (d : double) : Prop := double_ltb d (Finite 0) = false.

Definition rpc_wf (r : RPCConfig) : Prop :=
  int_ok (enabled r) /\ int_ok (port r) /\ int_ok (timeout_sec r) /\
  fits 256 (host r) /\ fits 64 (user r) /\ fits 64 (password r) /\
  fits 256 (cookie_file r) /\ fits 256 (datadir r) /\ fits 64 (wallet r).

Definition config_wf (c : Config) : Prop :=
  (size_ok (initial_buffer_size c) /\ size_ok (max_buffer_size c) /\
   size_ok (tier_large_threshold c) /\ size_ok (tier_huge_threshold c)) /\
  (int_ok (listen_port c) /\ int_ok (max_connections c) /\ int_ok (read_timeout_sec c) /\
   int_ok (cache_max_age c)) /\
  (int_ok (slots_normal_max c) /\ int_ok (slots_large_max c) /\ int_ok (slots_huge_max c)) /\
  (int_ok (tls_enabled c) /\ int_ok (tls_port c) /\ int_ok (http2_enabled c) /\
   int_ok (json_logging c) /\ int_ok (verbose c) /\ int_ok (seccomp_enabled c)) /\
  (not_negative (rate_limit_rps c) /\ not_negative (rate_limit_burst c)) /\
  (fits 256 (static_dir c) /\ fits 256 (tls_cert_file c) /\ fits 256 (tls_key_file c) /\
   fits 256 (acme_challenge_dir c) /\ fits 256 (blocklist_file c) /\ fits 256 (allowlist_file c)) /\
  (rpc_wf (rpc_mainnet c) /\ rpc_wf (rpc_testnet c) /\ rpc_wf (rpc_signet c) /\ rpc_wf (rpc_regtest c)).

Lemma parse_size_t_ok s d : size_ok d -> size_ok (parse_size_t s d).
Proof.
  intros Hd. unfold parse_size_t. destruct (_ || _); [done|].
  destruct (_ >? _) eqn:E; b2p; [done|]. pose proof (strtoul_range s). split; lia.
Qed.

Lemma parse_int_ok s d : int_ok d -> int_ok (parse_int s d).
Proof.
  intros Hd. unfold parse_int. destruct (_ || _); [done|].
  destruct ((st_val _ <? 0) || _) eqn:E; b2p; [done|]. unfold int_ok. lia.
Qed.

Lemma parse_double_ok strtod s d : not_negative d -> not_negative (parse_double strtod s d).
Proof.
  intros Hd. unfold parse_double. destruct (strtod s) as [[[v rest] conv] err].
  destruct (_ || _); [done|]. by destruct (double_ltb v (Finite 0)) eqn:E.
Qed.

Lemma strncpy_fits n s : fits (S n) (strncpy n s).
Proof. unfold fits, strncpy. rewrite length_take. lia. Qed.

#[export] Hint Resolve parse_size_t_ok parse_int_ok parse_double_ok strncpy_fits : relay.

Lemma int_ok_const z : (0 <=? z) && (z <=? INT_MAX) = true -> int_ok z.
Proof. intros H. b2p. by split. Qed.

Lemma size_ok_const z : (0 <=? z) && (z <=? SIZE_MAX) = true -> size_ok z.
Proof. intros H. b2p. by split. Qed.

#[export] Hint Extern 2 (int_ok _) => (apply int_ok_const; reflexivity) : relay.
#[export] Hint Extern 2 (size_ok _) => (apply size_ok_const; reflexivity) : relay.
#[export] Hint Extern 2 (not_negative _) => reflexivity : relay.

Lemma rpc_config_default_wf p : int_ok p -> rpc_wf (rpc_config_default p).
Proof. intros Hp. unfold rpc_wf. split_and!; try apply strncpy_fits; auto with relay; unfold fits; simpl; lia. Qed.

Lemma default_values_wf : config_wf default_values.
Proof.
  unfold config_wf. split_and!; try (apply strncpy_fits);
    try (apply rpc_config_default_wf); auto with relay; unfold fits; simpl; lia.
Qed.

Lemma cfg_rpc_key_wf p rpc k v : int_ok p -> rpc_wf rpc -> rpc_wf (cfg_rpc_key p rpc k v).
Proof.
  intros Hp (? & ? & ? & ? & ? & ? & ? & ? & ?). unfold cfg_rpc_key.
  repeat case_match; unfold rpc_wf; simpl; split_and!; auto with relay.
Qed.

Lemma config_key_wf strtod sec c k v : config_wf c -> config_wf (config_key strtod sec c k v).
Proof.
  intros H. unfold config_key.
  unfold cfg_buffer, cfg_tiers, cfg_server, cfg_static, cfg_slots, cfg_ratelimit, cfg_tls,
    cfg_logging, cfg_acme, cfg_security, cfg_network,
    cfg_rpc_mainnet, cfg_rpc_testnet, cfg_rpc_signet, cfg_rpc_regtest.
  repeat case_match; try done; destruct H as (? & ? & ? & ? & ? & ? & ? & ? & ? & ?);
    destruct_and?; unfold config_wf; simpl; split_and!; auto with relay;
    apply cfg_rpc_key_wf; auto with relay.
Qed.

Lemma config_line_wf strtod st line :
  config_wf (fst st) -> config_wf (fst (config_line strtod st line)).
Proof.
  destruct st as [c sec]. unfold config_line. cbn [fst]. intros H.
  repeat case_match; try done. cbn [fst]. by apply config_key_wf.
Qed.

Lemma config_read_wf strtod c text : config_wf c -> config_wf (config_read strtod c text).
Proof.
  unfold config_read. generalize (@nil ascii) as sec. generalize (file_lines 511 text) as ls.
  intros ls. revert c. induction ls as [|l ls IH]; intros c sec H; [done|]. cbn [foldl].
  destruct (config_line strtod (c, sec) l) as [c' sec'] eqn:E.
  apply IH. change c' with (fst (c', sec')). rewrite <- E. by apply config_line_wf.
Qed.

Lemma config_validate_wf c c' : config_wf c -> config_validate c = Some c' -> config_wf c'.
Proof.
  intros H. unfold config_validate. repeat case_match; intros [= <-]; [|done].
  destruct H as (? & ? & ? & ? & ? & ? & ? & ? & ? & ?). unfold config_wf; simpl.
  destruct_and?. split_and!; try done. unfold size_ok, SIZE_MAX, u64.
  pose proof (wrap_range 64 (tier_large_threshold c * 2)). lia.
Qed.

(** C30: A configuration that [config_load] returns is well formed, whatever
    the file contains: sizes fit [size_t], integers are in 0..INT_MAX, no
    rate is below zero (an infinite rate or NaN is possible) and every string
    fits its array.  If no file could be opened, it is the default
    configuration, in which no chain is set.  If one was read, a chain is set, mixed
    mode has an enabled RPC section, and the large tier threshold is below the huge
    one provided that it is above 0 and below 2^63. *)
Theorem config_load_wf :
  forall strtod malloc_ok file c,
    config_load strtod malloc_ok file = Some c ->
    config_wf c /\
    match file with
    | Contents _ =>
        chain c <> None /\
        (chain c = Some CHAIN_MIXED ->
         enabled (rpc_mainnet c) <> 0 \/ enabled (rpc_testnet c) <> 0 \/
         enabled (rpc_signet c) <> 0 \/ enabled (rpc_regtest c) <> 0) /\
        (0 < tier_large_threshold c < 2 ^ 63 ->
         tier_large_threshold c < tier_huge_threshold c)
    | _ => c = default_values /\ chain c = None
    end.
Proof.
  intros strtod ok file c. unfold config_load, config_default. destruct ok; [|done].
  destruct file as [| |text]; [intros [= <-]; split; [apply default_values_wf|done]..|].
  intros Hv. split.
  { eapply config_validate_wf; [|done]. apply config_read_wf, default_values_wf. }
  revert Hv. generalize (config_read strtod default_values text) as d. intros d.
  unfold config_validate. destruct (bool_decide_reflect (chain d = None)); [done|].
  destruct (_ && _) eqn:Em; [done|].
  assert (chain d = Some CHAIN_MIXED ->
       enabled (rpc_mainnet d) <> 0 \/ enabled (rpc_testnet d) <> 0 \/
       enabled (rpc_signet d) <> 0 \/ enabled (rpc_regtest d) <> 0) as Hm.
  { intros Hc. rewrite bool_decide_eq_true_2 in Em by done.
    repeat (apply andb_false_iff in Em as [Em|Em]); try done; b2p; auto. }
  destruct (_ >=? _) eqn:E; b2p; intros [= <-]; cbn; (split_and!; [done|done|]); [|lia].
  intros Hl. unfold u64. rewrite wrap_small by lia. lia.
Qed.

(** A [strtod] that accepts unsigned integers, for concrete runs. *)
Definition strtod_int (s : chars) : double * chars * bool * bool :=
  let r := strtoul s in (Finite (inject_Z (st_val r)), st_end r, st_conv r, st_erange r).

Definition sample_config : chars :=
  str "[network]" ++ [LF] ++ str "chain = mixed" ++ [LF] ++
  str "[rpc.signet]" ++ [LF] ++ str "enabled = 1" ++ [LF] ++
  str "[tiers]" ++ [LF] ++ str "large_threshold = 4096" ++ [LF] ++ str "huge_threshold=100".

Lemma config_load_wf_witness :
  exists c, config_load strtod_int true (Contents sample_config) = Some c /\
            tier_large_threshold c < tier_huge_threshold c.
Proof.
  eexists. split; [vm_compute; reflexivity|].
  refine (proj2 (proj2 (proj2 (config_load_wf strtod_int true (Contents sample_config) _
            _))) _); [vm_compute; reflexivity|].
  vm_compute. split; reflexivity.
Defined.

(** The rule that a chain must be configured is not enforced when the
    file cannot be opened: [config_load] then returns the defaults, whose
    chain is unset, although a readable file without a chain is refused. *)
Theorem missing_file_has_no_chain :
  forall strtod,
    (exists c, config_load strtod true CannotOpen = Some c /\ chain c = None) /\
    config_load strtod true (Contents []) = None.
Proof. intros strtod. split; [|done]. by eexists. Qed.

(** The [rpc] section that the README documents is ignored: while the
    current section is [rpc], no sequence of lines other than section
    headers changes the configuration; only the sections [rpc.mainnet],
    [rpc.testnet], [rpc.signet] and [rpc.regtest] are read. *)
Theorem readme_rpc_section_ignored :
  forall strtod c lines,
    Forall (fun line => deref (trim line) <> "["%char) lines ->
    foldl (config_line strtod) (c, str "rpc") lines = (c, str "rpc").
Proof.
  intros strtod c lines. induction 1 as [|line lines Hl _ IH]; [done|]. cbn [foldl].
  replace (config_line strtod (c, str "rpc") line) with (c, str "rpc"); [done|].
  unfold config_line. destruct (_ || _); [done|].
  destruct (eqc _ "["%char) eqn:E; [by apply eqc_eq in E|]. by destruct (strchr _ _).
Qed.

Lemma readme_rpc_section_ignored_witness :
  foldl (config_line strtod_int) (default_values, str "rpc")
    [str "host = 127.0.0.1"; str "port = 8332"; str "cookie_file = /home/bitcoin/.cookie"] =
  (default_values, str "rpc").
Proof. apply readme_rpc_section_ignored. repeat constructor; vm_compute; discriminate. Defined.
