(* ===== verification/Slots.v ===== *)
(** * Tiered connection slots ([src/slot_manager.c], [src/reader.c])

    The slot manager of a worker and the mapping from request sizes to
    tiers.  The manager is proved to implement a bounded pool per tier:
    [SlotPool] is the interface its clients rely on. *)
From Stdlib Require Import ZArith QArith Lia Ascii String.
From stdpp Require Import base list numbers strings.
From S2P Require Import Prelude CLib Network Config.

#[local] Open Scope Z_scope.

Inductive RequestTier := TIER_NORMAL | TIER_LARGE | TIER_HUGE.

#[export] Instance RequestTier_eq_dec : EqDecision RequestTier.
Proof. solve_decision. Defined.

Definition tier_index (t : RequestTier) : Z :=
  match t with TIER_NORMAL => 0 | TIER_LARGE => 1 | TIER_HUGE => 2 end.

Definition tier_name (t : RequestTier) : chars :=
  match t with
  | TIER_NORMAL => str "NORMAL" | TIER_LARGE => str "LARGE" | TIER_HUGE => str "HUGE"
  end.

Definition size_to_tier (size : Z) (cfg : Config) : RequestTier :=
  if size >=? tier_huge_threshold cfg then TIER_HUGE
  else if size >=? tier_large_threshold cfg then TIER_LARGE
  else TIER_NORMAL.

Record SlotManager := mkSlots {
  normal_current : Z; normal_max : Z;
  large_current : Z; large_max : Z;
  huge_current : Z; huge_max : Z
}.

#[export] Instance eta_SlotManager : Eta SlotManager := fun s =>
  mkSlots (normal_current s) (normal_max s) (large_current s) (large_max s)
          (huge_current s) (huge_max s).

Definition slot_manager_init (nmax lmax hmax : Z) : SlotManager :=
  {| normal_current := 0; normal_max := nmax;
     large_current := 0; large_max := lmax;
     huge_current := 0; huge_max := hmax |}.

Definition slot_manager_acquire (sm : SlotManager) (tier : RequestTier) : SlotManager * bool :=
  match tier with
  | TIER_NORMAL =>
      if normal_current sm >=? normal_max sm then (sm, false)
      else (sm <| normal_current ::= Z.succ |>, true)
  | TIER_LARGE =>
      if large_current sm >=? large_max sm then (sm, false)
      else (sm <| large_current ::= Z.succ |>, true)
  | TIER_HUGE =>
      if huge_current sm >=? huge_max sm then (sm, false)
      else (sm <| huge_current ::= Z.succ |>, true)
  end.

Definition slot_manager_release (sm : SlotManager) (tier : RequestTier) : SlotManager :=
  match tier with
  | TIER_NORMAL => if normal_current sm >? 0 then sm <| normal_current ::= Z.pred |> else sm
  | TIER_LARGE => if large_current sm >? 0 then sm <| large_current ::= Z.pred |> else sm
  | TIER_HUGE => if huge_current sm >? 0 then sm <| huge_current ::= Z.pred |> else sm
  end.

Definition slot_manager_promote (sm : SlotManager) (from_tier to_tier : RequestTier)
  : SlotManager * bool :=
  if tier_index from_tier =? tier_index to_tier then (sm, true) else
  if tier_index to_tier <? tier_index from_tier then (sm, false) else
  let '(sm1, got) := slot_manager_acquire sm to_tier in
  if negb got then (sm1, false)
  else (slot_manager_release sm1 from_tier, true).

Definition slot_manager_current (sm : SlotManager) (tier : RequestTier) : Z :=
  match tier with
  | TIER_NORMAL => normal_current sm
  | TIER_LARGE => large_current sm
  | TIER_HUGE => huge_current sm
  end.

Definition slot_manager_max (sm : SlotManager) (tier : RequestTier) : Z :=
  match tier with
  | TIER_NORMAL => normal_max sm
  | TIER_LARGE => large_max sm
  | TIER_HUGE => huge_max sm
  end.

Definition slot_manager_total_connections (sm : SlotManager) : Z :=
  normal_current sm + large_current sm + huge_current sm.

Definition slot_manager_acquire_request (sm : SlotManager) (tier : RequestTier)
  : SlotManager * bool := slot_manager_acquire sm tier.

Definition slot_manager_release_request (sm : SlotManager) (tier : RequestTier)
  : SlotManager := slot_manager_release sm tier.

(** ** The contract

    What the connection and stream handlers rely on: a pool with
    [pool_used s t] slots of tier [t] taken out of [pool_cap s t]. *)

Class SlotPool (S : Type) := {
  pool_used : S -> RequestTier -> Z;
  pool_cap : S -> RequestTier -> Z;
  pool_acquire : S -> RequestTier -> S * bool;
  pool_release : S -> RequestTier -> S;
  pool_acquire_ok s t : pool_used s t < pool_cap s t ->
    snd (pool_acquire s t) = true /\
    forall u, pool_used (fst (pool_acquire s t)) u = pool_used s u + (if decide (u = t) then 1 else 0);
  pool_acquire_full s t : pool_cap s t <= pool_used s t -> pool_acquire s t = (s, false);
  pool_acquire_cap s t u : pool_cap (fst (pool_acquire s t)) u = pool_cap s u;
  pool_release_ok s t : 0 < pool_used s t ->
    forall u, pool_used (pool_release s t) u = pool_used s u - (if decide (u = t) then 1 else 0);
  pool_release_cap s t u : pool_cap (pool_release s t) u = pool_cap s u
}.

(** The number of slots of a tier that a list of holders accounts for. *)
Definition tier_count (t : RequestTier) (held : list RequestTier) : Z :=
  zlen (filter (fun u => u = t) held).

Lemma tier_count_cons t u held :
  tier_count t (u :: held) = tier_count t held + (if decide (u = t) then 1 else 0).
Proof.
  unfold tier_count. destruct (decide (u = t)).
  - rewrite filter_cons_True by done. rewrite zlen_cons. lia.
  - rewrite filter_cons_False by done. lia.
Qed.

Lemma tier_count_app t h k : tier_count t (h ++ k) = tier_count t h + tier_count t k.
Proof. unfold tier_count. by rewrite filter_app, zlen_app. Qed.

Lemma tier_count_nil t : tier_count t [] = 0.
Proof. done. Qed.

Lemma tier_count_nonneg t h : 0 <= tier_count t h.
Proof. apply zlen_nonneg. Qed.

Create Rewrite HintDb tiers.
#[export] Hint Rewrite tier_count_cons tier_count_app tier_count_nil : tiers.
#[export] Hint Resolve tier_count_nonneg : relay.

(** ** Accounting, proved against the contract *)

Section Accounting.
Context {S : Type} `{SlotPool S}.

(** The pool's counters are exactly the slots that [held] holds, and they
    are within the limits. *)
Definition accounts (s : S) (held : list RequestTier) : Prop :=
  forall t, pool_used s t = tier_count t held /\ pool_used s t <= pool_cap s t.

Lemma accounts_perm s h k :
  (forall t, tier_count t h = tier_count t k) -> accounts s h -> accounts s k.
Proof. intros E Ha t. rewrite <- E. apply Ha. Qed.

Lemma acquire_accounts s held t :
  accounts s held ->
  let '(s', got) := pool_acquire s t in
  if got then accounts s' (t :: held) else s' = s /\ pool_cap s t <= pool_used s t.
Proof.
  intros Ha. destruct (pool_acquire s t) as [s' got] eqn:E.
  destruct (Z.le_gt_cases (pool_cap s t) (pool_used s t)) as [Hf|Hf].
  - rewrite pool_acquire_full in E by done. by simplify_eq.
  - destruct (pool_acquire_ok s t Hf) as [Hg Hu]. rewrite E in *. simpl in *. subst got.
    intros u. destruct (Ha u) as [Hc Hm]. rewrite tier_count_cons, Hu.
    pose proof (pool_acquire_cap s t u) as Hcap. rewrite E in Hcap. simpl in Hcap. rewrite Hcap.
    repeat case_decide; subst; try done; lia.
Qed.

Lemma release_accounts s held t :
  accounts s (t :: held) -> accounts (pool_release s t) held.
Proof.
  intros Ha u. assert (0 < pool_used s t) as Hp.
  { destruct (Ha t) as [-> _]. rewrite tier_count_cons, decide_True by done.
    pose proof (tier_count_nonneg t held). lia. }
  rewrite (pool_release_ok s t Hp), (pool_release_cap s t u).
  destruct (Ha u) as [-> Hm]. rewrite tier_count_cons in *.
  repeat case_decide; subst; try done; split; lia.
Qed.

(** Releasing a slot makes room: taking it back cannot fail. *)
Lemma reacquire_after_release s held t :
  accounts s (t :: held) -> snd (pool_acquire (pool_release s t) t) = true.
Proof.
  intros Ha. destruct (release_accounts _ _ _ Ha t) as [Hc' _]. destruct (Ha t) as [Hc Hm].
  apply pool_acquire_ok. rewrite pool_release_cap, Hc'.
  rewrite tier_count_cons, decide_True in Hc by done. lia.
Qed.

(** The release-then-reacquire pattern of the two downgrade functions. *)
Definition pool_downgrade (s : S) (tier : RequestTier) : S * option RequestTier :=
  let s1 := pool_release s tier in
  let '(s2, got) := pool_acquire s1 TIER_NORMAL in
  if got then (s2, Some TIER_NORMAL) else
  let '(s3, back) := pool_acquire s2 tier in
  (s3, if back then Some tier else None).

Lemma downgrade_accounts s held tier :
  accounts s (tier :: held) ->
  exists s' t', pool_downgrade s tier = (s', Some t') /\ accounts s' (t' :: held).
Proof.
  intros Ha. unfold pool_downgrade. pose proof (release_accounts _ _ _ Ha) as Hr.
  pose proof (acquire_accounts _ _ TIER_NORMAL Hr) as Hn.
  pose proof (reacquire_after_release _ _ _ Ha) as Hre.
  destruct (pool_acquire (pool_release s tier) TIER_NORMAL) as [s2 got].
  destruct got; [eauto|]. destruct Hn as [-> _].
  pose proof (acquire_accounts _ _ tier Hr) as Hb.
  destruct (pool_acquire (pool_release s tier) tier) as [s3 back].
  simpl in Hre. subst back. eauto.
Qed.

End Accounting.

#[export] Instance slot_manager_pool : SlotPool SlotManager.
Proof.
  refine {| pool_used := slot_manager_current; pool_cap := slot_manager_max;
            pool_acquire := slot_manager_acquire; pool_release := slot_manager_release |}.
  - intros s t H. unfold slot_manager_acquire. destruct t; simpl in *;
      (destruct (_ >=? _) eqn:E; b2p; [lia|]); (split; [done|]);
      intros u; destruct u; simpl; lia.
  - intros s t H. unfold slot_manager_acquire. destruct t; simpl in *;
      (destruct (_ >=? _) eqn:E; b2p; [done|lia]).
  - intros s t u. unfold slot_manager_acquire. destruct t; destruct (_ >=? _), u; done.
  - intros s t H u. unfold slot_manager_release. destruct t; simpl in *;
      (destruct (_ >? 0) eqn:E; b2p; [|lia]); destruct u; simpl; lia.
  - intros s t u. unfold slot_manager_release. destruct t; destruct (_ >? 0), u; done.
Defined.

(** ** The slot manager under the contract *)

Lemma sm_acquire_accounts (sm : SlotManager) held t :
  accounts sm held ->
  let '(sm', got) := slot_manager_acquire sm t in
  if got then accounts sm' (t :: held) else sm' = sm /\ slot_manager_max sm t <= slot_manager_current sm t.
Proof. exact (acquire_accounts sm held t). Qed.

Lemma sm_release_accounts (sm : SlotManager) held t :
  accounts sm (t :: held) -> accounts (slot_manager_release sm t) held.
Proof. exact (release_accounts sm held t). Qed.

Lemma sm_promote_accounts (sm : SlotManager) held from to :
  accounts sm (from :: held) ->
  let '(sm', ok) := slot_manager_promote sm from to in
  if ok then accounts sm' (to :: held) else sm' = sm.
Proof.
  intros H. unfold slot_manager_promote.
  destruct (tier_index from =? tier_index to) eqn:E1; b2p.
  { by replace to with from by (destruct from, to; (done || simpl in *; lia)). }
  destruct (_ <? _); [done|].
  pose proof (sm_acquire_accounts sm (from :: held) to H) as Ha.
  destruct (slot_manager_acquire sm to) as [sm1 got]. destruct got; cbn [negb].
  - apply sm_release_accounts. eapply accounts_perm; [|exact Ha].
    intros t. autorewrite with tiers. lia.
  - by destruct Ha.
Qed.

Lemma init_accounts n l h :
  0 <= n -> 0 <= l -> 0 <= h -> accounts (slot_manager_init n l h) [].
Proof. intros ??? t. rewrite tier_count_nil. destruct t; simpl; lia. Qed.

(** Every tier holds between 0 and its maximum. *)
Definition slots_wf (sm : SlotManager) : Prop :=
  forall t, 0 <= slot_manager_current sm t <= slot_manager_max sm t.

Inductive slot_op :=
  | OpAcquire (t : RequestTier)
  | OpRelease (t : RequestTier)
  | OpPromote (from to : RequestTier).

Definition run_slot_op (sm : SlotManager) (o : slot_op) : SlotManager :=
  match o with
  | OpAcquire t => fst (slot_manager_acquire sm t)
  | OpRelease t => slot_manager_release sm t
  | OpPromote f t => fst (slot_manager_promote sm f t)
  end.

Lemma acquire_wf sm t : slots_wf sm -> slots_wf (fst (slot_manager_acquire sm t)).
Proof.
  intros H u. specialize (H u). unfold slot_manager_acquire.
  destruct t; destruct (_ >=? _) eqn:E; b2p; destruct u; simpl in *; lia.
Qed.

Lemma release_wf sm t : slots_wf sm -> slots_wf (slot_manager_release sm t).
Proof.
  intros H u. specialize (H u). unfold slot_manager_release.
  destruct t; destruct (_ >? _) eqn:E; b2p; destruct u; simpl in *; lia.
Qed.

Lemma run_slot_op_wf sm o : slots_wf sm -> slots_wf (run_slot_op sm o).
Proof.
  intros H. destruct o as [t|t|f t]; simpl; [by apply acquire_wf|by apply release_wf|].
  unfold slot_manager_promote. destruct (_ =? _); [done|]. destruct (_ <? _); [done|].
  pose proof (acquire_wf sm t H) as Ha. destruct (slot_manager_acquire sm t) as [sm1 []]; simpl in *.
  - by apply release_wf.
  - done.
Qed.

Lemma run_slot_op_max sm o u : slot_manager_max (run_slot_op sm o) u = slot_manager_max sm u.
Proof.
  assert (forall s t, slot_manager_max (fst (slot_manager_acquire s t)) u = slot_manager_max s u) as Ha.
  { intros s t. exact (pool_acquire_cap s t u). }
  assert (forall s t, slot_manager_max (slot_manager_release s t) u = slot_manager_max s u) as Hr.
  { intros s t. exact (pool_release_cap s t u). }
  destruct o as [t|t|f t]; simpl; [done..|].
  unfold slot_manager_promote. destruct (_ =? _); [done|]. destruct (_ <? _); [done|].
  specialize (Ha sm t). destruct (slot_manager_acquire sm t) as [sm1 []]; simpl in *; [|done].
  by rewrite Hr.
Qed.

(** The slot manager keeps every tier between 0 and its maximum under any
    sequence of acquires, releases and promotions, including releases of
    slots nobody holds and refused promotions, and never changes a maximum. *)
Theorem slot_bounds_invariant :
  forall (nmax lmax hmax : Z) (ops : list slot_op),
    0 <= nmax -> 0 <= lmax -> 0 <= hmax ->
    let sm := foldl run_slot_op (slot_manager_init nmax lmax hmax) ops in
    slots_wf sm /\
    (normal_max sm = nmax /\ large_max sm = lmax /\ huge_max sm = hmax).
Proof.
  intros n l h ops Hn Hl Hh. cbn zeta.
  assert (forall sm, slots_wf sm -> slots_wf (foldl run_slot_op sm ops) /\
    forall u, slot_manager_max (foldl run_slot_op sm ops) u = slot_manager_max sm u) as Hall.
  { induction ops as [|o ops IH]; intros sm Hwf; [done|]. cbn [foldl].
    destruct (IH (run_slot_op sm o) (run_slot_op_wf _ _ Hwf)) as [? Hm]. split; [done|].
    intros u. by rewrite Hm, run_slot_op_max. }
  destruct (Hall (slot_manager_init n l h)) as [Hwf Hm].
  { intros t. destruct t; simpl; lia. }
  split; [done|]. exact (conj (Hm TIER_NORMAL) (conj (Hm TIER_LARGE) (Hm TIER_HUGE))).
Qed.

Lemma slot_bounds_invariant_witness :
  slots_wf (foldl run_slot_op (slot_manager_init 2 1 1)
              [OpAcquire TIER_NORMAL; OpPromote TIER_NORMAL TIER_HUGE; OpRelease TIER_LARGE]).
Proof. apply (slot_bounds_invariant 2 1 1); lia. Defined.

(** A promotion that succeeds moves exactly one slot from the old tier to
    the new one; one that fails changes nothing, so the connection keeps the
    slot it had. *)
Theorem promote_moves_one_slot :
  forall (sm : SlotManager) (held : list RequestTier) (from to : RequestTier),
    accounts sm (from :: held) ->
    match slot_manager_promote sm from to with
    | (sm', true) => accounts sm' (to :: held)
    | (sm', false) => sm' = sm
    end.
Proof.
  intros sm held from to H. pose proof (sm_promote_accounts sm held from to H) as P.
  by destruct (slot_manager_promote sm from to) as [sm' []].
Qed.

Lemma promote_moves_one_slot_witness :
  accounts (fst (slot_manager_promote (fst (slot_manager_acquire (slot_manager_init 2 1 1) TIER_NORMAL))
    TIER_NORMAL TIER_LARGE)) [TIER_LARGE].
Proof.
  assert (accounts (fst (slot_manager_acquire (slot_manager_init 2 1 1) TIER_NORMAL)) [TIER_NORMAL]) as H.
  { intros t. destruct t; vm_compute; split; congruence. }
  exact (promote_moves_one_slot _ [] TIER_NORMAL TIER_LARGE H).
Defined.

(** Request sizes map to tiers monotonically when the thresholds are
    ordered: a connection that keeps receiving data never needs a lower
    tier, so the promote-only discipline of the handlers suffices. *)
Theorem size_to_tier_monotone :
  forall (cfg : Config) (a b : Z),
    tier_large_threshold cfg <= tier_huge_threshold cfg ->
    a <= b ->
    tier_index (size_to_tier a cfg) <= tier_index (size_to_tier b cfg).
Proof.
  intros cfg a b Ht Hab. unfold size_to_tier.
  destruct (a >=? tier_huge_threshold cfg) eqn:E1, (b >=? tier_huge_threshold cfg) eqn:E2;
  destruct (a >=? tier_large_threshold cfg) eqn:E3, (b >=? tier_large_threshold cfg) eqn:E4;
  b2p; simpl; lia.
Qed.

Lemma size_to_tier_monotone_witness :
  tier_index (size_to_tier 5000 default_values) <= tier_index (size_to_tier 2000000 default_values).
Proof. apply size_to_tier_monotone; vm_compute; discriminate. Defined.

#[global] Arguments slot_manager_acquire : simpl never.
#[global] Arguments slot_manager_release : simpl never.
#[global] Arguments slot_manager_promote : simpl never.
