(* ===== verification/Reader.v ===== *)
(** * Growing buffers and the synchronous reader ([src/buffer.c], [src/reader.c])

    No caller is left in the program, but the code is compiled and exported.
    The two global variables are the record [Memory]; a buffer keeps the
    bytes before [len].  What [select] and [read] answer is the list
    [ReadStep]; a call that waits for more answers than the list has is
    still running. *)
From Stdlib Require Import ZArith Lia Ascii String.
From stdpp Require Import base list numbers strings.
From S2P Require Import Prelude CLib Network Config Slots.

#[local] Open Scope Z_scope.

(** ** Buffers *)

Record Buffer := mkBuffer { b_data : chars; b_len : Z; b_cap : Z }.

#[export] Instance eta_Buffer : Eta Buffer := fun r => mkBuffer (b_data r) (b_len r) (b_cap r).

Record Memory := mkMemory { g_total_allocated : Z; s_max_buffer_size : Z }.

#[export] Instance eta_Memory : Eta Memory := fun r =>
  mkMemory (g_total_allocated r) (s_max_buffer_size r).

Definition initial_memory : Memory := mkMemory 0 (16 * 1024 * 1024).

Definition GROWTH_THRESHOLD : Z := 64 * 1024.

Definition buffer_set_max_size (m : Memory) (max_size : Z) : Memory * Z :=
  (m <| s_max_buffer_size := max_size |>, s_max_buffer_size m).

Definition buffer_get_max_size (m : Memory) : Z := s_max_buffer_size m.

(** [struct_ok] and [data_ok] are the outcomes of the two [malloc]s. *)
Definition buffer_new (struct_ok data_ok : bool) (m : Memory) (initial_cap : Z) : Memory * option Buffer :=
  let initial_cap := if initial_cap =? 0 then 4096 else initial_cap in
  if initial_cap >? s_max_buffer_size m then (m, None) else
  if negb struct_ok then (m, None) else
  if negb data_ok then (m, None) else
  (m <| g_total_allocated ::= fun n => u64 (n + initial_cap) |>, Some (mkBuffer [] 0 initial_cap)).

(** The loop that computes a capacity: a capacity, the return of -1, or out
    of fuel. *)
Inductive GrowResult := NewCap (cap : Z) | GrowFails | OutOfFuel.

Fixpoint grow_loop (fuel : nat) (max min_cap new_cap : Z) : GrowResult :=
  match fuel with
  | O => OutOfFuel
  | S fuel =>
      if negb (new_cap <? min_cap) then NewCap new_cap else
      if (new_cap <? GROWTH_THRESHOLD) && (new_cap >? SIZE_MAX / 2) then GrowFails else
      if negb (new_cap <? GROWTH_THRESHOLD) && (new_cap >? SIZE_MAX / 3 * 2) then GrowFails else
      let growth := if new_cap <? GROWTH_THRESHOLD then new_cap else new_cap / 2 in
      if new_cap >? SIZE_MAX - growth then GrowFails else
      let new_cap := new_cap + growth in
      if new_cap >? max then (if max <? min_cap then GrowFails else NewCap max)
      else grow_loop fuel max min_cap new_cap
  end.

(** 129 rounds: see [grow_loop_fuel]. *)
Definition buffer_grow (realloc_ok : bool) (m : Memory) (b : Buffer) (min_cap : Z) : Memory * Buffer * Z :=
  if b_cap b >=? min_cap then (m, b, 0) else
  if min_cap >? s_max_buffer_size m then (m, b, -1) else
  match grow_loop 129 (s_max_buffer_size m) min_cap (b_cap b) with
  | NewCap new_cap =>
      if negb realloc_ok then (m, b, -1) else
      (m <| g_total_allocated ::= fun n => u64 (n + (new_cap - b_cap b)) |>, b <| b_cap := new_cap |>, 0)
  | _ => (m, b, -1)
  end.

Definition buffer_append (realloc_ok : bool) (m : Memory) (b : Buffer) (data : chars) : Memory * Buffer * Z :=
  let len := zlen data in
  if len =? 0 then (m, b, 0) else
  if b_len b >? SIZE_MAX - len then (m, b, -1) else
  let required := b_len b + len in
  let '(m, b, rc) := if required >? b_cap b then buffer_grow realloc_ok m b required else (m, b, 0) in
  if negb (rc =? 0) then (m, b, -1) else
  (m, b <| b_data ::= fun d => d ++ data |> <| b_len ::= fun n => n + len |>, 0).

Definition buffer_free (m : Memory) (b : Buffer) : Memory :=
  m <| g_total_allocated ::= fun n => u64 (n - b_cap b) |>.

Definition buffer_reset (b : Buffer) : Buffer := b <| b_data := [] |> <| b_len := 0 |>.

(** ** The reader *)

Inductive ReadResult :=
  READ_OK | READ_ERROR | READ_TOO_LARGE | READ_TIMEOUT | READ_TIER_EXCEEDED | READ_INCOMPLETE.

Definition NORMAL_CHUNK_SIZE : Z := 4096.
Definition THRESHOLD_APPROACH_ZONE : Z := 4096.

(** One round of [wait_for_read] and [read]: a time-out, an error of [select]
    (interrupted or not), an error of [read] (to be retried or not), the end
    of the stream, or bytes that are there to be read. *)
Inductive ReadStep :=
  WaitTimeout | WaitError (eintr : bool) | ReadError (again : bool) | ReadEof | ReadData (bytes : chars).

Definition approaching_threshold (current_size : Z) (cfg : Config) : Z :=
  if (current_size <? tier_large_threshold cfg) &&
     (u64 (current_size + THRESHOLD_APPROACH_ZONE) >=? tier_large_threshold cfg)
  then tier_large_threshold cfg else
  if (current_size <? tier_huge_threshold cfg) &&
     (u64 (current_size + THRESHOLD_APPROACH_ZONE) >=? tier_huge_threshold cfg)
  then tier_huge_threshold cfg else 0.

Definition calculate_read_size (current_size : Z) (cfg : Config) : Z :=
  let threshold := approaching_threshold current_size cfg in
  if threshold >? 0 then
    let bytes_to_threshold := threshold - current_size in
    if bytes_to_threshold <=? THRESHOLD_APPROACH_ZONE then
      if bytes_to_threshold >? 1 then bytes_to_threshold - 1 else 1
    else NORMAL_CHUNK_SIZE
  else NORMAL_CHUNK_SIZE.

Definition find_newline (data : chars) : option nat := memchr LF data.

(** How much the next [read] may take. *)
Definition read_limit (len : Z) (cfg : Config) : Z :=
  let to_read := calculate_read_size len cfg in
  let to_read := if to_read >? NORMAL_CHUNK_SIZE then NORMAL_CHUNK_SIZE else to_read in
  if u64 (len + to_read) >? max_buffer_size cfg then max_buffer_size cfg - len else to_read.

(** The state of the loop: memory, buffer, current tier and the calls of
    [on_tier_change] so far. *)
Record ReaderState := mkReader {
  r_mem : Memory; r_buf : Buffer; r_tier : RequestTier; r_calls : list (RequestTier * Z)
}.

Section Reader.
Context (cfg : Config) (on_tier_change : option (RequestTier -> Z -> Z)) (realloc_ok : bool).

(** After a successful [read]: [inl] is a return. *)
Definition take_bytes (s : ReaderState) (bytes : chars) : ReaderState * ReadResult + ReaderState :=
  let '(m, b, rc) := buffer_append realloc_ok (r_mem s) (r_buf s) bytes in
  if negb (rc =? 0) then inl (mkReader m b (r_tier s) (r_calls s), READ_TOO_LARGE) else
  let new_tier := size_to_tier (b_len b) cfg in
  if bool_decide (new_tier = r_tier s) then inr (mkReader m b (r_tier s) (r_calls s)) else
  match on_tier_change with
  | Some cb =>
      let calls := r_calls s ++ [(new_tier, b_len b)] in
      if negb (cb new_tier (b_len b) =? 0) then inl (mkReader m b (r_tier s) calls, READ_TIER_EXCEEDED)
      else inr (mkReader m b new_tier calls)
  | None => inr (mkReader m b new_tier (r_calls s))
  end.

(** [while (1)]: the final state and the result, [None] while it waits. *)
Fixpoint reader_loop (s : ReaderState) (steps : list ReadStep) : ReaderState * option ReadResult :=
  if bool_decide (is_Some (find_newline (b_data (r_buf s)))) then (s, Some READ_OK) else
  if b_len (r_buf s) >=? max_buffer_size cfg then (s, Some READ_TOO_LARGE) else
  let to_read := read_limit (b_len (r_buf s)) cfg in
  match steps with
  | [] => (s, None)
  | WaitTimeout :: _ => (s, Some READ_TIMEOUT)
  | WaitError eintr :: steps => if eintr then reader_loop s steps else (s, Some READ_ERROR)
  | ReadError again :: steps => if again then reader_loop s steps else (s, Some READ_ERROR)
  | ReadEof :: _ => (s, Some READ_INCOMPLETE)
  | ReadData available :: steps =>
      let bytes := take (Z.to_nat to_read) available in
      if zlen bytes =? 0 then (s, Some READ_INCOMPLETE) else
      match take_bytes s bytes with
      | inl (s, r) => (s, Some r)
      | inr s => reader_loop s steps
      end
  end.

Definition read_request_line (m : Memory) (b : Buffer) (steps : list ReadStep)
    : ReaderState * option ReadResult :=
  reader_loop (mkReader m b TIER_NORMAL []) steps.

End Reader.

Definition final_tier (r : ReaderState * option ReadResult) : RequestTier :=
  match r with (s, Some READ_OK) => r_tier s | _ => TIER_NORMAL end.

(** ** Growth *)

Lemma grow_round max min_cap c f :
  1 <= c ->
  exists k, k = c + (if c <? GROWTH_THRESHOLD then c else c / 2) /\
    (grow_loop (S f) max min_cap c = grow_loop f max min_cap k /\ k <= max \/
     (exists r, grow_loop (S f) max min_cap c = r /\ r <> OutOfFuel)).
Proof.
  intros Hc. eexists. split; [reflexivity|]. cbn [grow_loop].
  destruct (negb (c <? min_cap)); [right; by eexists|].
  destruct (_ && _); [right; by eexists|]. destruct (_ && _); [right; by eexists|]. cbv zeta.
  destruct (c >? _); [right; by eexists|].
  match goal with |- context [?k >? max] => destruct (Z.gtb_spec k max) end.
  - right. destruct (max <? min_cap); by eexists.
  - left. split; [done|lia].
Qed.

(** Two rounds at least double the capacity, so 129 rounds reach every
    [size_t]. *)
Lemma grow_loop_fuel n max min_cap c :
  1 <= c -> min_cap <= c * 2 ^ Z.of_nat n -> grow_loop (2 * n + 1) max min_cap c <> OutOfFuel.
Proof.
  revert c. induction n as [|n IH]; intros c Hc Hm.
  - cbn [Nat.mul Nat.add grow_loop]. destruct (Z.ltb_spec c min_cap); [simpl in Hm; lia|done].
  - replace (2 * S n + 1)%nat with (S (S (2 * n + 1))) by lia.
    destruct (grow_round max min_cap c (S (2 * n + 1)) Hc) as (k & Hk & [[-> _]|(r & -> & Hr)]); [|done].
    assert (c <= k /\ (c < GROWTH_THRESHOLD -> k = 2 * c) /\ (GROWTH_THRESHOLD <= c -> 2 * k >= 3 * c - 1)) as (K1 & K2 & K3).
    { subst k. pose proof (Z.div_mod c 2 ltac:(lia)). pose proof (Z.mod_pos_bound c 2 ltac:(lia)).
      destruct (Z.ltb_spec c GROWTH_THRESHOLD); lia. }
    destruct (grow_round max min_cap k (2 * n + 1) ltac:(lia)) as (j & Hj & [[-> _]|(r & -> & Hr)]); [|done].
    assert (2 * c <= j) as Hd.
    { subst j. pose proof (Z.div_mod k 2 ltac:(lia)). pose proof (Z.mod_pos_bound k 2 ltac:(lia)).
      unfold GROWTH_THRESHOLD in *. destruct (Z.ltb_spec k (64 * 1024)); lia. }
    apply IH; [lia|]. rewrite Nat2Z.inj_succ, Z.pow_succ_r in Hm by lia.
    pose proof (Z.pow_pos_nonneg 2 (Z.of_nat n)). nia.
Qed.

Lemma grow_loop_bounds fuel max min_cap c c' :
  c <= max -> grow_loop fuel max min_cap c = NewCap c' -> min_cap <= c' <= max.
Proof.
  revert c. induction fuel as [|fuel IH]; intros c Hc; cbn [grow_loop]; [done|].
  destruct (Z.ltb_spec c min_cap); cbn [negb]; [|intros [= <-]; lia].
  destruct (_ && _); [done|]. destruct (_ && _); [done|]. cbv zeta. destruct (c >? _); [done|].
  match goal with |- context [?k >? max] => destruct (Z.gtb_spec k max) end; [|apply IH; lia].
  destruct (Z.ltb_spec max min_cap); [done|]. intros [= <-]. lia.
Qed.

(** With a maximum that leaves room in [size_t] no overflow check fires. *)
Lemma grow_loop_succeeds fuel max min_cap c :
  max <= SIZE_MAX / 4 -> 1 <= c <= max -> min_cap <= max -> grow_loop fuel max min_cap c <> GrowFails.
Proof.
  intros Hx. revert c. induction fuel as [|fuel IH]; intros c Hc Hm; cbn [grow_loop]; [done|].
  change (SIZE_MAX / 4) with 4611686018427387903 in Hx.
  change (SIZE_MAX / 2) with 9223372036854775807. change (SIZE_MAX / 3 * 2) with 12297829382473034410.
  change SIZE_MAX with 18446744073709551615.
  pose proof (Z.div_mod c 2 ltac:(lia)). pose proof (Z.mod_pos_bound c 2 ltac:(lia)).
  destruct (c <? min_cap); cbn [negb]; [|done].
  destruct (Z.gtb_spec c 9223372036854775807); [lia|]. rewrite andb_false_r.
  destruct (Z.gtb_spec c 12297829382473034410); [lia|]. rewrite andb_false_r. cbv zeta.
  set (g := if c <? GROWTH_THRESHOLD then c else c / 2).
  assert (0 <= g <= c) as Hg by (unfold g; destruct (_ <? _); lia).
  destruct (Z.gtb_spec c (18446744073709551615 - g)); [lia|].
  destruct (Z.gtb_spec (c + g) max); [|apply IH; lia].
  destruct (Z.ltb_spec max min_cap); [lia|done].
Qed.

(** ** Appending *)

Definition buf_ok (b : Buffer) : Prop := b_len b = zlen (b_data b) /\ b_len b <= b_cap b /\ 1 <= b_cap b.

Definition max_ok (m : Memory) : Prop := s_max_buffer_size m <= SIZE_MAX / 4.

Lemma grow_spec m b min_cap :
  1 <= b_cap b -> max_ok m ->
  if min_cap <=? Z.max (b_cap b) (s_max_buffer_size m)
  then exists cap, buffer_grow true m b min_cap =
         (m <| g_total_allocated := if b_cap b >=? min_cap then g_total_allocated m
                                    else u64 (g_total_allocated m + (cap - b_cap b)) |>,
          b <| b_cap := cap |>, 0) /\
         min_cap <= cap /\ b_cap b <= cap <= Z.max (b_cap b) (s_max_buffer_size m)
  else buffer_grow true m b min_cap = (m, b, -1).
Proof.
  intros Hc Hm. unfold buffer_grow, max_ok in *. destruct m as [tot mx], b as [d l c].
  cbn [b_cap s_max_buffer_size g_total_allocated] in *.
  destruct (Z.geb_spec c min_cap) as [Hge|Hlt].
  - rewrite (proj2 (Z.leb_le _ _)) by lia. exists c. split; [done|]. lia.
  - destruct (Z.gtb_spec min_cap mx) as [Hgt|Hle].
    + by rewrite (proj2 (Z.leb_gt _ _)) by lia.
    + rewrite (proj2 (Z.leb_le _ _)) by lia.
      pose proof (grow_loop_fuel 64 mx min_cap c Hc) as Hf.
      assert (c <= mx) as Hcm by lia.
      pose proof (grow_loop_succeeds 129 mx min_cap c Hm (conj Hc Hcm) Hle) as Hs.
      pose proof (fun c' => grow_loop_bounds 129 mx min_cap c c' Hcm) as Hb.
      change (SIZE_MAX / 4) with 4611686018427387903 in Hm.
      specialize (Hf ltac:(simpl Z.of_nat; lia)). change (2 * 64 + 1)%nat with 129%nat in Hf.
      destruct (grow_loop 129 mx min_cap c) as [c'| |]; [|done|done].
      specialize (Hb c' eq_refl). exists c'. split; [done|lia].
Qed.

(** A growing buffer.  With allocations that succeed, appending to a well-formed buffer
    terminates and succeeds exactly when the result fits the configured maximum or the
    capacity there already is; then the contents are the old bytes followed by the new ones, the
    capacity covers them and stays within that bound, and [g_total_allocated] moves by
    exactly the change of the capacity; otherwise nothing changes.  The 129 rounds the
    growth loop is given are enough for every size. *)
Theorem buffer_append_exact (m : Memory) (b : Buffer) (data : chars) :
  buf_ok b -> max_ok m -> zlen data < SIZE_MAX / 2 -> b_len b < SIZE_MAX / 2 ->
  let '(m', b', rc) := buffer_append true m b data in
  if b_len b + zlen data <=? Z.max (b_cap b) (s_max_buffer_size m)
  then rc = 0 /\ b_data b' = b_data b ++ data /\ buf_ok b' /\
       b_cap b <= b_cap b' <= Z.max (b_cap b) (s_max_buffer_size m) /\
       (b_cap b' = b_cap b /\ m' = m \/
        m' = m <| g_total_allocated := u64 (g_total_allocated m + (b_cap b' - b_cap b)) |>)
  else rc = -1 /\ m' = m /\ b' = b.
Proof.
  intros (Hl & Hlc & Hc) Hm Hd Hb. unfold buffer_append.
  change (SIZE_MAX / 2) with 9223372036854775807 in *. change SIZE_MAX with 18446744073709551615.
  pose proof (zlen_nonneg data) as Hn. destruct (Z.eqb_spec (zlen data) 0) as [H0|H0].
  - rewrite (proj2 (Z.leb_le _ _)) by lia. destruct data; [|rewrite zlen_cons in H0; pose proof (zlen_nonneg data); lia].
    rewrite app_nil_r. split_and!; [done..|lia|by left].
  - destruct (Z.gtb_spec (b_len b) (18446744073709551615 - zlen data)); [lia|].
    destruct (Z.gtb_spec (b_len b + zlen data) (b_cap b)) as [Hgt|Hle].
    + pose proof (grow_spec m b (b_len b + zlen data) Hc Hm) as Hg.
      destruct (_ <=? _).
      * destruct Hg as (cap & -> & H1 & H2). cbn [negb Z.eqb].
        rewrite Z.geb_leb, (proj2 (Z.leb_gt _ _)) by lia.
        unfold buf_ok. cbn. rewrite zlen_app. split_and!; [done|done|lia..|by right].
      * rewrite Hg. done.
    + rewrite (proj2 (Z.leb_le _ _)) by lia. cbn [negb Z.eqb]. unfold buf_ok. cbn. rewrite zlen_app.
      split_and!; [done|done|lia..|by left].
Qed.

Lemma buffer_append_exact_witness :
  let '(m, b, rc) := buffer_append true initial_memory (mkBuffer (str "GET") 3 4) (str " /health") in
  rc = 0 /\ b_data b = str "GET /health".
Proof.
  pose proof (buffer_append_exact initial_memory (mkBuffer (str "GET") 3 4) (str " /health")) as H.
  assert (buf_ok (mkBuffer (str "GET") 3 4)) as Hb by (split_and!; [reflexivity|cbn; lia..]).
  specialize (H Hb ltac:(vm_compute; discriminate) ltac:(reflexivity) ltac:(reflexivity)).
  destruct (buffer_append _ _ _ _) as [[m b] rc]. simpl (_ <=? _) in H. cbv iota in H.
  destruct H as (H1 & H2 & _). split; [exact H1|exact H2].
Defined.

(** ** Reading *)

(** A [read] never carries the buffer past a threshold it has not reached. *)
Lemma read_size_exact len cfg t :
  0 <= len -> 0 < tier_large_threshold cfg <= tier_huge_threshold cfg -> tier_huge_threshold cfg < 2 ^ 63 ->
  t = tier_large_threshold cfg \/ t = tier_huge_threshold cfg -> len < t ->
  len + calculate_read_size len cfg <= t.
Proof.
  intros Hl Hlh Hh Ht Hlt.
  unfold calculate_read_size, approaching_threshold, THRESHOLD_APPROACH_ZONE, NORMAL_CHUNK_SIZE, u64.
  rewrite wrap_small by lia.
  destruct (Z.ltb_spec len (tier_large_threshold cfg)), (Z.ltb_spec len (tier_huge_threshold cfg)),
    (Z.geb_spec (len + 4096) (tier_large_threshold cfg)), (Z.geb_spec (len + 4096) (tier_huge_threshold cfg));
    cbn [andb]; cbv zeta;
    repeat match goal with
    | |- context [?a >? ?b] => destruct (Z.gtb_spec a b)
    | |- context [?a <=? ?b] => destruct (Z.leb_spec a b)
    end; lia.
Qed.

Lemma read_size_pos len cfg : 1 <= calculate_read_size len cfg.
Proof.
  unfold calculate_read_size. cbv zeta. destruct (_ >? 0); [|done]. destruct (_ <=? _); [|done].
  destruct (Z.gtb_spec (approaching_threshold len cfg - len) 1); lia.
Qed.

Lemma read_limit_spec len cfg :
  0 <= len < max_buffer_size cfg -> max_buffer_size cfg < 2 ^ 63 ->
  1 <= read_limit len cfg /\ read_limit len cfg <= calculate_read_size len cfg /\
  len + read_limit len cfg <= max_buffer_size cfg.
Proof.
  intros Hl Hm. unfold read_limit, u64. pose proof (read_size_pos len cfg).
  set (r := if _ >? NORMAL_CHUNK_SIZE then _ else _).
  assert (1 <= r <= 4096 /\ r <= calculate_read_size len cfg) as [Hr Hr'].
  { unfold r, NORMAL_CHUNK_SIZE. destruct (Z.gtb_spec (calculate_read_size len cfg) 4096); lia. }
  rewrite wrap_small by lia. destruct (Z.gtb_spec (len + r) (max_buffer_size cfg)); lia.
Qed.

(** Appending with any outcome of [realloc]. *)
Lemma append_cases ok m b data m' b' rc :
  buf_ok b -> buffer_append ok m b data = (m', b', rc) ->
  (rc = 0 /\ b_data b' = b_data b ++ data /\ buf_ok b') \/ (rc = -1 /\ b' = b).
Proof.
  intros (Hl & Hlc & Hc). unfold buffer_append. destruct (Z.eqb_spec (zlen data) 0) as [H0|H0].
  - intros [= <- <- <-]. left. destruct data; [|rewrite zlen_cons in H0; pose proof (zlen_nonneg data); lia].
    rewrite app_nil_r. by split_and!.
  - destruct (_ >? _); [intros [= <- <- <-]; by right|]. pose proof (zlen_nonneg data).
    destruct (Z.gtb_spec (b_len b + zlen data) (b_cap b)) as [Hgt|Hle].
    + unfold buffer_grow. destruct (Z.geb_spec (b_cap b) (b_len b + zlen data)); [lia|].
      destruct (Z.gtb_spec (b_len b + zlen data) (s_max_buffer_size m)); [intros [= <- <- <-]; by right|].
      destruct (grow_loop _ _ _ _) as [cap| |] eqn:Eg; [|intros [= <- <- <-]; by right..].
      apply grow_loop_bounds in Eg; [|lia]. destruct ok; [|intros [= <- <- <-]; by right].
      intros [= <- <- <-]. left. unfold buf_ok. cbn. rewrite zlen_app. split_and!; (done || lia).
    + intros [= <- <- <-]. left. unfold buf_ok. cbn. rewrite zlen_app. split_and!; (done || lia).
Qed.

Section ReaderSpec.
Context (cfg : Config) (cb : option (RequestTier -> Z -> Z)) (ok : bool).
Hypothesis thresholds : 0 < tier_large_threshold cfg <= tier_huge_threshold cfg.
Hypothesis huge_fits : tier_huge_threshold cfg < 2 ^ 63.
Hypothesis max_fits : max_buffer_size cfg < 2 ^ 63.

(** A call of the callback at the very byte where the tier begins. *)
Definition exact_call (call : RequestTier * Z) : Prop :=
  call = (TIER_LARGE, tier_large_threshold cfg) \/ call = (TIER_HUGE, tier_huge_threshold cfg).

Record reader_inv (s : ReaderState) : Prop := {
  ri_buf : buf_ok (r_buf s);
  ri_max : b_len (r_buf s) <= Z.max 0 (max_buffer_size cfg);
  ri_tier : r_tier s = size_to_tier (b_len (r_buf s)) cfg;
  ri_calls : Forall exact_call (r_calls s)
}.

(** What holds of the state a call returns with. *)
Record reader_post (s : ReaderState) : Prop := {
  rp_buf : buf_ok (r_buf s);
  rp_max : b_len (r_buf s) <= Z.max 0 (max_buffer_size cfg);
  rp_calls : Forall exact_call (r_calls s)
}.

Lemma crossing_exact len k :
  0 <= len -> 1 <= k <= calculate_read_size len cfg ->
  size_to_tier (len + k) cfg <> size_to_tier len cfg -> exact_call (size_to_tier (len + k) cfg, len + k).
Proof.
  intros Hl Hk. unfold size_to_tier, exact_call.
  pose proof (read_size_exact len cfg _ Hl thresholds huge_fits (or_introl eq_refl)) as H1.
  pose proof (read_size_exact len cfg _ Hl thresholds huge_fits (or_intror eq_refl)) as H2.
  destruct (Z.geb_spec (len + k) (tier_huge_threshold cfg)), (Z.geb_spec len (tier_huge_threshold cfg)),
    (Z.geb_spec (len + k) (tier_large_threshold cfg)), (Z.geb_spec len (tier_large_threshold cfg));
    intros Hne; try done; try lia.
  all: first [right; f_equal; lia | left; f_equal; lia].
Qed.

Lemma take_bytes_spec s bytes :
  reader_inv s -> 1 <= zlen bytes <= calculate_read_size (b_len (r_buf s)) cfg ->
  b_len (r_buf s) + zlen bytes <= max_buffer_size cfg ->
  match take_bytes cfg cb ok s bytes with
  | inl (s', r) => reader_post s' /\ r <> READ_OK
  | inr s' => reader_inv s' /\ b_len (r_buf s') = b_len (r_buf s) + zlen bytes
  end.
Proof.
  intros [Hb Hm Ht Hc] Hk Hmax. unfold take_bytes.
  destruct (buffer_append ok (r_mem s) (r_buf s) bytes) as [[m b] rc] eqn:Ea.
  destruct (append_cases _ _ _ _ _ _ _ Hb Ea) as [(-> & Hd & Hb')|[-> ->]]; [|split; [by split|done]].
  cbn [negb Z.eqb]. pose proof Hb as (Hl & _). pose proof Hb' as (Hl' & _).
  assert (b_len b = b_len (r_buf s) + zlen bytes) as El by (rewrite Hl', Hd, zlen_app, <- Hl; done).
  assert (0 <= b_len (r_buf s)) as H0 by (rewrite Hl; apply zlen_nonneg).
  case_bool_decide as Et.
  - split; [|exact El]. split; cbn; [done|lia|by rewrite <- Et|done].
  - assert (exact_call (size_to_tier (b_len b) cfg, b_len b)) as Hx.
    { rewrite El in *. apply crossing_exact; [done|done|]. by rewrite <- Ht. }
    destruct cb as [f|].
    + destruct (negb _).
      * split; [|done]. split; cbn; [done|lia|]. apply Forall_app. by split; [|constructor].
      * split; [|exact El]. split; cbn; [done|lia|done|]. apply Forall_app. by split; [|constructor].
    + split; [|exact El]. split; cbn; [done|lia|done|done].
Qed.

Definition is_data (s : ReadStep) : bool := match s with ReadData _ => true | _ => false end.

Lemma reader_loop_spec steps s :
  reader_inv s ->
  let '(s', r) := reader_loop cfg cb ok s steps in
  reader_post s' /\
  (r = Some READ_OK -> is_Some (find_newline (b_data (r_buf s'))) /\
                       r_tier s' = size_to_tier (b_len (r_buf s')) cfg) /\
  (max_buffer_size cfg <= b_len (r_buf s) + zlen (List.filter is_data steps) -> r <> None).
Proof.
  revert s. induction steps as [|st steps IH]; intros s Hi; pose proof Hi as [Hb Hm Ht Hc]; cbn [reader_loop].
  - case_bool_decide; [by split_and!|]. destruct (Z.geb_spec (b_len (r_buf s)) (max_buffer_size cfg)); [by split_and!|].
    split_and!; [done|done|]. simpl. rewrite zlen_nil. lia.
  - case_bool_decide; [by split_and!|]. destruct (Z.geb_spec (b_len (r_buf s)) (max_buffer_size cfg)); [by split_and!|].
    assert (reader_post s) as Hp by done.
    destruct st as [|eintr|again| |available]; cbn [List.filter is_data].
    + by split_and!.
    + destruct eintr; [by apply IH|by split_and!].
    + destruct again; [by apply IH|by split_and!].
    + by split_and!.
    + cbv zeta. destruct (Z.eqb_spec (zlen (take (Z.to_nat (read_limit (b_len (r_buf s)) cfg)) available)) 0)
        as [Hz|Hz]; [by split_and!|].
      set (bytes := take _ available) in *.
      assert (0 <= b_len (r_buf s)) as Hpos by (destruct Hb as (-> & _); apply zlen_nonneg).
      destruct (read_limit_spec (b_len (r_buf s)) cfg ltac:(lia) max_fits) as (L1 & L2 & L3).
      assert (1 <= zlen bytes <= read_limit (b_len (r_buf s)) cfg) as Hk.
      { pose proof (zlen_nonneg bytes). split; [lia|]. unfold bytes. rewrite zlen_take. lia. }
      pose proof (take_bytes_spec s bytes Hi ltac:(lia) ltac:(lia)) as Hs.
      destruct (take_bytes cfg cb ok s bytes) as [[s' r]|s'].
      * destruct Hs as [Hs Hr]. split_and!; [done| |done]. intros [= ->]. done.
      * destruct Hs as [Hs El]. specialize (IH s' Hs). destruct (reader_loop cfg cb ok s' steps) as [s2 r2].
        destruct IH as (I1 & I2 & I3). split_and!; [done|done|]. intros Hx. apply I3.
        rewrite zlen_cons in Hx. lia.
Qed.

(** C31: The adaptive reader.  Reading a request line into an empty buffer, with any sequence of
    time-outs, interruptions, errors and data of any size: the tier callback is called only
    at the very byte at which a tier begins, never beyond it; the buffer stays within the
    configured maximum and consistent; READ_OK is returned only when a newline was read, and
    then the tier reported is the tier of the bytes read; and the call cannot go on for ever,
    since it has returned by the time [max_buffer_size] reads have delivered data. *)
Theorem reader_stops_at_thresholds (m : Memory) (cap : Z) (steps : list ReadStep) :
  1 <= cap ->
  let r := read_request_line cfg cb ok m (mkBuffer [] 0 cap) steps in
  Forall exact_call (r_calls (fst r)) /\
  buf_ok (r_buf (fst r)) /\ b_len (r_buf (fst r)) <= Z.max 0 (max_buffer_size cfg) /\
  (snd r = Some READ_OK -> is_Some (find_newline (b_data (r_buf (fst r)))) /\
                           final_tier r = size_to_tier (b_len (r_buf (fst r))) cfg) /\
  (max_buffer_size cfg <= zlen (List.filter is_data steps) -> snd r <> None).
Proof.
  intros Hc r. subst r. unfold read_request_line.
  assert (reader_inv (mkReader m (mkBuffer [] 0 cap) TIER_NORMAL [])) as Hi.
  { split; cbn; [split_and!; cbn; (done || lia)|lia| |constructor].
    unfold size_to_tier. destruct (Z.geb_spec 0 (tier_huge_threshold cfg)); [lia|].
    destruct (Z.geb_spec 0 (tier_large_threshold cfg)); [lia|done]. }
  pose proof (reader_loop_spec steps _ Hi) as Hs.
  destruct (reader_loop _ _ _ _ _) as [s r]. cbn [fst snd b_len r_buf] in *. destruct Hs as ([Hb Hm Hk] & Ho & Hn).
  split_and!; [done|done|done| |by intros; apply Hn; lia].
  intros ->. destruct (Ho eq_refl) as [? ?]. done.
Qed.

End ReaderSpec.

(** Three reads that cross both thresholds of a small configuration. *)
Lemma reader_stops_at_thresholds_witness :
  let cfg := default_values <| tier_large_threshold := 4 |> <| tier_huge_threshold := 6 |> in
  let input := ReadData (str "abcdefg") in
  let r := read_request_line cfg (Some (fun _ _ => 0)) true initial_memory (mkBuffer [] 0 16)
             [input; input; input; input; ReadData [LF]] in
  r_calls (fst r) = [(TIER_LARGE, 4); (TIER_HUGE, 6)] /\
  Forall (exact_call cfg) (r_calls (fst r)) /\ snd r = Some READ_OK.
Proof.
  intros cfg input r.
  destruct (reader_stops_at_thresholds cfg (Some (fun _ _ => 0)) true) with
    (m := initial_memory) (cap := 16) (steps := [input; input; input; input; ReadData [LF]]) as [H _];
    [cbn; lia|reflexivity|reflexivity|lia|].
  split; [vm_compute; reflexivity|]. split; [exact H|vm_compute; reflexivity].
Defined.
