(* ===== verification/Addr.v ===== *)
(** * Client addresses and their hash

    The 16-byte address keys shared by [src/ip_acl.c] and
    [src/rate_limiter.c]: IPv4 addresses are stored as IPv4-mapped IPv6,
    and both tables hash them with FNV-1a.  [inet_pton] is the
    parameter [Inet]. *)
From Stdlib Require Import ZArith Lia Ascii String.
From stdpp Require Import base list numbers strings.
From S2P Require Import Prelude CLib.

#[local] Open Scope Z_scope.

Abbreviation addr := (list Z).

Definition is_byte (z : Z) : Prop := 0 <= z < 256.

(** A buffer of [n] bytes. *)
Definition bytes_wf (n : nat) (a : addr) : Prop := length a = n /\ Forall is_byte a.

(** [inet_pton(AF_INET, ...)] and [inet_pton(AF_INET6, ...)]: [Some] is the
    return value 1 with the address bytes in network order. *)
Class Inet := {
  inet_pton4 : chars -> option addr;
  inet_pton6 : chars -> option addr;
  inet_pton4_wf s a : inet_pton4 s = Some a -> bytes_wf 4 a;
  inet_pton6_wf s a : inet_pton6 s = Some a -> bytes_wf 16 a
}.

(** An IPv4 address as ::ffff:a.b.c.d. *)
Definition map_v4 (a4 : addr) : addr := replicate 10 0 ++ [255; 255] ++ a4.

Section Parse.
Context `{Inet}.

(** [parse_ip_to_addr]: [None] is the return value -1. *)
Definition parse_ip_to_addr (ip_str : chars) : option addr :=
  match inet_pton4 ip_str with
  | Some addr4 => Some (map_v4 addr4)
  | None => inet_pton6 ip_str
  end.

Lemma map_v4_wf a : bytes_wf 4 a -> bytes_wf 16 (map_v4 a).
Proof.
  intros [Hl Hb]. unfold map_v4. split.
  - rewrite !length_app, length_replicate. simpl. lia.
  - apply Forall_app. split; [|repeat constructor; unfold is_byte; (lia || done)].
    apply Forall_replicate. unfold is_byte. lia.
Qed.

Lemma parse_ip_to_addr_wf s a : parse_ip_to_addr s = Some a -> bytes_wf 16 a.
Proof.
  unfold parse_ip_to_addr. destruct (inet_pton4 s) as [a4|] eqn:E.
  - intros [= <-]. eapply map_v4_wf, inet_pton4_wf; eauto.
  - apply inet_pton6_wf.
Qed.

End Parse.

(** FNV-1a over the address bytes, in 32-bit arithmetic. *)
Definition fnv_step (hash b : Z) : Z := u32 (Z.lxor hash b * 16777619).

Definition hash_addr (a : addr) : Z := foldl fnv_step 2166136261 a.

Definition addrs_equal (a b : addr) : bool := bool_decide (a = b).

Lemma hash_addr_range a : 0 <= hash_addr a < 2 ^ 32.
Proof.
  unfold hash_addr. assert (0 <= 2166136261 < 2 ^ 32) as H by lia. revert H.
  generalize 2166136261 as h. induction a as [|b a IH]; intros h Hh; [done|].
  cbn [foldl]. apply IH. unfold fnv_step, u32. apply wrap_range. lia.
Qed.

(** ** A concrete [inet_pton]: dotted quads only *)

Fixpoint split_on (c : ascii) (acc : chars) (l : chars) : list chars :=
  match l with
  | [] => [rev acc]
  | x :: r => if eqc x c then rev acc :: split_on c [] r else split_on c (x :: acc) r
  end.

Definition octet (s : chars) : option Z :=
  let r := strtol s in
  if st_conv r && eqc (deref (st_end r)) NUL && isdigit (deref s) &&
     (0 <=? st_val r) && (st_val r <? 256)
  then Some (st_val r) else None.

Definition dotted_quad (s : chars) : option addr :=
  match split_on "."%char [] s with
  | [a; b; c; d] =>
      match octet a, octet b, octet c, octet d with
      | Some a, Some b, Some c, Some d => Some [a; b; c; d]
      | _, _, _, _ => None
      end
  | _ => None
  end.

Lemma octet_byte s z : octet s = Some z -> is_byte z.
Proof. unfold octet. destruct (_ && _) eqn:E; [|done]. b2p. intros [= <-]. split; lia. Qed.

Lemma dotted_quad_wf s a : dotted_quad s = Some a -> bytes_wf 4 a.
Proof.
  unfold dotted_quad. intros Hd. repeat case_match; simplify_eq. split; [done|].
  repeat (apply Forall_cons; split; [eapply octet_byte; eassumption|]). done.
Qed.

Lemma no_addr_wf a : None = Some a -> bytes_wf 16 a.
Proof. done. Qed.

Definition inet_quad : Inet := {|
  inet_pton4 := dotted_quad;
  inet_pton6 := fun _ => None;
  inet_pton4_wf := dotted_quad_wf;
  inet_pton6_wf := fun _ => no_addr_wf
|}.
