(* ===== verification/HashTable.v ===== *)
(** * Chained hash tables keyed by address

    Both [src/ip_acl.c] and [src/rate_limiter.c] keep an array of chains
    indexed by [hash % num_buckets].  This file states once what makes
    such a table correct (entries sit in the chain of their hash, keys
    are unique) and proves that searching one chain searches the table,
    and that insertion at the head, in-place update and pruning keep it so. *)
From Stdlib Require Import ZArith Lia.
From stdpp Require Import base list numbers.
From S2P Require Import Prelude Addr.

#[local] Open Scope Z_scope.

(** [hash % num_buckets], as an array index. *)
Definition bucket_of (nb : Z) (a : addr) : nat := Z.to_nat (hash_addr a mod nb).

Section Table.
Context {E : Type} (key : E -> addr).

(** The array that [calloc] returns: every chain empty. *)
Definition empty_buckets (nb : Z) : list (list E) := replicate (Z.to_nat nb) [].

(** [rl->buckets\[bucket\]]. *)
Definition chain_at (bs : list (list E)) (i : nat) : list E := default [] (bs !! i).

Record table_wf (nb : Z) (bs : list (list E)) : Prop := {
  tw_pos : 0 < nb;
  tw_length : length bs = Z.to_nat nb;
  tw_placed : forall i chain e, bs !! i = Some chain -> e ∈ chain -> bucket_of nb (key e) = i;
  tw_unique : NoDup (key <$> concat bs)
}.

Lemma bucket_lt nb bs a : table_wf nb bs -> (bucket_of nb a < length bs)%nat.
Proof.
  intros [Hp Hl _ _]. rewrite Hl. unfold bucket_of.
  pose proof (Z.mod_pos_bound (hash_addr a) nb Hp). lia.
Qed.

Lemma elem_of_concat_iff (bs : list (list E)) e :
  e ∈ concat bs <-> exists i chain, bs !! i = Some chain /\ e ∈ chain.
Proof.
  split.
  - induction bs as [|c bs IH]; simpl; [by intros ?%elem_of_nil|].
    intros [Hc|Hb]%elem_of_app; [by exists O, c|].
    destruct (IH Hb) as (i & chain & ? & ?). by exists (S i), chain.
  - intros (i & chain & Hi & He). revert i Hi.
    induction bs as [|c bs IH]; intros [|i] Hi; simplify_eq/=; apply elem_of_app; eauto.
Qed.

Lemma chain_elem nb bs e :
  table_wf nb bs -> e ∈ chain_at bs (bucket_of nb (key e)) <-> e ∈ concat bs.
Proof.
  intros Hwf. rewrite elem_of_concat_iff. unfold chain_at. split.
  - destruct (bs !! _) as [chain|] eqn:Ec; simpl; [eauto|]. by intros ?%elem_of_nil.
  - intros (i & chain & Hi & He). pose proof (tw_placed _ _ Hwf _ _ _ Hi He) as Hb. subst i.
    by rewrite Hi.
Qed.

(** Searching the chain of a key's bucket finds the key iff the table has it. *)
Lemma chain_search nb bs a :
  table_wf nb bs ->
  (exists e, e ∈ chain_at bs (bucket_of nb a) /\ key e = a) <-> a ∈ key <$> concat bs.
Proof.
  intros Hwf. rewrite list_elem_of_fmap. split.
  - intros (e & He & <-). exists e. split; [done|]. by apply (chain_elem nb).
  - intros (e & -> & He). exists e. split; [|done]. by apply (chain_elem nb).
Qed.

Lemma concat_insert_perm (bs : list (list E)) i chain x :
  bs !! i = Some chain -> concat (<[i := x :: chain]> bs) ≡ₚ x :: concat bs.
Proof.
  revert i. induction bs as [|c bs IH]; intros [|i] Hi; simplify_eq/=; [done|].
  rewrite (IH i Hi). by rewrite Permutation_middle.
Qed.

Lemma chain_lookup nb bs a :
  table_wf nb bs -> bs !! bucket_of nb a = Some (chain_at bs (bucket_of nb a)).
Proof.
  intros Hwf. unfold chain_at. destruct (bs !! _) eqn:Eb; [done|].
  apply lookup_ge_None in Eb. pose proof (bucket_lt nb bs a Hwf). lia.
Qed.

Lemma insert_table_wf nb bs x :
  table_wf nb bs -> key x ∉ key <$> concat bs ->
  table_wf nb (<[bucket_of nb (key x) := x :: chain_at bs (bucket_of nb (key x))]> bs).
Proof.
  intros Hwf Hn. pose proof (chain_lookup nb bs (key x) Hwf) as Hc. split.
  - apply Hwf.
  - rewrite length_insert. apply Hwf.
  - intros i chain e Hi He. apply list_lookup_insert_Some in Hi as [(<- & <- & _)|[Hne Hi]].
    + apply elem_of_cons in He as [->|He]; [done|]. by apply (tw_placed _ _ Hwf _ _ _ Hc).
    + by apply (tw_placed _ _ Hwf _ _ _ Hi).
  - rewrite (concat_insert_perm _ _ _ _ Hc). simpl. apply list.NoDup_cons. split; [done|apply Hwf].
Qed.

Lemma insert_table_elem nb bs x e :
  table_wf nb bs ->
  e ∈ concat (<[bucket_of nb (key x) := x :: chain_at bs (bucket_of nb (key x))]> bs)
  <-> e = x \/ e ∈ concat bs.
Proof.
  intros Hwf. rewrite (concat_insert_perm _ _ _ _ (chain_lookup nb bs (key x) Hwf)).
  apply elem_of_cons.
Qed.

Lemma insert_table_count nb bs x :
  table_wf nb bs ->
  zlen (concat (<[bucket_of nb (key x) := x :: chain_at bs (bucket_of nb (key x))]> bs))
  = zlen (concat bs) + 1.
Proof.
  intros Hwf. unfold zlen. rewrite (concat_insert_perm _ _ _ _ (chain_lookup nb bs (key x) Hwf)).
  simpl length. lia.
Qed.

Lemma concat_map_filter (P : E -> bool) (bs : list (list E)) :
  concat (map (List.filter P) bs) = List.filter P (concat bs).
Proof. induction bs as [|c bs IH]; [done|]. simpl. by rewrite IH, List.filter_app. Qed.

Lemma prune_table_wf (P : E -> bool) nb bs :
  table_wf nb bs -> table_wf nb (map (List.filter P) bs).
Proof.
  intros Hwf. split.
  - apply Hwf.
  - rewrite length_map. apply Hwf.
  - intros i chain e Hi He. change (map (List.filter P) bs) with ((List.filter P) <$> bs) in Hi.
    rewrite list_lookup_fmap in Hi. apply fmap_Some in Hi as (c & Hc & ->).
    apply list_elem_of_In, List.filter_In in He as [He _].
    apply list_elem_of_In in He. by apply (tw_placed _ _ Hwf _ _ _ Hc).
  - rewrite concat_map_filter. pose proof (tw_unique _ _ Hwf) as Hn. revert Hn.
    induction (concat bs) as [|e es IH]; simpl; [done|].
    intros [Hni Hn]%list.NoDup_cons. destruct (P e); simpl; [|auto].
    apply list.NoDup_cons. split; [|auto]. intros (e' & Heq & Hin)%list_elem_of_fmap.
    apply Hni. apply list_elem_of_fmap. exists e'. split; [done|].
    apply list_elem_of_In, List.filter_In in Hin as [Hin _]. by apply list_elem_of_In.
Qed.

(** Replacing a chain by one with the same keys. *)
Lemma rekey_concat (bs : list (list E)) i chain chain' :
  bs !! i = Some chain -> key <$> chain' = key <$> chain ->
  key <$> concat (<[i := chain']> bs) = key <$> concat bs.
Proof.
  intros Hi Hk. revert i Hi. induction bs as [|c bs IH]; intros [|i] Hi; simplify_eq/=.
  - by rewrite !fmap_app, Hk.
  - by rewrite !fmap_app, (IH i Hi).
Qed.

Lemma rekey_table_wf nb bs i chain chain' :
  table_wf nb bs -> bs !! i = Some chain -> key <$> chain' = key <$> chain ->
  table_wf nb (<[i := chain']> bs).
Proof.
  intros Hwf Hi Hk. split.
  - apply Hwf.
  - rewrite length_insert. apply Hwf.
  - intros j c e Hj He. apply list_lookup_insert_Some in Hj as [(<- & <- & _)|[_ Hj]];
      [|by apply (tw_placed _ _ Hwf _ _ _ Hj)].
    assert (key e ∈ key <$> chain) as (e0 & -> & He0)%list_elem_of_fmap
      by (rewrite <- Hk; by apply list_elem_of_fmap_2).
    by apply (tw_placed _ _ Hwf _ _ _ Hi).
  - rewrite (rekey_concat bs i chain) by done. apply Hwf.
Qed.

Lemma rekey_count bs i chain chain' :
  bs !! i = Some chain -> key <$> chain' = key <$> chain ->
  zlen (concat (<[i := chain']> bs)) = zlen (concat bs).
Proof.
  intros Hi Hk. unfold zlen. rewrite <- !(length_fmap key (concat _)).
  by rewrite (rekey_concat bs i chain).
Qed.

Lemma concat_insert_elem (bs : list (list E)) i chain' e :
  e ∈ concat (<[i := chain']> bs) -> e ∈ chain' \/ e ∈ concat bs.
Proof.
  rewrite !elem_of_concat_iff. intros (j & c & Hj & He).
  apply list_lookup_insert_Some in Hj as [(_ & <- & _)|[_ Hj]]; [by left|right; eauto].
Qed.

Lemma empty_table_concat nb : concat (empty_buckets nb) = [].
Proof. unfold empty_buckets. induction (Z.to_nat nb); simpl; auto. Qed.

Lemma chain_at_empty nb i : chain_at (empty_buckets nb) i = [].
Proof.
  unfold chain_at, empty_buckets. destruct (replicate _ _ !! _) as [ch|] eqn:El; [|done].
  by apply lookup_replicate in El as [-> _].
Qed.

Lemma empty_table_wf nb : 0 < nb -> table_wf nb (empty_buckets nb).
Proof.
  intros Hp. split; [done|apply length_replicate| |].
  - intros i chain e [-> _]%lookup_replicate He. by apply elem_of_nil in He.
  - rewrite empty_table_concat. constructor.
Qed.

End Table.

#[global] Arguments empty_buckets : simpl never.
