(* ===== verification/IpAcl.v ===== *)
(** * IP access lists ([src/ip_acl.c], [include/ip_acl.h])

    Exact addresses live in a chained hash table, CIDR ranges in a list;
    a context holds a blocklist and an allowlist.  [inet_pton] is the
    [Inet] parameter, and the outcome of each [malloc] an argument. *)
From Stdlib Require Import ZArith Lia Ascii String.
From stdpp Require Import base list numbers strings.
From S2P Require Import Prelude CLib Addr HashTable.

#[local] Open Scope Z_scope.

Definition IP_ACL_HASH_SIZE : Z := 1024.
Definition INET6_ADDRSTRLEN : Z := 46.

Record ACLEntry := mkACLEntry { e_addr : addr; prefix_len : Z }.

(** A chain of entries is the list of its nodes; a NULL table is [None]. *)
Record IpACL := mkIpACL {
  exact_buckets : option (list (list ACLEntry));
  num_exact_buckets : Z;
  num_exact_entries : Z;
  cidr_entries : list ACLEntry;
  num_cidr_entries : Z;
  source_file : chars
}.

#[export] Instance eta_IpACL : Eta IpACL := fun r =>
  mkIpACL (exact_buckets r) (num_exact_buckets r) (num_exact_entries r)
          (cidr_entries r) (num_cidr_entries r) (source_file r).

Record IpACLContext := mkContext { blocklist : IpACL; allowlist : IpACL }.

Inductive IpACLResult := IP_ACL_ALLOW | IP_ACL_BLOCK | IP_ACL_NEUTRAL.

#[export] Instance ACLEntry_eq_dec : EqDecision ACLEntry.
Proof. solve_decision. Defined.
#[export] Instance IpACLResult_eq_dec : EqDecision IpACLResult.
Proof. solve_decision. Defined.

Definition cidr_match (a network : addr) (plen : Z) : bool :=
  let full_bytes := plen / 8 in
  let remaining_bits := plen mod 8 in
  if (full_bytes >? 0) &&
     negb (bool_decide (take (Z.to_nat full_bytes) a = take (Z.to_nat full_bytes) network))
  then false else
  if (remaining_bits >? 0) && (full_bytes <? 16) then
    let mask := Z.land (Z.shiftl 255 (8 - remaining_bits)) 255 in
    if negb (Z.land (nth (Z.to_nat full_bytes) a 0) mask =?
             Z.land (nth (Z.to_nat full_bytes) network 0) mask)
    then false else true
  else true.

Definition acl_zero : IpACL :=
  {| exact_buckets := None; num_exact_buckets := 0; num_exact_entries := 0;
     cidr_entries := []; num_cidr_entries := 0; source_file := [] |}.

(** The structure and the return value. *)
Definition ip_acl_init (calloc_ok : bool) : IpACL * Z :=
  if negb calloc_ok then (acl_zero, -1) else
  ({| exact_buckets := Some (empty_buckets IP_ACL_HASH_SIZE);
      num_exact_buckets := IP_ACL_HASH_SIZE; num_exact_entries := 0;
      cidr_entries := []; num_cidr_entries := 0; source_file := [] |}, 0).

Definition ip_acl_free (acl : IpACL) : IpACL :=
  acl <| exact_buckets := None |> <| cidr_entries := [] |>
      <| num_exact_entries := 0 |> <| num_cidr_entries := 0 |>.

Definition add_exact_entry (malloc_ok : bool) (acl : IpACL) (a : addr) : IpACL * Z :=
  match exact_buckets acl with
  | None => (acl, -1)
  | Some bs =>
      let b := bucket_of (num_exact_buckets acl) a in
      let chain := chain_at bs b in
      if existsb (fun e => addrs_equal (e_addr e) a) chain then (acl, 0) else
      if negb malloc_ok then (acl, -1) else
      let entry := {| e_addr := a; prefix_len := 128 |} in
      (acl <| exact_buckets := Some (<[b := entry :: chain]> bs) |>
           <| num_exact_entries ::= Z.succ |>, 0)
  end.

Definition add_cidr_entry (malloc_ok : bool) (acl : IpACL) (a : addr) (plen : Z) : IpACL * Z :=
  if existsb (fun e => addrs_equal (e_addr e) a && (prefix_len e =? plen)) (cidr_entries acl)
  then (acl, 0) else
  if negb malloc_ok then (acl, -1) else
  (acl <| cidr_entries ::= cons {| e_addr := a; prefix_len := plen |} |>
       <| num_cidr_entries ::= Z.succ |>, 0).

Section WithInet.
Context `{Inet}.

(** [Some (addr, prefix_len)] is the return value 0. *)
Definition parse_cidr (cidr_str : chars) : option (addr * Z) :=
  match strchr cidr_str "/"%char with
  | None => None
  | Some ip_len =>
      if Z.of_nat ip_len >=? INET6_ADDRSTRLEN then None else
      let ip_part := take ip_len cidr_str in
      let prefix := atoi (drop (S ip_len) cidr_str) in
      match inet_pton4 ip_part with
      | Some addr4 =>
          if (prefix <? 0) || (prefix >? 32) then None
          else Some (map_v4 addr4, u8 (96 + prefix))
      | None =>
          match inet_pton6 ip_part with
          | Some addr6 =>
              if (prefix <? 0) || (prefix >? 128) then None
              else Some (addr6, u8 prefix)
          | None => None
          end
      end
  end.

(** One line of the file: the state is the list, the number of entries
    loaded and the line number, which also indexes the [malloc] outcomes. *)
Definition acl_line (malloc : Z -> bool) (st : IpACL * Z * Z) (line : chars) : IpACL * Z * Z :=
  let '(acl, count, line_num) := st in
  let line_num := line_num + 1 in
  let trimmed := trim line in
  if eqc (deref trimmed) NUL || eqc (deref trimmed) "#"%char then (acl, count, line_num) else
  match strchr trimmed "/"%char with
  | Some _ =>
      match parse_cidr trimmed with
      | None => (acl, count, line_num)
      | Some (a, plen) =>
          let '(acl', rc) := add_cidr_entry (malloc line_num) acl a plen in
          if rc <? 0 then (acl', count, line_num) else (acl', count + 1, line_num)
      end
  | None =>
      match parse_ip_to_addr trimmed with
      | None => (acl, count, line_num)
      | Some a =>
          let '(acl', rc) := add_exact_entry (malloc line_num) acl a in
          if rc <? 0 then (acl', count, line_num) else (acl', count + 1, line_num)
      end
  end.

(** [file] is what [fopen] finds at [path]. *)
Definition ip_acl_load_file (malloc : Z -> bool) (acl : IpACL) (path : chars)
    (file : option chars) : IpACL * Z :=
  if eqc (deref path) NUL then (acl, 0) else
  match file with
  | None => (acl, -1)
  | Some text =>
      let acl := acl <| source_file := strncpy 255 path |> in
      let '(acl, count, _) := foldl (acl_line malloc) (acl, 0, 0) (file_lines 511 text) in
      (acl, count)
  end.

Definition ip_acl_contains (acl : IpACL) (ip_str : chars) : bool :=
  match exact_buckets acl with
  | None => false
  | Some bs =>
      match parse_ip_to_addr ip_str with
      | None => false
      | Some a =>
          let chain := chain_at bs (bucket_of (num_exact_buckets acl) a) in
          if existsb (fun e => addrs_equal (e_addr e) a) chain then true
          else existsb (fun e => cidr_match a (e_addr e) (prefix_len e)) (cidr_entries acl)
      end
  end.

Definition ip_acl_check (ctx : option IpACLContext) (ip_str : chars) : IpACLResult :=
  match ctx with
  | None => IP_ACL_NEUTRAL
  | Some ctx =>
      if ip_acl_contains (blocklist ctx) ip_str then IP_ACL_BLOCK else
      if ip_acl_contains (allowlist ctx) ip_str then IP_ACL_ALLOW else
      IP_ACL_NEUTRAL
  end.

End WithInet.

(** The two [calloc] outcomes are arguments. *)
Definition ip_acl_context_init (ok1 ok2 : bool) : IpACLContext * Z :=
  let '(b, rb) := ip_acl_init ok1 in
  if rb <? 0 then ({| blocklist := b; allowlist := acl_zero |}, -1) else
  let '(a, ra) := ip_acl_init ok2 in
  if ra <? 0 then ({| blocklist := ip_acl_free b; allowlist := a |}, -1) else
  ({| blocklist := b; allowlist := a |}, 0).

Definition ip_acl_context_free (ctx : IpACLContext) : IpACLContext :=
  {| blocklist := ip_acl_free (blocklist ctx); allowlist := ip_acl_free (allowlist ctx) |}.

Definition ip_acl_stats (acl : option IpACL) : chars :=
  match acl with
  | None => str "disabled"
  | Some acl => snprintf 256 (print_dec (num_exact_entries acl) ++ str " exact + " ++
                              print_dec (num_cidr_entries acl) ++ str " CIDR entries")
  end.

(** ** Matching a range is matching its leading bits *)

(** Bit [i] of an address, counted from the most significant. *)
Definition addr_bit (a : addr) (i : Z) : bool :=
  Z.testbit (nth (Z.to_nat (i / 8)) a 0) (7 - i mod 8).

Definition same_prefix (a b : addr) (plen : Z) : Prop :=
  forall i, 0 <= i < plen -> addr_bit a i = addr_bit b i.

Lemma testbit_byte_high z k : is_byte z -> 8 <= k -> Z.testbit z k = false.
Proof.
  intros Hz Hk. unfold is_byte in Hz. destruct (Z.eq_dec z 0) as [->|]; [apply Z.bits_0|].
  apply Z.bits_above_log2; [lia|]. apply Z.log2_lt_pow2; [lia|].
  assert (2 ^ 8 <= 2 ^ k) by (apply Z.pow_le_mono_r; lia). lia.
Qed.

(** Two bytes agree on their top [r] bits exactly when the masked bytes agree. *)
Lemma mask_bits a b r :
  is_byte a -> is_byte b -> 0 <= r <= 8 ->
  (forall k, 8 - r <= k < 8 -> Z.testbit a k = Z.testbit b k) <->
  Z.land a (Z.land (Z.shiftl 255 (8 - r)) 255) = Z.land b (Z.land (Z.shiftl 255 (8 - r)) 255).
Proof.
  intros Ha Hb Hr.
  assert (forall k, 0 <= k -> Z.testbit (Z.land (Z.shiftl 255 (8 - r)) 255) k
    = (8 - r <=? k) && (k <? 8)) as Hm.
  { intros k Hk. rewrite Z.land_spec, Z.shiftl_spec by lia. change 255 with (Z.ones 8).
    rewrite !Z.testbit_ones by lia.
    destruct (Z.leb_spec 0 (k - (8 - r))), (Z.ltb_spec (k - (8 - r)) 8), (Z.leb_spec 0 k),
      (Z.ltb_spec k 8), (Z.leb_spec (8 - r) k); simpl; (done || lia). }
  revert Hm. generalize (Z.land (Z.shiftl 255 (8 - r)) 255) as mask. intros mask Hm. split.
  - intros H. apply Z.bits_inj'. intros k Hk. rewrite !Z.land_spec, Hm by done.
    destruct (Z.leb_spec (8 - r) k), (Z.ltb_spec k 8); simpl; rewrite ?andb_false_r; try done.
    by rewrite H by lia.
  - intros H k Hk. apply (f_equal (fun z => Z.testbit z k)) in H.
    rewrite !Z.land_spec, Hm in H by lia.
    replace (8 - r <=? k) with true in H by (symmetry; apply Z.leb_le; lia).
    replace (k <? 8) with true in H by (symmetry; apply Z.ltb_lt; lia).
    by rewrite !andb_true_r in H.
Qed.

Lemma byte_bits a b : is_byte a -> is_byte b ->
  (forall k, 0 <= k < 8 -> Z.testbit a k = Z.testbit b k) -> a = b.
Proof.
  intros Ha Hb H. apply Z.bits_inj'. intros k Hk.
  destruct (Z.lt_ge_cases k 8); [apply H; lia|]. by rewrite !testbit_byte_high.
Qed.

Lemma bytes_nth n a i : bytes_wf n a -> is_byte (nth i a 0).
Proof.
  intros [Hl Hb]. destruct (decide (i < length a)%nat).
  - rewrite Forall_forall in Hb. apply Hb, list_elem_of_In, nth_In. done.
  - rewrite nth_overflow by lia. unfold is_byte. lia.
Qed.

Lemma take_eq_nth (n : nat) (a b : addr) :
  (n <= length a)%nat -> length a = length b ->
  take n a = take n b <-> forall j, (j < n)%nat -> nth j a 0 = nth j b 0.
Proof.
  revert a b. induction n as [|n IH]; intros a b Hn Hl.
  - rewrite !take_0. split; [intros; lia|done].
  - destruct a as [|x a], b as [|y b]; simpl in *; try lia.
    split.
    + intros [= -> H] [|j] Hj; [done|]. apply (IH a b); [lia..|done|lia].
    + intros H. f_equal; [exact (H O ltac:(lia))|].
      apply IH; [lia..|]. intros j Hj. exact (H (S j) ltac:(lia)).
Qed.

Lemma same_prefix_split a b p :
  bytes_wf 16 a -> bytes_wf 16 b -> 0 <= p ->
  same_prefix a b p <->
  (forall j : nat, Z.of_nat j < p / 8 -> nth j a 0 = nth j b 0) /\
  (forall k, 8 - p mod 8 <= k < 8 ->
     Z.testbit (nth (Z.to_nat (p / 8)) a 0) k = Z.testbit (nth (Z.to_nat (p / 8)) b 0) k).
Proof.
  intros Ha Hb Hp. pose proof (Z.div_mod p 8 ltac:(lia)) as Hd.
  pose proof (Z.mod_pos_bound p 8 ltac:(lia)) as Hm.
  assert (forall q k, 0 <= q -> 0 <= k < 8 -> 8 * q + (7 - k) < p -> same_prefix a b p ->
    Z.testbit (nth (Z.to_nat q) a 0) k = Z.testbit (nth (Z.to_nat q) b 0) k) as Hbit.
  { intros q k Hq Hk Hlt Hs. specialize (Hs (8 * q + (7 - k)) ltac:(lia)). unfold addr_bit in Hs.
    replace ((8 * q + (7 - k)) / 8) with q in Hs by (apply (Z.div_unique _ _ q (7 - k)); lia).
    replace ((8 * q + (7 - k)) mod 8) with (7 - k) in Hs
      by (apply (Z.mod_unique _ _ q (7 - k)); lia).
    by replace (7 - (7 - k)) with k in Hs by lia. }
  split.
  - intros Hs. split.
    + intros j Hj. apply byte_bits; [by eapply bytes_nth..|]. intros k Hk.
      specialize (Hbit (Z.of_nat j) k). rewrite Nat2Z.id in Hbit. apply Hbit; (done || lia).
    + intros k Hk. apply Hbit; (done || lia).
  - intros [Hfull Hrem] i Hi. unfold addr_bit.
    pose proof (Z.div_mod i 8 ltac:(lia)) as Hdi.
    pose proof (Z.mod_pos_bound i 8 ltac:(lia)) as Hmi.
    destruct (Z.lt_ge_cases (i / 8) (p / 8)).
    + assert (0 <= i / 8) by (apply Z.div_pos; lia). by rewrite Hfull by lia.
    + assert (i / 8 <= p / 8) by (apply Z.div_le_mono; lia).
      replace (i / 8) with (p / 8) in * by lia. apply Hrem. lia.
Qed.

Lemma cidr_match_spec a b p :
  bytes_wf 16 a -> bytes_wf 16 b -> 0 <= p <= 128 ->
  cidr_match a b p = true <-> same_prefix a b p.
Proof.
  intros Ha Hb Hp. rewrite same_prefix_split by (done || lia). unfold cidr_match.
  pose proof (Z.div_mod p 8 ltac:(lia)) as Hd. pose proof (Z.mod_pos_bound p 8 ltac:(lia)) as Hm.
  assert (0 <= p / 8 <= 16) as Hf by (split; [apply Z.div_pos|apply (Z.div_le_mono p 128 8)]; lia).
  destruct Ha as [Hla Hba] eqn:EA, Hb as [Hlb Hbb] eqn:EB. clear EA EB.
  assert ((take (Z.to_nat (p / 8)) a = take (Z.to_nat (p / 8)) b) <->
          (forall j : nat, Z.of_nat j < p / 8 -> nth j a 0 = nth j b 0)) as Ht.
  { rewrite take_eq_nth by lia. split; intros Hj j Hlt; apply Hj; lia. }
  rewrite <- Ht.
  destruct ((p / 8 >? 0) && _) eqn:E1.
  { b2p. apply bool_decide_eq_false in H0. split; [done|]. by intros [? _]. }
  assert (take (Z.to_nat (p / 8)) a = take (Z.to_nat (p / 8)) b) as Heq.
  { apply andb_false_iff in E1 as [E1|E1]; b2p.
    - replace (p / 8) with 0 by lia. by rewrite !take_0.
    - by apply bool_decide_eq_true in E1. }
  destruct ((p mod 8 >? 0) && (p / 8 <? 16)) eqn:E2.
  - b2p. rewrite (mask_bits _ _ (p mod 8)); [|by eapply (bytes_nth 16)..|lia].
    destruct (_ =? _) eqn:E3; b2p; simpl; (split; [done|]); [done|by intros [_ ?]].
  - assert (p mod 8 = 0) as Hz.
    { apply andb_false_iff in E2 as [E2|E2]; b2p; [lia|].
      replace (p / 8) with 16 in Hd by lia. lia. }
    split; [|done]. intros _. split; [done|]. intros k Hk. lia.
Qed.

(** ** The lists as sets of addresses *)

Definition acl_exact (acl : IpACL) : list ACLEntry := concat (default [] (exact_buckets acl)).

(** The addresses a loaded list covers. *)
Definition covered (acl : IpACL) (a : addr) : Prop :=
  a ∈ e_addr <$> acl_exact acl \/
  exists e, e ∈ cidr_entries acl /\ same_prefix a (e_addr e) (prefix_len e).

Definition range_ok (e : ACLEntry) : Prop := bytes_wf 16 (e_addr e) /\ 0 <= prefix_len e <= 128.

Record acl_wf (acl : IpACL) : Prop := {
  aw_table : exists bs, exact_buckets acl = Some bs /\ table_wf e_addr (num_exact_buckets acl) bs;
  aw_count : num_exact_entries acl = zlen (acl_exact acl);
  aw_ranges : Forall range_ok (cidr_entries acl);
  aw_nodup : NoDup (cidr_entries acl);
  aw_cidr_count : num_cidr_entries acl = zlen (cidr_entries acl)
}.

Lemma acl_exact_init : acl_exact (fst (ip_acl_init true)) = [].
Proof. exact (empty_table_concat IP_ACL_HASH_SIZE). Qed.

Lemma ip_acl_init_wf : acl_wf (fst (ip_acl_init true)).
Proof.
  split.
  - eexists. split; [done|]. by apply empty_table_wf.
  - by rewrite acl_exact_init.
  - constructor.
  - constructor.
  - done.
Qed.

Lemma covered_init a : ~ covered (fst (ip_acl_init true)) a.
Proof.
  unfold covered. rewrite acl_exact_init.
  intros [Hn|(e & He & _)]; [by apply elem_of_nil in Hn|by apply elem_of_nil in He].
Qed.

Lemma existsb_addr a (chain : list ACLEntry) :
  existsb (fun e => addrs_equal (e_addr e) a) chain = true <->
  exists e, e ∈ chain /\ e_addr e = a.
Proof.
  rewrite existsb_exists. unfold addrs_equal.
  split; intros (e & He & Ha); exists e; split; try (by apply list_elem_of_In).
  - by apply bool_decide_eq_true in Ha.
  - by apply bool_decide_eq_true.
Qed.

Lemma add_exact_spec acl a :
  acl_wf acl ->
  let '(acl', rc) := add_exact_entry true acl a in
  rc = 0 /\ acl_wf acl' /\ (forall b, covered acl' b <-> covered acl b \/ b = a).
Proof.
  intros Hwf. pose proof Hwf as [(bs & Hbs & Ht) Hc Hr Hn Hcc].
  unfold add_exact_entry. rewrite Hbs.
  assert (acl_exact acl = concat bs) as Hex by (unfold acl_exact; by rewrite Hbs).
  destruct (existsb _ _) eqn:Ex; cbn [negb].
  - split_and!; [done..|]. intros b. split; [auto|]. intros [?| ->]; [done|].
    left. rewrite Hex. apply existsb_addr in Ex. by apply (chain_search e_addr) in Ex.
  - set (x := {| e_addr := a; prefix_len := 128 |}).
    assert (a ∉ e_addr <$> concat bs) as Hni.
    { intros Hin. apply (chain_search e_addr (num_exact_buckets acl)) in Hin; [|done].
      apply existsb_addr in Hin. congruence. }
    pose proof (insert_table_wf e_addr _ bs x Ht Hni) as Ht'.
    pose proof (insert_table_count e_addr _ bs x Ht) as Hcnt.
    pose proof (fun e => insert_table_elem e_addr _ bs x e Ht) as Hel.
    cbn [e_addr x] in Ht', Hcnt, Hel. split_and!; [done| |].
    + split; simpl; [by eexists| |done..]. unfold acl_exact. simpl. rewrite Hcnt, Hc, Hex. lia.
    + intros b. unfold covered, acl_exact. simpl. rewrite Hbs. simpl.
      rewrite !list_elem_of_fmap. setoid_rewrite Hel. split.
      * intros [(e & -> & [->|He])|Hr']; [by right|left; left; eauto|left; by right].
      * intros [[(e & -> & He)|Hr']| ->]; [left; eauto|by right|left].
        exists x. by split; [|left].
Qed.

Lemma add_cidr_spec acl a p :
  acl_wf acl -> bytes_wf 16 a -> 0 <= p <= 128 ->
  let '(acl', rc) := add_cidr_entry true acl a p in
  rc = 0 /\ acl_wf acl' /\ (forall b, covered acl' b <-> covered acl b \/ same_prefix b a p).
Proof.
  intros Hwf Ha Hp. unfold add_cidr_entry. destruct (existsb _ _) eqn:Ex; cbn [negb].
  - split_and!; [done..|]. intros b. split; [auto|]. intros [?|Hs]; [done|]. right.
    apply existsb_exists in Ex as (e & He & Hq). b2p. apply bool_decide_eq_true in H.
    exists e. split; [by apply list_elem_of_In|]. by subst.
  - destruct Hwf as [Ht Hc Hr Hn Hcc]. split_and!; [done| |].
    + split; simpl; [done..| | |].
      * constructor; [|done]. by split.
      * apply list.NoDup_cons. split; [|done]. intros Hin.
        assert (existsb (fun e => addrs_equal (e_addr e) a && (prefix_len e =? p))
                  (cidr_entries acl) = true) as Hx.
        { apply existsb_exists. eexists. split; [by apply list_elem_of_In|]. simpl.
          apply andb_true_iff. split; [by apply bool_decide_eq_true|by apply Z.eqb_eq]. }
        congruence.
      * rewrite zlen_cons. lia.
    + intros b. unfold covered. simpl. setoid_rewrite elem_of_cons. split.
      * intros [?|(e & [->|He] & Hs)]; [left; by left|by right|left; right; eauto].
      * intros [[?|(e & He & Hs)]|Hs]; [by left|right; eauto|right].
        eexists. split; [by left|done].
Qed.

Section Loading.
Context `{Inet}.

(** What one line of the file asks for. *)
Inductive acl_item := ItemExact (a : addr) | ItemRange (a : addr) (plen : Z).

Definition line_item (line : chars) : option acl_item :=
  let trimmed := trim line in
  if eqc (deref trimmed) NUL || eqc (deref trimmed) "#"%char then None else
  match strchr trimmed "/"%char with
  | Some _ => (fun '(a, p) => ItemRange a p) <$> parse_cidr trimmed
  | None => ItemExact <$> parse_ip_to_addr trimmed
  end.

Definition item_covers (i : acl_item) (b : addr) : Prop :=
  match i with ItemExact a => b = a | ItemRange a p => same_prefix b a p end.

Lemma parse_cidr_wf s a p : parse_cidr s = Some (a, p) -> bytes_wf 16 a /\ 0 <= p <= 128.
Proof.
  unfold parse_cidr. destruct (strchr _ _); [|done]. destruct (_ >=? _); [done|].
  destruct (inet_pton4 _) as [a4|] eqn:E4.
  - destruct (_ || _) eqn:Ep; [done|]. intros [= <- <-]. b2p. unfold u8.
    rewrite wrap_small by lia. split; [|lia]. eapply map_v4_wf, inet_pton4_wf; eauto.
  - destruct (inet_pton6 _) as [a6|] eqn:E6; [|done].
    destruct (_ || _) eqn:Ep; [done|]. intros [= <- <-]. b2p. unfold u8.
    rewrite wrap_small by lia. split; [|lia]. eapply inet_pton6_wf; eauto.
Qed.

Lemma acl_line_spec acl n k line :
  acl_wf acl ->
  let '(acl', n', k') := acl_line (fun _ => true) (acl, n, k) line in
  acl_wf acl' /\ n' = n + (if line_item line is Some _ then 1 else 0) /\
  (forall b, covered acl' b <-> covered acl b \/
     exists i, line_item line = Some i /\ item_covers i b).
Proof.
  intros Hwf. unfold acl_line, line_item.
  destruct (_ || _); [split_and!; [done|lia|naive_solver]|].
  destruct (strchr _ _).
  - destruct (parse_cidr (trim line)) as [[a p]|] eqn:Ep; simpl;
      [|split_and!; [done|lia|naive_solver]].
    destruct (parse_cidr_wf _ _ _ Ep) as [Ha Hp].
    pose proof (add_cidr_spec acl a p Hwf Ha Hp) as Hs.
    destruct (add_cidr_entry true acl a p) as [acl' rc]. destruct Hs as (-> & Hw & Hc). simpl.
    split_and!; [done|lia|]. intros b. rewrite Hc. naive_solver.
  - destruct (parse_ip_to_addr (trim line)) as [a|] eqn:Ep; simpl;
      [|split_and!; [done|lia|naive_solver]].
    pose proof (add_exact_spec acl a Hwf) as Hs.
    destruct (add_exact_entry true acl a) as [acl' rc]. destruct Hs as (-> & Hw & Hc). simpl.
    split_and!; [done|lia|]. intros b. rewrite Hc. naive_solver.
Qed.

Lemma acl_lines_spec lines : forall acl n k,
  acl_wf acl ->
  let '(acl', n', k') := foldl (acl_line (fun _ => true)) (acl, n, k) lines in
  acl_wf acl' /\ n' = n + zlen (omap line_item lines) /\
  (forall b, covered acl' b <-> covered acl b \/
     exists line i, line ∈ lines /\ line_item line = Some i /\ item_covers i b).
Proof.
  induction lines as [|line lines IH]; intros acl n k Hwf; cbn [foldl].
  - split_and!; [done|simpl; rewrite zlen_nil; lia|]. intros b. split; [auto|].
    intros [?|(l & i & Hl & _)]; [done|]. by apply elem_of_nil in Hl.
  - pose proof (acl_line_spec acl n k line Hwf) as Hl.
    destruct (acl_line _ (acl, n, k) line) as [[acl1 n1] k1]. destruct Hl as (Hw1 & -> & Hc1).
    specialize (IH acl1 (n + (if line_item line is Some _ then 1 else 0)) k1 Hw1).
    destruct (foldl _ _ lines) as [[acl2 n2] k2]. destruct IH as (Hw2 & -> & Hc2).
    split_and!; [done| |].
    + csimpl. destruct (line_item line); unfold zlen; cbn [length]; lia.
    + intros b. rewrite Hc2, Hc1. setoid_rewrite elem_of_cons. naive_solver.
Qed.

Lemma contains_spec acl ip :
  acl_wf acl ->
  ip_acl_contains acl ip = true <->
  exists a, parse_ip_to_addr ip = Some a /\ covered acl a.
Proof.
  intros [(bs & Hbs & Ht) Hc Hr Hn Hcc]. unfold ip_acl_contains. rewrite Hbs.
  destruct (parse_ip_to_addr ip) as [a|] eqn:Ep; [|naive_solver].
  assert (bytes_wf 16 a) as Ha by (eapply parse_ip_to_addr_wf; eauto).
  assert (existsb (fun e => addrs_equal (e_addr e) a)
            (chain_at bs (bucket_of (num_exact_buckets acl) a)) = true
          <-> a ∈ e_addr <$> acl_exact acl) as Hex.
  { rewrite existsb_addr. unfold acl_exact. rewrite Hbs. by apply (chain_search e_addr). }
  assert (existsb (fun e => cidr_match a (e_addr e) (prefix_len e)) (cidr_entries acl) = true
          <-> exists e, e ∈ cidr_entries acl /\ same_prefix a (e_addr e) (prefix_len e)) as Hci.
  { rewrite existsb_exists. rewrite Forall_forall in Hr.
    split; intros (e & He & Hm); exists e; (split; [by apply list_elem_of_In|]);
      (assert (range_ok e) as [??] by (apply Hr; (done || by apply list_elem_of_In)));
      by apply cidr_match_spec. }
  destruct (existsb (fun e => addrs_equal (e_addr e) a) _).
  - split; [|done]. intros _. exists a. split; [done|]. left. by apply Hex.
  - rewrite Hci. split.
    + intros He. exists a. split; [done|by right].
    + intros (a' & [= <-] & [Hx|Hx]); [by apply Hex in Hx|done].
Qed.

End Loading.

(** ** What the lists promise *)

(** [cidr_match] compares exactly the leading [plen] bits: an address matches
    [network]/[plen] iff it agrees with it on every bit before position [plen]. *)
Theorem cidr_match_prefix (a network : addr) (plen : Z) :
  bytes_wf 16 a -> bytes_wf 16 network -> 0 <= plen <= 128 ->
  cidr_match a network plen = true <-> same_prefix a network plen.
Proof. apply cidr_match_spec. Qed.

(** ::ffff:10.1.2.3 is in ::ffff:10.1.0.0/112 and differs from it in a later bit. *)
Lemma cidr_match_prefix_witness :
  cidr_match (map_v4 [10; 1; 2; 3]) (map_v4 [10; 1; 0; 0]) 112 = true /\
  same_prefix (map_v4 [10; 1; 2; 3]) (map_v4 [10; 1; 0; 0]) 112 /\
  cidr_match (map_v4 [10; 1; 2; 3]) (map_v4 [10; 1; 0; 0]) 119 = false.
Proof.
  assert (forall l : addr, forallb (fun z => (0 <=? z) && (z <? 256)) l = true ->
            Forall is_byte l) as Hb.
  { intros l Hl. apply Forall_forall. intros z Hz. rewrite forallb_forall in Hl.
    specialize (Hl z (proj1 (list_elem_of_In l z) Hz)). b2p. split; lia. }
  split_and!; [reflexivity| |reflexivity].
  apply (cidr_match_prefix (map_v4 [10; 1; 2; 3]) (map_v4 [10; 1; 0; 0]) 112);
    [split; [done|by apply Hb]..|lia|reflexivity].
Defined.

Section Claims.
Context `{Inet}.

Lemma load_spec (path text ip : chars) :
  eqc (deref path) NUL = false ->
  let '(acl, rc) := ip_acl_load_file (fun _ => true) (fst (ip_acl_init true)) path (Some text) in
  acl_wf acl /\ rc = zlen (omap line_item (file_lines 511 text)) /\
  (ip_acl_contains acl ip = true <->
   exists a line i, parse_ip_to_addr ip = Some a /\ line ∈ file_lines 511 text /\
     line_item line = Some i /\ item_covers i a).
Proof.
  intros Hp. unfold ip_acl_load_file. rewrite Hp.
  set (acl0 := (fst (ip_acl_init true)) <| source_file := strncpy 255 path |>).
  assert (acl_wf acl0) as Hw0 by (destruct ip_acl_init_wf; by split).
  assert (forall b, ~ covered acl0 b) as Hn by exact covered_init.
  pose proof (acl_lines_spec (file_lines 511 text) acl0 0 0 Hw0) as Hs.
  destruct (foldl _ (acl0, 0, 0) _) as [[acl n] k]. destruct Hs as (Hw & -> & Hc).
  split_and!; [done|lia|]. rewrite contains_spec by done. split.
  - intros (a & Ha & Hcov). apply Hc in Hcov as [Hcov|(l & i & ? & ? & ?)];
      [by destruct (Hn a)|by exists a, l, i].
  - intros (a & l & i & Ha & ? & ? & ?). exists a. split; [done|]. apply Hc. right. eauto.
Qed.

(** C28: Loading a readable file into a fresh list (no allocation failing) and then asking
    for an address answers exactly what the file says: the address is found iff some line
    of the file is that address or a range that covers it.  The return value counts the
    lines that hold an entry, and the list keeps its invariant: keys unique and each in
    the chain of its hash, both counters equal to the number of entries, every prefix
    length at most 128. *)
Theorem acl_load_contains (path text ip : chars) :
  eqc (deref path) NUL = false ->
  let '(acl, rc) := ip_acl_load_file (fun _ => true) (fst (ip_acl_init true)) path (Some text) in
  acl_wf acl /\ rc = zlen (omap line_item (file_lines 511 text)) /\
  (ip_acl_contains acl ip = true <->
   exists a line i, parse_ip_to_addr ip = Some a /\ line ∈ file_lines 511 text /\
     line_item line = Some i /\ item_covers i a).
Proof. apply load_spec. Qed.

(** A client on the blocklist is blocked whether or not the allowlist has it too; a
    client on the allowlist only is allowed; any other client is neutral, and so is every
    client when there is no context. *)
Theorem acl_block_takes_precedence (bl al : IpACL) (ip : chars) :
  acl_wf bl -> acl_wf al ->
  let listed acl := exists a, parse_ip_to_addr ip = Some a /\ covered acl a in
  let verdict := ip_acl_check (Some {| blocklist := bl; allowlist := al |}) ip in
  (verdict = IP_ACL_BLOCK <-> listed bl) /\
  (verdict = IP_ACL_ALLOW <-> ~ listed bl /\ listed al) /\
  (verdict = IP_ACL_NEUTRAL <-> ~ listed bl /\ ~ listed al).
Proof.
  intros Hb Ha listed verdict. unfold verdict, listed, ip_acl_check. cbn [blocklist allowlist].
  rewrite <- !contains_spec by done.
  destruct (ip_acl_contains bl ip), (ip_acl_contains al ip);
    split_and!; (split; [try done; intros _; try (split; done); done|]); intuition congruence.
Qed.

Lemma strchr_first (c : ascii) (pre post : chars) :
  eqc c NUL = false -> forallb (fun x => negb (eqc x c) && negb (eqc x NUL)) pre = true ->
  strchr (pre ++ c :: post) c = Some (length pre).
Proof.
  intros Hc Hp. unfold strchr, c_string. induction pre as [|x pre IH]; simpl in *.
  - rewrite Hc. simpl. by rewrite eqc_refl.
  - apply andb_true_iff in Hp as [[Hx1 Hx2]%andb_true_iff Hp]. rewrite Hx2. simpl.
    apply negb_true_iff in Hx1. by rewrite Hx1, IH.
Qed.

(** A range whose prefix length is not a number is not rejected: [atoi] reads it as 0,
    so a line "<IPv4 address>/<text without a leading number>" is loaded as the range of
    all IPv4 addresses and [cidr_match] accepts every one of them. *)
Theorem garbage_prefix_matches_all_ipv4 (ip_part suffix : chars) (a4 b4 : addr) :
  forallb (fun x => negb (eqc x "/"%char) && negb (eqc x NUL)) ip_part = true ->
  zlen ip_part < INET6_ADDRSTRLEN -> inet_pton4 ip_part = Some a4 -> atoi suffix = 0 ->
  parse_cidr (ip_part ++ "/"%char :: suffix) = Some (map_v4 a4, 96) /\
  cidr_match (map_v4 b4) (map_v4 a4) 96 = true.
Proof.
  intros Hs Hl Ha Hz. split; [|reflexivity]. unfold parse_cidr. rewrite strchr_first by done.
  destruct (Z.of_nat (length ip_part) >=? INET6_ADDRSTRLEN) eqn:Eg; [b2p; unfold zlen in Hl; lia|].
  rewrite take_app_length, Ha. replace (S (length ip_part)) with (length ip_part + 1)%nat by lia.
  rewrite drop_app_add. simpl. by rewrite drop_0, Hz.
Qed.
End Claims.

Definition sample_list : chars :=
  str "# office" ++ [LF] ++ str "  10.1.2.3" ++ [LF] ++ str "192.168.0.0/16" ++ [LF] ++ str "bogus".

(** Two of the four lines of the sample hold an entry, and an address of the range is found. *)
Lemma acl_load_contains_witness :
  let '(acl, rc) := @ip_acl_load_file inet_quad (fun _ => true) (fst (ip_acl_init true))
                      (str "list") (Some sample_list) in
  rc = 2 /\ @ip_acl_contains inet_quad acl (str "192.168.7.9") = true.
Proof.
  pose proof (@acl_load_contains inet_quad (str "list") sample_list (str "192.168.7.9") eq_refl)
    as Hc.
  destruct (@ip_acl_load_file inet_quad _ _ _ _) as [acl rc]. destruct Hc as (_ & -> & Hc).
  split; [vm_compute; reflexivity|]. apply Hc.
  exists (map_v4 [192; 168; 7; 9]), (str "192.168.0.0/16" ++ [LF]), (ItemRange (map_v4 [192; 168; 0; 0]) 112).
  split_and!; [vm_compute; reflexivity| |vm_compute; reflexivity|].
  - apply (list_elem_of_lookup_2 _ 2). vm_compute. reflexivity.
  - apply cidr_match_spec; [|  | lia|vm_compute; reflexivity];
      apply map_v4_wf; split; try done; repeat constructor; unfold is_byte; lia.
Defined.

(** Both lists loaded from the sample: an address on both is blocked. *)
Lemma acl_block_takes_precedence_witness :
  let acl := fst (@ip_acl_load_file inet_quad (fun _ => true) (fst (ip_acl_init true))
                    (str "list") (Some sample_list)) in
  @ip_acl_check inet_quad (Some {| blocklist := acl; allowlist := acl |}) (str "10.1.2.3")
  = IP_ACL_BLOCK.
Proof.
  pose proof (@load_spec inet_quad (str "list") sample_list (str "10.1.2.3") eq_refl) as Hc.
  destruct (@ip_acl_load_file inet_quad _ _ _ _) as [acl rc]. destruct Hc as (Hw & _ & Hc).
  cbn zeta. cbn [fst].
  apply (@acl_block_takes_precedence inet_quad acl acl (str "10.1.2.3") Hw Hw).
  apply (@contains_spec inet_quad acl (str "10.1.2.3") Hw), Hc.
  exists (map_v4 [10; 1; 2; 3]), (str "  10.1.2.3" ++ [LF]), (ItemExact (map_v4 [10; 1; 2; 3])).
  split_and!; [vm_compute; reflexivity| |vm_compute; reflexivity|done].
  apply (list_elem_of_lookup_2 _ 1). vm_compute. reflexivity.
Defined.

Lemma garbage_prefix_matches_all_ipv4_witness :
  @parse_cidr inet_quad (str "10.0.0.0/abc") = Some (map_v4 [10; 0; 0; 0], 96) /\
  cidr_match (map_v4 [8; 8; 8; 8]) (map_v4 [10; 0; 0; 0]) 96 = true.
Proof.
  apply (@garbage_prefix_matches_all_ipv4 inet_quad (str "10.0.0.0") (str "abc")
           [10; 0; 0; 0] [8; 8; 8; 8]); reflexivity.
Defined.
