(* ===== verification/RateLimiter.v ===== *)
(** * Per-address rate limiting ([src/rate_limiter.c], [include/rate_limiter.h])

    A token bucket per client address, kept in the chained hash table of
    [HashTable].  Tokens and rates are values of [double] (rounding is not
    modelled); the monotonic clock is a rational number of seconds.  The pointer that
    [get_entry] returns is the address whose entry it points to. *)
From Stdlib Require Import ZArith QArith Lqa Lia Ascii String.
From stdpp Require Import base list numbers strings relations.
From S2P Require Import Prelude CLib Addr HashTable.

#[local] Open Scope Z_scope.

Definition HASH_SIZE : Z := 4099.
Definition RATE_LIMITER_MAX_ENTRIES : Z := 10000.
Definition RATE_LIMITER_ENTRY_TTL : Z := 60.

Record RateLimitKey := mkKey { k_addr : addr; is_ipv6 : Z }.

Record RateLimitEntry := mkEntry {
  key : RateLimitKey;
  tokens : double;
  last_update : Q;
  last_request : Z
}.

#[export] Instance eta_RateLimitEntry : Eta RateLimitEntry := fun r =>
  mkEntry (key r) (tokens r) (last_update r) (last_request r).

Record RateLimiter := mkRateLimiter {
  buckets : option (list (list RateLimitEntry));
  num_buckets : Z;
  num_entries : Z;
  rate : double;
  burst : double;
  enabled : bool
}.

#[export] Instance eta_RateLimiter : Eta RateLimiter := fun r =>
  mkRateLimiter (buckets r) (num_buckets r) (num_entries r) (rate r) (burst r) (enabled r).

(** The two clocks the code reads: [CLOCK_MONOTONIC] in seconds, and
    [time(NULL)]. *)
Record Clock := mkClock { mono : Q; wall : Z }.

(** The cast [(time_t)now] of a double. *)
Definition time_t (now : Q) : Z := Z.quot (Qnum now) (Zpos (Qden now)).

Definition hash_key (k : RateLimitKey) : Z := hash_addr (k_addr k).

Definition keys_equal (a b : RateLimitKey) : bool := bool_decide (k_addr a = k_addr b).

Definition entry_addr (e : RateLimitEntry) : addr := k_addr (key e).

(** [buckets\[i\]] for the bucket of a key. *)
Definition bucket_index (rl : RateLimiter) (k : RateLimitKey) : nat :=
  Z.to_nat (hash_key k mod num_buckets rl).

Definition rl_zero : RateLimiter :=
  {| buckets := None; num_buckets := 0; num_entries := 0; rate := Finite 0; burst := Finite 0;
     enabled := false |}.

Definition rate_limiter_init (calloc_ok : bool) (r b : double) : RateLimiter * Z :=
  if double_leb r (Finite 0) then (rl_zero, 0) else
  if negb calloc_ok then (rl_zero, -1) else
  ({| buckets := Some (empty_buckets HASH_SIZE); num_buckets := HASH_SIZE; num_entries := 0;
      rate := r; burst := if double_ltb (Finite 0) b then b else r; enabled := true |}, 0).

Definition rate_limiter_free (rl : RateLimiter) : RateLimiter := rl <| buckets := None |>.

(** The inner loop of [rate_limiter_cleanup]: unlink the expired entries
    of one chain, counting them off. *)
Fixpoint prune_chain (expiry : Z) (chain : list RateLimitEntry) (n : Z)
    : list RateLimitEntry * Z :=
  match chain with
  | [] => ([], n)
  | entry :: next =>
      if last_request entry <? expiry then prune_chain expiry next (n - 1)
      else let '(rest, n') := prune_chain expiry next n in (entry :: rest, n')
  end.

Fixpoint prune_buckets (expiry : Z) (bs : list (list RateLimitEntry)) (n : Z)
    : list (list RateLimitEntry) * Z :=
  match bs with
  | [] => ([], n)
  | chain :: rest =>
      let '(chain', n) := prune_chain expiry chain n in
      let '(rest', n) := prune_buckets expiry rest n in (chain' :: rest', n)
  end.

(** [time(NULL)] is the wall clock, whatever clock [last_request] was read
    from. *)
Definition rate_limiter_cleanup (rl : RateLimiter) (c : Clock) : RateLimiter :=
  match buckets rl with
  | None => rl
  | Some bs =>
      let expiry := wall c - RATE_LIMITER_ENTRY_TTL in
      let '(bs', n) := prune_buckets expiry bs (num_entries rl) in
      rl <| buckets := Some bs' |> <| num_entries := n |>
  end.

(** [get_entry]: the new table, and whether it points to an entry of [k]
    ([false] is NULL). *)
Definition get_entry (malloc_ok : bool) (rl : RateLimiter) (k : RateLimitKey) (c : Clock)
    : RateLimiter * bool :=
  match buckets rl with
  | None => (rl, false)
  | Some bs =>
      if existsb (fun e => keys_equal (key e) k) (chain_at bs (bucket_index rl k))
      then (rl, true) else
      let rl := if num_entries rl >=? RATE_LIMITER_MAX_ENTRIES
                then rate_limiter_cleanup rl c else rl in
      if num_entries rl >=? RATE_LIMITER_MAX_ENTRIES then (rl, false) else
      if negb malloc_ok then (rl, false) else
      let entry := {| key := k; tokens := burst rl; last_update := mono c;
                      last_request := time_t (mono c) |} in
      let bs := default [] (buckets rl) in
      (rl <| buckets := Some (<[bucket_index rl k := entry :: chain_at bs (bucket_index rl k)]> bs) |>
          <| num_entries ::= Z.succ |>, true)
  end.

Definition replenish_tokens (rl : RateLimiter) (entry : RateLimitEntry) (now : Q)
    : RateLimitEntry :=
  if Qle_bool now (last_update entry) then entry else
  let elapsed := Finite (now - last_update entry) in
  let new_tokens := double_add (tokens entry) (double_mul elapsed (rate rl)) in
  let new_tokens := if double_ltb (burst rl) new_tokens then burst rl else new_tokens in
  entry <| tokens := new_tokens |> <| last_update := now |>.

(** The updates [rate_limiter_allow] makes through the entry pointer, with
    its verdict. *)
Definition take_token (rl : RateLimiter) (now : Q) (entry : RateLimitEntry)
    : RateLimitEntry * bool :=
  let entry := entry <| last_request := time_t now |> in
  let entry := replenish_tokens rl entry now in
  if double_leb (Finite 1) (tokens entry)
  then (entry <| tokens := double_sub (tokens entry) (Finite 1) |>, true)
  else (entry, false).

(** A store through a pointer to the entry of [k] in a chain. *)
Fixpoint store_entry (k : RateLimitKey) (f : RateLimitEntry -> RateLimitEntry)
    (chain : list RateLimitEntry) : list RateLimitEntry :=
  match chain with
  | [] => []
  | e :: r => if keys_equal (key e) k then f e :: r else e :: store_entry k f r
  end.

(** The entry a pointer to [k] designates. *)
Definition load_entry (rl : RateLimiter) (k : RateLimitKey) : option RateLimitEntry :=
  find (fun e => keys_equal (key e) k)
       (chain_at (default [] (buckets rl)) (bucket_index rl k)).

Section WithInet.
Context `{Inet}.

Definition parse_ip (ip_str : chars) : option RateLimitKey :=
  match inet_pton4 ip_str with
  | Some addr4 => Some {| k_addr := map_v4 addr4; is_ipv6 := 0 |}
  | None =>
      match inet_pton6 ip_str with
      | Some addr6 => Some {| k_addr := addr6; is_ipv6 := 1 |}
      | None => None
      end
  end.

Definition rate_limiter_allow (malloc_ok : bool) (rl : RateLimiter) (ip_str : chars) (c : Clock)
    : RateLimiter * bool :=
  match enabled rl, buckets rl with
  | true, Some _ =>
      match parse_ip ip_str with
      | None => (rl, true)
      | Some k =>
          let '(rl, found) := get_entry malloc_ok rl k c in
          match found, load_entry rl k with
          | true, Some entry =>
              let '(entry', ok) := take_token rl (mono c) entry in
              let bs := default [] (buckets rl) in
              let i := bucket_index rl k in
              (rl <| buckets := Some (<[i := store_entry k (fun _ => entry') (chain_at bs i)]> bs) |>,
               ok)
          | _, _ => (rl, false)
          end
      end
  | _, _ => (rl, true)
  end.

End WithInet.

Definition rate_limiter_get_entry_count (rl : RateLimiter) : Z := num_entries rl.

(** ** The invariant

    A limiter with a positive, finite rate [r] and burst [b]. *)

Definition entry_ok (b : Q) (e : RateLimitEntry) : Prop :=
  exists q, tokens e = Finite q /\ (0 <= q)%Q /\ (q <= b)%Q.

Record rl_wf (r b : Q) (rl : RateLimiter) (bs : list (list RateLimitEntry)) : Prop := {
  rw_buckets : buckets rl = Some bs;
  rw_table : table_wf entry_addr (num_buckets rl) bs;
  rw_count : num_entries rl = zlen (concat bs);
  rw_bound : num_entries rl <= RATE_LIMITER_MAX_ENTRIES;
  rw_entries : Forall (entry_ok b) (concat bs);
  rw_rate : rate rl = Finite r;
  rw_burst : burst rl = Finite b;
  rw_rpos : (0 < r)%Q;
  rw_bpos : (0 < b)%Q;
  rw_enabled : enabled rl = true
}.

Lemma Qlt_bool_iff a b : Qlt_bool a b = true <-> (a < b)%Q.
Proof.
  unfold Qlt_bool. rewrite negb_true_iff. split.
  - intros H. apply Qnot_le_lt. rewrite <- Qle_bool_iff. congruence.
  - intros H. destruct (Qle_bool b a) eqn:E; [|done]. apply Qle_bool_iff in E. lra.
Qed.

Lemma Qlt_bool_false a b : Qlt_bool a b = false <-> (b <= a)%Q.
Proof. unfold Qlt_bool. by rewrite negb_false_iff, Qle_bool_iff. Qed.

Lemma Qle_bool_false a b : Qle_bool a b = false <-> (b < a)%Q.
Proof. rewrite <- Qlt_bool_iff. unfold Qlt_bool. by rewrite negb_true_iff. Qed.

Definition live (expiry : Z) (e : RateLimitEntry) : bool := negb (last_request e <? expiry).

Lemma prune_chain_spec expiry chain : forall n,
  prune_chain expiry chain n =
  (List.filter (live expiry) chain, n - zlen chain + zlen (List.filter (live expiry) chain)).
Proof.
  unfold live. induction chain as [|e chain IH]; intros n; simpl; [f_equal; unfold zlen; simpl; lia|].
  destruct (last_request e <? expiry); rewrite IH; simpl; f_equal; unfold zlen; simpl; lia.
Qed.

Lemma prune_buckets_spec expiry bs : forall n,
  prune_buckets expiry bs n =
  (map (List.filter (live expiry)) bs,
   n - zlen (concat bs) + zlen (List.filter (live expiry) (concat bs))).
Proof.
  induction bs as [|c bs IH]; intros n; simpl; [f_equal; unfold zlen; simpl; lia|].
  rewrite prune_chain_spec, IH. f_equal. rewrite List.filter_app. unfold zlen.
  rewrite !length_app. lia.
Qed.

Section Invariant.
Context (r b : Q).

Lemma cleanup_eq rl bs c :
  rl_wf r b rl bs ->
  rate_limiter_cleanup rl c =
  rl <| buckets := Some (map (List.filter (live (wall c - RATE_LIMITER_ENTRY_TTL))) bs) |>
     <| num_entries := zlen (List.filter (live (wall c - RATE_LIMITER_ENTRY_TTL)) (concat bs)) |>.
Proof.
  intros Hwf. unfold rate_limiter_cleanup. rewrite (rw_buckets _ _ _ _ Hwf), prune_buckets_spec.
  rewrite (rw_count _ _ _ _ Hwf), Z.sub_diag, Z.add_0_l. done.
Qed.

Lemma cleanup_wf rl bs c :
  rl_wf r b rl bs ->
  rl_wf r b (rate_limiter_cleanup rl c) (map (List.filter (live (wall c - RATE_LIMITER_ENTRY_TTL))) bs).
Proof.
  intros Hwf. rewrite (cleanup_eq rl bs) by done.
  destruct Hwf as [Hb Ht Hc Hm He Hr Hbu Hrp Hbp Hen]. split; simpl; try done.
  - by apply prune_table_wf.
  - by rewrite concat_map_filter.
  - unfold zlen in *. pose proof (filter_length_le (live (wall c - RATE_LIMITER_ENTRY_TTL)) (concat bs)). lia.
  - rewrite concat_map_filter. rewrite Forall_forall in He. apply Forall_forall. intros e Hin.
    apply list_elem_of_In, List.filter_In in Hin as [Hin _]. by apply He, list_elem_of_In.
Qed.

Lemma keys_equal_iff a k : keys_equal a k = true <-> k_addr a = k_addr k.
Proof. unfold keys_equal. by rewrite bool_decide_eq_true. Qed.

Lemma keys_present rl bs k :
  rl_wf r b rl bs ->
  existsb (fun e => keys_equal (key e) k) (chain_at bs (bucket_index rl k)) = true <->
  k_addr k ∈ entry_addr <$> concat bs.
Proof.
  intros Hwf. rewrite <- (chain_search entry_addr (num_buckets rl)) by apply Hwf.
  rewrite existsb_exists. setoid_rewrite keys_equal_iff. setoid_rewrite list_elem_of_In. done.
Qed.

Definition fresh_entry (rl : RateLimiter) (k : RateLimitKey) (c : Clock) : RateLimitEntry :=
  {| key := k; tokens := burst rl; last_update := mono c; last_request := time_t (mono c) |}.

(** The table with a new entry for [k]. *)
Definition add_entry (rl : RateLimiter) (k : RateLimitKey) (c : Clock) : RateLimiter :=
  let bs := default [] (buckets rl) in
  rl <| buckets := Some (<[bucket_index rl k := fresh_entry rl k c :: chain_at bs (bucket_index rl k)]> bs) |>
     <| num_entries ::= Z.succ |>.

Lemma add_entry_wf rl bs k c :
  rl_wf r b rl bs -> k_addr k ∉ entry_addr <$> concat bs -> num_entries rl < RATE_LIMITER_MAX_ENTRIES ->
  rl_wf r b (add_entry rl k c)
    (<[bucket_index rl k := fresh_entry rl k c :: chain_at bs (bucket_index rl k)]> bs).
Proof.
  intros Hwf Hni Hroom. unfold add_entry. rewrite (rw_buckets _ _ _ _ Hwf).
  destruct Hwf as [Hb Ht Hc Hm He Hr Hbu Hrp Hbp Hen].
  change (bucket_index rl k) with (bucket_of (num_buckets rl) (entry_addr (fresh_entry rl k c))).
  split; simpl; try done.
  - by apply insert_table_wf.
  - rewrite insert_table_count by done. lia.
  - lia.
  - apply Forall_forall. intros e Hin. rewrite insert_table_elem in Hin by done.
    rewrite Forall_forall in He. destruct Hin as [->|Hin]; [|by apply He].
    exists b. split_and!; [exact Hbu|lra|lra].
Qed.

(** The three outcomes of [get_entry]: the address is tracked; after a
    clean-up if the table was full, there is a new entry; or there is none. *)
Lemma get_entry_cases malloc_ok rl bs k c :
  rl_wf r b rl bs ->
  (k_addr k ∈ entry_addr <$> concat bs /\ get_entry malloc_ok rl k c = (rl, true)) \/
  (k_addr k ∉ entry_addr <$> concat bs /\
   let rl1 := if num_entries rl >=? RATE_LIMITER_MAX_ENTRIES then rate_limiter_cleanup rl c else rl in
   get_entry malloc_ok rl k c =
     if (num_entries rl1 >=? RATE_LIMITER_MAX_ENTRIES) || negb malloc_ok then (rl1, false)
     else (add_entry rl1 k c, true)).
Proof.
  intros Hwf. unfold get_entry. rewrite (rw_buckets _ _ _ _ Hwf).
  destruct (existsb _ _) eqn:Ex.
  { left. split; [by apply (keys_present rl bs k Hwf)|done]. }
  right. split. { intros Hin. apply (keys_present rl bs k Hwf) in Hin. congruence. }
  cbv zeta. generalize (if num_entries rl >=? RATE_LIMITER_MAX_ENTRIES then rate_limiter_cleanup rl c else rl).
  intros rl1. destruct (_ >=? _); [done|]. by destruct malloc_ok.
Qed.

(** A clean-up does not add addresses. *)
Lemma full_cleanup_wf rl bs k c :
  rl_wf r b rl bs -> k_addr k ∉ entry_addr <$> concat bs ->
  exists bs1, rl_wf r b (if num_entries rl >=? RATE_LIMITER_MAX_ENTRIES then rate_limiter_cleanup rl c else rl) bs1 /\
    k_addr k ∉ entry_addr <$> concat bs1.
Proof.
  intros Hwf Hn. destruct (_ >=? _); [|by exists bs]. eexists. split; [by apply cleanup_wf|].
  rewrite concat_map_filter. intros (e & He & Hin)%list_elem_of_fmap. apply Hn. rewrite He.
  apply list_elem_of_fmap_2. apply list_elem_of_In, List.filter_In in Hin as [Hin _].
  by apply list_elem_of_In.
Qed.

Lemma get_entry_wf malloc_ok rl bs k c :
  rl_wf r b rl bs -> exists bs', rl_wf r b (fst (get_entry malloc_ok rl k c)) bs'.
Proof.
  intros Hwf. destruct (get_entry_cases malloc_ok rl bs k c Hwf) as [[_ ->]|[Hn Hg]]; [by exists bs|].
  cbv zeta in Hg. rewrite Hg. clear Hg. destruct (full_cleanup_wf rl bs k c Hwf Hn) as (bs1 & Hwf1 & Hn1).
  revert Hwf1. generalize (if num_entries rl >=? RATE_LIMITER_MAX_ENTRIES then rate_limiter_cleanup rl c else rl).
  intros rl1 Hwf1. destruct (_ || _) eqn:E; [by exists bs1|]. apply orb_false_iff in E as [E _].
  eexists. apply add_entry_wf; [done|done|]. b2p. lia.
Qed.

(** Tokens of a tracked address: refilled and spent, as rational numbers. *)
Definition refilled (q s now : Q) : Q :=
  if Qle_bool now s then q else
  let q' := (q + (now - s) * r)%Q in if Qlt_bool b q' then b else q'.

Lemma take_token_value rl e now q :
  rate rl = Finite r -> burst rl = Finite b -> tokens e = Finite q ->
  let l := refilled q (last_update e) now in
  let s := if Qle_bool now (last_update e) then last_update e else now in
  let '(e', ok) := take_token rl now e in
  ok = Qle_bool 1 l /\ key e' = key e /\ tokens e' = Finite (if Qle_bool 1 l then l - 1 else l)%Q /\
  last_update e' = s /\ last_request e' = time_t now.
Proof.
  intros Hr Hb Hq. cbv zeta. unfold take_token, replenish_tokens, refilled. cbn.
  destruct (Qle_bool now (last_update e)); cbn; rewrite ?Hr, ?Hb, ?Hq; cbn.
  - by destruct (Qle_bool 1 q).
  - destruct (Qlt_bool b _); cbn; by destruct (Qle_bool 1 _).
Qed.

Lemma refilled_range q s now : (0 < r)%Q -> (0 <= q)%Q -> (q <= b)%Q ->
  (0 <= refilled q s now)%Q /\ (refilled q s now <= b)%Q.
Proof.
  intros Hr H0 Hb. unfold refilled. destruct (Qle_bool now s) eqn:E; [done|]. apply Qle_bool_false in E.
  cbv zeta. assert (0 <= (now - s) * r)%Q by (apply Qmult_le_0_compat; lra).
  destruct (Qlt_bool _ _) eqn:E2; [split; lra|]. apply Qlt_bool_false in E2. split; lra.
Qed.

Lemma take_token_ok rl e now :
  rate rl = Finite r -> burst rl = Finite b -> (0 < r)%Q -> entry_ok b e -> entry_ok b (fst (take_token rl now e)).
Proof.
  intros Hr Hb Hpos (q & Hq & H0 & H1). pose proof (take_token_value rl e now q Hr Hb Hq) as Ht.
  destruct (take_token rl now e) as [e' ok]. cbv zeta in Ht. destruct Ht as (_ & _ & Ht & _).
  destruct (refilled_range q (last_update e) now Hpos H0 H1) as [R0 R1].
  eexists. split; [exact Ht|]. destruct (Qle_bool 1 _) eqn:E; [apply Qle_bool_iff in E|]; split; lra.
Qed.

Lemma take_token_key rl e now : key (fst (take_token rl now e)) = key e.
Proof. unfold take_token, replenish_tokens. by destruct (Qle_bool now _), (double_leb _ _). Qed.

Lemma store_entry_keys k e' chain :
  find (fun e => keys_equal (key e) k) chain = None \/ k_addr (key e') = k_addr k ->
  entry_addr <$> store_entry k (fun _ => e') chain = entry_addr <$> chain.
Proof.
  induction chain as [|e chain IH]; simpl; [done|].
  destruct (keys_equal (key e) k) eqn:Ek; simpl.
  - intros [?|Hk]; [done|]. apply keys_equal_iff in Ek. unfold entry_addr at 1 3. by rewrite Hk, Ek.
  - intros H. f_equal. by apply IH.
Qed.

Lemma store_entry_elem k e' chain e :
  e ∈ store_entry k (fun _ => e') chain -> e = e' \/ e ∈ chain.
Proof.
  induction chain as [|x chain IH]; simpl; [auto|].
  destruct (keys_equal _ _); rewrite !elem_of_cons; naive_solver.
Qed.

Lemma load_entry_elem rl bs k e :
  rl_wf r b rl bs -> load_entry rl k = Some e ->
  e ∈ concat bs /\ k_addr (key e) = k_addr k.
Proof.
  intros Hwf Hl. unfold load_entry in Hl. rewrite (rw_buckets _ _ _ _ Hwf) in Hl. simpl in Hl.
  apply find_some in Hl as [Hin Hk]. apply keys_equal_iff in Hk. apply list_elem_of_In in Hin.
  split; [|done]. apply elem_of_concat_iff. exists (bucket_index rl k). eexists.
  split; [|exact Hin]. apply (chain_lookup entry_addr), Hwf.
Qed.

(** Writing back an entry of the table under its key. *)
Lemma store_wf rl bs k e e' :
  rl_wf r b rl bs -> load_entry rl k = Some e -> key e' = key e -> entry_ok b e' ->
  let i := bucket_index rl k in
  rl_wf r b (rl <| buckets := Some (<[i := store_entry k (fun _ => e') (chain_at bs i)]> bs) |>)
        (<[i := store_entry k (fun _ => e') (chain_at bs i)]> bs).
Proof.
  intros Hwf Hl Hk Hok i. pose proof (load_entry_elem rl bs k e Hwf Hl) as (Hin & Hka).
  assert (bs !! i = Some (chain_at bs i)) as Hi by apply (chain_lookup entry_addr), Hwf.
  assert (entry_addr <$> store_entry k (fun _ => e') (chain_at bs i) = entry_addr <$> chain_at bs i)
    as Hkeys by (apply store_entry_keys; right; congruence).
  destruct Hwf as [Hb Ht Hc Hm He Hr Hbu Hrp Hbp Hen]. split; simpl; try done.
  - eapply rekey_table_wf; eauto.
  - rewrite (rekey_count entry_addr bs i (chain_at bs i)); eauto.
  - rewrite Forall_forall in He. apply Forall_forall. intros x Hx.
    apply concat_insert_elem in Hx as [Hx|Hx]; [|by apply He].
    apply store_entry_elem in Hx as [->|Hx]; [done|]. apply He.
    apply elem_of_concat_iff. by exists i, (chain_at bs i).
Qed.

Lemma allow_wf `{Inet} malloc_ok rl bs ip c :
  rl_wf r b rl bs -> exists bs', rl_wf r b (fst (rate_limiter_allow malloc_ok rl ip c)) bs'.
Proof.
  intros Hwf. unfold rate_limiter_allow. rewrite (rw_enabled _ _ _ _ Hwf), (rw_buckets _ _ _ _ Hwf).
  destruct (parse_ip ip) as [k|]; [|by exists bs].
  destruct (get_entry_wf malloc_ok rl bs k c Hwf) as [bs1 Hwf1].
  destruct (get_entry malloc_ok rl k c) as [rl1 found]. simpl in Hwf1.
  destruct found; [|by exists bs1]. destruct (load_entry rl1 k) as [e|] eqn:El; [|by exists bs1].
  pose proof (take_token_key rl1 e (mono c)) as Hk.
  pose proof (load_entry_elem rl1 bs1 k e Hwf1 El) as (Hin & _).
  assert (entry_ok b e) as Hok by (pose proof (rw_entries _ _ _ _ Hwf1) as Hf;
    rewrite Forall_forall in Hf; by apply Hf).
  apply (take_token_ok rl1 e (mono c)) in Hok; [|apply Hwf1..].
  destruct (take_token rl1 (mono c) e) as [e' ok]. simpl in *.
  rewrite (rw_buckets _ _ _ _ Hwf1). simpl. eexists. by eapply store_wf.
Qed.

End Invariant.

(** ** Sequences of operations *)

(** The calls a worker makes on its limiter, with any clock readings and
    allocation outcomes. *)
Inductive rl_op := Request (malloc_ok : bool) (ip : chars) (c : Clock) | CleanUp (c : Clock).

Definition op_clock (op : rl_op) : Clock := match op with Request _ _ c | CleanUp c => c end.

Section Claims.
Context `{Inet}.

Definition rl_apply (rl : RateLimiter) (op : rl_op) : RateLimiter :=
  match op with
  | Request malloc_ok ip c => fst (rate_limiter_allow malloc_ok rl ip c)
  | CleanUp c => rate_limiter_cleanup rl c
  end.

Definition rl_run (rl : RateLimiter) (ops : list rl_op) : RateLimiter := foldl rl_apply rl ops.

Lemma rl_run_wf r b ops : forall rl, (exists bs, rl_wf r b rl bs) -> exists bs, rl_wf r b (rl_run rl ops) bs.
Proof.
  induction ops as [|op ops IH]; intros rl [bs Hwf]; [by exists bs|]. cbn. apply IH.
  destruct op; [by eapply allow_wf|]. eexists. by apply cleanup_wf.
Qed.

(** The burst a limiter has when it is configured with [b]. *)
Definition burst_of (r b : Q) : Q := if Qlt_bool 0 b then b else r.

Lemma init_wf r b :
  (0 < r)%Q ->
  rl_wf r (burst_of r b) (fst (rate_limiter_init true (Finite r) (Finite b))) (empty_buckets HASH_SIZE).
Proof.
  intros Hr. unfold rate_limiter_init, burst_of. cbn [double_leb double_ltb].
  replace (Qle_bool r 0) with false by (symmetry; by apply Qle_bool_false).
  cbn [negb fst]. split; cbn [buckets num_buckets num_entries rate burst enabled];
    rewrite ?empty_table_concat; try done.
  - by apply empty_table_wf.
  - by destruct (Qlt_bool 0 b).
  - destruct (Qlt_bool 0 b) eqn:E; [by apply Qlt_bool_iff|done].
Qed.

(** The limiter a worker starts with, after any operations. *)
Definition reached (r b : Q) (ops : list rl_op) : RateLimiter :=
  rl_run (fst (rate_limiter_init true (Finite r) (Finite b))) ops.

Lemma reached_wf r b ops : (0 < r)%Q -> exists bs, rl_wf r (burst_of r b) (reached r b ops) bs.
Proof. intros Hr. apply rl_run_wf. eexists. by apply init_wf. Qed.

(** In every state a worker's limiter can reach from [rate_limiter_init] by requests and
    clean-ups, at any clock readings and with any allocation failing: each tracked address
    has exactly one entry and it sits in the chain of its hash, [num_entries] is the number
    of entries and never exceeds [RATE_LIMITER_MAX_ENTRIES], and every bucket level is
    between 0 and the burst. *)
Theorem rate_limiter_invariant (r b : Q) (ops : list rl_op) :
  (0 < r)%Q ->
  let rl := reached r b ops in
  exists bs, buckets rl = Some bs /\ table_wf entry_addr (num_buckets rl) bs /\
    rate_limiter_get_entry_count rl = zlen (concat bs) /\
    0 <= num_entries rl <= RATE_LIMITER_MAX_ENTRIES /\ Forall (entry_ok (burst_of r b)) (concat bs).
Proof.
  intros Hr rl. destruct (reached_wf r b ops Hr) as [bs Hwf]. exists bs. destruct Hwf.
  split_and!; try done. unfold rl. rewrite rw_count0. unfold zlen. lia.
Qed.

End Claims.
