(* ===== verification/LimiterSpec.v ===== *)
(** * What the rate limiter promises

    The hash table of [RateLimiter] refines a finite map of token buckets;
    from that, how many requests of one address can pass in a window of
    time, and what the clean-up does to the buckets. *)
From Stdlib Require Import ZArith QArith Lqa Lia Ascii String.
From stdpp Require Import base list numbers strings gmap.
From S2P Require Import Prelude CLib Addr HashTable RateLimiter.

#[local] Open Scope Z_scope.

(** ** The abstract limiter *)

(** A token bucket: the level it had at [stamp], and when it was last used. *)
Record Bucket := mkBucket { level : Q; stamp : Q; seen : Z }.

Abbreviation Buckets := (gmap addr Bucket).

(** One request at time [now]: refill at [r] tokens a second up to [b],
    then take a token if there is one. *)
Definition spend (r b now : Q) (bk : Bucket) : Bucket * bool :=
  let l := refilled r b (level bk) (stamp bk) now in
  ({| level := if Qle_bool 1 l then (l - 1)%Q else l;
      stamp := if Qle_bool now (stamp bk) then stamp bk else now; seen := time_t now |}, Qle_bool 1 l).

Definition full_bucket (b : Q) (c : Clock) : Bucket :=
  {| level := b; stamp := mono c; seen := time_t (mono c) |}.

(** A clean-up forgets what was not used since the wall clock showed a
    minute less. *)
Definition forget (c : Clock) (m : Buckets) : Buckets :=
  filter (fun x => wall c - RATE_LIMITER_ENTRY_TTL <= seen (snd x)) m.

Definition is_full (m : Buckets) : bool := Z.of_nat (size m) >=? RATE_LIMITER_MAX_ENTRIES.

(** A request of [a]: from its own bucket; or, if it has none, from a new
    full one, for which a full table is first cleaned up; without room or
    memory the request is refused. *)
Definition abs_allow (r b : Q) (malloc_ok : bool) (m : Buckets) (a : addr) (c : Clock) : Buckets * bool :=
  match m !! a with
  | Some bk => let '(bk, ok) := spend r b (mono c) bk in (<[a := bk]> m, ok)
  | None =>
      let m := if is_full m then forget c m else m in
      if is_full m || negb malloc_ok then (m, false) else
      let '(bk, ok) := spend r b (mono c) (full_bucket b c) in (<[a := bk]> m, ok)
  end.

(** ** What a table stands for *)

Definition value (d : double) : Q := match d with Finite q => q | _ => 0%Q end.

Definition to_bucket (e : RateLimitEntry) : Bucket :=
  {| level := value (tokens e); stamp := last_update e; seen := last_request e |}.

Definition abs (rl : RateLimiter) : Buckets :=
  list_to_map ((fun e => (entry_addr e, to_bucket e)) <$> concat (default [] (buckets rl))).

Section Refinement.
Context (r b : Q).

Lemma keys_of (l : list RateLimitEntry) :
  ((fun e => (entry_addr e, to_bucket e)) <$> l).*1 = entry_addr <$> l.
Proof. by rewrite <- list_fmap_compose. Qed.

Lemma abs_lookup rl bs a bk :
  rl_wf r b rl bs ->
  abs rl !! a = Some bk <-> exists e, e ∈ concat bs /\ entry_addr e = a /\ to_bucket e = bk.
Proof.
  intros Hwf. unfold abs. rewrite (rw_buckets _ _ _ _ Hwf). cbn [default].
  rewrite <- elem_of_list_to_map by (rewrite keys_of; apply Hwf). rewrite list_elem_of_fmap. naive_solver.
Qed.

Lemma abs_none rl bs a :
  rl_wf r b rl bs -> abs rl !! a = None <-> a ∉ entry_addr <$> concat bs.
Proof.
  intros Hwf. rewrite eq_None_not_Some, list_elem_of_fmap. apply not_iff_compat. split.
  - intros [bk (e & He & <- & _)%(abs_lookup rl bs)]; [by exists e|done].
  - intros (e & -> & He). exists (to_bucket e). apply (abs_lookup rl bs); [done|]. by exists e.
Qed.

Lemma abs_size rl bs : rl_wf r b rl bs -> Z.of_nat (size (abs rl)) = num_entries rl.
Proof.
  intros Hwf. rewrite (rw_count _ _ _ _ Hwf). unfold abs, zlen. rewrite (rw_buckets _ _ _ _ Hwf). cbn [default].
  rewrite map_size_list_to_map by (rewrite keys_of; apply Hwf). by rewrite length_fmap.
Qed.

Lemma abs_full rl bs : rl_wf r b rl bs -> is_full (abs rl) = (num_entries rl >=? RATE_LIMITER_MAX_ENTRIES).
Proof. intros Hwf. unfold is_full. by rewrite (abs_size rl bs Hwf). Qed.

Lemma abs_cleanup rl bs c : rl_wf r b rl bs -> abs (rate_limiter_cleanup rl c) = forget c (abs rl).
Proof.
  intros Hwf. apply map_eq. intros a. apply option_eq. intros bk.
  rewrite (abs_lookup _ _ a bk (cleanup_wf r b rl bs c Hwf)), concat_map_filter. unfold forget.
  rewrite map_lookup_filter_Some, (abs_lookup rl bs a bk Hwf). cbn [snd]. split.
  - intros (e & He & Ha & <-). apply list_elem_of_In, List.filter_In in He as [He Hl].
    apply list_elem_of_In in He. split; [by exists e|]. unfold live in Hl. cbn [to_bucket seen]. b2p. lia.
  - intros [(e & He & Ha & <-) Hs]. exists e. split; [|done]. apply list_elem_of_In, List.filter_In.
    split; [by apply list_elem_of_In|]. unfold live. cbn [to_bucket seen] in Hs.
    apply negb_true_iff, Z.ltb_ge. lia.
Qed.

Lemma abs_add rl bs k c :
  rl_wf r b rl bs -> k_addr k ∉ entry_addr <$> concat bs -> num_entries rl < RATE_LIMITER_MAX_ENTRIES ->
  abs (add_entry rl k c) = <[k_addr k := full_bucket b c]> (abs rl).
Proof.
  intros Hwf Hn Hroom. apply map_eq. intros a. apply option_eq. intros bk.
  rewrite (abs_lookup _ _ a bk (add_entry_wf r b rl bs k c Hwf Hn Hroom)).
  change (bucket_index rl k) with (bucket_of (num_buckets rl) (entry_addr (fresh_entry rl k c))).
  setoid_rewrite (insert_table_elem entry_addr (num_buckets rl) bs (fresh_entry rl k c)); [|apply Hwf].
  assert (to_bucket (fresh_entry rl k c) = full_bucket b c) as Hf.
  { unfold to_bucket, fresh_entry, full_bucket. cbn. by rewrite (rw_burst _ _ _ _ Hwf). }
  rewrite lookup_insert_Some, (abs_lookup rl bs a bk Hwf), <- Hf.
  split.
  - intros (e & [->|He] & <- & <-); [by left|]. right. split; [|by exists e].
    intros Hk. apply Hn. rewrite Hk. by apply list_elem_of_fmap_2.
  - intros [[<- <-]|[_ (e & He & Ha & Hb)]]; [exists (fresh_entry rl k c); auto|exists e; auto].
Qed.

(** Writing an entry back changes the bucket of its address and no other. *)
Lemma store_entry_other k e' chain x :
  x ∈ chain -> entry_addr x <> k_addr k -> x ∈ store_entry k (fun _ => e') chain.
Proof.
  intros Hx Hne. induction chain as [|y chain IH]; simpl; [done|]. apply elem_of_cons in Hx.
  destruct (keys_equal (key y) k) eqn:Ek; rewrite elem_of_cons; [|naive_solver].
  apply keys_equal_iff in Ek. destruct Hx as [->|Hx]; [done|by right].
Qed.

Lemma store_entry_new k e e' chain :
  find (fun e => keys_equal (key e) k) chain = Some e -> e' ∈ store_entry k (fun _ => e') chain.
Proof.
  induction chain as [|y chain IH]; simpl; [done|]. destruct (keys_equal (key y) k); rewrite elem_of_cons; auto.
Qed.

Lemma entry_unique (bs : list (list RateLimitEntry)) e1 e2 :
  NoDup (entry_addr <$> concat bs) -> e1 ∈ concat bs -> e2 ∈ concat bs -> entry_addr e1 = entry_addr e2 -> e1 = e2.
Proof.
  induction (concat bs) as [|e l IH]; [by intros _ ?%elem_of_nil|]. cbn [fmap list_fmap].
  intros [Hn Hd]%list.NoDup_cons H1 H2 Ha. apply elem_of_cons in H1, H2.
  destruct H1 as [->|H1], H2 as [->|H2]; [done|exfalso..|by apply IH]; apply Hn.
  - rewrite Ha. by apply list_elem_of_fmap_2.
  - rewrite <- Ha. by apply list_elem_of_fmap_2.
Qed.

Lemma abs_store rl bs k e e' :
  rl_wf r b rl bs -> load_entry rl k = Some e -> key e' = key e -> entry_ok b e' ->
  let i := bucket_index rl k in
  abs (rl <| buckets := Some (<[i := store_entry k (fun _ => e') (chain_at bs i)]> bs) |>) =
  <[k_addr k := to_bucket e']> (abs rl).
Proof.
  intros Hwf Hl Hk Hok i. pose proof (store_wf r b rl bs k e e' Hwf Hl Hk Hok) as Hwf'. cbv zeta in Hwf'.
  fold i in Hwf'. pose proof (load_entry_elem r b rl bs k e Hwf Hl) as (_ & Hka).
  assert (bs !! i = Some (chain_at bs i)) as Hi by apply (chain_lookup entry_addr), Hwf.
  assert (e' ∈ concat (<[i := store_entry k (fun _ => e') (chain_at bs i)]> bs)) as Hnew.
  { apply elem_of_concat_iff. exists i. eexists. split; [apply list_lookup_insert_eq; by eapply lookup_lt_Some|].
    unfold load_entry in Hl. rewrite (rw_buckets _ _ _ _ Hwf) in Hl. by eapply store_entry_new. }
  assert (entry_addr e' = k_addr k) as Ha' by (unfold entry_addr; congruence).
  apply map_eq. intros a. apply option_eq. intros bk.
  rewrite (abs_lookup _ _ a bk Hwf'), lookup_insert_Some, (abs_lookup rl bs a bk Hwf). split.
  - intros (x & Hx & <- & <-). destruct (decide (entry_addr x = k_addr k)) as [E|E].
    + left. split; [done|]. f_equal. symmetry. eapply entry_unique; [apply Hwf'|done..|congruence].
    + right. split; [congruence|]. exists x. split; [|done].
      apply concat_insert_elem in Hx as [Hx|Hx]; [|done]. apply store_entry_elem in Hx as [->|Hx]; [done|].
      apply elem_of_concat_iff. by exists i, (chain_at bs i).
  - intros [[<- <-]|[Hne (x & Hx & Ha & Hb)]]; [by exists e'|]. exists x. split; [|done].
    apply elem_of_concat_iff in Hx as (j & ch & Hj & Hx). apply elem_of_concat_iff.
    destruct (decide (i = j)) as [<-|Hij].
    + exists i. eexists. split; [apply list_lookup_insert_eq; by eapply lookup_lt_Some|].
      rewrite Hi in Hj. injection Hj as <-. apply store_entry_other; [done|congruence].
    + exists j, ch. by rewrite list_lookup_insert_ne by done.
Qed.

Lemma load_tracked rl bs k :
  rl_wf r b rl bs -> k_addr k ∈ entry_addr <$> concat bs -> exists e, load_entry rl k = Some e.
Proof.
  intros Hwf Hin. apply (keys_present r b rl bs k Hwf) in Hin. unfold load_entry.
  rewrite (rw_buckets _ _ _ _ Hwf). cbn [default]. apply existsb_exists in Hin as (x & Hx & Hk).
  destruct (find _ _) as [e|] eqn:Ef; [by exists e|]. by rewrite (find_none _ _ Ef x Hx) in Hk.
Qed.

(** The part of [rate_limiter_allow] that uses the entry pointer. *)
Lemma spend_entry rl bs k c :
  rl_wf r b rl bs -> k_addr k ∈ entry_addr <$> concat bs ->
  exists bk, abs rl !! k_addr k = Some bk /\
  exists e, load_entry rl k = Some e /\
    let '(e', ok) := take_token rl (mono c) e in
    let i := bucket_index rl k in
    (abs (rl <| buckets := Some (<[i := store_entry k (fun _ => e') (chain_at bs i)]> bs) |>), ok) =
    let '(bk', ok) := spend r b (mono c) bk in (<[k_addr k := bk']> (abs rl), ok).
Proof.
  intros Hwf Hin. destruct (load_tracked rl bs k Hwf Hin) as [e Hl].
  pose proof (load_entry_elem r b rl bs k e Hwf Hl) as (He & Hka). exists (to_bucket e). split.
  { apply (abs_lookup rl bs); [done|]. by exists e. }
  exists e. split; [exact Hl|].
  assert (entry_ok b e) as Hok by (pose proof (rw_entries _ _ _ _ Hwf) as Hf; rewrite Forall_forall in Hf; by apply Hf).
  pose proof (take_token_ok r b rl e (mono c) (rw_rate _ _ _ _ Hwf) (rw_burst _ _ _ _ Hwf) (rw_rpos _ _ _ _ Hwf) Hok) as Hok'.
  destruct Hok as (q & Hq & _).
  pose proof (take_token_value r b rl e (mono c) q (rw_rate _ _ _ _ Hwf) (rw_burst _ _ _ _ Hwf) Hq) as Ht.
  cbv zeta in Ht. destruct (take_token rl (mono c) e) as [e' ok]. destruct Ht as (-> & Hk & Htk & Hlu & Hlr).
  cbv zeta. rewrite (abs_store rl bs k e e' Hwf Hl Hk Hok'). unfold spend.
  assert (to_bucket e' = fst (spend r b (mono c) (to_bucket e))) as ->
    by (unfold to_bucket; rewrite Htk, Hlu, Hlr, Hq; done).
  unfold to_bucket. by rewrite Hq.
Qed.

Lemma allow_refines `{Inet} malloc_ok rl bs ip k c :
  rl_wf r b rl bs -> parse_ip ip = Some k ->
  (let '(rl', ok) := rate_limiter_allow malloc_ok rl ip c in (abs rl', ok)) =
  abs_allow r b malloc_ok (abs rl) (k_addr k) c.
Proof.
  intros Hwf Hp. unfold rate_limiter_allow.
  rewrite (rw_enabled _ _ _ _ Hwf), (rw_buckets _ _ _ _ Hwf), Hp.
  unfold abs_allow. destruct (get_entry_cases r b malloc_ok rl bs k c Hwf) as [[Hin ->]|[Hn Hg]].
  - destruct (spend_entry rl bs k c Hwf Hin) as (bk & -> & e & -> & Hs).
    rewrite (rw_buckets _ _ _ _ Hwf). cbn [default].
    destruct (take_token rl (mono c) e). exact Hs.
  - cbv zeta in Hg. rewrite Hg. clear Hg. rewrite (proj2 (abs_none rl bs (k_addr k) Hwf) Hn).
    rewrite (abs_full rl bs Hwf).
    replace (if num_entries rl >=? RATE_LIMITER_MAX_ENTRIES then forget c (abs rl) else abs rl)
      with (abs (if num_entries rl >=? RATE_LIMITER_MAX_ENTRIES then rate_limiter_cleanup rl c else rl))
      by (destruct (_ >=? _); [by eapply abs_cleanup|done]).
    destruct (full_cleanup_wf r b rl bs k c Hwf Hn) as (bs1 & Hwf1 & Hn1). revert Hwf1.
    generalize (if num_entries rl >=? RATE_LIMITER_MAX_ENTRIES then rate_limiter_cleanup rl c else rl).
    intros rl1 Hwf1. rewrite (abs_full rl1 bs1 Hwf1). destruct (_ || _) eqn:E; [done|].
    apply orb_false_iff in E as [E _].
    assert (num_entries rl1 < RATE_LIMITER_MAX_ENTRIES) as Hroom by (b2p; lia).
    pose proof (add_entry_wf r b rl1 bs1 k c Hwf1 Hn1 Hroom) as Hwf2.
    pose proof (abs_add rl1 bs1 k c Hwf1 Hn1 Hroom) as Ha.
    revert Hwf2 Ha. generalize (add_entry rl1 k c).
    generalize (<[bucket_index rl1 k := fresh_entry rl1 k c :: chain_at bs1 (bucket_index rl1 k)]> bs1).
    intros bs2 rl2 Hwf2 Ha. destruct (decide (k_addr k ∈ entry_addr <$> concat bs2)) as [Hin|Hc].
    2: { apply (abs_none _ _ _ Hwf2) in Hc. rewrite Ha, lookup_insert_eq in Hc. done. }
    destruct (spend_entry rl2 bs2 k c Hwf2 Hin) as (bk & Hbk & e & -> & Hs).
    rewrite Ha, lookup_insert_eq in Hbk. injection Hbk as <-.
    rewrite (rw_buckets _ _ _ _ Hwf2). cbn [default].
    destruct (take_token _ _ _) as [e' ok]. etransitivity; [exact Hs|]. rewrite Ha.
    unfold spend. by rewrite insert_insert_eq.
Qed.

End Refinement.

(** ** How much an address can get

    The potential of an address at time [t]: what its bucket would hold
    then, or a full bucket if it has none. *)
Section Potential.
Context (r b : Q) (r_pos : (0 < r)%Q) (b_pos : (0 < b)%Q).

Definition level_ok (bk : Bucket) : Prop := (0 <= level bk)%Q /\ (level bk <= b)%Q.

Definition potential (m : Buckets) (a : addr) (t : Q) : Q :=
  match m !! a with Some bk => refilled r b (level bk) (stamp bk) t | None => b end.

Definition levels_ok (m : Buckets) : Prop := forall a bk, m !! a = Some bk -> level_ok bk.

(** Does a request of [a] on these buckets start with a clean-up? *)
Definition cleans_up (m : Buckets) (a : addr) : bool :=
  match m !! a with Some _ => false | None => is_full m end.

Lemma potential_range m a t : levels_ok m -> (0 <= potential m a t)%Q /\ (potential m a t <= b)%Q.
Proof.
  intros Hm. unfold potential. destruct (m !! a) as [bk|] eqn:E; [|split; lra].
  destruct (Hm a bk E). by apply refilled_range.
Qed.

(** A bucket gains at most [r] tokens a second. *)
Lemma refilled_growth q s t u : (q <= b)%Q -> (t <= u)%Q ->
  (refilled r b q s u <= refilled r b q s t + r * (u - t))%Q.
Proof.
  intros Hq Htu. unfold refilled. cbv zeta.
  assert (0 <= r * (u - t))%Q by (apply Qmult_le_0_compat; lra).
  destruct (Qle_bool u s) eqn:Eu, (Qle_bool t s) eqn:Et;
    rewrite ?Qle_bool_iff, ?Qle_bool_false in *; try lra.
  - assert ((u - s) * r <= r * (u - t))%Q
      by (rewrite (Qmult_comm r); apply Qmult_le_compat_r; lra).
    destruct (Qlt_bool b _) eqn:E; [apply Qlt_bool_iff in E|]; lra.
  - destruct (Qlt_bool b (q + (u - s) * r)) eqn:E1, (Qlt_bool b (q + (t - s) * r)) eqn:E2;
      rewrite ?Qlt_bool_iff, ?Qlt_bool_false in *; nra.
Qed.

Lemma potential_growth m a t u : levels_ok m -> (t <= u)%Q ->
  (potential m a u <= potential m a t + r * (u - t))%Q.
Proof.
  intros Hm Htu. unfold potential. destruct (m !! a) as [bk|] eqn:E.
  - destruct (Hm a bk E). by apply refilled_growth.
  - assert (0 <= r * (u - t))%Q by (apply Qmult_le_0_compat; lra). lra.
Qed.

(** A clean-up raises the potential of an address by at most a burst. *)
Lemma potential_forget m c a t : levels_ok m -> (potential (forget c m) a t <= potential m a t + b)%Q.
Proof.
  intros Hm. destruct (potential_range m a t Hm) as [H0 _].
  destruct (forget c m !! a) as [bk|] eqn:E.
  - unfold forget in E. apply map_lookup_filter_Some in E as [E _].
    unfold potential in *. unfold forget. destruct (filter _ m !! a) as [bk'|] eqn:E'; [|lra].
    apply map_lookup_filter_Some in E' as [E' _]. rewrite E' in *. lra.
  - unfold potential at 1. rewrite E. lra.
Qed.

Lemma forget_ok c m : levels_ok m -> levels_ok (forget c m).
Proof. intros Hm a bk [E _]%map_lookup_filter_Some. by eapply Hm. Qed.

Lemma potential_insert_ne m a a' bk t : a <> a' -> potential (<[a' := bk]> m) a t = potential m a t.
Proof. intros Hne. unfold potential. by rewrite lookup_insert_ne by congruence. Qed.

(** Spending pays for the request out of the potential. *)
Lemma potential_spend m a bk now :
  let '(bk', ok) := spend r b now bk in
  (potential (<[a := bk']> m) a now + (if ok then 1 else 0) == refilled r b (level bk) (stamp bk) now)%Q.
Proof.
  unfold spend, potential. rewrite lookup_insert_eq. cbn [level stamp]. unfold refilled at 1.
  replace (Qle_bool now (if Qle_bool now (stamp bk) then stamp bk else now)) with true.
  2: { symmetry. destruct (Qle_bool now (stamp bk)) eqn:E; [done|]. apply Qle_bool_iff, Qle_refl. }
  destruct (Qle_bool 1 _); lra.
Qed.

Lemma allow_pays m malloc_ok a a' c :
  levels_ok m ->
  let '(m', ok) := abs_allow r b malloc_ok m a' c in
  (potential m' a (mono c) + (if bool_decide (a' = a) && ok then 1 else 0) <=
   potential m a (mono c) + (if cleans_up m a' then b else 0))%Q.
Proof.
  intros Hm. unfold abs_allow, cleans_up. destruct (m !! a') as [bk|] eqn:E.
  - pose proof (potential_spend m a' bk (mono c)) as Hs. destruct (spend _ _ _ _) as [bk' ok].
    case_bool_decide as Ha; [subst a'|rewrite potential_insert_ne by congruence; cbn; lra].
    unfold potential at 2. rewrite E. cbn [andb]. lra.
  - set (m1 := if is_full m then forget c m else m).
    assert (potential m1 a (mono c) <= potential m a (mono c) + (if is_full m then b else 0))%Q as H1.
    { unfold m1. destruct (is_full m); [by apply potential_forget|lra]. }
    destruct (is_full m1 || negb malloc_ok); [rewrite andb_false_r; lra|].
    pose proof (potential_spend m1 a' (full_bucket b c) (mono c)) as Hs.
    destruct (spend _ _ _ _) as [bk' ok].
    case_bool_decide as Ha; [subst a'|rewrite potential_insert_ne by congruence; cbn; lra].
    assert (m1 !! a = None) as E1.
    { unfold m1. destruct (is_full m); [|done]. apply map_lookup_filter_None. by left. }
    unfold potential in H1 at 1. rewrite E1 in H1. cbn [full_bucket level stamp] in Hs. unfold refilled in Hs.
    replace (Qle_bool (mono c) (mono c)) with true in Hs by (symmetry; apply Qle_bool_iff, Qle_refl).
    cbn [andb]. lra.
Qed.

End Potential.

(** ** The claims *)

Section Claims.
Context `{Inet}.

(** The requests of [a] that a run lets through. *)
Definition granted (a : addr) (rl : RateLimiter) (op : rl_op) : bool :=
  match op with
  | Request malloc_ok ip c =>
      match parse_ip ip with
      | Some k => bool_decide (k_addr k = a) && snd (rate_limiter_allow malloc_ok rl ip c)
      | None => false
      end
  | CleanUp _ => false
  end.

Fixpoint grants (a : addr) (rl : RateLimiter) (ops : list rl_op) : Z :=
  match ops with
  | [] => 0
  | op :: ops => (if granted a rl op then 1 else 0) + grants a (rl_apply rl op) ops
  end.

(** The clean-ups of a run: the timer's, and those of a request of an
    untracked address on a full table. *)
Definition cleaned (rl : RateLimiter) (op : rl_op) : bool :=
  match op with
  | Request _ ip _ =>
      match parse_ip ip with
      | Some k =>
          match load_entry rl k with
          | Some _ => false
          | None => num_entries rl >=? RATE_LIMITER_MAX_ENTRIES
          end
      | None => false
      end
  | CleanUp _ => true
  end.

Fixpoint cleanups (rl : RateLimiter) (ops : list rl_op) : Z :=
  match ops with
  | [] => 0
  | op :: ops => (if cleaned rl op then 1 else 0) + cleanups (rl_apply rl op) ops
  end.

(** The monotonic clock does not go back, from [t] to [t']. *)
Fixpoint clocked (t : Q) (ops : list rl_op) (t' : Q) : Prop :=
  match ops with
  | [] => (t <= t')%Q
  | op :: ops => (t <= mono (op_clock op))%Q /\ clocked (mono (op_clock op)) ops t'
  end.

Lemma wf_levels r b rl bs : rl_wf r b rl bs -> levels_ok b (abs rl).
Proof.
  intros Hwf a bk (e & He & _ & <-)%(abs_lookup r b rl bs); [|done].
  pose proof (rw_entries _ _ _ _ Hwf) as Hf. rewrite Forall_forall in Hf.
  destruct (Hf e He) as (q & Hq & H0 & H1). unfold level_ok, to_bucket. cbn [level]. by rewrite Hq.
Qed.

Lemma cleans_up_load r b rl bs k :
  rl_wf r b rl bs ->
  cleans_up (abs rl) (k_addr k) =
  match load_entry rl k with Some _ => false | None => num_entries rl >=? RATE_LIMITER_MAX_ENTRIES end.
Proof.
  intros Hwf. unfold cleans_up. rewrite (abs_full r b rl bs Hwf).
  destruct (load_entry rl k) as [e|] eqn:El.
  - destruct (load_entry_elem r b rl bs k e Hwf El) as (He & Hk).
    destruct (abs rl !! k_addr k) eqn:E; [done|]. apply (abs_none r b rl bs _ Hwf) in E. destruct E.
    rewrite <- Hk. by apply (list_elem_of_fmap_2 entry_addr).
  - destruct (abs rl !! k_addr k) as [bk|] eqn:E; [|done].
    apply (abs_lookup r b rl bs _ _ Hwf) in E as (e & He & Ha & _).
    destruct (load_tracked r b rl bs k Hwf) as [e' He']; [|congruence].
    rewrite <- Ha. by apply list_elem_of_fmap_2.
Qed.

Lemma allow_unparsed malloc_ok rl ip c :
  parse_ip ip = None -> rate_limiter_allow malloc_ok rl ip c = (rl, true).
Proof. intros Hp. unfold rate_limiter_allow. rewrite Hp. by destruct (enabled rl), (buckets rl). Qed.

(** One operation, in potentials. *)
Lemma apply_pays r b rl bs a op :
  rl_wf r b rl bs ->
  let u := mono (op_clock op) in
  (potential r b (abs (rl_apply rl op)) a u + (if granted a rl op then 1 else 0) <=
   potential r b (abs rl) a u + (if cleaned rl op then b else 0))%Q.
Proof.
  intros Hwf u. pose proof (wf_levels r b rl bs Hwf) as Hlv.
  pose proof (rw_rpos _ _ _ _ Hwf) as Hr. pose proof (rw_bpos _ _ _ _ Hwf) as Hb.
  destruct op as [malloc_ok ip c|c]; unfold rl_apply, granted, cleaned.
  - destruct (parse_ip ip) as [k|] eqn:Ep; [|rewrite (allow_unparsed _ _ _ _ Ep); cbn [fst]; lra].
    pose proof (allow_pays r b Hr Hb (abs rl) malloc_ok a (k_addr k) c Hlv) as Hp.
    rewrite <- (allow_refines r b malloc_ok rl bs ip k c Hwf Ep) in Hp.
    rewrite <- (cleans_up_load r b rl bs k Hwf).
    destruct (rate_limiter_allow malloc_ok rl ip c) as [rl' ok]. exact Hp.
  - rewrite (abs_cleanup r b rl bs c Hwf). pose proof (potential_forget r b Hr Hb (abs rl) c a u Hlv). lra.
Qed.

Lemma grants_bounded r b a ops : forall rl bs t t',
  rl_wf r b rl bs -> clocked t ops t' ->
  (inject_Z (grants a rl ops) <=
   potential r b (abs rl) a t + b * inject_Z (cleanups rl ops) + r * (t' - t))%Q.
Proof.
  induction ops as [|op ops IH]; intros rl bs t t' Hwf; pose proof (wf_levels r b rl bs Hwf) as Hlv;
    pose proof (rw_rpos _ _ _ _ Hwf) as Hr; pose proof (rw_bpos _ _ _ _ Hwf) as Hb;
    cbn [clocked grants cleanups].
  - intros Ht. destruct (potential_range r b Hr Hb (abs rl) a t Hlv) as [H0 _].
    assert (0 <= r * (t' - t))%Q by (apply Qmult_le_0_compat; lra). change (inject_Z 0) with 0%Q. lra.
  - intros [Hu Hops]. destruct (rl_run_wf r b [op] rl) as [bs' Hwf']; [by exists bs|].
    pose proof (IH (rl_apply rl op) bs' _ t' Hwf' Hops) as Hi.
    pose proof (apply_pays r b rl bs a op Hwf) as Hp. cbv zeta in Hp.
    pose proof (potential_growth r b Hr (abs rl) a t _ Hlv Hu) as Hg.
    rewrite !inject_Z_plus. destruct (granted a rl op), (cleaned rl op);
      change (inject_Z 1) with 1%Q; change (inject_Z 0) with 0%Q; lra.
Qed.

(** C9: whatever a worker's limiter did before, with positive rate and in any sequence of
    requests (of any addresses, with any allocation failing) and clean-ups whose monotonic
    clock readings do not go back from [t] to [t'], the requests of one address that pass
    number at most [burst * (1 + n) + rate * (t' - t)], where [n] is the number of clean-ups
    in the sequence, those of the timer and those a full table forces. *)
Theorem rate_limit_enforced (r b : Q) (pre ops : list rl_op) (a : addr) (t t' : Q) :
  (0 < r)%Q -> clocked t ops t' ->
  let rl := reached r b pre in
  (inject_Z (grants a rl ops) <=
   burst_of r b * (1 + inject_Z (cleanups rl ops)) + r * (t' - t))%Q.
Proof.
  intros Hr Hc rl. destruct (reached_wf r b pre Hr) as [bs Hwf]. fold rl in Hwf.
  pose proof (grants_bounded r _ a ops rl bs t t' Hwf Hc) as Hg.
  destruct (potential_range r (burst_of r b) Hr (rw_bpos _ _ _ _ Hwf) (abs rl) a t
    (wf_levels _ _ _ _ Hwf)) as [_ Hm]. lra.
Qed.

(** C10: in every state a worker's limiter with a positive rate can reach, it stands for a
    finite map from addresses to token buckets, empty at first, with as many buckets as
    [rate_limiter_get_entry_count] says; and each operation does to that map exactly what the
    abstract limiter does.  A request of a tracked address refills that bucket and takes a
    token if there is one, changing no other bucket; an untracked address gets a full bucket
    if there is memory and fewer than 10000 buckets, else after a clean-up of a full table,
    else it is refused; a clean-up forgets the buckets whose last request is older than the
    wall clock less 60.  An address that does not parse is let through. *)
Theorem allow_refines_token_bucket (r b : Q) (ops : list rl_op) (malloc_ok : bool) (ip : chars) (c : Clock) :
  (0 < r)%Q ->
  let rl := reached r b ops in
  abs (reached r b []) = ∅ /\
  Z.of_nat (size (abs rl)) = rate_limiter_get_entry_count rl /\
  abs (rate_limiter_cleanup rl c) = forget c (abs rl) /\
  match parse_ip ip with
  | None => rate_limiter_allow malloc_ok rl ip c = (rl, true)
  | Some k =>
      (let '(rl', ok) := rate_limiter_allow malloc_ok rl ip c in (abs rl', ok)) =
      abs_allow r (burst_of r b) malloc_ok (abs rl) (k_addr k) c
  end.
Proof.
  intros Hr rl. destruct (reached_wf r b ops Hr) as [bs Hwf]. fold rl in Hwf. split_and!.
  - apply map_eq. intros a. rewrite lookup_empty. apply (abs_none r _ _ _ a (init_wf r b Hr)).
    rewrite empty_table_concat. by intros ?%elem_of_nil.
  - by apply (abs_size r (burst_of r b) rl bs).
  - by apply (abs_cleanup r (burst_of r b) rl bs).
  - destruct (parse_ip ip) as [k|] eqn:Ep; [by apply (allow_refines _ _ _ _ bs)|by apply allow_unparsed].
Qed.

(** *** The clean-up and the two clocks *)

Lemma time_t_mono p q : (p <= q)%Q -> time_t p <= time_t q.
Proof.
  unfold time_t, Qle. intros Hle.
  rewrite <- (Z.quot_mul_cancel_r (Qnum p) (Zpos (Qden p)) (Zpos (Qden q))) by done.
  rewrite <- (Z.quot_mul_cancel_r (Qnum q) (Zpos (Qden q)) (Zpos (Qden p))) by done.
  rewrite (Z.mul_comm (Zpos (Qden q)) (Zpos (Qden p))). by apply Z.quot_le_mono.
Qed.

Definition seen_by (T : Z) (m : Buckets) : Prop := forall a bk, m !! a = Some bk -> seen bk <= T.

Lemma forget_seen T c m : seen_by T m -> seen_by T (forget c m).
Proof. intros Hm a bk [E _]%map_lookup_filter_Some. by eapply Hm. Qed.

Lemma allow_seen r b T malloc_ok m a c :
  seen_by T m -> time_t (mono c) <= T -> seen_by T (fst (abs_allow r b malloc_ok m a c)).
Proof.
  intros Hm Hc. unfold abs_allow, spend.
  assert (forall m' bk, seen_by T m' -> seen bk = time_t (mono c) -> seen_by T (<[a := bk]> m')) as Hi.
  { intros m' bk Hm' Hs a' bk' [[<- <-]|[_ E]]%lookup_insert_Some; [lia|by eapply Hm']. }
  destruct (m !! a); [by apply Hi|].
  assert (seen_by T (if is_full m then forget c m else m)) as H1
    by (destruct (is_full m); [by apply forget_seen|done]).
  destruct (_ || _); [done|]. by apply Hi.
Qed.

Lemma run_seen r b ops T : forall rl,
  (exists bs, rl_wf r b rl bs) -> Forall (fun op => time_t (mono (op_clock op)) <= T) ops ->
  seen_by T (abs rl) -> seen_by T (abs (rl_run rl ops)).
Proof.
  induction ops as [|op ops IH]; intros rl [bs Hwf] Hf Hs; [done|]. apply Forall_cons in Hf as [Ho Hf].
  change (rl_run rl (op :: ops)) with (rl_run (rl_apply rl op) ops).
  apply IH; [by apply (rl_run_wf r b [op] rl); exists bs|done|].
  destruct op as [malloc_ok ip c|c]; unfold rl_apply.
  - destruct (parse_ip ip) as [k|] eqn:Ep; [|by rewrite (allow_unparsed _ _ _ _ Ep)].
    pose proof (allow_seen r b T malloc_ok (abs rl) (k_addr k) c Hs Ho) as Ha.
    rewrite <- (allow_refines r b malloc_ok rl bs ip k c Hwf Ep) in Ha.
    by destruct (rate_limiter_allow malloc_ok rl ip c).
  - rewrite (abs_cleanup r b rl bs c Hwf). by apply forget_seen.
Qed.

(** C32: [last_request] is read from the monotonic clock and compared with the wall clock.
    After any requests and clean-ups at monotonic readings up to that of a clean-up, where the
    monotonic clock (seconds since boot) is more than 60 below the wall clock (seconds since
    1970), that clean-up removes every bucket, also those used in the same second: the table
    is empty and the next request of any address is judged against a full bucket, however
    many requests it made before. *)
Theorem cleanup_resets_every_bucket (r b : Q) (ops : list rl_op) (c : Clock) :
  (0 < r)%Q ->
  Forall (fun op => (mono (op_clock op) <= mono c)%Q) ops ->
  time_t (mono c) < wall c - RATE_LIMITER_ENTRY_TTL ->
  let rl := rate_limiter_cleanup (reached r b ops) c in
  rate_limiter_get_entry_count rl = 0 /\
  forall ip k c', parse_ip ip = Some k ->
    snd (rate_limiter_allow true rl ip c') = Qle_bool 1 (burst_of r b).
Proof.
  intros Hr Hops Hcl rl. destruct (reached_wf r b ops Hr) as [bs Hwf].
  pose proof (cleanup_wf r _ _ bs c Hwf) as Hwf'. fold rl in Hwf'.
  assert (abs rl = ∅) as Habs.
  { unfold rl. rewrite (abs_cleanup r _ _ bs c Hwf). apply map_eq. intros a. rewrite lookup_empty.
    apply map_lookup_filter_None. right. intros bk Hbk Hs. cbn [snd] in Hs.
    pose proof (run_seen r (burst_of r b) ops (time_t (mono c)) (fst (rate_limiter_init true (Finite r) (Finite b))))
      as Hseen. fold (reached r b ops) in Hseen.
    assert (seen bk <= time_t (mono c)); [|lia]. eapply Hseen; [eexists; by apply init_wf| | |exact Hbk].
    - eapply Forall_impl; [exact Hops|]. intros op. apply time_t_mono.
    - intros a' bk' (e & He & _)%(abs_lookup r _ _ _ _ _ (init_wf r b Hr)).
      rewrite empty_table_concat in He. by apply elem_of_nil in He. }
  split.
  - unfold rate_limiter_get_entry_count. by rewrite <- (abs_size r _ rl _ Hwf'), Habs, map_size_empty.
  - intros ip k c' Hp. pose proof (allow_refines r _ true rl _ ip k c' Hwf' Hp) as Ha.
    destruct (rate_limiter_allow true rl ip c') as [rl' ok]. rewrite Habs in Ha.
    unfold abs_allow in Ha. rewrite lookup_empty in Ha. cbn [is_full] in Ha. unfold is_full in Ha.
    rewrite map_size_empty in Ha. cbn [orb negb] in Ha. injection Ha as _ ->. cbn [snd].
    unfold refilled, full_bucket. cbn [level stamp].
    by replace (Qle_bool (mono c') (mono c')) with true by (symmetry; apply Qle_bool_iff, Qle_refl).
Qed.

(** A rate that is not a number starts a limiter.  It refuses an address
    from the first request after the bucket's time stamp on, for ever. *)
Lemma nan_rate_denies rl now e :
  tokens e = NaN \/ (rate rl = NaN /\ (last_update e < now)%Q) ->
  snd (take_token rl now e) = false /\ tokens (fst (take_token rl now e)) = NaN.
Proof.
  assert (forall d, double_add NaN d = NaN /\ double_add d NaN = NaN) as Hn by (by intros []).
  intros Ht. unfold take_token, replenish_tokens. cbn [last_update].
  destruct (Qle_bool now _) eqn:E; cbn in E |- *.
  - destruct Ht as [Ht|[_ Ht]]; [by rewrite Ht|]. apply Qle_bool_iff in E. lra.
  - destruct Ht as [Ht|[Ht _]]; rewrite Ht; [rewrite (proj1 (Hn _))|cbn; rewrite (proj2 (Hn _))];
      by destruct (burst rl).
Qed.

End Claims.

(** ** Witnesses *)

(** Monotonic time [q] on a machine booted on 14 November 2023. *)
Definition at_time (q : Q) : Clock := {| mono := q; wall := 1700000000 |}.

Definition some_client : chars := str "10.0.0.1".

Definition ask (q : Q) : rl_op := Request true some_client (at_time q).

Definition some_addr : addr := map_v4 [10; 0; 0; 1].

(** One request a second with bursts of 2, after two requests and a
    clean-up: of five requests in half a second with a clean-up among
    them, four pass. *)
Lemma rate_limit_enforced_witness :
  let rl := @reached inet_quad 1 2 [ask 1; CleanUp (at_time 2); ask 3] in
  let ops := [ask 5; ask 5; ask (21 # 4); CleanUp (at_time (21 # 4)); ask (21 # 4); ask (11 # 2)] in
  @grants inet_quad some_addr rl ops = 4 /\ @cleanups inet_quad rl ops = 1 /\
  (inject_Z (@grants inet_quad some_addr rl ops) <= 2 * (1 + 1) + 1 * ((11 # 2) - 5))%Q.
Proof.
  intros rl ops. assert (@cleanups inet_quad rl ops = 1) as Hc by (vm_compute; reflexivity).
  split; [vm_compute; reflexivity|]. split; [exact Hc|].
  pose proof (@rate_limit_enforced inet_quad 1 2 [ask 1; CleanUp (at_time 2); ask 3] ops some_addr 5 (11 # 2)) as Hb.
  cbv zeta in Hb. fold rl in Hb. rewrite Hc in Hb. apply Hb; [reflexivity|].
  cbn. split_and!; unfold Qle; simpl; lia.
Defined.

Lemma allow_refines_token_bucket_witness :
  let rl := @reached inet_quad 1 2 [ask 1; ask 1] in
  exists bk, abs rl !! some_addr = Some bk /\
  (let '(rl', ok) := @rate_limiter_allow inet_quad true rl some_client (at_time 3) in (abs rl', ok)) =
  (let '(bk', ok) := spend 1 2 3 bk in (<[some_addr := bk']> (abs rl), ok)).
Proof.
  intros rl. exists {| level := (2 - 1) - 1; stamp := 1; seen := 1 |}.
  assert (abs rl !! some_addr = Some {| level := (2 - 1) - 1; stamp := 1; seen := 1 |}) as Hb
    by (vm_compute; reflexivity).
  split; [exact Hb|].
  destruct (@allow_refines_token_bucket inet_quad 1 2 [ask 1; ask 1] true some_client (at_time 3) eq_refl)
    as (_ & _ & _ & Ha). 
  transitivity (abs_allow 1 2 true (abs rl) some_addr (at_time 3)); [exact Ha|].
  unfold abs_allow. rewrite Hb. reflexivity.
Defined.

(** A client that has used up its burst is let through again right after a clean-up. *)
Lemma cleanup_resets_every_bucket_witness :
  let rl := @reached inet_quad 1 2 [ask 5; ask 5] in
  snd (@rate_limiter_allow inet_quad true rl some_client (at_time 5)) = false /\
  snd (@rate_limiter_allow inet_quad true (rate_limiter_cleanup rl (at_time 5)) some_client (at_time 5)) = true.
Proof.
  intros rl. split; [vm_compute; reflexivity|].
  destruct (@cleanup_resets_every_bucket inet_quad 1 2 [ask 5; ask 5] (at_time 5) eq_refl) as [_ Hn].
  - repeat constructor; apply Qle_refl.
  - reflexivity.
  - exact (Hn some_client {| k_addr := some_addr; is_ipv6 := 0 |} (at_time 5) eq_refl).
Defined.
