(* ===== verification/Rpc.v ===== *)
(** * The Bitcoin node client ([src/rpc.c], [include/rpc.h])

    Authentication, JSON-RPC requests and responses, the synchronous
    client, the per-chain manager and its asynchronous requests.

    The file system maps a path to the contents [fopen] finds; name
    resolution, sockets, libevent and the allocator are arguments.  A
    pointer to a client of the manager is its chain, a pointer to a request
    its [req_id].  Where an argument of the code can make it write outside
    an array, the definition returns [None]: the behaviour is undefined. *)
From Stdlib Require Import ZArith Lia Ascii String.
From stdpp Require Import base list numbers strings relations.
From S2P Require Import Prelude CLib Hex Network Config.

#[local] Open Scope Z_scope.

Definition RPC_INITIAL_BUFFER_LEN : Z := 64 * 1024.
Definition RPC_MAX_RESPONSE_LEN : Z := 4 * 1024 * 1024.
Definition RPC_ASYNC_INITIAL_BUF : Z := 4096.

Definition RPC_OK : Z := 0.
Definition RPC_ERR_CONNECT : Z := -1.
Definition RPC_ERR_AUTH : Z := -2.
Definition RPC_ERR_TIMEOUT : Z := -3.
Definition RPC_ERR_PARSE : Z := -4.
Definition RPC_ERR_NODE : Z := -5.
Definition RPC_ERR_MEMORY : Z := -6.
Definition RPC_ERR_COOKIE : Z := -7.

(** ** Base64 *)

Definition base64_table : chars :=
  str "ABCDEFGHIJKLMNOPQRSTUVWXYZabcdefghijklmnopqrstuvwxyz0123456789+/".

(** [base64_table\[(v >> k) & 0x3f\]] *)
Definition base64_digit (v k : Z) : ascii :=
  nth (Z.to_nat (Z.land (Z.shiftr v k) 63)) base64_table NUL.

(** The characters written before the NUL; each round of the loop consumes
    up to three bytes of [input]. *)
Fixpoint base64_encode (input : chars) : chars :=
  match input with
  | [] => []
  | a :: r =>
      let v := Z.shiftl (code a) 16 in
      let v := match r with b :: _ => Z.lor v (Z.shiftl (code b) 8) | _ => v end in
      let v := match r with _ :: c :: _ => Z.lor v (code c) | _ => v end in
      [base64_digit v 18; base64_digit v 12;
       match r with _ :: _ => base64_digit v 6 | _ => "="%char end;
       match r with _ :: _ :: _ => base64_digit v 0 | _ => "="%char end] ++
      match r with _ :: _ :: r' => base64_encode r' | _ => [] end
  end.

(** [base64_encode] into an array of [size] bytes, NUL included. *)
Definition base64_encode_into (size : nat) (input : chars) : option chars :=
  let encoded := base64_encode input in
  if (length encoded <? size)%nat then Some encoded else None.

(** ** Authentication *)

(** [snprintf(header, header_sz, "Basic %.500s", encoded)] *)
Definition basic_header (header_sz : nat) (encoded : chars) : chars :=
  if (7 <? header_sz)%nat then snprintf header_sz (str "Basic " ++ take 500 encoded) else [].

Definition build_auth_header (user password : chars) (header_sz : nat) : option chars :=
  let credentials := snprintf 128 (user ++ str ":" ++ password) in
  basic_header header_sz <$> base64_encode_into 256 credentials.

(** [while (len > 0 && (line\[len-1\] == '\n' || line\[len-1\] == '\r'))] *)
Definition strip_newline (line : chars) : chars :=
  rev (drop_while (fun c => eqc c LF || eqc c CR) (rev line)).

(** [file] is what [fopen] finds at the path; the header is left alone on
    failure. *)
Definition read_cookie_file (file : option chars) (header : chars) (header_sz : nat) :
    option (Z * chars) :=
  match file with
  | None | Some [] => Some (RPC_ERR_COOKIE, header)
  | Some text =>
      let line := strip_newline (c_string (fst (fgets 255 text))) in
      encoded ← base64_encode_into 256 line;
      Some (0, basic_header header_sz encoded)
  end.

Definition cookie_subdir (chain : BitcoinChain) : chars :=
  match chain with
  | CHAIN_TESTNET => str "/testnet3"
  | CHAIN_SIGNET => str "/signet"
  | CHAIN_REGTEST => str "/regtest"
  | _ => []
  end.

Definition get_cookie_path_from_datadir (datadir : chars) (chain : BitcoinChain)
    (path_sz : nat) : chars :=
  snprintf path_sz (take 200 datadir ++ take 10 (cookie_subdir chain) ++ str "/.cookie").

(** ** Clients *)

Record RPCClient := mkRPCClient {
  cl_host : chars;
  cl_port : Z;
  auth_header : chars;
  cl_timeout_sec : Z;
  cl_wallet : chars;
  cl_chain : BitcoinChain;
  available : Z;
  request_count : Z;
  error_count : Z;
  cookie_path : chars;
  cookie_mtime : Z;
  resolved_addr : chars;
  resolved_addr_len : Z
}.

#[export] Instance eta_RPCClient : Eta RPCClient := fun r =>
  mkRPCClient (cl_host r) (cl_port r) (auth_header r) (cl_timeout_sec r) (cl_wallet r)
    (cl_chain r) (available r) (request_count r) (error_count r) (cookie_path r)
    (cookie_mtime r) (resolved_addr r) (resolved_addr_len r).

(** [memset(client, 0, sizeof(RPCClient))] *)
Definition zero_client : RPCClient :=
  mkRPCClient [] 0 [] 0 [] CHAIN_MAINNET 0 0 0 [] 0 [] 0.

Section FileSystem.

(** The contents of the file at a path, as [fopen] and [fgets] see it. *)
Context (fs : chars -> option chars).

(** [read_cookie_file(client->cookie_path, client->auth_header, 512)] and
    what becomes of the client. *)
Definition client_read_cookie (client : RPCClient) : option (RPCClient * Z) :=
  '(ret, header) ← read_cookie_file (fs (cookie_path client)) (auth_header client) 512;
  Some (client <| auth_header := header |>, ret).

Definition rpc_init (config : RPCConfig) (chain : BitcoinChain) : option (RPCClient * Z) :=
  let client := zero_client
    <| cl_chain := chain |>
    <| cl_timeout_sec := if timeout_sec config >? 0 then timeout_sec config else 30 |>
    <| cl_host := snprintf 256 (host config) |>
    <| cl_port := port config |> in
  let client := match wallet config with
                | [] => client
                | _ => client <| cl_wallet := snprintf 64 (wallet config) |>
                end in
  match cookie_file config, datadir config, user config, password config with
  | _ :: _, _, _, _ =>
      '(client, ret) ← client_read_cookie
        (client <| cookie_path := snprintf 256 (cookie_file config) |>);
      Some (client, if ret =? 0 then RPC_OK else RPC_ERR_COOKIE)
  | [], _ :: _, _, _ =>
      '(client, ret) ← client_read_cookie
        (client <| cookie_path := get_cookie_path_from_datadir (datadir config) chain 256 |>);
      Some (client, if ret =? 0 then RPC_OK else RPC_ERR_COOKIE)
  | [], [], _ :: _, _ :: _ =>
      header ← build_auth_header (user config) (password config) 512;
      Some (client <| auth_header := header |>, RPC_OK)
  | _, _, _, _ => Some (client, RPC_ERR_AUTH)
  end.

Definition rpc_refresh_cookie (client : RPCClient) : option (RPCClient * Z) :=
  match cookie_path client with
  | [] => Some (client, RPC_OK)
  | _ => client_read_cookie client
  end.

Definition rpc_init_simple (host : chars) (port : Z) (user password : chars) (chain : BitcoinChain) :
    option (RPCClient * Z) :=
  rpc_init (mkRPCConfig 1 (strncpy 255 host) port (strncpy 63 user) (strncpy 63 password) [] [] 30 []) chain.

Definition rpc_init_cookie (host : chars) (port : Z) (cookie_path : chars) (chain : BitcoinChain) :
    option (RPCClient * Z) :=
  rpc_init (mkRPCConfig 1 (strncpy 255 host) port [] [] (strncpy 255 cookie_path) [] 30 []) chain.

End FileSystem.

(** ** JSON-RPC *)

(** [counter] is the static [request_id]; it is left alone when [malloc]
    fails.  The buffer always holds the text: it is 128 bytes longer than
    [method] and [params]. *)
Definition build_jsonrpc_request (malloc_ok : bool) (counter : Z) (method params : chars) :
    Z * option chars :=
  if negb malloc_ok then (counter, None) else
  let counter := u64 (counter + 1) in
  (counter, Some (snprintf (length params + length method + 128)
     ([ "{"%char; DQ ] ++ str "jsonrpc" ++ [DQ; ":"%char; DQ] ++ str "1.0" ++ [DQ; ","%char; DQ] ++
      str "id" ++ [DQ; ":"%char] ++ print_dec counter ++ [","%char; DQ] ++ str "method" ++
      [DQ; ":"%char; DQ] ++ method ++ [DQ; ","%char; DQ] ++ str "params" ++ [DQ; ":"%char] ++
      params ++ ["}"%char]))).

Definition quoted_key (k : string) : chars := [DQ] ++ str k ++ [DQ; ":"%char].

(** [while (p\[0\] && depth > 0)]: the number of characters consumed; [prev] is
    the character before. *)
Fixpoint scan_value (open close_char prev : ascii) (depth : Z) (in_string : bool) (p : chars) : nat :=
  if depth >? 0 then
    match p with
    | [] => O
    | c :: r =>
        let '(depth, in_string) :=
          if eqc c DQ && negb (eqc prev BSL) then (depth, negb in_string)
          else if in_string then (depth, in_string)
          else if eqc c open then (depth + 1, in_string)
          else if eqc c close_char then (depth - 1, in_string)
          else (depth, in_string) in
        S (scan_value open close_char c depth in_string r)
    end
  else O.

(** [if (len >= result_sz) len = result_sz - 1; strncpy(result, p, len);
    result\[len\] = '\0'] *)
Definition copy_result (result_sz len : nat) (p : chars) : chars :=
  take (if (result_sz <=? len)%nat then (result_sz - 1)%nat else len) p.

Definition skip_blank (p : chars) : chars := drop_while (fun c => eqc c SP || eqc c TAB) p.

Definition extract_error (result_sz : nat) (val_start : chars) : chars :=
  match strstr val_start (quoted_key "message") with
  | Some i =>
      let msg_pos := drop_while (fun c => eqc c SP || eqc c DQ) (drop (i + 10) val_start) in
      match strchr msg_pos DQ with
      | Some len => copy_result result_sz len msg_pos
      | None => take (result_sz - 1) val_start
      end
  | None => take (result_sz - 1) val_start
  end.

(** The value after the key, which is not a complete string. *)
Definition extract_value (result_sz : nat) (result_pos : chars) : chars :=
  let c := deref result_pos in
  if eqc c "{"%char || eqc c "["%char then
    let close_char := if eqc c "{"%char then "}"%char else "]"%char in
    copy_result result_sz (S (scan_value c close_char c 1 false (tl result_pos))) result_pos
  else if strncmp_eq result_pos (str "null") 4 then strncpy (result_sz - 1) (str "null")
  else
    let len := length (take_while (fun c => negb (eqc c ","%char || eqc c "}"%char)) result_pos) in
    copy_result result_sz len result_pos.

Definition extract_result (result_sz : nat) (result_pos : chars) : chars :=
  if eqc (deref result_pos) DQ then
    let result_pos := tl result_pos in
    match strchr result_pos DQ with
    | Some len => copy_result result_sz len result_pos
    | None => extract_value result_sz result_pos
    end
  else extract_value result_sz result_pos.

(** The return value, the contents of [result] and [is_error]. *)
Definition parse_jsonrpc_response (response : chars) (result_sz : nat) : Z * chars * bool :=
  let response := c_string response in
  let get_result :=
    match strstr response (quoted_key "result") with
    | None => (RPC_ERR_PARSE, strncpy (result_sz - 1) (str "No result in response"), false)
    | Some i => (RPC_OK, extract_result result_sz (skip_blank (drop (i + 9) response)), false)
    end in
  match strstr response (quoted_key "error") with
  | Some i =>
      let val_start := skip_blank (drop (i + 8) response) in
      if negb (strncmp_eq val_start (str "null") 4)
      then (RPC_ERR_NODE, extract_error result_sz val_start, true)
      else get_result
  | None => get_result
  end.

(** ** HTTP *)

Definition request_header (client : RPCClient) (body_len : Z) : chars :=
  str "POST " ++ (match cl_wallet client with [] => str "/" | _ => str "/wallet/" end) ++
  cl_wallet client ++ str " HTTP/1.1" ++ CRLF ++
  str "Host: " ++ cl_host client ++ str ":" ++ print_dec (cl_port client) ++ CRLF ++
  str "Authorization: " ++ auth_header client ++ CRLF ++
  str "Content-Type: application/json" ++ CRLF ++
  str "Content-Length: " ++ print_dec body_len ++ CRLF ++
  str "Connection: close" ++ CRLF ++ CRLF.

(** The header goes through an array of 2048 bytes, and [header_len] bytes
    of it are copied. *)
Definition rpc_build_http_request (malloc_ok : bool) (client : RPCClient) (body : chars) :
    option chars :=
  if negb malloc_ok then None else
  Some (snprintf 2048 (request_header client (zlen body)) ++ body).

(** [atoi] after the first space of a response that starts with "HTTP/". *)
Definition response_http_status (response : chars) : Z :=
  if strncmp_eq response (str "HTTP/") 5 then
    match strchr response SP with
    | Some i => atoi (drop (S i) (c_string response))
    | None => 0
    end
  else 0.

(** What follows the blank line. *)
Definition response_body (response : chars) : option chars :=
  (fun i => drop (i + 4) response) <$> strstr response (CRLF ++ CRLF).

(** ** The synchronous client *)

(** One address of [getaddrinfo]: the descriptor [socket] gives, and whether
    [connect] succeeds. *)
Record AddrTry := mkAddrTry { try_socket : option Z; try_connect : bool }.

(** The descriptor that is connected, and the ones that were closed. *)
Fixpoint connect_loop (l : list AddrTry) : option Z * list Z :=
  match l with
  | [] => (None, [])
  | t :: l =>
      match try_socket t with
      | None => connect_loop l
      | Some fd =>
          if try_connect t then (Some fd, [])
          else let '(r, closed) := connect_loop l in (r, fd :: closed)
      end
  end.

(** [getaddrinfo] takes the host and the port as text; [None] is a failure. *)
Definition rpc_connect (getaddrinfo : chars -> chars -> option (list AddrTry)) (client : RPCClient) :
    option Z * list Z :=
  match getaddrinfo (cl_host client) (snprintf 16 (print_dec (cl_port client))) with
  | None => (None, [])
  | Some res => connect_loop res
  end.

(** The first address that accepts is used, and every other socket that was
    opened is closed again: none is left over. *)
Lemma connect_loop_first (l : list AddrTry) :
  match connect_loop l with
  | (Some fd, closed) => exists k t rest, l = k ++ t :: rest /\ t = mkAddrTry (Some fd) true /\
      closed = omap try_socket k /\ Forall (fun t => try_socket t = None \/ try_connect t = false) k
  | (None, closed) => closed = omap try_socket l /\
      Forall (fun t => try_socket t = None \/ try_connect t = false) l
  end.
Proof.
  induction l as [|[[fd|] []] l IH]; cbn -[omap]; [done|by exists [], (mkAddrTry (Some fd) true), l|..];
    destruct (connect_loop l) as [[fd'|] closed]; cbn -[omap];
    first [destruct IH as (k & t & rest & -> & -> & -> & Hk)|destruct IH as [-> Hk]];
    first [by split; [done|constructor; auto]|
           match goal with |- exists k0 t0 r0, ?x :: _ = _ /\ _ => exists (x :: k), (mkAddrTry (Some fd') true), rest end;
           by split_and!; [done..|constructor; auto]].
Qed.

Record HttpEnv := mkHttpEnv {
  he_getaddrinfo : chars -> chars -> option (list AddrTry);
  he_send : chars -> bool;        (** [send] took all of these bytes *)
  he_malloc : bool;
  he_recv : list (chars * bool)   (** data waiting at each [recv]; [realloc] works *)
}.

(** The receive loop: [recv] takes at most the free space less one byte. *)
Fixpoint recv_loop (buffer_size : Z) (response : chars) (rs : list (chars * bool)) : chars :=
  match rs with
  | [] => response
  | (data, realloc_ok) :: rs =>
      match take (Z.to_nat (buffer_size - zlen response - 1)) data with
      | [] => response
      | got =>
          let response := response ++ got in
          let total := zlen response in
          if (total >=? buffer_size - 1) && (buffer_size <? RPC_MAX_RESPONSE_LEN) then
            if negb realloc_ok then response
            else if total >=? RPC_MAX_RESPONSE_LEN - 1 then response
            else recv_loop (Z.min (buffer_size * 2) RPC_MAX_RESPONSE_LEN) response rs
          else if total >=? RPC_MAX_RESPONSE_LEN - 1 then response
          else recv_loop buffer_size response rs
      end
  end.

(** The client, [*rpc_error] and the body. *)
Definition rpc_http_request (e : HttpEnv) (client : RPCClient) (body : chars) :
    RPCClient * Z * option chars :=
  if bool_decide (fst (rpc_connect (he_getaddrinfo e) client) = None)
  then (client, RPC_ERR_CONNECT, None) else
  if negb (he_send e (snprintf 2048 (request_header client (zlen body))) && he_send e body)
  then (client, RPC_ERR_CONNECT, None) else
  if negb (he_malloc e) then (client, RPC_ERR_MEMORY, None) else
  let response := recv_loop RPC_INITIAL_BUFFER_LEN [] (he_recv e) in
  if zlen response =? 0 then (client, RPC_ERR_CONNECT, None) else
  let http_status := response_http_status response in
  match response_body response with
  | None => (client, RPC_ERR_PARSE, None)
  | Some body =>
      let client := client <| request_count ::= fun n => u64 (n + 1) |> in
      if (http_status =? 401) || (http_status =? 403) then (client, RPC_ERR_AUTH, None)
      else (client, RPC_OK, Some body)
  end.

Record CallEnv := mkCallEnv {
  ce_malloc : bool; ce_http : HttpEnv;      (** first attempt *)
  ce_malloc2 : bool; ce_http2 : HttpEnv     (** after refreshing the cookie *)
}.

Definition failure_text (rpc_error : Z) : chars :=
  if rpc_error =? RPC_ERR_CONNECT then str "Failed to connect to node"
  else if rpc_error =? RPC_ERR_AUTH then str "Authentication failed"
  else if rpc_error =? RPC_ERR_TIMEOUT then str "Request timed out"
  else str "RPC request failed".

Section Calls.

Context (fs : chars -> option chars).

(** The retry after an authentication failure. *)
Definition rpc_call_retry (e : CallEnv) (counter : Z) (client : RPCClient) (method params : chars) :
    option (Z * RPCClient * Z * option chars) :=
  '(client, ret) ← rpc_refresh_cookie fs client;
  if ret =? 0 then
    match build_jsonrpc_request (ce_malloc2 e) counter method params with
    | (counter, Some request) =>
        let '(client, rpc_error, response) := rpc_http_request (ce_http2 e) client request in
        Some (counter, client, rpc_error, response)
    | (counter, None) => Some (counter, client, RPC_ERR_AUTH, None)
    end
  else Some (counter, client, RPC_ERR_AUTH, None).

(** The counter of requests, the client, the return value and [result]. *)
Definition rpc_call (e : CallEnv) (counter : Z) (client : RPCClient) (method params : chars)
    (result_sz : nat) : option (Z * RPCClient * Z * chars) :=
  match build_jsonrpc_request (ce_malloc e) counter method params with
  | (counter, None) =>
      Some (counter, client, RPC_ERR_MEMORY,
            strncpy (result_sz - 1) (str "Memory allocation failed"))
  | (counter, Some request) =>
      let '(client, rpc_error, response) := rpc_http_request (ce_http e) client request in
      '(counter, client, rpc_error, response) ←
        match response with
        | Some _ => Some (counter, client, rpc_error, response)
        | None =>
            let client := client <| error_count ::= fun n => u64 (n + 1) |> in
            if (rpc_error =? RPC_ERR_AUTH) && negb (eqc (deref (cookie_path client)) NUL)
            then rpc_call_retry e counter client method params
            else Some (counter, client, rpc_error, None)
        end;
      match response with
      | None =>
          Some (counter, client <| available := 0 |>, rpc_error,
                strncpy (result_sz - 1) (failure_text rpc_error))
      | Some response =>
          let '(ret, result, is_error) := parse_jsonrpc_response response result_sz in
          Some (counter,
                if is_error : bool then client <| error_count ::= fun n => u64 (n + 1) |>
                else client <| available := 1 |>,
                ret, result)
      end
  end.

(** [\["<text>"\]] *)
Definition json_array1 (text : chars) : chars := ["["%char; DQ] ++ text ++ [DQ; "]"%char].

Definition rpc_test_connection (e : CallEnv) (counter : Z) (client : RPCClient) :
    option (Z * RPCClient * Z * chars) :=
  '(counter, client, ret, result) ← rpc_call e counter client (str "getblockchaininfo") (str "[]") 256;
  Some (counter, client <| available := if ret =? RPC_OK then 1 else 0 |>, ret, result).

Definition rpc_sendrawtransaction (malloc_ok : bool) (e : CallEnv) (counter : Z) (client : RPCClient)
    (hex_tx : chars) (result_sz : nat) : option (Z * RPCClient * Z * chars) :=
  if negb malloc_ok
  then Some (counter, client, RPC_ERR_MEMORY, strncpy (result_sz - 1) (str "Memory allocation failed"))
  else rpc_call e counter client (str "sendrawtransaction")
         (snprintf (length hex_tx + 8) (json_array1 hex_tx)) result_sz.

Definition rpc_getrawtransaction (e : CallEnv) (counter : Z) (client : RPCClient) (txid : chars)
    (result_sz : nat) : option (Z * RPCClient * Z * chars) :=
  rpc_call e counter client (str "getrawtransaction") (snprintf 128 (json_array1 txid)) result_sz.

Definition rpc_getmempoolentry (e : CallEnv) (counter : Z) (client : RPCClient) (txid : chars)
    (result_sz : nat) : option (Z * RPCClient * Z * chars) :=
  rpc_call e counter client (str "getmempoolentry") (snprintf 128 (json_array1 txid)) result_sz.

Definition rpc_getblockchaininfo (e : CallEnv) (counter : Z) (client : RPCClient)
    (result_sz : nat) : option (Z * RPCClient * Z * chars) :=
  rpc_call e counter client (str "getblockchaininfo") (str "[]") result_sz.

(** Without memory for the parameters the result buffer is left alone. *)
Definition rpc_decoderawtransaction (malloc_ok : bool) (e : CallEnv) (counter : Z) (client : RPCClient)
    (hex_tx result : chars) (result_sz : nat) : option (Z * RPCClient * Z * chars) :=
  if negb malloc_ok then Some (counter, client, RPC_ERR_MEMORY, result)
  else rpc_call e counter client (str "decoderawtransaction")
         (snprintf (length hex_tx + 8) (json_array1 hex_tx)) result_sz.

Definition rpc_testmempoolaccept (malloc_ok : bool) (e : CallEnv) (counter : Z) (client : RPCClient)
    (hex_tx result : chars) (result_sz : nat) : option (Z * RPCClient * Z * chars) :=
  if negb malloc_ok then Some (counter, client, RPC_ERR_MEMORY, result)
  else rpc_call e counter client (str "testmempoolaccept")
         (snprintf (length hex_tx + 16) (["["%char] ++ json_array1 hex_tx ++ ["]"%char])) result_sz.

End Calls.

(** ** The manager *)

Record Bufferevent := mkBev { bev_input : chars; bev_output : chars; bev_read : bool }.

Record RPCRequest := mkRequest {
  req_id : positive;
  req_client : BitcoinChain;
  bev : option Bufferevent;
  timeout_ev : bool;
  request_body : chars;
  response_buf : option chars;    (** the bytes stored, without the NUL *)
  response_len : Z;
  response_cap : Z;
  callback : option Z;            (** [callback_data] when a callback is set *)
  auth_retried : bool
}.

#[export] Instance eta_RPCRequest : Eta RPCRequest := fun r =>
  mkRequest (req_id r) (req_client r) (bev r) (timeout_ev r) (request_body r) (response_buf r)
    (response_len r) (response_cap r) (callback r) (auth_retried r).

Record RPCManager := mkManager {
  mainnet : RPCClient;
  testnet : RPCClient;
  signet : RPCClient;
  regtest : RPCClient;
  base : bool;                    (** the event base is set *)
  active_requests : list RPCRequest;
  total_broadcasts : Z;
  successful_broadcasts : Z;
  failed_broadcasts : Z
}.

#[export] Instance eta_RPCManager : Eta RPCManager := fun r =>
  mkManager (mainnet r) (testnet r) (signet r) (regtest r) (base r) (active_requests r)
    (total_broadcasts r) (successful_broadcasts r) (failed_broadcasts r).

Definition zero_manager : RPCManager :=
  mkManager zero_client zero_client zero_client zero_client false [] 0 0 0.

(** The client a pointer refers to, and an assignment through it. *)
Definition client_at (mgr : RPCManager) (chain : BitcoinChain) : RPCClient :=
  match chain with
  | CHAIN_MAINNET => mainnet mgr | CHAIN_TESTNET => testnet mgr
  | CHAIN_SIGNET => signet mgr | CHAIN_REGTEST => regtest mgr | CHAIN_MIXED => zero_client
  end.

Definition set_client (mgr : RPCManager) (chain : BitcoinChain) (c : RPCClient) : RPCManager :=
  match chain with
  | CHAIN_MAINNET => mgr <| mainnet := c |> | CHAIN_TESTNET => mgr <| testnet := c |>
  | CHAIN_SIGNET => mgr <| signet := c |> | CHAIN_REGTEST => mgr <| regtest := c |>
  | CHAIN_MIXED => mgr
  end.

(** [if (config && config->enabled) rpc_init(...)] for one chain. *)
Definition manager_init_chain (fs : chars -> option chars) (config : option RPCConfig)
    (chain : BitcoinChain) (mgr : RPCManager) : option RPCManager :=
  match config with
  | Some c =>
      if enabled c =? 0 then Some mgr else
      '(client, _) ← rpc_init fs c chain; Some (set_client mgr chain client)
  | None => Some mgr
  end.

Definition rpc_manager_init (fs : chars -> option chars)
    (cm ct cs cr : option RPCConfig) : option RPCManager :=
  mgr ← manager_init_chain fs cm CHAIN_MAINNET zero_manager;
  mgr ← manager_init_chain fs ct CHAIN_TESTNET mgr;
  mgr ← manager_init_chain fs cs CHAIN_SIGNET mgr;
  manager_init_chain fs cr CHAIN_REGTEST mgr.

Definition rpc_manager_get_client (mgr : RPCManager) (chain : BitcoinChain) : option BitcoinChain :=
  match chain with
  | CHAIN_MIXED => None
  | _ => if eqc (deref (cl_host (client_at mgr chain))) NUL then None else Some chain
  end.

Definition rpc_manager_broadcast (fs : chars -> option chars) (malloc_ok : bool) (e : CallEnv)
    (counter : Z) (mgr : RPCManager) (chain : BitcoinChain) (hex_tx : chars) (txid_sz : nat) :
    option (Z * RPCManager * Z * chars) :=
  match rpc_manager_get_client mgr chain with
  | None =>
      Some (counter, mgr, RPC_ERR_CONNECT,
            snprintf txid_sz (str "No RPC configured for " ++ network_chain_to_string chain))
  | Some p =>
      let mgr := mgr <| total_broadcasts ::= fun n => u64 (n + 1) |> in
      '(counter, client, ret, txid) ←
        rpc_sendrawtransaction fs malloc_ok e counter (client_at mgr p) hex_tx txid_sz;
      let mgr := set_client mgr p client in
      Some (counter,
            if ret =? RPC_OK then mgr <| successful_broadcasts ::= fun n => u64 (n + 1) |>
            else mgr <| failed_broadcasts ::= fun n => u64 (n + 1) |>,
            ret, txid)
  end.

(** [getaddrinfo]: the bytes of the first address. *)
Definition rpc_resolve_host (resolve : chars -> Z -> option chars) (client : RPCClient) : RPCClient :=
  match resolve (cl_host client) (cl_port client) with
  | None => client
  | Some sa =>
      if zlen sa <=? 128
      then client <| resolved_addr := sa |> <| resolved_addr_len := zlen sa |>
      else client
  end.

Definition resolve_chain (resolve : chars -> Z -> option chars) (mgr : RPCManager)
    (chain : BitcoinChain) : RPCManager :=
  if eqc (deref (cl_host (client_at mgr chain))) NUL then mgr
  else set_client mgr chain (rpc_resolve_host resolve (client_at mgr chain)).

Definition rpc_manager_init_async (fs : chars -> option chars) (resolve : chars -> Z -> option chars)
    (cm ct cs cr : option RPCConfig) : option RPCManager :=
  mgr ← rpc_manager_init fs cm ct cs cr;
  let mgr := mgr <| base := true |> <| active_requests := [] |> in
  Some (foldl (resolve_chain resolve) mgr [CHAIN_MAINNET; CHAIN_TESTNET; CHAIN_SIGNET; CHAIN_REGTEST]).

(** ** Asynchronous requests *)

(** One call of a completion callback. *)
Record Call := mkCall { call_status : Z; call_result : chars; call_data : Z }.

(** What a handler leaves: the manager, the request unless it was freed,
    and the callbacks it made. *)
Record Outcome := mkOutcome {
  o_mgr : RPCManager; o_req : option RPCRequest; o_calls : list Call }.

Definition rpc_request_list_add (mgr : RPCManager) (req : RPCRequest) : RPCManager :=
  mgr <| active_requests ::= cons req |>.

Definition rpc_request_list_remove (mgr : RPCManager) (req : RPCRequest) : RPCManager :=
  mgr <| active_requests ::= filter (fun r => req_id r <> req_id req) |>.

Definition fire (callback : option Z) (status : Z) (result : chars) : list Call :=
  match callback with
  | Some data => [{| call_status := status; call_result := result; call_data := data |}]
  | None => []
  end.

Definition rpc_request_complete (mgr : RPCManager) (req : RPCRequest) (status : Z) (result : chars) :
    Outcome :=
  {| o_mgr := rpc_request_list_remove mgr req; o_req := None;
     o_calls := fire (callback req) status result |}.

Record ConnectEnv := mkConnectEnv {
  bev_new_ok : bool; timer_new_ok : bool; socket_connect_ok : bool }.

(** [false] is the return value -1. *)
Definition rpc_async_connect (e : ConnectEnv) (mgr : RPCManager) (req : RPCRequest) :
    RPCRequest * bool :=
  if resolved_addr_len (client_at mgr (req_client req)) =? 0 then (req, false) else
  if negb (bev_new_ok e) then (req <| bev := None |>, false) else
  let req := req <| bev := Some (mkBev [] [] false) |> <| timeout_ev := timer_new_ok e |> in
  if negb (socket_connect_ok e) then (req <| bev := None |> <| timeout_ev := false |>, false)
  else (req, true).

(** [error_count++] of the client. *)
Definition count_error (mgr : RPCManager) (chain : BitcoinChain) : RPCManager :=
  set_client mgr chain ((client_at mgr chain) <| error_count ::= fun n => u64 (n + 1) |>).

Definition auth_failed (mgr : RPCManager) (req : RPCRequest) : Outcome :=
  rpc_request_complete (count_error mgr (req_client req)) req RPC_ERR_AUTH
    (str "Authentication failed").

(** The first 401 or 403: refresh the cookie and connect again. *)
Definition rpc_async_auth_retry (fs : chars -> option chars) (e : ConnectEnv) (mgr : RPCManager)
    (req : RPCRequest) : option Outcome :=
  match cookie_path (client_at mgr (req_client req)) with
  | [] => Some (auth_failed mgr req)
  | _ =>
      let req := req <| auth_retried := true |> in
      '(client, ret) ← rpc_refresh_cookie fs (client_at mgr (req_client req));
      let mgr := set_client mgr (req_client req) client in
      if ret =? 0 then
        let req := req <| response_buf := None |> <| response_len := 0 |> <| response_cap := 0 |>
                       <| bev := None |> <| timeout_ev := false |> in
        let '(req, ok) := rpc_async_connect e mgr req in
        if ok : bool then Some {| o_mgr := mgr; o_req := Some req; o_calls := [] |}
        else Some (auth_failed mgr req)
      else Some (auth_failed mgr req)
  end.

Definition rpc_async_process_response (fs : chars -> option chars) (e : ConnectEnv)
    (mgr : RPCManager) (req : RPCRequest) : option Outcome :=
  match response_buf req with
  | None => Some (rpc_request_complete mgr req RPC_ERR_CONNECT (str "Empty response from node"))
  | Some response =>
      if response_len req =? 0
      then Some (rpc_request_complete mgr req RPC_ERR_CONNECT (str "Empty response from node")) else
      let http_status := response_http_status response in
      let refused := (http_status =? 401) || (http_status =? 403) in
      if refused && negb (auth_retried req) then rpc_async_auth_retry fs e mgr req else
      if refused then Some (auth_failed mgr req) else
      match response_body response with
      | None => Some (rpc_request_complete mgr req RPC_ERR_PARSE (str "Malformed HTTP response"))
      | Some body =>
          let '(ret, result, is_error) := parse_jsonrpc_response body 4096 in
          let chain := req_client req in
          let mgr := set_client mgr chain
            ((client_at mgr chain) <| request_count ::= fun n => u64 (n + 1) |>) in
          if is_error : bool then Some (rpc_request_complete (count_error mgr chain) req ret result)
          else Some (rpc_request_complete
                       (set_client mgr chain ((client_at mgr chain) <| available := 1 |>))
                       req RPC_OK result)
      end
  end.

(** The event mask. *)
Record BevEvents := mkBevEvents {
  BEV_EVENT_CONNECTED : bool; BEV_EVENT_EOF : bool; BEV_EVENT_TIMEOUT : bool; BEV_EVENT_ERROR : bool }.

Definition rpc_async_event_cb (fs : chars -> option chars) (malloc_ok : bool) (e : ConnectEnv)
    (mgr : RPCManager) (req : RPCRequest) (events : BevEvents) : option Outcome :=
  if BEV_EVENT_CONNECTED events then
    match rpc_build_http_request malloc_ok (client_at mgr (req_client req)) (request_body req) with
    | None => Some (rpc_request_complete mgr req RPC_ERR_MEMORY (str "Memory allocation failed"))
    | Some http_req =>
        let write b := mkBev (bev_input b) (bev_output b ++ http_req) true in
        Some {| o_mgr := mgr; o_req := Some (req <| bev ::= fmap write |>); o_calls := [] |}
    end
  else if BEV_EVENT_EOF events then rpc_async_process_response fs e mgr req
  else if BEV_EVENT_TIMEOUT events then
    Some (rpc_request_complete mgr req RPC_ERR_TIMEOUT (str "Request timed out"))
  else if BEV_EVENT_ERROR events then
    Some (rpc_request_complete mgr req RPC_ERR_CONNECT (str "Failed to connect to node"))
  else Some {| o_mgr := mgr; o_req := Some req; o_calls := [] |}.

(** [while (new_cap < needed) new_cap *= 2]; 64 doublings exhaust [size_t]. *)
Fixpoint grow_cap (fuel : nat) (new_cap needed : Z) : Z :=
  match fuel with
  | O => new_cap
  | S fuel => if new_cap <? needed then grow_cap fuel (u64 (new_cap * 2)) needed else new_cap
  end.

(** The capacity after making room, or [None] when [realloc] fails. *)
Definition make_room (realloc_ok : bool) (cap needed : Z) : option Z :=
  if needed >? cap then
    let new_cap := if cap =? 0 then RPC_ASYNC_INITIAL_BUF else u64 (cap * 2) in
    let new_cap := Z.min (grow_cap 64 new_cap needed) RPC_MAX_RESPONSE_LEN in
    if realloc_ok then Some new_cap else None
  else Some cap.

Definition rpc_async_read_cb (realloc_ok : bool) (mgr : RPCManager) (req : RPCRequest) : Outcome :=
  let kept := {| o_mgr := mgr; o_req := Some req; o_calls := [] |} in
  match bev req with
  | None => kept
  | Some b =>
      let avail := zlen (bev_input b) in
      if avail =? 0 then kept else
      let needed := response_len req + avail + 1 in
      let avail := if needed >? RPC_MAX_RESPONSE_LEN
                   then RPC_MAX_RESPONSE_LEN - response_len req - 1 else avail in
      if avail =? 0 then kept else
      match make_room realloc_ok (response_cap req) needed with
      | None => rpc_request_complete mgr req RPC_ERR_MEMORY (str "Memory allocation failed")
      | Some cap =>
          let got := take (Z.to_nat avail) (bev_input b) in
          {| o_mgr := mgr;
             o_req := Some (req
               <| bev := Some (mkBev (drop (Z.to_nat avail) (bev_input b)) (bev_output b) (bev_read b)) |>
               <| response_buf := Some (default [] (response_buf req) ++ got) |>
               <| response_len ::= fun n => n + avail |>
               <| response_cap := cap |>);
             o_calls := [] |}
      end
  end.

Definition rpc_async_timeout_cb (mgr : RPCManager) (req : RPCRequest) : Outcome :=
  rpc_request_complete mgr req RPC_ERR_TIMEOUT (str "Request timed out").

Record BroadcastEnv := mkBroadcastEnv {
  be_params : bool; be_body : bool; be_calloc : bool; be_connect : ConnectEnv }.

(** The request counter, the manager and the callbacks made; [id] is the
    pointer that [calloc] returns. *)
Definition rpc_manager_broadcast_async (e : BroadcastEnv) (id : positive) (counter : Z)
    (mgr : RPCManager) (chain : BitcoinChain) (hex_tx : chars) (cb : option Z) :
    Z * RPCManager * list Call :=
  let no_memory counter := (counter, mgr, fire cb RPC_ERR_MEMORY (str "Memory allocation failed")) in
  if negb (base mgr)
  then (counter, mgr, fire cb RPC_ERR_CONNECT (str "Async RPC not initialized")) else
  match rpc_manager_get_client mgr chain with
  | None =>
      (counter, mgr, fire cb RPC_ERR_CONNECT
         (snprintf 64 (str "No RPC configured for " ++ network_chain_to_string chain)))
  | Some client =>
      if negb (be_params e) then no_memory counter else
      match build_jsonrpc_request (be_body e) counter (str "sendrawtransaction")
              (snprintf (length hex_tx + 8) (json_array1 hex_tx)) with
      | (counter, None) => no_memory counter
      | (counter, Some body) =>
          if negb (be_calloc e) then no_memory counter else
          let req := mkRequest id client None false body None 0 0 cb false in
          let mgr := (rpc_request_list_add mgr req)
            <| total_broadcasts ::= fun n => u64 (n + 1) |> in
          match rpc_async_connect (be_connect e) mgr req with
          | (req, false) =>
              (counter,
               (rpc_request_list_remove mgr req) <| failed_broadcasts ::= fun n => u64 (n + 1) |>,
               fire cb RPC_ERR_CONNECT (str "Failed to connect to node"))
          | (req, true) =>
              (counter, mgr <| active_requests ::= fun l => req :: tl l |>, [])
          end
      end
  end.

Definition rpc_request_cancel (mgr : RPCManager) (req : RPCRequest) : RPCManager :=
  rpc_request_list_remove mgr req.

(** [while (mgr->active_requests)]: each round removes the head. *)
Definition rpc_manager_cancel_all (mgr : RPCManager) : RPCManager :=
  foldl rpc_request_cancel mgr (active_requests mgr).

(** ** Requests under the event loop *)

(** The manager of a worker with its history: the callbacks registered, the
    calls made, and the callbacks withdrawn by a cancellation. *)
Record AsyncState := mkAsync {
  manager : RPCManager;
  counter_ : Z;
  started : list Z;
  calls : list Call;
  cancelled : list Z
}.

Definition store_request (mgr : RPCManager) (req : RPCRequest) : RPCManager :=
  mgr <| active_requests ::=
    map (fun r => if bool_decide (req_id r = req_id req) then req else r) |>.

(** The state after a handler ran. *)
Definition settle (s : AsyncState) (o : Outcome) : AsyncState :=
  mkAsync (match o_req o with Some r => store_request (o_mgr o) r | None => o_mgr o end)
    (counter_ s) (started s) (calls s ++ o_calls o) (cancelled s).

(** Bytes that libevent appended to the input buffer. *)
Definition receive (req : RPCRequest) (data : chars) : RPCRequest :=
  req <| bev ::= fmap (fun b => mkBev (bev_input b ++ data) (bev_output b) (bev_read b)) |>.

(** Libevent delivers events only to buffers and timers that exist. *)
Inductive async_step (fs : chars -> option chars) (s : AsyncState) : AsyncState -> Prop :=
| step_broadcast e id chain hex_tx cb c mgr made :
    id ∉ (req_id <$> active_requests (manager s)) ->
    rpc_manager_broadcast_async e id (counter_ s) (manager s) chain hex_tx cb = (c, mgr, made) ->
    async_step fs s (mkAsync mgr c (started s ++ option_list cb) (calls s ++ made) (cancelled s))
| step_event malloc_ok e req events o :
    req ∈ active_requests (manager s) -> bev req <> None ->
    rpc_async_event_cb fs malloc_ok e (manager s) req events = Some o ->
    async_step fs s (settle s o)
| step_read realloc_ok req data :
    req ∈ active_requests (manager s) -> bev req <> None -> zlen data < 2 ^ 62 ->
    async_step fs s (settle s (rpc_async_read_cb realloc_ok (manager s) (receive req data)))
| step_timeout req :
    req ∈ active_requests (manager s) -> timeout_ev req = true ->
    async_step fs s (settle s (rpc_async_timeout_cb (manager s) req))
| step_cancel req :
    req ∈ active_requests (manager s) ->
    async_step fs s (mkAsync (rpc_request_cancel (manager s) req) (counter_ s) (started s) (calls s)
      (cancelled s ++ option_list (callback req)))
| step_cancel_all :
    async_step fs s (mkAsync (rpc_manager_cancel_all (manager s)) (counter_ s) (started s) (calls s)
      (cancelled s ++ omap callback (active_requests (manager s)))).
