(* ===== verification/Tls.v ===== *)
(** * TLS contexts ([src/tls.c], [include/tls.h])

    ALPN selection and the life cycle of a worker's [SSL_CTX].  OpenSSL is
    outside the repository: what each of its calls answers is an argument,
    and a context is the record of the calls that configured it.  [Heap] holds
    the contexts that were created and not yet freed. *)
From Stdlib Require Import ZArith Lia Ascii String.
From stdpp Require Import base sets list numbers strings.
From S2P Require Import Prelude CLib Network Config.

#[local] Open Scope Z_scope.

(** ** Data *)

Inductive SslOption :=
  SSL_OP_NO_SSLv2 | SSL_OP_NO_SSLv3 | SSL_OP_NO_COMPRESSION | SSL_OP_CIPHER_SERVER_PREFERENCE
| SSL_OP_SINGLE_DH_USE | SSL_OP_NO_RENEGOTIATION | SSL_OP_IGNORE_UNEXPECTED_EOF.

#[export] Instance SslOption_eq_dec : EqDecision SslOption.
Proof. solve_decision. Defined.

(** An [SSL_CTX] and how it was configured. *)
Record SslCtx := mkSslCtx {
  ctx_id : positive;
  min_proto_tls12 : bool;
  cert_chain : option chars;
  private_key : option chars;
  key_checked : bool;
  alpn_cb : bool;
  session_cache : bool;
  session_id_context : chars;
  ssl_options : list SslOption;
  cipher_list : chars
}.

#[export] Instance eta_SslCtx : Eta SslCtx := fun r =>
  mkSslCtx (ctx_id r) (min_proto_tls12 r) (cert_chain r) (private_key r) (key_checked r) (alpn_cb r)
    (session_cache r) (session_id_context r) (ssl_options r) (cipher_list r).

Record TLSContext := mkTls {
  ctx : option SslCtx;
  tls_http2_enabled : bool;
  cert_expiry : Z
}.

#[export] Instance eta_TLSContext : Eta TLSContext := fun r =>
  mkTls (ctx r) (tls_http2_enabled r) (cert_expiry r).

(** [memset(tls, 0, sizeof *tls)] *)
Definition zero_tls : TLSContext := mkTls None false 0.

(** The options that the headers of the build define. *)
Class SslBuild := mkSslBuild {
  has_SINGLE_DH_USE : bool; has_NO_RENEGOTIATION : bool; has_IGNORE_UNEXPECTED_EOF : bool }.

(** What the calls of one set-up answer: the new context, whether files
    load and keys match, the time left on the certificate (days and
    seconds, when [ASN1_TIME_diff] finds it), the clock, the cipher list. *)
Record SslEnv := mkSslEnv {
  ssl_ctx_new : bool;
  use_chain_file : chars -> bool;
  use_key_file : chars -> bool;
  key_matches : bool;
  not_after : option (Z * Z);
  ssl_time : Z;
  set_cipher_list_ok : bool
}.

(** ** ALPN *)

Definition alpn_h2 : chars := [chr 2; "h"%char; "2"%char].
Definition alpn_http11 : chars := chr 8 :: str "http/1.1".

(** [while (p < end)]: whether h2 and http/1.1 were seen. *)
Fixpoint alpn_scan (fuel : nat) (p : chars) (client_has_h2 client_has_http11 : bool) : bool * bool :=
  match fuel, p with
  | S fuel, c :: p =>
      let len := Z.to_nat (code c) in
      if (length p <? len)%nat then (client_has_h2, client_has_http11) else
      let name := take len p in
      if (len =? 2)%nat && bool_decide (name = str "h2")
      then alpn_scan fuel (drop len p) true client_has_http11
      else if (len =? 8)%nat && bool_decide (name = str "http/1.1")
      then alpn_scan fuel (drop len p) client_has_h2 true
      else alpn_scan fuel (drop len p) client_has_h2 client_has_http11
  | _, _ => (client_has_h2, client_has_http11)
  end.

(** The protocol selected; [None] is [SSL_TLSEXT_ERR_NOACK]. *)
Definition tls_alpn_select_cb (tls : TLSContext) (input : chars) : option chars :=
  let '(client_has_h2, client_has_http11) := alpn_scan (length input) input false false in
  if tls_http2_enabled tls && client_has_h2 then Some (tl alpn_h2)
  else if client_has_http11 then Some (tl alpn_http11)
  else None.

(** [alpn] is what [SSL_get0_alpn_selected] gives. *)
Definition tls_get_alpn_protocol (alpn : option chars) : option chars :=
  match alpn with
  | None | Some [] => None
  | Some p =>
      if (length p =? 2)%nat && bool_decide (p = str "h2") then Some (str "h2")
      else if (length p =? 8)%nat && bool_decide (p = str "http/1.1") then Some (str "http/1.1")
      else None
  end.

Definition tls_is_http2 (alpn : option chars) : bool :=
  match tls_get_alpn_protocol alpn with
  | Some proto => strcmp_eq proto (str "h2")
  | None => false
  end.

(** ** Contexts *)

Definition CIPHERS : chars :=
  str "ECDHE-ECDSA-AES128-GCM-SHA256:ECDHE-RSA-AES128-GCM-SHA256:" ++
  str "ECDHE-ECDSA-AES256-GCM-SHA384:ECDHE-RSA-AES256-GCM-SHA384:" ++
  str "ECDHE-ECDSA-CHACHA20-POLY1305:ECDHE-RSA-CHACHA20-POLY1305:" ++
  str "DHE-RSA-AES128-GCM-SHA256:DHE-RSA-AES256-GCM-SHA384".

(** The contexts the worker owns; [bad_free] records that [SSL_CTX_free] was
    given one that it does not. *)
Record Heap := mkHeap { live : list positive; next_ctx : positive; bad_free : bool }.

Definition empty_heap : Heap := mkHeap [] 1 false.

Definition SSL_CTX_new (e : SslEnv) (h : Heap) : Heap * option SslCtx :=
  if ssl_ctx_new e
  then (mkHeap (next_ctx h :: live h) (Pos.succ (next_ctx h)) (bad_free h),
        Some (mkSslCtx (next_ctx h) false None None false false false [] [] []))
  else (h, None).

Definition SSL_CTX_free (c : SslCtx) (h : Heap) : Heap :=
  if bool_decide (ctx_id c ∈ live h)
  then mkHeap (List.filter (fun i => negb (Pos.eqb i (ctx_id c))) (live h)) (next_ctx h) (bad_free h)
  else mkHeap (live h) (next_ctx h) true.

Definition SSL_CTX_set_options (l : list SslOption) (c : SslCtx) : SslCtx :=
  c <| ssl_options ::= fun o => o ++ l |>.

(** [now + day_diff * 86400 + sec_diff] *)
Definition expiry_of (e : SslEnv) : Z :=
  match not_after e with
  | Some (day_diff, sec_diff) => ssl_time e + day_diff * 86400 + sec_diff
  | None => 0
  end.

Definition tls_context_init `{b : SslBuild} (e : SslEnv) (cfg : Config) (h : Heap)
    : Heap * TLSContext * Z :=
  let tls := zero_tls <| tls_http2_enabled := negb (http2_enabled cfg =? 0) |> in
  match SSL_CTX_new e h with
  | (h, None) => (h, tls, -1)
  | (h, Some c) =>
      let c := c <| min_proto_tls12 := true |> in
      if negb (use_chain_file e (tls_cert_file cfg))
      then (SSL_CTX_free c h, tls <| ctx := None |>, -1) else
      let c := c <| cert_chain := Some (tls_cert_file cfg) |> in
      if negb (use_key_file e (tls_key_file cfg))
      then (SSL_CTX_free c h, tls <| ctx := None |>, -1) else
      let c := c <| private_key := Some (tls_key_file cfg) |> in
      if negb (key_matches e)
      then (SSL_CTX_free c h, tls <| ctx := None |>, -1) else
      let c := c <| key_checked := true |> in
      let tls := tls <| cert_expiry := expiry_of e |> in
      let c := c <| alpn_cb := true |> in
      let c := c <| session_cache := true |> in
      let c := c <| session_id_context := str "rawrelay" |> in
      let c := SSL_CTX_set_options
                 ([SSL_OP_NO_SSLv2; SSL_OP_NO_SSLv3; SSL_OP_NO_COMPRESSION; SSL_OP_CIPHER_SERVER_PREFERENCE] ++
                  (if has_SINGLE_DH_USE then [SSL_OP_SINGLE_DH_USE] else [])) c in
      let c := if has_NO_RENEGOTIATION then SSL_CTX_set_options [SSL_OP_NO_RENEGOTIATION] c else c in
      let c := if has_IGNORE_UNEXPECTED_EOF
               then SSL_CTX_set_options [SSL_OP_IGNORE_UNEXPECTED_EOF] c else c in
      if negb (set_cipher_list_ok e)
      then (SSL_CTX_free c h, tls <| ctx := None |>, -1) else
      let c := c <| cipher_list := CIPHERS |> in
      (h, tls <| ctx := Some c |>, 0)
  end.

Definition tls_context_free (tls : TLSContext) (h : Heap) : Heap * TLSContext :=
  match ctx tls with
  | Some c => (SSL_CTX_free c h, tls <| ctx := None |>)
  | None => (h, tls)
  end.

(** [ssl_new] is what [SSL_new] answers; the result is whether there is an
    SSL object. *)
Definition tls_create_ssl (ssl_new : bool) (tls : TLSContext) : bool :=
  match ctx tls with
  | None => false
  | Some _ => ssl_new
  end.

(** [None] is a null pointer. *)
Definition tls_get_cert_expiry (tls : option TLSContext) : Z :=
  match tls with
  | None => 0
  | Some tls => cert_expiry tls
  end.

Definition tls_context_reload `{b : SslBuild} (e : SslEnv) (cfg : Config) (h : Heap) (tls : TLSContext)
    : Heap * TLSContext * Z :=
  match SSL_CTX_new e h with
  | (h, None) => (h, tls, -1)
  | (h, Some new_ctx) =>
      let new_ctx := new_ctx <| min_proto_tls12 := true |> in
      if negb (use_chain_file e (tls_cert_file cfg)) then (SSL_CTX_free new_ctx h, tls, -1) else
      let new_ctx := new_ctx <| cert_chain := Some (tls_cert_file cfg) |> in
      if negb (use_key_file e (tls_key_file cfg)) then (SSL_CTX_free new_ctx h, tls, -1) else
      let new_ctx := new_ctx <| private_key := Some (tls_key_file cfg) |> in
      if negb (key_matches e) then (SSL_CTX_free new_ctx h, tls, -1) else
      let new_ctx := new_ctx <| key_checked := true |> in
      let new_expiry := expiry_of e in
      let new_ctx := new_ctx <| alpn_cb := true |> in
      let new_ctx := new_ctx <| session_cache := true |> in
      let new_ctx := new_ctx <| session_id_context := str "rawrelay" |> in
      let new_ctx := SSL_CTX_set_options
        ([SSL_OP_NO_SSLv2; SSL_OP_NO_SSLv3; SSL_OP_NO_COMPRESSION; SSL_OP_CIPHER_SERVER_PREFERENCE] ++
         (if has_SINGLE_DH_USE then [SSL_OP_SINGLE_DH_USE] else [])) new_ctx in
      let new_ctx := if has_NO_RENEGOTIATION
                     then SSL_CTX_set_options [SSL_OP_NO_RENEGOTIATION] new_ctx else new_ctx in
      let new_ctx := if has_IGNORE_UNEXPECTED_EOF
                     then SSL_CTX_set_options [SSL_OP_IGNORE_UNEXPECTED_EOF] new_ctx else new_ctx in
      if negb (set_cipher_list_ok e) then (SSL_CTX_free new_ctx h, tls, -1) else
      let new_ctx := new_ctx <| cipher_list := CIPHERS |> in
      let old_ctx := ctx tls in
      let tls := tls <| ctx := Some new_ctx |> in
      let tls := tls <| cert_expiry := new_expiry |> in
      let h := match old_ctx with Some c => SSL_CTX_free c h | None => h end in
      (h, tls, 0)
  end.

(** ** What ALPN selects *)

(** The protocol name list of the ALPN extension: each name after its
    length. *)
Definition alpn_encode (names : list chars) : chars :=
  flat_map (fun n => chr (zlen n) :: n) names.

(** A last name that is longer than what is left of the list. *)
Definition truncated_name (tail : chars) : Prop :=
  match tail with [] => True | c :: p => zlen p < code c end.

Definition offers (names : list chars) (proto : chars) : bool := bool_decide (proto ∈ names).

Lemma offers_cons n names proto :
  offers (n :: names) proto = bool_decide (n = proto) || offers names proto.
Proof. unfold offers. repeat case_bool_decide; set_solver. Qed.

Lemma same_name_eqb (n p : chars) k :
  length p = k -> ((length n =? k)%nat && bool_decide (n = p)) = bool_decide (n = p).
Proof.
  intros <-. case_bool_decide; [subst; by rewrite Nat.eqb_refl|by rewrite andb_false_r].
Qed.

Lemma alpn_scan_truncated fuel tail a b :
  truncated_name tail -> alpn_scan fuel tail a b = (a, b).
Proof.
  destruct fuel, tail as [|c p]; [done..|]. intros Ht. cbn [alpn_scan].
  destruct (Nat.ltb_spec (length p) (Z.to_nat (code c))) as [|Hge]; [done|].
  cbn [truncated_name] in Ht. unfold zlen in Ht. lia.
Qed.

Lemma alpn_scan_encode names tail fuel a b :
  Forall (fun n => zlen n < 256) names -> truncated_name tail ->
  (length (alpn_encode names ++ tail) <= fuel)%nat ->
  alpn_scan fuel (alpn_encode names ++ tail) a b =
  (a || offers names (str "h2"), b || offers names (str "http/1.1")).
Proof.
  intros Hn Ht. revert fuel a b. induction Hn as [|n names Hlen Hn IH]; intros fuel a b Hf.
  - simpl app. rewrite alpn_scan_truncated by done. by rewrite !orb_false_r.
  - change (alpn_encode (n :: names)) with ((chr (zlen n) :: n) ++ alpn_encode names) in *.
    rewrite <- app_assoc in *. set (rest := alpn_encode names ++ tail) in *.
    destruct fuel as [|fuel]; [simpl in Hf; lia|]. cbn [app alpn_scan].
    rewrite code_chr by (pose proof (zlen_nonneg n); lia).
    replace (Z.to_nat (zlen n)) with (length n) by (unfold zlen; lia).
    rewrite (proj2 (Nat.ltb_ge _ _)) by (rewrite length_app; lia).
    rewrite take_app_length, drop_app_length, !same_name_eqb by done.
    simpl in Hf. rewrite length_app in Hf.
    rewrite !offers_cons, !IH by lia.
    do 2 case_bool_decide; subst; simpl; rewrite ?orb_true_r; try done.
Qed.

(** ** The life of a context *)

(** The context that a complete set-up leaves. *)
Definition hardened `{b : SslBuild} (cfg : Config) (id : positive) : SslCtx :=
  {| ctx_id := id; min_proto_tls12 := true; cert_chain := Some (tls_cert_file cfg);
     private_key := Some (tls_key_file cfg); key_checked := true; alpn_cb := true;
     session_cache := true; session_id_context := str "rawrelay";
     ssl_options :=
       [SSL_OP_NO_SSLv2; SSL_OP_NO_SSLv3; SSL_OP_NO_COMPRESSION; SSL_OP_CIPHER_SERVER_PREFERENCE] ++
       (if has_SINGLE_DH_USE then [SSL_OP_SINGLE_DH_USE] else []) ++
       (if has_NO_RENEGOTIATION then [SSL_OP_NO_RENEGOTIATION] else []) ++
       (if has_IGNORE_UNEXPECTED_EOF then [SSL_OP_IGNORE_UNEXPECTED_EOF] else []);
     cipher_list := CIPHERS |}.

(** Whether every call of a set-up succeeds. *)
Definition setup_ok (e : SslEnv) (cfg : Config) : bool :=
  ssl_ctx_new e && use_chain_file e (tls_cert_file cfg) && use_key_file e (tls_key_file cfg) &&
  key_matches e && set_cipher_list_ok e.

(** The worker owns exactly the contexts [l] and has freed no other. *)
Definition owns (h : Heap) (l : list positive) : Prop :=
  live h = l /\ bad_free h = false /\ Forall (fun i => (i < next_ctx h)%positive) l.

Lemma new_owns h l :
  owns h l -> owns (mkHeap (next_ctx h :: live h) (Pos.succ (next_ctx h)) (bad_free h)) (next_ctx h :: l).
Proof.
  intros (<- & Hb & Hl). split_and!; [done..|]. constructor; [simpl; lia|].
  eapply Forall_impl; [done|]. simpl. lia.
Qed.

Lemma free_owns h c k l :
  owns h (k ++ ctx_id c :: l) -> ctx_id c ∉ k ++ l -> owns (SSL_CTX_free c h) (k ++ l).
Proof.
  intros (Hl & Hb & Hn) Hni. unfold SSL_CTX_free. rewrite bool_decide_eq_true_2 by (rewrite Hl; set_solver).
  assert (Hid : forall m, ctx_id c ∉ m -> List.filter (fun i => negb (Pos.eqb i (ctx_id c))) m = m).
  { induction m as [|x m IH]; intros Hm; simpl; [done|]. apply not_elem_of_cons in Hm as [Hx Hm].
    rewrite (proj2 (Pos.eqb_neq _ _)) by done. simpl. by rewrite IH. }
  split_and!; [|done|].
  - simpl. rewrite Hl, List.filter_app. simpl. rewrite Pos.eqb_refl. simpl.
    rewrite !Hid by set_solver. done.
  - apply Forall_app in Hn as [? [_ ?]%Forall_cons]. simpl. by apply Forall_app.
Qed.

(** Freeing the context that was just created. *)
Lemma free_new_owns h c l :
  owns h l -> ctx_id c = next_ctx h ->
  owns (SSL_CTX_free c (mkHeap (next_ctx h :: live h) (Pos.succ (next_ctx h)) (bad_free h))) l.
Proof.
  intros Ho Hid. apply (free_owns _ _ [] l); rewrite Hid; [by apply new_owns|]. simpl.
  destruct Ho as (_ & _ & Hl). intros Hin. rewrite Forall_forall in Hl.
  specialize (Hl _ Hin). simpl in Hl. lia.
Qed.

Lemma options_hardened `{SslBuild} c :
  (if has_IGNORE_UNEXPECTED_EOF then SSL_CTX_set_options [SSL_OP_IGNORE_UNEXPECTED_EOF]
     (if has_NO_RENEGOTIATION then SSL_CTX_set_options [SSL_OP_NO_RENEGOTIATION] c else c)
   else if has_NO_RENEGOTIATION then SSL_CTX_set_options [SSL_OP_NO_RENEGOTIATION] c else c) =
  c <| ssl_options ::= fun o => o ++
         (if has_NO_RENEGOTIATION then [SSL_OP_NO_RENEGOTIATION] else []) ++
         (if has_IGNORE_UNEXPECTED_EOF then [SSL_OP_IGNORE_UNEXPECTED_EOF] else []) |>.
Proof.
  destruct c. destruct (has_NO_RENEGOTIATION), (has_IGNORE_UNEXPECTED_EOF);
    unfold SSL_CTX_set_options; simpl; rewrite ?app_nil_r, <- ?app_assoc; done.
Qed.

Lemma init_spec `{SslBuild} e cfg h l h' tls rc :
  owns h l -> tls_context_init e cfg h = (h', tls, rc) ->
  tls_http2_enabled tls = negb (http2_enabled cfg =? 0) /\
  if setup_ok e cfg
  then rc = 0 /\ ctx tls = Some (hardened cfg (next_ctx h)) /\ cert_expiry tls = expiry_of e /\
       owns h' (next_ctx h :: l)
  else rc = -1 /\ ctx tls = None /\ owns h' l.
Proof.
  intros Ho. unfold tls_context_init, SSL_CTX_new, setup_ok. cbv zeta.
  destruct (ssl_ctx_new e); [|by intros [= <- <- <-]]. rewrite options_hardened. simpl.
  destruct (use_chain_file e _); simpl; [|intros [= <- <- <-]; split_and!; auto using free_new_owns].
  destruct (use_key_file e _); simpl; [|intros [= <- <- <-]; split_and!; auto using free_new_owns].
  destruct (key_matches e); simpl; [|intros [= <- <- <-]; split_and!; auto using free_new_owns].
  destruct (set_cipher_list_ok e); simpl; intros [= <- <- <-]; split_and!; auto using free_new_owns, new_owns.
Qed.

(** A reload that fails leaves the context as it was; one that succeeds
    leaves the context that [tls_context_init] would have made. *)
Lemma reload_spec `{SslBuild} e cfg h tls c l h' tls' rc :
  ctx tls = Some c -> owns h (ctx_id c :: l) -> ctx_id c ∉ l ->
  tls_context_reload e cfg h tls = (h', tls', rc) ->
  if setup_ok e cfg
  then rc = 0 /\ owns h' (next_ctx h :: l) /\ next_ctx h ∉ l /\
       tls' = tls <| ctx := Some (hardened cfg (next_ctx h)) |> <| cert_expiry := expiry_of e |>
  else rc = -1 /\ owns h' (ctx_id c :: l) /\ tls' = tls.
Proof.
  intros Hc Ho Hni. unfold tls_context_reload, SSL_CTX_new, setup_ok. cbv zeta.
  assert (Hnew : next_ctx h ∉ ctx_id c :: l).
  { destruct Ho as (_ & _ & Hl). rewrite Forall_forall in Hl. intros Hin. specialize (Hl _ Hin).
    simpl in Hl. lia. }
  destruct (ssl_ctx_new e); [|by intros [= <- <- <-]]. rewrite options_hardened, Hc. simpl.
  destruct (use_chain_file e _); simpl; [|intros [= <- <- <-]; split_and!; auto using free_new_owns].
  destruct (use_key_file e _); simpl; [|intros [= <- <- <-]; split_and!; auto using free_new_owns].
  destruct (key_matches e); simpl; [|intros [= <- <- <-]; split_and!; auto using free_new_owns].
  destruct (set_cipher_list_ok e); simpl; intros [= <- <- <-]; split_and!; auto using free_new_owns; [|set_solver].
  apply (free_owns _ c [next_ctx h] l); [by apply new_owns|set_solver].
Qed.

(** C20: ALPN selection follows the client's list.  For a list of names in the format of the
    extension, even one whose last name is cut short, the server selects h2 exactly when HTTP/2
    is enabled and h2 is among the complete names, otherwise http/1.1 exactly when that is
    among them, otherwise nothing; and [tls_is_http2] then recognises exactly the first case. *)
Theorem alpn_selects_offered (tls : TLSContext) (names : list chars) (tail : chars) :
  Forall (fun n => zlen n < 256) names -> truncated_name tail ->
  let selected := tls_alpn_select_cb tls (alpn_encode names ++ tail) in
  selected = (if tls_http2_enabled tls && offers names (str "h2") then Some (str "h2")
              else if offers names (str "http/1.1") then Some (str "http/1.1") else None) /\
  tls_is_http2 selected = tls_http2_enabled tls && offers names (str "h2").
Proof.
  intros Hn Ht selected.
  assert (selected = (if tls_http2_enabled tls && offers names (str "h2") then Some (str "h2")
              else if offers names (str "http/1.1") then Some (str "http/1.1") else None)) as E.
  { unfold selected, tls_alpn_select_cb. by rewrite alpn_scan_encode. }
  split; [exact E|]. rewrite E.
  destruct (tls_http2_enabled tls && _); [reflexivity|]. by destruct (offers names _).
Qed.

(** A browser's list against both settings, and a name cut short. *)
Lemma alpn_selects_offered_witness :
  let names := [str "h2"; str "http/1.1"] in
  tls_alpn_select_cb (zero_tls <| tls_http2_enabled := true |>) (alpn_encode names ++ [chr 5; "h"%char]) =
    Some (str "h2") /\
  tls_is_http2 (tls_alpn_select_cb zero_tls (alpn_encode names)) = false.
Proof.
  intros names.
  assert (Forall (fun n => zlen n < 256) names) as Hn by (repeat constructor).
  split.
  - destruct (alpn_selects_offered (zero_tls <| tls_http2_enabled := true |>) names [chr 5; "h"%char] Hn) as [-> _];
      [vm_compute; reflexivity|]. reflexivity.
  - destruct (alpn_selects_offered zero_tls names [] Hn I) as [_ H]. rewrite app_nil_r in H. rewrite H. reflexivity.
Defined.
