(* ===== verification/Sockets.v ===== *)
(** * Sockets ([src/tcp_opts.c] and the listeners of [src/worker.c])

    A descriptor is the record of the calls that succeeded on it; which calls
    succeed is an argument. *)
From Stdlib Require Import ZArith Lia.
From stdpp Require Import base list numbers.
From S2P Require Import Prelude CLib Network Config.

#[local] Open Scope Z_scope.

Record Socket := mkSocket {
  so_nonblock : bool;
  so_reuseport : bool;
  so_reuseaddr : bool;
  so_v6only : bool;
  so_nodelay : bool;
  so_cork : bool;
  bound_port : option Z;
  backlog : option Z;
  so_open : bool
}.

#[export] Instance eta_Socket : Eta Socket := fun r =>
  mkSocket (so_nonblock r) (so_reuseport r) (so_reuseaddr r) (so_v6only r) (so_nodelay r) (so_cork r)
    (bound_port r) (backlog r) (so_open r).

(** [socket(AF_INET6, SOCK_STREAM, 0)] and [close]; a new IPv6 socket takes
    [v6only] from the system. *)
Definition new_socket (v6only : bool) : Socket :=
  mkSocket false false false v6only false false None None true.

Definition close (s : Socket) : Socket := s <| so_open := false |>.

(** ** Options of an accepted connection; [ok] is what [setsockopt] answers *)

Definition tcp_nodelay_enable (ok : bool) (s : Socket) : Socket * Z :=
  if ok then (s <| so_nodelay := true |>, 0) else (s, -1).

(** [has_cork] is [#ifdef TCP_CORK]. *)
Definition tcp_cork_enable (has_cork ok : bool) (s : Socket) : Socket * Z :=
  if negb has_cork then (s, 0) else
  if ok then (s <| so_cork := true |>, 0) else (s, -1).

Definition tcp_cork_disable (has_cork ok : bool) (s : Socket) : Socket * Z :=
  if negb has_cork then (s, 0) else
  if ok then (s <| so_cork := false |>, 0) else (s, -1).

(** ** Listening sockets *)

(** The outcomes of the calls, in order. *)
Record SocketEnv := mkSocketEnv {
  socket_ok : bool;
  default_v6only : bool;
  fcntl_ok : bool;
  reuseport_ok : bool;
  reuseaddr_ok : bool;
  v6only_ok : bool;
  bind_ok : Z -> bool;
  listen_ok : bool
}.

(** [inl] is the return of -1, with the descriptor as it was left when there
    is one; [inr] the listening descriptor.  [htons] keeps 16 bits. *)
Definition create_reuseport_socket_on_port (e : SocketEnv) (port : Z) : option Socket + Socket :=
  if negb (socket_ok e) then inl None else
  let fd := new_socket (default_v6only e) in
  if negb (fcntl_ok e) then inl (Some (close fd)) else
  let fd := fd <| so_nonblock := true |> in
  if negb (reuseport_ok e) then inl (Some (close fd)) else
  let fd := fd <| so_reuseport := true |> in
  let fd := if reuseaddr_ok e then fd <| so_reuseaddr := true |> else fd in
  let fd := if v6only_ok e then fd <| so_v6only := false |> else fd in
  let sin6_port := port mod 65536 in
  if negb (bind_ok e sin6_port) then inl (Some (close fd)) else
  let fd := fd <| bound_port := Some sin6_port |> in
  if negb (listen_ok e) then inl (Some (close fd)) else
  inr (fd <| backlog := Some 1024 |>).

Definition create_reuseport_socket (e : SocketEnv) (cfg : Config) : option Socket + Socket :=
  create_reuseport_socket_on_port e (listen_port cfg).

Definition create_tls_reuseport_socket (e : SocketEnv) (cfg : Config) : option Socket + Socket :=
  create_reuseport_socket_on_port e (tls_port cfg).

(** Every failure closes the descriptor; a success listens on the port, is
    shared between workers and does not block. *)
Lemma reuseport_socket_outcome e port :
  match create_reuseport_socket_on_port e port with
  | inl (Some fd) => so_open fd = false
  | inl None => socket_ok e = false
  | inr fd => so_open fd = true /\ so_nonblock fd = true /\ so_reuseport fd = true /\
              bound_port fd = Some (port mod 65536) /\ backlog fd = Some 1024 /\
              (v6only_ok e = true -> so_v6only fd = false)
  end.
Proof.
  unfold create_reuseport_socket_on_port.
  destruct (socket_ok e) eqn:?, (fcntl_ok e), (reuseport_ok e); simpl; try done.
  destruct (bind_ok e _), (listen_ok e), (reuseaddr_ok e), (v6only_ok e); simpl; by try split_and!.
Qed.
