(* ===== verification/Security.v ===== *)
(** * System call filtering ([src/security.c])

    The filter is a program for the kernel's BPF machine; [bpf_run] runs the
    instructions it uses.  The numbers of the system calls and whether the
    headers define them belong to the platform ([Platform]); what [prctl]
    answers is an argument. *)
From Stdlib Require Import ZArith Lia String.
From stdpp Require Import base list numbers strings.
From S2P Require Import Prelude CLib Network Config.

#[local] Open Scope Z_scope.

(** ** The BPF machine *)

Inductive Action := SECCOMP_RET_ALLOW | SECCOMP_RET_KILL_PROCESS.

#[export] Instance Action_eq_dec : EqDecision Action.
Proof. solve_decision. Defined.

(** [BPF_LD] of the two words of [struct seccomp_data], [BPF_JEQ] with the
    distances of its two jumps, and [BPF_RET]. *)
Inductive Insn := LD_ARCH | LD_NR | JEQ (k : Z) (jt jf : nat) | RET (a : Action).

Record SeccompData := mkSeccompData { sd_arch : Z; sd_nr : Z }.

(** [None] when the program runs off its end.  Jumps go forward, so the
    length of the program is enough fuel. *)
Fixpoint bpf_run (fuel : nat) (prog : list Insn) (acc : Z) (d : SeccompData) : option Action :=
  match fuel, prog with
  | S fuel, LD_ARCH :: p => bpf_run fuel p (sd_arch d) d
  | S fuel, LD_NR :: p => bpf_run fuel p (sd_nr d) d
  | S fuel, JEQ k jt jf :: p => bpf_run fuel (drop (if acc =? k then jt else jf) p) acc d
  | _, RET a :: _ => Some a
  | _, _ => None
  end.

(** ** The filter *)

(** [__NR_name] where the headers define it, and [AUDIT_ARCH_CURRENT]. *)
Class Platform := { NR : string -> option Z; AUDIT_ARCH_CURRENT : Z }.

(** A line of the table: on its own, or under [#ifdef __NR_name]. *)
Record Entry := mkEntry { e_name : string; e_guarded : bool }.

Definition always (name : string) : Entry := mkEntry name false.
Definition ifdef (name : string) : Entry := mkEntry name true.

Definition network_io : list Entry :=
  [always "read"; always "write"; always "readv"; always "writev"; always "recvfrom";
   always "sendto"; always "recvmsg"; always "sendmsg"; ifdef "recvmmsg"; ifdef "sendmmsg";
   ifdef "accept4"; ifdef "accept"; always "socket"; always "bind"; always "listen";
   always "getsockname"; always "getpeername"; always "setsockopt"; always "getsockopt";
   always "shutdown"; always "close"; ifdef "pipe"; ifdef "pipe2"; ifdef "dup"; ifdef "dup2";
   ifdef "dup3"; ifdef "eventfd"; ifdef "eventfd2"; ifdef "socketpair"].

Definition memory_management : list Entry :=
  [always "brk"; always "mmap"; always "munmap"; always "mprotect"; always "mremap"; ifdef "madvise"].

Definition file_operations : list Entry :=
  [always "openat"; always "open"; always "fstat"; ifdef "stat"; ifdef "lstat"; ifdef "newfstatat";
   ifdef "access"; ifdef "faccessat"; always "lseek"; ifdef "pread64"; ifdef "pwrite64";
   always "ioctl"].

Definition event_handling : list Entry :=
  [always "epoll_create1"; always "epoll_ctl"; always "epoll_wait"; ifdef "epoll_pwait";
   ifdef "epoll_pwait2"; always "poll"; ifdef "ppoll"; always "select"; ifdef "pselect6"].

Definition time_functions : list Entry :=
  [always "gettimeofday"; always "clock_gettime"; ifdef "clock_getres"; ifdef "timerfd_create";
   ifdef "timerfd_settime"; ifdef "timerfd_gettime"].

Definition signal_calls : list Entry :=
  [always "rt_sigaction"; always "rt_sigprocmask"; always "rt_sigreturn"; always "sigaltstack"].

Definition process_calls : list Entry :=
  [always "exit"; always "exit_group"; always "getpid"; always "gettid"; ifdef "getuid";
   ifdef "geteuid"].

Definition misc_calls : list Entry :=
  [always "futex"; ifdef "getrandom"; ifdef "prlimit64"; always "fcntl"; ifdef "fcntl64";
   ifdef "rseq"; ifdef "statx"; ifdef "getrlimit"; ifdef "clock_nanosleep"; ifdef "nanosleep";
   ifdef "sendfile"; ifdef "sendfile64"; ifdef "uname"; ifdef "arch_prctl";
   ifdef "set_tid_address"; ifdef "set_robust_list"; ifdef "connect"; ifdef "getppid"].

Definition whitelist : list Entry :=
  network_io ++ memory_management ++ file_operations ++ event_handling ++ time_functions ++
  signal_calls ++ process_calls ++ misc_calls.

Definition ALLOW_SYSCALL (nr : Z) : list Insn := [JEQ nr 0 1; RET SECCOMP_RET_ALLOW].

Section Filter.
Context `{Platform}.

(** The instructions of a table; [None] when a line that is not guarded
    names a call the headers lack, and the file does not compile. *)
Fixpoint expand (l : list Entry) : option (list Insn) :=
  match l with
  | [] => Some []
  | e :: l =>
      match NR (e_name e) with
      | Some nr => p ← expand l; Some (ALLOW_SYSCALL nr ++ p)
      | None => if e_guarded e then expand l else None
      end
  end.

Definition filter_program : option (list Insn) :=
  allows ← expand whitelist;
  Some ([LD_ARCH] ++
        (if negb (AUDIT_ARCH_CURRENT =? 0)
         then [JEQ AUDIT_ARCH_CURRENT 1 0; RET SECCOMP_RET_KILL_PROCESS] else []) ++
        [LD_NR] ++ allows ++ [RET SECCOMP_RET_KILL_PROCESS]).

(** ** Applying it *)

(** The security state of a process. *)
Record Process := mkProcess { no_new_privs : bool; seccomp : option (list Insn) }.

(** What the calls of [prctl] answer: [PR_GET_SECCOMP] fails with [EINVAL],
    [PR_SET_NO_NEW_PRIVS] and [PR_SET_SECCOMP] succeed. *)
Record PrctlEnv := mkPrctlEnv { get_einval : bool; set_nnp_ok : bool; set_seccomp_ok : bool }.

Definition apply_seccomp_filter (e : PrctlEnv) (prog : list Insn) (p : Process) : Process * Z :=
  let p := if set_nnp_ok e then mkProcess true (seccomp p) else p in
  if negb (set_seccomp_ok e) then (p, -1) else (mkProcess (no_new_privs p) (Some prog), 0).

Definition security_seccomp_available (e : PrctlEnv) : bool :=
  if negb (AUDIT_ARCH_CURRENT =? 0) then negb (get_einval e) else false.

Definition security_apply_worker_restrictions (e : PrctlEnv) (prog : list Insn) (p : Process) : Process * Z :=
  if negb (security_seccomp_available e) then (p, 0) else
  let '(p, rc) := apply_seccomp_filter e prog p in
  if rc <? 0 then (p, -1) else (p, 0).

(** [if (config->seccomp_enabled)] before the event loop of a worker. *)
Definition worker_restrictions (e : PrctlEnv) (prog : list Insn) (cfg : Config) (p : Process) : Process :=
  if seccomp_enabled cfg =? 0 then p else fst (security_apply_worker_restrictions e prog p).

(** Whether the kernel lets a call of the process through. *)
Definition syscall_permitted (p : Process) (d : SeccompData) : bool :=
  match seccomp p with
  | None => true
  | Some prog => bool_decide (bpf_run (length prog) prog 0 d = Some SECCOMP_RET_ALLOW)
  end.

(** ** What the filter lets through *)

Lemma bpf_run_ret fuel a p acc d : bpf_run fuel (RET a :: p) acc d = Some a.
Proof. by destruct fuel. Qed.

Lemma expand_run l allows acc d fuel :
  expand l = Some allows -> (length allows <= fuel)%nat ->
  bpf_run fuel (allows ++ [RET SECCOMP_RET_KILL_PROCESS]) acc d =
  Some (if existsb (fun e => bool_decide (NR (e_name e) = Some acc)) l
        then SECCOMP_RET_ALLOW else SECCOMP_RET_KILL_PROCESS).
Proof.
  revert allows fuel. induction l as [|e l IH]; intros allows fuel He Hf.
  - injection He as <-. apply bpf_run_ret.
  - cbn [expand existsb] in *. destruct (NR (e_name e)) as [nr|].
    + destruct (expand l) as [p|]; [|done]. injection He as <-. simpl in Hf.
      destruct fuel as [|fuel]; [lia|]. cbn [ALLOW_SYSCALL app bpf_run].
      destruct (Z.eqb_spec acc nr) as [->|Hne].
      * rewrite bool_decide_eq_true_2 by done. apply bpf_run_ret.
      * rewrite bool_decide_eq_false_2 by congruence. cbn [drop orb]. apply IH; [done|lia].
    + destruct (e_guarded e); [|done]. rewrite bool_decide_eq_false_2 by done. by apply IH.
Qed.

Lemma filter_decides prog d :
  filter_program = Some prog -> AUDIT_ARCH_CURRENT <> 0 ->
  bpf_run (length prog) prog 0 d =
  Some (if (sd_arch d =? AUDIT_ARCH_CURRENT) &&
           existsb (fun e => bool_decide (NR (e_name e) = Some (sd_nr d))) whitelist
        then SECCOMP_RET_ALLOW else SECCOMP_RET_KILL_PROCESS).
Proof.
  unfold filter_program. destruct (expand whitelist) as [allows|] eqn:E; [|done]. intros [= <-] Ha.
  rewrite (proj2 (Z.eqb_neq _ _) Ha). cbn [negb app length bpf_run].
  destruct (sd_arch d =? AUDIT_ARCH_CURRENT); cbn [drop andb]; [|reflexivity].
  refine (expand_run whitelist allows (sd_nr d) d (S (length (allows ++ [RET SECCOMP_RET_KILL_PROCESS]))) E _).
  rewrite length_app. lia.
Qed.

(** A worker with the filter on: the calls of [prctl] succeed. *)
Definition prctl_ok : PrctlEnv := mkPrctlEnv false true true.

Definition confined (prog : list Insn) (cfg : Config) : Process :=
  worker_restrictions prctl_ok prog cfg (mkProcess false None).

Lemma confined_permits prog cfg d :
  filter_program = Some prog -> AUDIT_ARCH_CURRENT <> 0 -> seccomp_enabled cfg <> 0 ->
  syscall_permitted (confined prog cfg) d =
  (sd_arch d =? AUDIT_ARCH_CURRENT) &&
  existsb (fun e => bool_decide (NR (e_name e) = Some (sd_nr d))) whitelist.
Proof.
  intros Hp Ha Hs. unfold confined, worker_restrictions, security_apply_worker_restrictions,
    security_seccomp_available. rewrite (proj2 (Z.eqb_neq _ _) Hs), (proj2 (Z.eqb_neq _ _) Ha).
  cbn [negb get_einval prctl_ok apply_seccomp_filter set_nnp_ok set_seccomp_ok fst Z.ltb Z.compare].
  unfold syscall_permitted. cbn [seccomp]. rewrite (filter_decides prog d Hp Ha).
  by destruct (_ && _).
Qed.

(** C23: The seccomp filter is exactly its table.  On every platform where the file compiles and
    has an architecture, a worker with the filter on may make a system call if and only if the
    call is made for the native architecture and its number is that of a name of the table;
    every other call, also one of a foreign ABI, kills the process, and with the filter
    switched off in the configuration nothing is restricted. *)
Theorem seccomp_filter_exact (prog : list Insn) (cfg : Config) (d : SeccompData) :
  filter_program = Some prog -> AUDIT_ARCH_CURRENT <> 0 ->
  (seccomp_enabled cfg <> 0 ->
     (syscall_permitted (confined prog cfg) d = true <->
        sd_arch d = AUDIT_ARCH_CURRENT /\ exists e, e ∈ whitelist /\ NR (e_name e) = Some (sd_nr d)) /\
     (syscall_permitted (confined prog cfg) d = false ->
        bpf_run (length prog) prog 0 d = Some SECCOMP_RET_KILL_PROCESS)) /\
  (seccomp_enabled cfg = 0 -> syscall_permitted (confined prog cfg) d = true).
Proof.
  intros Hp Ha. split.
  - intros Hs. rewrite (confined_permits prog cfg d Hp Ha Hs). split.
    + rewrite andb_true_iff, Z.eqb_eq, existsb_exists. split.
      * intros (? & e & Hin & He). split; [done|]. exists e.
        split; [by apply list_elem_of_In|by apply bool_decide_eq_true in He].
      * intros (? & e & Hin & He). split; [done|]. exists e.
        split; [by apply list_elem_of_In|by apply bool_decide_eq_true].
    + intros E. by rewrite (filter_decides prog d Hp Ha), E.
  - intros Hs. unfold confined, worker_restrictions. by rewrite Hs.
Qed.

(** C33: With seccomp on, counting the open descriptors kills the worker.  [get_open_fds], which
    every request for /health and /metrics runs, reads [/proc/self/fd] with [readdir], and
    reading a directory is the system call getdents64 (getdents on old systems): neither is in
    the table, so wherever different calls have different numbers the filter kills the process
    that makes them. *)
Theorem directory_reads_killed (prog : list Insn) (cfg : Config) (name : string) (n : Z) :
  filter_program = Some prog -> AUDIT_ARCH_CURRENT <> 0 -> seccomp_enabled cfg <> 0 ->
  (forall a b k, NR a = Some k -> NR b = Some k -> a = b) ->
  name = "getdents64" \/ name = "getdents" -> NR name = Some n ->
  syscall_permitted (confined prog cfg) (mkSeccompData AUDIT_ARCH_CURRENT n) = false.
Proof.
  intros Hp Ha Hs Hinj Hn Hnr. rewrite (confined_permits prog cfg _ Hp Ha Hs). cbn [sd_arch sd_nr].
  rewrite Z.eqb_refl. cbn [andb]. apply not_true_is_false. intros (e & Hin & He)%existsb_exists.
  apply bool_decide_eq_true in He. pose proof (Hinj _ _ _ Hnr He) as Hname.
  assert (existsb (fun e => (e_name e =? name)%string) whitelist = true) as Hx.
  { apply existsb_exists. exists e. split; [done|]. rewrite Hname. apply String.eqb_refl. }
  destruct Hn as [->| ->]; vm_compute in Hx; discriminate.
Qed.

End Filter.

(** ** Linux on x86_64 *)

Definition x86_64_calls : list (string * Z) :=
  [("read", 0); ("write", 1); ("readv", 19); ("writev", 20); ("recvfrom", 45); ("sendto", 44);
   ("recvmsg", 47); ("sendmsg", 46); ("recvmmsg", 299); ("sendmmsg", 307); ("accept4", 288);
   ("accept", 43); ("socket", 41); ("bind", 49); ("listen", 50); ("getsockname", 51);
   ("getpeername", 52); ("setsockopt", 54); ("getsockopt", 55); ("shutdown", 48); ("close", 3);
   ("pipe", 22); ("pipe2", 293); ("dup", 32); ("dup2", 33); ("dup3", 292); ("eventfd", 284);
   ("eventfd2", 290); ("socketpair", 53); ("brk", 12); ("mmap", 9); ("munmap", 11);
   ("mprotect", 10); ("mremap", 25); ("madvise", 28); ("openat", 257); ("open", 2); ("fstat", 5);
   ("stat", 4); ("lstat", 6); ("newfstatat", 262); ("access", 21); ("faccessat", 269);
   ("lseek", 8); ("pread64", 17); ("pwrite64", 18); ("ioctl", 16); ("epoll_create1", 291);
   ("epoll_ctl", 233); ("epoll_wait", 232); ("epoll_pwait", 281); ("epoll_pwait2", 441);
   ("poll", 7); ("ppoll", 271); ("select", 23); ("pselect6", 270); ("gettimeofday", 96);
   ("clock_gettime", 228); ("clock_getres", 229); ("timerfd_create", 283);
   ("timerfd_settime", 286); ("timerfd_gettime", 287); ("rt_sigaction", 13);
   ("rt_sigprocmask", 14); ("rt_sigreturn", 15); ("sigaltstack", 131); ("exit", 60);
   ("exit_group", 231); ("getpid", 39); ("gettid", 186); ("getuid", 102); ("geteuid", 107);
   ("futex", 202); ("getrandom", 318); ("prlimit64", 302); ("fcntl", 72); ("rseq", 334);
   ("statx", 332); ("getrlimit", 97); ("clock_nanosleep", 230); ("nanosleep", 35);
   ("sendfile", 40); ("uname", 63); ("arch_prctl", 158); ("set_tid_address", 218);
   ("set_robust_list", 273); ("connect", 42); ("getppid", 110); ("getdents", 78);
   ("getdents64", 217); ("fork", 57); ("execve", 59); ("ptrace", 101)]%string.

Definition x86_64 : Platform :=
  {| NR name := snd <$> find (fun p => (fst p =? name)%string) x86_64_calls;
     AUDIT_ARCH_CURRENT := 3221225534 |}.

Definition x86_64_program : list Insn := default [] (@filter_program x86_64).

Lemma x86_64_builds : @filter_program x86_64 = Some x86_64_program.
Proof. vm_compute. reflexivity. Qed.

(** Different names have different numbers. *)
Lemma x86_64_injective a b k : @NR x86_64 a = Some k -> @NR x86_64 b = Some k -> a = b.
Proof.
  assert (forall c, @NR x86_64 c = Some k -> (c, k) ∈ x86_64_calls) as Hin.
  { intros c. cbn [NR x86_64]. destruct (find _ _) as [[s z]|] eqn:E; [|done]. intros [= <-].
    apply find_some in E as [Hi He]. apply String.eqb_eq in He. simpl in He. subst s. by apply list_elem_of_In. }
  intros Ha%Hin Hb%Hin.
  assert (forallb (fun p => forallb (fun q => negb (snd p =? snd q) || (fst p =? fst q)%string) x86_64_calls)
            x86_64_calls = true) as Hall by (vm_compute; reflexivity).
  rewrite forallb_forall in Hall. specialize (Hall _ (proj1 (list_elem_of_In _ _) Ha)).
  rewrite forallb_forall in Hall. specialize (Hall _ (proj1 (list_elem_of_In _ _) Hb)).
  cbn [fst snd] in Hall. rewrite Z.eqb_refl in Hall. by apply String.eqb_eq in Hall.
Qed.

Lemma seccomp_filter_exact_witness :
  let cfg := default_values <| seccomp_enabled := 1 |> in
  syscall_permitted (@confined x86_64 x86_64_program cfg) (mkSeccompData 3221225534 257) = true /\
  syscall_permitted (@confined x86_64 x86_64_program cfg) (mkSeccompData 1073741827 3) = false.
Proof.
  intros cfg.
  destruct (@seccomp_filter_exact x86_64 x86_64_program cfg (mkSeccompData 3221225534 257) x86_64_builds
    ltac:(discriminate)) as [H1 _].
  destruct (@seccomp_filter_exact x86_64 x86_64_program cfg (mkSeccompData 1073741827 3) x86_64_builds
    ltac:(discriminate)) as [H2 _].
  destruct (H1 ltac:(discriminate)) as [E1 _]. destruct (H2 ltac:(discriminate)) as [E2 _]. split.
  - apply E1. split; [reflexivity|]. exists (always "openat"). split; [|reflexivity].
    apply (list_elem_of_lookup_2 _ 35). reflexivity.
  - apply not_true_is_false. intros [Hx _]%E2. discriminate.
Defined.

Lemma directory_reads_killed_witness :
  syscall_permitted (@confined x86_64 x86_64_program (default_values <| seccomp_enabled := 1 |>))
    (mkSeccompData 3221225534 217) = false.
Proof.
  exact (@directory_reads_killed x86_64 x86_64_program (default_values <| seccomp_enabled := 1 |>)
    "getdents64" 217 x86_64_builds ltac:(discriminate) ltac:(discriminate) x86_64_injective
    (or_introl eq_refl) eq_refl).
Defined.
