(* ===== verification/State.v ===== *)
(** * The state of a worker process

    The data of [include/worker.h], [include/connection.h],
    [include/http2.h] and [include/static_files.h], with the operations on
    it that every handler shares: statistics, the connection list and the
    drain check.

    Times are nanoseconds of [CLOCK_MONOTONIC].  The buffers of a
    connection's bufferevent are the fields [input] and [output].  A
    pointer to a connection is its [conn_id]; the intrusive list of
    connections is the list of the structures themselves. *)
From Stdlib Require Import ZArith QArith Lia Ascii String.
From stdpp Require Import base list numbers strings.
From S2P Require Import Prelude CLib Router Network Config Slots IpAcl RateLimiter Rpc Tls.

#[local] Open Scope Z_scope.

(** ** Static files *)

Record StaticFile := mkStaticFile { content : chars; length_ : Z; content_type : chars }.

#[export] Instance eta_StaticFile : Eta StaticFile := fun r =>
  mkStaticFile (content r) (length_ r) (content_type r).

Record StaticFiles := mkStaticFiles {
  index : StaticFile;
  broadcast : StaticFile;
  result : StaticFile;
  error : StaticFile;
  docs : StaticFile;
  status : StaticFile;
  logos : StaticFile
}.

(** ** HTTP/2 streams and sessions *)

Inductive H2StreamState :=
  H2_STREAM_IDLE | H2_STREAM_OPEN | H2_STREAM_HALF_CLOSED_REMOTE
| H2_STREAM_HALF_CLOSED_LOCAL | H2_STREAM_CLOSED.

Record H2BodySource := mkBodySource { bs_data : chars; bs_len : Z; bs_pos : Z }.

#[export] Instance eta_H2BodySource : Eta H2BodySource := fun r =>
  mkBodySource (bs_data r) (bs_len r) (bs_pos r).

Record H2Stream := mkStream {
  stream_id : Z;
  s_state : H2StreamState;
  tier : RequestTier;
  slot_acquired : bool;
  s_method : option chars;
  s_path : option chars;
  s_path_len : Z;
  authority : option chars;
  scheme : option chars;
  s_content_length : Z;
  s_body_received : Z;
  s_request_id : chars;
  s_start_time : Z;
  s_response_status : Z;
  s_response_bytes : Z;
  body_source : option H2BodySource
}.

#[export] Instance eta_H2Stream : Eta H2Stream := fun r =>
  mkStream (stream_id r) (s_state r) (tier r) (slot_acquired r) (s_method r) (s_path r)
    (s_path_len r) (authority r) (scheme r) (s_content_length r) (s_body_received r)
    (s_request_id r) (s_start_time r) (s_response_status r) (s_response_bytes r)
    (body_source r).

Record H2Connection := mkH2 {
  streams : list H2Stream;
  stream_count : Z;
  max_concurrent_streams : Z;
  initial_window_size : Z
}.

#[export] Instance eta_H2Connection : Eta H2Connection := fun r =>
  mkH2 (streams r) (stream_count r) (max_concurrent_streams r) (initial_window_size r).

(** ** Connections *)

Inductive ConnState :=
  CONN_STATE_READING_HEADERS | CONN_STATE_READING_BODY | CONN_STATE_PROCESSING
| CONN_STATE_WRITING_RESPONSE | CONN_STATE_CLOSING.

Inductive ProtocolType := PROTO_HTTP_1_1 | PROTO_HTTP_2.

#[export] Instance ConnState_eq_dec : EqDecision ConnState.
Proof. solve_decision. Defined.
#[export] Instance ProtocolType_eq_dec : EqDecision ProtocolType.
Proof. solve_decision. Defined.
#[export] Instance H2StreamState_eq_dec : EqDecision H2StreamState.
Proof. solve_decision. Defined.

Record Connection := mkConnection {
  conn_id : positive;
  input : chars;
  output : chars;
  state : ConnState;
  protocol : ProtocolType;
  current_tier : RequestTier;
  client_ip : chars;
  client_port : Z;
  headers_scanned : Z;
  headers_end : Z;
  content_length : Z;
  body_received : Z;
  method : chars;
  path : option chars;
  path_len : Z;
  flags : PathFlags;
  keep_alive : bool;
  slot_held : bool;
  requests_on_connection : Z;
  ssl : bool;
  tls_handshake_done : bool;
  h2 : option H2Connection;
  start_time : Z;
  last_progress_time : Z;
  bytes_at_last_check : Z;
  request_id : chars;
  response_status : Z;
  response_bytes : Z
}.

#[export] Instance eta_Connection : Eta Connection := fun r =>
  mkConnection (conn_id r) (input r) (output r) (state r) (protocol r) (current_tier r)
    (client_ip r) (client_port r) (headers_scanned r) (headers_end r) (content_length r)
    (body_received r) (method r) (path r) (path_len r) (flags r) (keep_alive r)
    (slot_held r) (requests_on_connection r) (ssl r) (tls_handshake_done r) (h2 r)
    (start_time r) (last_progress_time r) (bytes_at_last_check r) (request_id r)
    (response_status r) (response_bytes r).

(** ** Workers *)

(** The [uint64_t] statistics of a worker. *)
Inductive Counter :=
| connections_accepted | connections_rejected_rate | connections_rejected_slot
| connections_rejected_blocked | connections_allowlisted | requests_processed
| latency_bucket_1ms | latency_bucket_5ms | latency_bucket_10ms | latency_bucket_50ms
| latency_bucket_100ms | latency_bucket_500ms | latency_bucket_1s | latency_bucket_5s
| latency_bucket_inf
| status_2xx | status_4xx | status_5xx
| status_200 | status_400 | status_404 | status_408 | status_429 | status_503
| method_get | method_post | method_other
| tls_handshakes_total | tls_handshake_errors | tls_protocol_tls12 | tls_protocol_tls13
| h2_streams_total | h2_rst_stream_total | h2_goaway_sent
| errors_timeout | errors_parse | errors_tls
| endpoint_health | endpoint_ready | endpoint_alive | endpoint_version | endpoint_metrics
| endpoint_home | endpoint_broadcast | endpoint_result | endpoint_docs | endpoint_status
| endpoint_logos | endpoint_acme
| response_bytes_total | slowloris_kills | slot_promotion_failures | keepalive_reuses.

#[export] Instance Counter_eq_dec : EqDecision Counter.
Proof. solve_decision. Defined.

Record WorkerProcess := mkWorker {
  worker_id : Z;
  config : Config;
  static_files : StaticFiles;
  slots : SlotManager;
  rate_limiter : RateLimiter;
  ip_acl : IpACLContext;
  draining : bool;
  listener : bool;
  tls_listener : bool;
  listener_disabled : bool;
  tls_listener_disabled : bool;
  stats : Counter -> Z;
  active_connections : Z;
  h2_streams_active : Z;
  w_start_time : Z;
  latency_sum_seconds : Q;
  connections : list Connection;
  loopexit : bool;
  request_counter : Z;
  keepalive_counter : Z;
  h2_request_counter : Z;
  tls : TLSContext;
  ssl_heap : Heap;
  rpc : RPCManager;
  cpu_core : Z;
  start_wallclock : Z;
  signal_event : bool;
  signal_event_reload : bool;
  cleanup_event : bool
}.

#[export] Instance eta_WorkerProcess : Eta WorkerProcess := fun r =>
  mkWorker (worker_id r) (config r) (static_files r) (slots r) (rate_limiter r) (ip_acl r)
    (draining r) (listener r) (tls_listener r) (listener_disabled r)
    (tls_listener_disabled r) (stats r) (active_connections r) (h2_streams_active r)
    (w_start_time r) (latency_sum_seconds r) (connections r) (loopexit r)
    (request_counter r) (keepalive_counter r) (h2_request_counter r)
    (tls r) (ssl_heap r) (rpc r) (cpu_core r) (start_wallclock r) (signal_event r)
    (signal_event_reload r) (cleanup_event r).

(** ** Shared operations *)

(** [worker->c += n] on a 64-bit counter. *)
Definition add_stat (c : Counter) (n : Z) (w : WorkerProcess) : WorkerProcess :=
  w <| stats ::= fun f c' => if decide (c' = c) then u64 (f c' + n) else f c' |>.

Definition bump (c : Counter) (w : WorkerProcess) : WorkerProcess := add_stat c 1 w.

(** A conditional increment. *)
Definition bump_if (b : bool) (c : Counter) (w : WorkerProcess) : WorkerProcess :=
  if b then bump c w else w.

Definition worker_check_drain (w : WorkerProcess) : WorkerProcess :=
  if negb (draining w) then w else
  let w := if negb (listener_disabled w) && listener w
           then w <| listener_disabled := true |> else w in
  let w := if negb (tls_listener_disabled w) && tls_listener w
           then w <| tls_listener_disabled := true |> else w in
  if active_connections w =? 0 then w <| loopexit := true |> else w.

(** Unlinking a connection from [worker->connections]. *)
Definition unlink (id : positive) (l : list Connection) : list Connection :=
  List.filter (fun c => negb (Pos.eqb (conn_id c) id)) l.

(** [%x] and [%lx]. *)
Fixpoint hex_digits (fuel : nat) (z : Z) (acc : chars) : chars :=
  match fuel with
  | O => acc
  | S fuel =>
      let d := z mod 16 in
      let acc := (if d <? 10 then chr (48 + d) else chr (87 + d)) :: acc in
      if z / 16 =? 0 then acc else hex_digits fuel (z / 16) acc
  end.

Definition print_hex (z : Z) : chars := hex_digits 16 (u64 z) [].

(** "worker-timestamp-counter", in a buffer of 32. *)
Definition format_request_id (wid now counter : Z) (suffix : chars) : chars :=
  snprintf 32 (print_dec wid ++ str "-" ++ print_hex (now / 1000) ++ str "-" ++
               print_hex counter ++ suffix).
