(* ===== verification/Endpoints.v ===== *)
(** * Shared endpoint logic ([src/endpoints.c])

    Statistics, the /health body and the ACME challenge lookup, shared by
    the HTTP/1.1 and HTTP/2 handlers.  The file system and the process
    limits that the code reads are arguments. *)
From Stdlib Require Import ZArith QArith Lia Ascii String.
From stdpp Require Import base list numbers strings.
From S2P Require Import Prelude CLib Router Network Config Slots IpAcl RateLimiter Rpc Tls State.

#[local] Open Scope Z_scope.

(** ** Statistics *)

Definition update_latency_histogram (w : WorkerProcess) (duration_sec : Q) : WorkerProcess :=
  let le (b : Q) := Qle_bool duration_sec b in
  let w := bump_if (le (1 # 1000)) latency_bucket_1ms w in
  let w := bump_if (le (5 # 1000)) latency_bucket_5ms w in
  let w := bump_if (le (1 # 100)) latency_bucket_10ms w in
  let w := bump_if (le (5 # 100)) latency_bucket_50ms w in
  let w := bump_if (le (1 # 10)) latency_bucket_100ms w in
  let w := bump_if (le (5 # 10)) latency_bucket_500ms w in
  let w := bump_if (le 1%Q) latency_bucket_1s w in
  let w := bump_if (le 5%Q) latency_bucket_5s w in
  let w := bump latency_bucket_inf w in
  w <| latency_sum_seconds ::= fun s => (s + duration_sec)%Q |>.

Definition update_status_counters (w : WorkerProcess) (st : Z) : WorkerProcess :=
  let w :=
    if (st >=? 200) && (st <? 300) then bump status_2xx w
    else if (st >=? 400) && (st <? 500) then bump status_4xx w
    else if (st >=? 500) && (st <? 600) then bump status_5xx w
    else w in
  if st =? 200 then bump status_200 w
  else if st =? 400 then bump status_400 w
  else if st =? 404 then bump status_404 w
  else if st =? 408 then bump status_408 w
  else if st =? 429 then bump status_429 w
  else if st =? 503 then bump status_503 w
  else w.

Definition update_method_counters (w : WorkerProcess) (m : option chars) : WorkerProcess :=
  match m with
  | None => bump method_other w
  | Some m =>
      if eqc (deref m) NUL then bump method_other w else
      if strcmp_eq m (str "GET") then bump method_get w
      else if strcmp_eq m (str "POST") then bump method_post w
      else bump method_other w
  end.

Definition update_endpoint_counter (w : WorkerProcess) (route : RouteType) : WorkerProcess :=
  match route with
  | ROUTE_HEALTH => bump endpoint_health w
  | ROUTE_READY => bump endpoint_ready w
  | ROUTE_ALIVE => bump endpoint_alive w
  | ROUTE_VERSION => bump endpoint_version w
  | ROUTE_METRICS => bump endpoint_metrics w
  | ROUTE_HOME => bump endpoint_home w
  | ROUTE_BROADCAST => bump endpoint_broadcast w
  | ROUTE_RESULT => bump endpoint_result w
  | ROUTE_DOCS => bump endpoint_docs w
  | ROUTE_STATUS => bump endpoint_status w
  | ROUTE_LOGOS => bump endpoint_logos w
  | ROUTE_ACME_CHALLENGE => bump endpoint_acme w
  | ROUTE_ERROR => w
  end.

(** ** /health *)

(** What the bodies of /health and /metrics read from outside the worker:
    the two clocks, the names in [/proc/self/fd] ([None] when [opendir]
    fails) and [rlim_cur] of [RLIMIT_NOFILE]. *)
Record HealthEnv := mkHealthEnv {
  he_now : Z;
  he_time : Z;
  proc_self_fd : option (list chars);
  rlimit_nofile : option Z
}.

(** The loop over [readdir]. *)
Definition get_open_fds (e : HealthEnv) : Z :=
  match proc_self_fd e with
  | Some names => zlen (List.filter (fun d_name => negb (eqc (deref d_name) "."%char)) names)
  | None => 0
  end.

Definition get_max_fds (e : HealthEnv) : Z :=
  match rlimit_nofile e with
  | Some rlim_cur => to_int rlim_cur
  | None => -1
  end.

Definition print_bool (b : bool) : chars := if b then str "true" else str "false".

(** A double-quoted JSON member name, with its colon. *)
Definition member (name : string) : chars := DQ :: str name ++ [DQ] ++ str ":".

Definition quoted (s : string) : chars := DQ :: str s ++ [DQ].

Definition slot_object (sm : SlotManager) (t : RequestTier) : chars :=
  str "{" ++ member "used" ++ print_dec (slot_manager_current sm t) ++ str "," ++
  member "max" ++ print_dec (slot_manager_max sm t) ++ str "}".

Definition health_json (w : WorkerProcess) (e : HealthEnv) : chars :=
  let uptime_sec := he_now e / 1000000000 - w_start_time w / 1000000000 in
  let open_fds := get_open_fds e in
  let max_fds := get_max_fds e in
  let fd_usage_pct := if max_fds >? 0 then (100 * inject_Z open_fds / inject_Z max_fds)%Q else 0%Q in
  let tls_enabled := bool_decide (is_Some (ctx (tls w))) in
  let cert_expiry := tls_get_cert_expiry (Some (tls w)) in
  let cert_days_remaining :=
    if cert_expiry >? 0 then to_int (Z.quot (cert_expiry - he_time e) 86400) else 0 in
  let cert_warning := (cert_expiry >? 0) && (cert_days_remaining <? 30) in
  str "{" ++ member "status" ++ quoted "healthy" ++ str "," ++
  member "worker_id" ++ print_dec (worker_id w) ++ str "," ++
  member "uptime_seconds" ++ print_dec uptime_sec ++ str "," ++
  member "active_connections" ++ print_dec (active_connections w) ++ str "," ++
  member "requests_processed" ++ print_dec (stats w requests_processed) ++ str "," ++
  member "slots" ++ str "{" ++
    member "normal" ++ slot_object (slots w) TIER_NORMAL ++ str "," ++
    member "large" ++ slot_object (slots w) TIER_LARGE ++ str "," ++
    member "huge" ++ slot_object (slots w) TIER_HUGE ++
  str "}," ++
  member "rate_limiter_entries" ++ print_dec (rate_limiter_get_entry_count (rate_limiter w)) ++ str "," ++
  member "tls" ++ str "{" ++
    member "enabled" ++ print_bool tls_enabled ++ str "," ++
    member "cert_expires_in_days" ++ print_dec cert_days_remaining ++ str "," ++
    member "cert_expiry_warning" ++ print_bool cert_warning ++
  str "}," ++
  member "resources" ++ str "{" ++
    member "open_fds" ++ print_dec open_fds ++ str "," ++
    member "max_fds" ++ print_dec max_fds ++ str "," ++
    member "fd_usage_percent" ++ print_fixed 1 fd_usage_pct ++
  str "}}".

(** The contents left in [buf\[bufsize\]] and the return value. *)
Definition generate_health_body (w : WorkerProcess) (e : HealthEnv) (bufsize : nat) : chars * Z :=
  let text := health_json w e in
  let buf := snprintf bufsize text in
  let body_len := zlen text in
  (buf, if body_len >=? Z.of_nat bufsize then Z.of_nat bufsize - 1 else body_len).

(** ** ACME challenges *)

(** What [open], [fstat] and [read] find at a path. *)
Record OpenFile := mkOpenFile { f_stat_ok : bool; f_regular : bool; f_size : Z; f_read : option chars }.

Abbreviation filesystem := (chars -> option OpenFile).

Definition ACME_PREFIX_LEN : Z := 27.

Definition token_char (c : ascii) : bool :=
  between 97 122 c || between 65 90 c || between 48 57 c ||
  eqc c "-"%char || eqc c "_"%char.

(** From the token on, both handlers do the same. *)
Definition acme_read (fs : filesystem) (acme_dir token : chars) : option chars :=
  let filepath := acme_dir ++ str "/" ++ token in
  if zlen filepath >=? 512 then None else
  match fs filepath with
  | None => None
  | Some f =>
      if negb (f_stat_ok f) || negb (f_regular f) then None else
      if f_size f >? 4096 then None else
      match f_read f with
      | None => None
      | Some data => if negb (zlen data =? f_size f) then None else Some data
      end
  end.

(** The checks of [serve_acme_challenge_h2] on the path. *)
Definition acme_token_h2 (path : chars) (plen : Z) : option chars :=
  if (plen <? ACME_PREFIX_LEN + 2) || negb (eqc (deref path) "/"%char) then None else
  let token := drop 28 path in
  let token_len := plen - 1 - ACME_PREFIX_LEN in
  let bytes := take (Z.to_nat token_len) token in
  if bool_decide (is_Some (strstr token (str ".."))) ||
     bool_decide (is_Some (memchr "/"%char bytes)) || bool_decide (is_Some (memchr BSL bytes))
  then None else
  if forallb token_char bytes then Some bytes else None.

Definition acme_challenge_h2 (fs : filesystem) (acme_dir path : chars) (plen : Z) : option chars :=
  match acme_token_h2 path plen with
  | None => None
  | Some token => acme_read fs acme_dir token
  end.
