(* ===== verification/Metrics.v ===== *)
(** * The Prometheus text of /metrics ([generate_metrics_body] of [src/endpoints.c])

    Each block of the function is the list of the lines its format string
    has; the function writes the blocks one after the other as long as they
    fit. *)
From Stdlib Require Import ZArith QArith Lia Ascii String.
From stdpp Require Import base list numbers strings.
From S2P Require Import Prelude CLib Router Network Config Slots IpAcl RateLimiter Rpc Tls State Endpoints.

#[local] Open Scope Z_scope.

(** ** Lines of the exposition format *)

Inductive Item :=
| HELP (name text : string)
| TYPE (name kind : string)
| Sample (name : string) (labels : list (string * string)) (value : chars)
| Blank.

(** A further label, after the worker. *)
Definition print_label (l : string * string) : chars :=
  str "," ++ str (fst l) ++ str "=" ++ [DQ] ++ str (snd l) ++ [DQ].

Definition print_item (wid : Z) (i : Item) : chars :=
  match i with
  | HELP name text => str "# HELP " ++ str name ++ [SP] ++ str text ++ [LF]
  | TYPE name kind => str "# TYPE " ++ str name ++ [SP] ++ str kind ++ [LF]
  | Sample name labels value =>
      str name ++ str "{worker=" ++ [DQ] ++ print_dec wid ++ [DQ] ++
      concat (map print_label labels) ++ str "} " ++ value ++ [LF]
  | Blank => [LF]
  end.

Definition print_block (wid : Z) (b : list Item) : chars := concat (map (print_item wid) b).

(** ** The blocks *)

Definition basic_counters (w : WorkerProcess) : list Item :=
  [HELP "rawrelay_requests_total" "Total requests processed";
   TYPE "rawrelay_requests_total" "counter";
   Sample "rawrelay_requests_total" [] (print_dec (stats w requests_processed));
   Blank;
   HELP "rawrelay_connections_accepted_total" "Total connections accepted";
   TYPE "rawrelay_connections_accepted_total" "counter";
   Sample "rawrelay_connections_accepted_total" [] (print_dec (stats w connections_accepted));
   Blank;
   HELP "rawrelay_connections_rejected_total" "Rejected connections by reason";
   TYPE "rawrelay_connections_rejected_total" "counter";
   Sample "rawrelay_connections_rejected_total" [("reason", "rate_limit")]
     (print_dec (stats w connections_rejected_rate));
   Sample "rawrelay_connections_rejected_total" [("reason", "slot_limit")]
     (print_dec (stats w connections_rejected_slot));
   Sample "rawrelay_connections_rejected_total" [("reason", "blocked")]
     (print_dec (stats w connections_rejected_blocked));
   Blank;
   HELP "rawrelay_connections_allowlisted_total" "Connections that bypassed rate limiting";
   TYPE "rawrelay_connections_allowlisted_total" "counter";
   Sample "rawrelay_connections_allowlisted_total" []
     (print_dec (stats w connections_allowlisted));
   Blank;
   HELP "rawrelay_active_connections" "Current active connections";
   TYPE "rawrelay_active_connections" "gauge";
   Sample "rawrelay_active_connections" [] (print_dec (active_connections w));
   Blank].

Definition latency_histogram (w : WorkerProcess) : list Item :=
  [HELP "rawrelay_request_duration_seconds" "Request latency histogram";
   TYPE "rawrelay_request_duration_seconds" "histogram";
   Sample "rawrelay_request_duration_seconds_bucket" [("le", "0.001")]
     (print_dec (stats w latency_bucket_1ms));
   Sample "rawrelay_request_duration_seconds_bucket" [("le", "0.005")]
     (print_dec (stats w latency_bucket_5ms));
   Sample "rawrelay_request_duration_seconds_bucket" [("le", "0.01")]
     (print_dec (stats w latency_bucket_10ms));
   Sample "rawrelay_request_duration_seconds_bucket" [("le", "0.05")]
     (print_dec (stats w latency_bucket_50ms));
   Sample "rawrelay_request_duration_seconds_bucket" [("le", "0.1")]
     (print_dec (stats w latency_bucket_100ms));
   Sample "rawrelay_request_duration_seconds_bucket" [("le", "0.5")]
     (print_dec (stats w latency_bucket_500ms));
   Sample "rawrelay_request_duration_seconds_bucket" [("le", "1")]
     (print_dec (stats w latency_bucket_1s));
   Sample "rawrelay_request_duration_seconds_bucket" [("le", "5")]
     (print_dec (stats w latency_bucket_5s));
   Sample "rawrelay_request_duration_seconds_bucket" [("le", "+Inf")]
     (print_dec (stats w latency_bucket_inf));
   Sample "rawrelay_request_duration_seconds_sum" [] (print_fixed 6 (latency_sum_seconds w));
   Sample "rawrelay_request_duration_seconds_count" [] (print_dec (stats w latency_bucket_inf));
   Blank].

Definition status_code_counters (w : WorkerProcess) : list Item :=
  [HELP "rawrelay_http_requests_total" "HTTP requests by status code";
   TYPE "rawrelay_http_requests_total" "counter";
   Sample "rawrelay_http_requests_total" [("status", "200")] (print_dec (stats w status_200));
   Sample "rawrelay_http_requests_total" [("status", "400")] (print_dec (stats w status_400));
   Sample "rawrelay_http_requests_total" [("status", "404")] (print_dec (stats w status_404));
   Sample "rawrelay_http_requests_total" [("status", "408")] (print_dec (stats w status_408));
   Sample "rawrelay_http_requests_total" [("status", "429")] (print_dec (stats w status_429));
   Sample "rawrelay_http_requests_total" [("status", "503")] (print_dec (stats w status_503));
   Blank;
   HELP "rawrelay_http_requests_by_class_total" "HTTP requests by status class";
   TYPE "rawrelay_http_requests_by_class_total" "counter";
   Sample "rawrelay_http_requests_by_class_total" [("class", "2xx")]
     (print_dec (stats w status_2xx));
   Sample "rawrelay_http_requests_by_class_total" [("class", "4xx")]
     (print_dec (stats w status_4xx));
   Sample "rawrelay_http_requests_by_class_total" [("class", "5xx")]
     (print_dec (stats w status_5xx));
   Blank].

Definition request_method_counters (w : WorkerProcess) : list Item :=
  [HELP "rawrelay_requests_by_method_total" "HTTP requests by method";
   TYPE "rawrelay_requests_by_method_total" "counter";
   Sample "rawrelay_requests_by_method_total" [("method", "GET")]
     (print_dec (stats w method_get));
   Sample "rawrelay_requests_by_method_total" [("method", "POST")]
     (print_dec (stats w method_post));
   Sample "rawrelay_requests_by_method_total" [("method", "OTHER")]
     (print_dec (stats w method_other));
   Blank].

Definition process_info (w : WorkerProcess) (uptime_sec : Q) : list Item :=
  [HELP "rawrelay_process_start_time_seconds" "Unix timestamp of process start";
   TYPE "rawrelay_process_start_time_seconds" "gauge";
   Sample "rawrelay_process_start_time_seconds" [] (print_dec (start_wallclock w));
   Blank;
   HELP "rawrelay_process_uptime_seconds" "Process uptime in seconds";
   TYPE "rawrelay_process_uptime_seconds" "gauge";
   Sample "rawrelay_process_uptime_seconds" [] (print_fixed 3 uptime_sec);
   Blank].

Definition file_descriptor_metrics (open_fds max_fds : Z) : list Item :=
  [HELP "rawrelay_open_fds" "Current number of open file descriptors";
   TYPE "rawrelay_open_fds" "gauge";
   Sample "rawrelay_open_fds" [] (print_dec open_fds);
   Blank;
   HELP "rawrelay_max_fds" "Maximum file descriptors allowed";
   TYPE "rawrelay_max_fds" "gauge";
   Sample "rawrelay_max_fds" [] (print_dec max_fds);
   Blank].

Definition tls_metrics (w : WorkerProcess) : list Item :=
  [HELP "rawrelay_tls_handshakes_total" "TLS handshakes by protocol version";
   TYPE "rawrelay_tls_handshakes_total" "counter";
   Sample "rawrelay_tls_handshakes_total" [("protocol", "TLSv1.2")]
     (print_dec (stats w tls_protocol_tls12));
   Sample "rawrelay_tls_handshakes_total" [("protocol", "TLSv1.3")]
     (print_dec (stats w tls_protocol_tls13));
   Blank;
   HELP "rawrelay_tls_handshake_errors_total" "TLS handshake errors";
   TYPE "rawrelay_tls_handshake_errors_total" "counter";
   Sample "rawrelay_tls_handshake_errors_total" [] (print_dec (stats w tls_handshake_errors));
   Blank].

Definition tls_certificate_expiry (cert_expiry : Z) : list Item :=
  [HELP "rawrelay_tls_cert_expiry_timestamp_seconds" "Unix timestamp when certificate expires";
   TYPE "rawrelay_tls_cert_expiry_timestamp_seconds" "gauge";
   Sample "rawrelay_tls_cert_expiry_timestamp_seconds" [] (print_dec cert_expiry);
   Blank].

Definition http2_metrics (w : WorkerProcess) : list Item :=
  [HELP "rawrelay_http2_streams_total" "Total HTTP/2 streams opened";
   TYPE "rawrelay_http2_streams_total" "counter";
   Sample "rawrelay_http2_streams_total" [] (print_dec (stats w h2_streams_total));
   Blank;
   HELP "rawrelay_http2_streams_active" "Current active HTTP/2 streams";
   TYPE "rawrelay_http2_streams_active" "gauge";
   Sample "rawrelay_http2_streams_active" [] (print_dec (h2_streams_active w));
   Blank;
   HELP "rawrelay_http2_rst_stream_total" "HTTP/2 RST_STREAM frames sent";
   TYPE "rawrelay_http2_rst_stream_total" "counter";
   Sample "rawrelay_http2_rst_stream_total" [] (print_dec (stats w h2_rst_stream_total));
   Blank;
   HELP "rawrelay_http2_goaway_total" "HTTP/2 GOAWAY frames sent";
   TYPE "rawrelay_http2_goaway_total" "counter";
   Sample "rawrelay_http2_goaway_total" [] (print_dec (stats w h2_goaway_sent));
   Blank].

Definition error_type_counters (w : WorkerProcess) : list Item :=
  [HELP "rawrelay_errors_total" "Errors by type";
   TYPE "rawrelay_errors_total" "counter";
   Sample "rawrelay_errors_total" [("type", "timeout")] (print_dec (stats w errors_timeout));
   Sample "rawrelay_errors_total" [("type", "parse_error")] (print_dec (stats w errors_parse));
   Sample "rawrelay_errors_total" [("type", "tls_error")] (print_dec (stats w errors_tls));
   Blank].

Definition slot_metrics (w : WorkerProcess) : list Item :=
  [HELP "rawrelay_slots_used" "Slots currently in use by tier";
   TYPE "rawrelay_slots_used" "gauge";
   Sample "rawrelay_slots_used" [("tier", "normal")]
     (print_dec (slot_manager_current (slots w) TIER_NORMAL));
   Sample "rawrelay_slots_used" [("tier", "large")]
     (print_dec (slot_manager_current (slots w) TIER_LARGE));
   Sample "rawrelay_slots_used" [("tier", "huge")]
     (print_dec (slot_manager_current (slots w) TIER_HUGE));
   Blank;
   HELP "rawrelay_slots_max" "Maximum slots by tier";
   TYPE "rawrelay_slots_max" "gauge";
   Sample "rawrelay_slots_max" [("tier", "normal")]
     (print_dec (slot_manager_max (slots w) TIER_NORMAL));
   Sample "rawrelay_slots_max" [("tier", "large")]
     (print_dec (slot_manager_max (slots w) TIER_LARGE));
   Sample "rawrelay_slots_max" [("tier", "huge")]
     (print_dec (slot_manager_max (slots w) TIER_HUGE));
   Blank;
   HELP "rawrelay_rate_limiter_entries" "Current rate limiter table size";
   TYPE "rawrelay_rate_limiter_entries" "gauge";
   Sample "rawrelay_rate_limiter_entries" []
     (print_dec (rate_limiter_get_entry_count (rate_limiter w)))].

Definition extended_metrics (w : WorkerProcess) : list Item :=
  [Blank;
   HELP "rawrelay_response_bytes_total" "Total response bytes sent";
   TYPE "rawrelay_response_bytes_total" "counter";
   Sample "rawrelay_response_bytes_total" [] (print_dec (stats w response_bytes_total));
   Blank;
   HELP "rawrelay_slowloris_kills_total" "Connections killed by slowloris detection";
   TYPE "rawrelay_slowloris_kills_total" "counter";
   Sample "rawrelay_slowloris_kills_total" [] (print_dec (stats w slowloris_kills));
   Blank;
   HELP "rawrelay_slot_promotion_failures_total" "Tier promotion failures due to no slots";
   TYPE "rawrelay_slot_promotion_failures_total" "counter";
   Sample "rawrelay_slot_promotion_failures_total" []
     (print_dec (stats w slot_promotion_failures));
   Blank;
   HELP "rawrelay_keepalive_reuses_total" "Requests served on reused keep-alive connections";
   TYPE "rawrelay_keepalive_reuses_total" "counter";
   Sample "rawrelay_keepalive_reuses_total" [] (print_dec (stats w keepalive_reuses))].

Definition per_endpoint_counters (w : WorkerProcess) : list Item :=
  [Blank;
   HELP "rawrelay_endpoint_requests_total" "Requests by endpoint";
   TYPE "rawrelay_endpoint_requests_total" "counter";
   Sample "rawrelay_endpoint_requests_total" [("endpoint", "/health")]
     (print_dec (stats w endpoint_health));
   Sample "rawrelay_endpoint_requests_total" [("endpoint", "/ready")]
     (print_dec (stats w endpoint_ready));
   Sample "rawrelay_endpoint_requests_total" [("endpoint", "/alive")]
     (print_dec (stats w endpoint_alive));
   Sample "rawrelay_endpoint_requests_total" [("endpoint", "/version")]
     (print_dec (stats w endpoint_version));
   Sample "rawrelay_endpoint_requests_total" [("endpoint", "/metrics")]
     (print_dec (stats w endpoint_metrics));
   Sample "rawrelay_endpoint_requests_total" [("endpoint", "/")]
     (print_dec (stats w endpoint_home));
   Sample "rawrelay_endpoint_requests_total" [("endpoint", "/broadcast")]
     (print_dec (stats w endpoint_broadcast));
   Sample "rawrelay_endpoint_requests_total" [("endpoint", "/result")]
     (print_dec (stats w endpoint_result));
   Sample "rawrelay_endpoint_requests_total" [("endpoint", "/docs")]
     (print_dec (stats w endpoint_docs));
   Sample "rawrelay_endpoint_requests_total" [("endpoint", "/status")]
     (print_dec (stats w endpoint_status));
   Sample "rawrelay_endpoint_requests_total" [("endpoint", "/logos")]
     (print_dec (stats w endpoint_logos));
   Sample "rawrelay_endpoint_requests_total" [("endpoint", "/acme")]
     (print_dec (stats w endpoint_acme))].

Definition rpc_broadcasts (rpc : RPCManager) : list Item :=
  [Blank;
   HELP "rawrelay_rpc_broadcasts_total" "Total transaction broadcast attempts";
   TYPE "rawrelay_rpc_broadcasts_total" "counter";
   Sample "rawrelay_rpc_broadcasts_total" [] (print_dec (total_broadcasts rpc));
   Blank;
   HELP "rawrelay_rpc_broadcasts_success_total" "Successful transaction broadcasts";
   TYPE "rawrelay_rpc_broadcasts_success_total" "counter";
   Sample "rawrelay_rpc_broadcasts_success_total" [] (print_dec (successful_broadcasts rpc));
   Blank;
   HELP "rawrelay_rpc_broadcasts_failed_total" "Failed transaction broadcasts";
   TYPE "rawrelay_rpc_broadcasts_failed_total" "counter";
   Sample "rawrelay_rpc_broadcasts_failed_total" [] (print_dec (failed_broadcasts rpc))].

(** The array [chains]. *)
Definition chains (rpc : RPCManager) : list (string * RPCClient) :=
  [("mainnet", mainnet rpc); ("testnet", testnet rpc); ("signet", signet rpc); ("regtest", regtest rpc)].

(** One of the three loops over [chains]: the blocks it prints; the first
    client that is configured brings the heading. *)
Fixpoint rpc_loop (heading : list Item) (name : string) (value : RPCClient -> Z) (first_client : bool)
    (l : list (string * RPCClient)) : list (list Item) :=
  match l with
  | [] => []
  | (chain, client) :: l =>
      if eqc (deref (cl_host client)) NUL then rpc_loop heading name value first_client l else
      (if first_client then [heading] else []) ++
      [Sample name [("chain", chain)] (print_dec (value client))] ::
      rpc_loop heading name value false l
  end.

Definition rpc_requests (rpc : RPCManager) : list (list Item) :=
  rpc_loop [Blank; HELP "rawrelay_rpc_requests_total" "Total RPC requests to Bitcoin node";
            TYPE "rawrelay_rpc_requests_total" "counter"]
    "rawrelay_rpc_requests_total" request_count true (chains rpc).

Definition rpc_errors (rpc : RPCManager) : list (list Item) :=
  rpc_loop [Blank; HELP "rawrelay_rpc_errors_total" "Total RPC errors by chain";
            TYPE "rawrelay_rpc_errors_total" "counter"]
    "rawrelay_rpc_errors_total" error_count true (chains rpc).

Definition rpc_node_up (rpc : RPCManager) : list (list Item) :=
  rpc_loop [Blank; HELP "rawrelay_rpc_node_up" "Bitcoin node availability (1=up, 0=down)";
            TYPE "rawrelay_rpc_node_up" "gauge"]
    "rawrelay_rpc_node_up" available true (chains rpc).

(** ** Writing *)

(** [snprintf(buf + offset, remaining, ...)] followed by
    [METRICS_ADVANCE()]: the text before [offset], and [remaining]. *)
Definition METRICS_ADVANCE (st : chars * Z) (text : chars) : chars * Z :=
  let '(buf, remaining) := st in
  let n := zlen text in
  if (n >? 0) && (n <? remaining) then (buf ++ text, remaining - n) else (buf, 0).

(** The blocks in order; the two conditional ones as the code has them. *)
Definition metrics_blocks (w : WorkerProcess) (e : HealthEnv) : list (list Item) :=
  let uptime_sec := (inject_Z (he_now e - w_start_time w) / inject_Z 1000000000)%Q in
  let open_fds := get_open_fds e in
  let max_fds := get_max_fds e in
  let cert_expiry := tls_get_cert_expiry (Some (tls w)) in
  [basic_counters w; latency_histogram w; status_code_counters w; request_method_counters w;
   process_info w uptime_sec] ++
  (if (open_fds >=? 0) && (max_fds >=? 0) then [file_descriptor_metrics open_fds max_fds] else []) ++
  [tls_metrics w] ++
  (if cert_expiry >? 0 then [tls_certificate_expiry cert_expiry] else []) ++
  [http2_metrics w; error_type_counters w; slot_metrics w; extended_metrics w; per_endpoint_counters w;
   rpc_broadcasts (rpc w)] ++
  rpc_requests (rpc w) ++ rpc_errors (rpc w) ++ rpc_node_up (rpc w).

(** The string left in [buf\[bufsize\]] and the return value. *)
Definition generate_metrics_body (w : WorkerProcess) (e : HealthEnv) (bufsize : Z) : chars * Z :=
  let '(buf, _) := foldl METRICS_ADVANCE ([], bufsize - 1)
                     (map (print_block (worker_id w)) (metrics_blocks w e)) in
  (buf, zlen buf).

(** ** What is written *)

Lemma metrics_body_len w e n :
  snd (generate_metrics_body w e n) = zlen (fst (generate_metrics_body w e n)).
Proof. unfold generate_metrics_body. by destruct (foldl _ _ _). Qed.

(** The first [k] texts are written when they fit and the next does not. *)
Lemma advance_prefix (texts : list chars) buf remaining :
  Forall (fun t => 0 < zlen t) texts -> 0 <= remaining ->
  exists k, fst (foldl METRICS_ADVANCE (buf, remaining) texts) = buf ++ concat (take k texts) /\
    (zlen (concat (take k texts)) < remaining \/ k = O) /\
    ((k < length texts)%nat -> remaining <= zlen (concat (take (S k) texts))).
Proof.
  revert buf remaining. induction texts as [|t texts IH]; intros buf remaining Hp Hr.
  - exists O. simpl. rewrite app_nil_r. split_and!; [done|by right|lia].
  - apply Forall_cons in Hp as [Ht Hp]. cbn [foldl METRICS_ADVANCE].
    destruct (Z.ltb_spec (zlen t) remaining) as [Hlt|Hge].
    + rewrite (proj2 (Z.gtb_lt _ _)) by done. cbn [andb].
      destruct (IH (buf ++ t) (remaining - zlen t) Hp ltac:(lia)) as (k & E & Hk & Hn).
      exists (S k). rewrite E. split_and!.
      * by rewrite <- app_assoc.
      * left. simpl. rewrite zlen_app. destruct Hk as [Hk|Hk]; [lia|subst k]. simpl. rewrite zlen_nil. lia.
      * intros Hl. simpl in Hl. specialize (Hn ltac:(lia)). change (take (S (S k)) (t :: texts)) with (t :: take (S k) texts).
        simpl. rewrite zlen_app. lia.
    + rewrite andb_false_r. exists O. split_and!; [|by right|].
      * simpl. rewrite app_nil_r. clear -Hp. induction Hp as [|t' ts Ht' _ IH']; [done|].
        cbn [foldl METRICS_ADVANCE]. rewrite (proj2 (Z.ltb_ge (zlen t') 0)) by lia. by rewrite andb_false_r.
      * intros _. simpl. rewrite app_nil_r. lia.
Qed.

Lemma print_item_pos wid i : 0 < zlen (print_item wid i).
Proof.
  destruct i; cbn [print_item]; rewrite ?zlen_app, ?zlen_cons, ?zlen_nil;
    repeat match goal with |- context [zlen ?l] => pose proof (zlen_nonneg l); generalize dependent (zlen l); intros end; lia.
Qed.

Definition nonempty_block (b : list Item) : bool := match b with [] => false | _ => true end.

Lemma print_block_pos wid b : nonempty_block b = true -> 0 < zlen (print_block wid b).
Proof.
  destruct b as [|i b]; [done|]. intros _. unfold print_block. simpl. rewrite zlen_app.
  pose proof (print_item_pos wid i). pose proof (zlen_nonneg (concat (map (print_item wid) b))). lia.
Qed.

Lemma rpc_loop_nonempty heading name value first l :
  nonempty_block heading = true -> forallb nonempty_block (rpc_loop heading name value first l) = true.
Proof.
  intros Hh. revert first. induction l as [|[ch cl] l IH]; intros first; [done|]. simpl.
  destruct (eqc _ _); [apply IH|]. rewrite forallb_app. simpl. rewrite IH. by destruct first; simpl; rewrite ?Hh.
Qed.

Lemma metrics_blocks_nonempty w e : forallb nonempty_block (metrics_blocks w e) = true.
Proof.
  unfold metrics_blocks, rpc_requests, rpc_errors, rpc_node_up. cbv zeta.
  rewrite !forallb_app, !rpc_loop_nonempty by done. by repeat case_match.
Qed.

(** The texts of the blocks, one [snprintf] each. *)
Definition metrics_texts (w : WorkerProcess) (e : HealthEnv) : list chars :=
  map (print_block (worker_id w)) (metrics_blocks w e).

Lemma metrics_texts_pos w e : Forall (fun t => 0 < zlen t) (metrics_texts w e).
Proof.
  unfold metrics_texts. pose proof (metrics_blocks_nonempty w e) as Hb.
  induction (metrics_blocks w e) as [|b bs IH]; constructor; simpl in Hb; apply andb_true_iff in Hb as [? ?];
    auto using print_block_pos.
Qed.

(** ** Sizes *)

(** The longest text of a line, when the worker number takes 21 characters
    and a value 32. *)
Definition label_max (l : string * string) : nat := 4 + String.length (fst l) + String.length (snd l).

Definition item_max (i : Item) : nat :=
  match i with
  | HELP name text | TYPE name text => 9 + String.length name + String.length text
  | Sample name labels _ => String.length name + 66 + list_sum (map label_max labels)
  | Blank => 1
  end.

Definition block_max (b : list Item) : nat := list_sum (map item_max b).

Definition short_value (i : Item) : bool :=
  match i with Sample _ _ v => (length v <=? 32)%nat | _ => true end.

Lemma str_length s : length (str s) = String.length s.
Proof. induction s; simpl; [done|]. by f_equal. Qed.

Lemma print_item_max wid i :
  (length (print_dec wid) <= 21)%nat -> short_value i = true -> (length (print_item wid i) <= item_max i)%nat.
Proof.
  intros Hw Hs. destruct i as [name text|name kind|name labels v|]; cbn [print_item item_max].
  - rewrite !length_app, !str_length. simpl. lia.
  - rewrite !length_app, !str_length. simpl. lia.
  - cbn [short_value] in Hs. apply Nat.leb_le in Hs.
    assert (length (concat (map print_label labels)) = list_sum (map label_max labels)) as Hl.
    { clear. induction labels as [|l labels IH]; [done|]. cbn [map concat list_sum foldr].
      rewrite length_app, IH. f_equal. unfold print_label, label_max.
      rewrite !length_app, !str_length. simpl. lia. }
    rewrite !length_app, Hl, !str_length. simpl. lia.
  - done.
Qed.

Lemma print_block_max wid b :
  (length (print_dec wid) <= 21)%nat -> forallb short_value b = true ->
  (length (print_block wid b) <= block_max b)%nat.
Proof.
  intros Hw. unfold print_block, block_max. induction b as [|i b IH]; [done|]. simpl.
  intros [Hi Hb]%andb_true_iff. rewrite length_app. pose proof (print_item_max wid i Hw Hi). specialize (IH Hb). lia.
Qed.

(** Numbers of at most 64 bits, and sums of times below [10 ^ 20] seconds. *)
Definition machine (z : Z) : Prop := - 10 ^ 20 < z < 10 ^ 20.

Lemma print_dec_machine z : machine z -> (length (print_dec z) <= 21)%nat.
Proof.
  unfold machine. intros Hz. destruct z as [|p|p].
  - etrans; [apply (print_dec_digits 20); simpl Z.of_nat; lia|lia].
  - etrans; [apply (print_dec_digits 20); simpl Z.of_nat; lia|lia].
  - rewrite print_dec_neg. cbn [length]. apply le_n_S. apply print_dec_digits; simpl Z.of_nat; lia.
Qed.

(** The numbers of the report are numbers of the machine. *)
Record machine_numbers (w : WorkerProcess) (e : HealthEnv) : Prop := {
  mn_worker : machine (worker_id w);
  mn_stats c : machine (stats w c);
  mn_active : machine (active_connections w) /\ machine (h2_streams_active w);
  mn_times : machine (start_wallclock w) /\ machine (cert_expiry (tls w));
  mn_slots t : machine (slot_manager_current (slots w) t) /\ machine (slot_manager_max (slots w) t);
  mn_limiter : machine (rate_limiter_get_entry_count (rate_limiter w));
  mn_fds : machine (get_open_fds e) /\ machine (get_max_fds e);
  mn_latency : Z.abs (Qnum (latency_sum_seconds w)) < 10 ^ 20 * Zpos (Qden (latency_sum_seconds w));
  mn_uptime : Z.abs (he_now e - w_start_time w) < 10 ^ 20;
  mn_rpc : machine (total_broadcasts (rpc w)) /\ machine (successful_broadcasts (rpc w)) /\
           machine (failed_broadcasts (rpc w));
  mn_clients : Forall (fun '(_, c) => machine (request_count c) /\ machine (error_count c) /\
                                       machine (available c)) (chains (rpc w))
}.

Lemma dec_short z : machine z -> (length (print_dec z) <=? 32)%nat = true.
Proof. intros Hz. apply Nat.leb_le. pose proof (print_dec_machine z Hz). lia. Qed.

Lemma fixed_short n q :
  (0 < n <= 9)%nat -> Z.abs (Qnum q) < 10 ^ 20 * Zpos (Qden q) -> (length (print_fixed n q) <=? 32)%nat = true.
Proof. intros Hn Hq. apply Nat.leb_le. pose proof (print_fixed_length n q ltac:(lia) Hq). lia. Qed.

(** The loop over the chains: at most a heading and four samples. *)
Lemma rpc_loop_short heading name value first l :
  forallb short_value heading = true -> Forall (fun '(_, c) => machine (value c)) l ->
  forallb (forallb short_value) (rpc_loop heading name value first l) = true.
Proof.
  intros Hh Hl. revert first. induction Hl as [|[ch cl] l Hc _ IH]; intros first; [done|]. cbn [rpc_loop].
  destruct (eqc _ _); [apply IH|]. rewrite forallb_app. cbn [forallb short_value]. rewrite IH, dec_short by done.
  by destruct first; cbn [forallb]; rewrite ?Hh.
Qed.

Lemma list_sum_cons x l : list_sum (x :: l) = (x + list_sum l)%nat.
Proof. done. Qed.

Lemma rpc_loop_max heading name value first l :
  (list_sum (map block_max (rpc_loop heading name value first l)) <=
   (if first then block_max heading else 0) +
   list_sum (map (fun '(ch, _) => String.length name + 66 + label_max ("chain", ch)) l))%nat.
Proof.
  revert first. induction l as [|[ch cl] l IH]; intros first; [simpl; lia|].
  cbn [rpc_loop map]. rewrite list_sum_cons. destruct (eqc _ _).
  - specialize (IH first). lia.
  - specialize (IH false). cbv iota in IH. rewrite map_app, list_sum_app. cbn [map]. rewrite list_sum_cons.
    replace (block_max [Sample name [("chain", ch)] (print_dec (value cl))])
      with (String.length name + 66 + label_max ("chain", ch))%nat
      by (unfold block_max; cbn [map item_max]; rewrite !list_sum_cons, !Nat.add_0_r; done).
    destruct first; cbn [map]; rewrite ?list_sum_cons, ?Nat.add_0_r; change (list_sum []) with O; lia.
Qed.

Lemma metrics_short w e :
  machine_numbers w e -> forallb (forallb short_value) (metrics_blocks w e) = true.
Proof.
  intros [H1 H2 [H3 H3'] [H4 H4'] H5 H6 [H7 H7'] H8 H9 (H10 & H11 & H12) H13].
  assert (Z.abs (Qnum (inject_Z (he_now e - w_start_time w) / inject_Z 1000000000)) <
          10 ^ 20 * Zpos (Qden (inject_Z (he_now e - w_start_time w) / inject_Z 1000000000))) as Hu.
  { change (inject_Z (he_now e - w_start_time w) / inject_Z 1000000000)%Q
      with ((he_now e - w_start_time w) * 1 # (1 * 1000000000))%Q. cbn [Qnum Qden]. lia. }
  assert (forall v, (forall c, machine (request_count c) /\ machine (error_count c) /\ machine (available c) ->
            machine (v c)) -> Forall (fun '(_, c) => machine (v c)) (chains (rpc w))) as Hv.
  { intros v Hv. eapply Forall_impl; [exact H13|]. intros [ch c]. apply Hv. }
  unfold metrics_blocks, rpc_requests, rpc_errors, rpc_node_up. cbv zeta.
  rewrite !forallb_app, !rpc_loop_short by (done || apply Hv; tauto).
  repeat case_match; cbn [forallb short_value basic_counters latency_histogram status_code_counters
    request_method_counters process_info file_descriptor_metrics tls_metrics tls_certificate_expiry
    http2_metrics error_type_counters slot_metrics extended_metrics per_endpoint_counters rpc_broadcasts];
    rewrite ?dec_short, ?fixed_short by (first [lia|apply H5|apply H2|done]); done.
Qed.

Lemma rpc_loops_max h n v w :
  (list_sum (map block_max (rpc_loop h n v true (chains (rpc w)))) <=
   block_max h + (4 * String.length n + 348))%nat.
Proof.
  etrans; [apply rpc_loop_max|]. unfold chains. cbn [map]. rewrite !list_sum_cons.
  unfold label_max. simpl. lia.
Qed.

(** The longest report: with every optional block and four nodes. *)
Lemma metrics_max w e : Z.of_nat (list_sum (map block_max (metrics_blocks w e))) <= 14000.
Proof.
  unfold metrics_blocks. cbv zeta. rewrite !map_app, !list_sum_app.
  assert (list_sum (map block_max (rpc_requests (rpc w))) <= 700)%nat as L1
    by (etrans; [apply rpc_loops_max|]; apply Nat.leb_le; reflexivity).
  assert (list_sum (map block_max (rpc_errors (rpc w))) <= 700)%nat as L2
    by (etrans; [apply rpc_loops_max|]; apply Nat.leb_le; reflexivity).
  assert (list_sum (map block_max (rpc_node_up (rpc w))) <= 700)%nat as L3
    by (etrans; [apply rpc_loops_max|]; apply Nat.leb_le; reflexivity).
  rewrite !Nat.add_assoc. match goal with |- Z.of_nat (?a + _ + _ + _) <= _ => assert (Z.of_nat a <= 11900) end; [|lia].
  repeat case_match; apply Z.leb_le; vm_compute; reflexivity.
Qed.

Lemma metrics_length w e :
  machine_numbers w e -> zlen (concat (metrics_texts w e)) <= 14000.
Proof.
  intros Hm. pose proof (metrics_short w e Hm) as Hs. pose proof (metrics_max w e) as Hx.
  assert (length (concat (metrics_texts w e)) <= list_sum (map block_max (metrics_blocks w e)))%nat;
    [|unfold zlen; lia].
  clear Hx. unfold metrics_texts.
  pose proof (print_dec_machine _ (mn_worker _ _ Hm)) as Hw.
  induction (metrics_blocks w e) as [|b bs IH]; [done|]. cbn [map concat]. rewrite length_app, list_sum_cons.
  cbn [forallb] in Hs. apply andb_true_iff in Hs as [Hb Hs]. specialize (IH Hs).
  pose proof (print_block_max (worker_id w) b Hw Hb). lia.
Qed.

(** C21: The /metrics report stays within its buffer and is never cut inside a block: for a
    buffer of any size, what is written is a run of whole blocks from the start of the report,
    shorter than the buffer, the length returned is its length, and the next block would not
    have fitted.  With the 16384 bytes that both protocols provide and numbers of at most 64
    bits the report is complete, whatever blocks and nodes it lists. *)
Theorem metrics_report_fits (w : WorkerProcess) (e : HealthEnv) (bufsize : Z) :
  1 <= bufsize ->
  let '(body, len) := generate_metrics_body w e bufsize in
  len = zlen body /\ len < bufsize /\
  (exists k, body = concat (take k (metrics_texts w e)) /\
     ((k < length (metrics_texts w e))%nat ->
        bufsize - 1 <= zlen (concat (take (S k) (metrics_texts w e))))) /\
  (machine_numbers w e -> bufsize = 16384 -> body = concat (metrics_texts w e)).
Proof.
  intros Hb. unfold generate_metrics_body. fold (metrics_texts w e).
  destruct (advance_prefix (metrics_texts w e) [] (bufsize - 1) (metrics_texts_pos w e) ltac:(lia))
    as (k & E & Hk & Hn).
  destruct (foldl _ _ _) as [body rem]. simpl in E. subst body.
  assert (zlen (concat (take k (metrics_texts w e))) < bufsize) as Hl
    by (destruct Hk as [Hk| ->]; [lia|simpl; rewrite zlen_nil; lia]).
  split_and!; [done|done|by exists k|]. intros Hm ->.
  destruct (Nat.lt_ge_cases k (length (metrics_texts w e))) as [Hlt|Hge]; [|by rewrite take_ge].
  specialize (Hn Hlt). pose proof (metrics_length w e Hm) as Hx.
  rewrite <- (take_drop (S k) (metrics_texts w e)), concat_app, zlen_app in Hx.
  pose proof (zlen_nonneg (concat (drop (S k) (metrics_texts w e)))). lia.
Qed.

(** A worker that has served one request, without TLS and with one node. *)
Definition metrics_worker : WorkerProcess :=
  let page := mkStaticFile [] 0 [] in
  {| worker_id := 3; config := default_values;
     static_files := mkStaticFiles page page page page page page page;
     slots := slot_manager_init 2 1 1; rate_limiter := rl_zero;
     ip_acl := {| blocklist := acl_zero; allowlist := acl_zero |};
     draining := false; listener := true; tls_listener := false; listener_disabled := false;
     tls_listener_disabled := false; stats := fun c => if decide (c = requests_processed) then 1 else 0;
     active_connections := 1; h2_streams_active := 0; w_start_time := 0;
     latency_sum_seconds := (1 # 8)%Q; connections := []; loopexit := false; request_counter := 1;
     keepalive_counter := 0; h2_request_counter := 0; tls := zero_tls; ssl_heap := empty_heap;
     rpc := zero_manager <| regtest := zero_client <| cl_host := str "127.0.0.1" |> |>;
     cpu_core := 0; start_wallclock := 1700000000; signal_event := true; signal_event_reload := true;
     cleanup_event := true |}.

Lemma metrics_report_fits_witness :
  let e := mkHealthEnv 1500000000 0 (Some [str "0"; str "1"]) (Some 1024) in
  fst (generate_metrics_body metrics_worker e 16384) = concat (metrics_texts metrics_worker e).
Proof.
  intros e. pose proof (metrics_report_fits metrics_worker e 16384 ltac:(lia)) as Hf.
  destruct (generate_metrics_body metrics_worker e 16384) as [body len].
  destruct Hf as (_ & _ & _ & Hf). simpl fst. apply Hf; [|done].
  split; unfold machine; try (cbn; lia).
  - intros c. cbn. case_decide; lia.
  - intros []; cbn; lia.
  - change (get_open_fds e) with 2. change (get_max_fds e) with 1024. lia.
  - repeat (constructor; [cbn; lia|]). constructor.
Defined.
