(* ===== verification/Http2.v ===== *)
(** * HTTP/2 sessions ([src/http2.c], [include/http2.h])

    nghttp2 is outside the repository: the frames it decodes reach this
    code as calls of the callbacks below, so a call of
    [nghttp2_session_mem_recv] is the sequence of callbacks it makes and
    its return value, both arbitrary.  What the code hands to
    [nghttp2_submit_response] is recorded as an [H2Response]; the bytes of
    the nested [nghttp2_session_send] belong to the enclosing call; whether the
    library's calls and allocations succeed are arguments. *)
From Stdlib Require Import ZArith QArith Lia Ascii String.
From stdpp Require Import base list numbers strings.
From S2P Require Import Prelude CLib Router Network Config Slots IpAcl RateLimiter Rpc Tls State Endpoints Metrics.

#[local] Open Scope Z_scope.

Definition H2_MAX_CONCURRENT_STREAMS : Z := 100.
Definition H2_INITIAL_WINDOW_SIZE : Z := Z.shiftl 1 20.
Definition H2_CONNECTION_WINDOW_SIZE : Z := 16 * 1024 * 1024.
Definition NGHTTP2_ERR_TEMPORAL_CALLBACK_FAILURE : Z := -521.
Definition NGHTTP2_ERR_CALLBACK_FAILURE : Z := -902.

(** ** Streams *)

(** The stream goes to the head of the list; [None] when [calloc] fails. *)
Definition h2_stream_new (calloc_ok : bool) (w : WorkerProcess) (hc : H2Connection)
    (id now : Z) : option (WorkerProcess * H2Connection) :=
  if negb calloc_ok then None else
  let stream := {|
    stream_id := id; s_state := H2_STREAM_OPEN; tier := TIER_NORMAL; slot_acquired := false;
    s_method := None; s_path := None; s_path_len := 0; authority := None; scheme := None;
    s_content_length := 0; s_body_received := 0;
    s_request_id := format_request_id (worker_id w) now (h2_request_counter w)
                      (str "-s" ++ print_dec id);
    s_start_time := now; s_response_status := 0; s_response_bytes := 0; body_source := None |} in
  let w := w <| h2_request_counter ::= fun n => u32 (n + 1) |> in
  let hc := hc <| streams ::= cons stream |> <| stream_count ::= Z.succ |> in
  Some ((bump h2_streams_total w) <| h2_streams_active ::= Z.succ |>, hc).

Definition has_id (id : Z) (s : H2Stream) : bool := stream_id s =? id.

Definition h2_stream_find (hc : H2Connection) (id : Z) : option H2Stream :=
  find (has_id id) (streams hc).

(** Writing through, and unlinking, the pointer [h2_stream_find] returns. *)
Fixpoint store_stream (id : Z) (f : H2Stream -> H2Stream) (l : list H2Stream) : list H2Stream :=
  match l with
  | [] => []
  | s :: r => if has_id id s then f s :: r else s :: store_stream id f r
  end.

Fixpoint remove_stream (id : Z) (l : list H2Stream) : list H2Stream :=
  match l with
  | [] => []
  | s :: r => if has_id id s then r else s :: remove_stream id r
  end.

Definition h2_store (hc : H2Connection) (id : Z) (f : H2Stream -> H2Stream) : H2Connection :=
  hc <| streams ::= store_stream id f |>.

Definition h2_stream_free (w : WorkerProcess) (hc : H2Connection) (stream : H2Stream)
    : WorkerProcess * H2Connection :=
  let w := if slot_acquired stream
           then w <| slots ::= fun sm => slot_manager_release sm (tier stream) |> else w in
  let hc := hc <| streams ::= remove_stream (stream_id stream) |> <| stream_count ::= Z.pred |> in
  let w := if h2_streams_active w >? 0 then w <| h2_streams_active ::= Z.pred |> else w in
  (w, hc).

(** The tier and slot flag the stream ends up with. *)
Definition h2_downgrade_tier_to_normal (w : WorkerProcess) (stream : H2Stream)
    : WorkerProcess * H2Stream :=
  if negb (slot_acquired stream) || bool_decide (tier stream = TIER_NORMAL) then (w, stream) else
  let sm := slot_manager_release (slots w) (tier stream) in
  let '(sm, got) := slot_manager_acquire sm TIER_NORMAL in
  if got then (w <| slots := sm |>, stream <| tier := TIER_NORMAL |>) else
  let '(sm, back) := slot_manager_acquire sm (tier stream) in
  if negb back then (w <| slots := sm |>, stream <| slot_acquired := false |>)
  else (w <| slots := sm |>, stream).

(** ** Responses *)

Record H2Response := mkResponse { r_stream : Z; r_headers : list (chars * chars); r_body : chars }.

(** The outcomes of the calls [h2_send_response] makes. *)
Record SendEnv := mkSendEnv {
  body_source_ok : bool;
  body_data_ok : bool;
  submit_ok : bool;
  session_send_ok : bool
}.

Definition HTML_TYPE : chars := str "text/html; charset=utf-8".

Definition h2_send_response (e : SendEnv) (w : WorkerProcess) (hc : H2Connection) (id st : Z)
    (ctype body : chars) : H2Connection * Z * option H2Response :=
  let max_age := cache_max_age (config w) in
  let cache_control :=
    if (st =? 200) && (max_age >? 0) && strcmp_eq ctype HTML_TYPE
    then snprintf 64 (str "public, max-age=" ++ print_dec max_age) else str "no-store" in
  let rid := default [] (s_request_id <$> h2_stream_find hc id) in
  let headers := [
    (str ":status", snprintf 16 (print_dec st));
    (str "content-type", ctype);
    (str "content-length", snprintf 32 (print_dec (zlen body)));
    (str "x-request-id", rid);
    (str "cache-control", cache_control)] in
  if negb (body_source_ok e) then (hc, -1, None) else
  if (zlen body >? 0) && negb (body_data_ok e) then (hc, -1, None) else
  let bs := {| bs_data := body; bs_len := zlen body; bs_pos := 0 |} in
  if negb (submit_ok e) then (hc, -1, None) else
  let hc := h2_store hc id (fun s => s <| body_source := Some bs |>) in
  (hc, if session_send_ok e then 0 else -1,
   Some {| r_stream := id; r_headers := headers; r_body := body |}).

(** [h2_body_read_callback]: the source afterwards, the bytes copied and
    whether [NGHTTP2_DATA_FLAG_EOF] is set. *)
Definition h2_body_read_callback (bs : H2BodySource) (len : Z) : H2BodySource * chars * bool :=
  let remaining := bs_len bs - bs_pos bs in
  let to_copy := if remaining <? len then remaining else len in
  let data := take (Z.to_nat to_copy) (drop (Z.to_nat (bs_pos bs)) (bs_data bs)) in
  let bs := bs <| bs_pos ::= fun p => p + to_copy |> in
  (bs, data, bs_pos bs >=? bs_len bs).

(** What a request reads from outside the worker: the clocks and limits that
    /health and /metrics report, the file system, and the outcome of
    sending. *)
Record RequestEnv := mkRequestEnv {
  health_env : HealthEnv;
  fs : filesystem;
  send_env : SendEnv
}.

Definition not_found_body : chars := str "Not Found".

Definition version_body : chars :=
  snprintf 256 (str "{" ++ member "version" ++ quoted "0.1.0" ++ str "}").

(** The page of a static route. *)
Definition static_page (fsx : StaticFiles) (route : RouteType) : StaticFile :=
  match route with
  | ROUTE_HOME => index fsx
  | ROUTE_BROADCAST => broadcast fsx
  | ROUTE_RESULT => result fsx
  | ROUTE_DOCS => docs fsx
  | ROUTE_STATUS => status fsx
  | ROUTE_LOGOS => logos fsx
  | _ => error fsx
  end.

(** Status, content type and body that [h2_process_stream_request] sends,
    and the length it records. *)
Definition h2_answer (e : RequestEnv) (w : WorkerProcess) (route : RouteType) (p : chars) (plen : Z)
    : Z * chars * chars * Z * Z :=
  match route with
  | ROUTE_HEALTH =>
      let '(body, len) := generate_health_body w (health_env e) 1024 in
      (200, str "application/json", take (Z.to_nat len) body, 200, len)
  | ROUTE_READY =>
      let st := if draining w then 503 else 200 in (st, str "text/plain", [], st, 0)
  | ROUTE_ALIVE => (200, str "text/plain", [], 200, 0)
  | ROUTE_VERSION => (200, str "application/json", version_body, 200, zlen version_body)
  | ROUTE_METRICS =>
      let '(body, len) := generate_metrics_body w (health_env e) 16384 in
      (200, str "text/plain; version=0.0.4; charset=utf-8", take (Z.to_nat len) body, 200, len)
  | ROUTE_ACME_CHALLENGE =>
      match acme_challenge_h2 (fs e) (acme_challenge_dir (config w)) p plen with
      | Some data =>
          if zlen data >? 0 then (200, str "text/plain", data, 200, zlen data)
          else (200, str "text/plain", data, 404, 9)
      | None => (404, str "text/plain", not_found_body, 404, 9)
      end
  | ROUTE_ERROR =>
      let file := error (static_files w) in
      (404, content_type file, take (Z.to_nat (length_ file)) (content file), 404, length_ file)
  | _ =>
      let file := static_page (static_files w) route in
      (200, content_type file, take (Z.to_nat (length_ file)) (content file), 200, length_ file)
  end.

Definition h2_process_stream_request (e : RequestEnv) (w : WorkerProcess) (hc : H2Connection)
    (stream : H2Stream) : WorkerProcess * H2Connection * option H2Response :=
  let p := default [] (s_path stream) in
  let route := route_request p in
  let w := update_endpoint_counter w route in
  let '(st, ctype, body, status_code, body_len) := h2_answer e w route p (s_path_len stream) in
  let '(hc, _, resp) := h2_send_response (send_env e) w hc (stream_id stream) st ctype body in
  let hc := h2_store hc (stream_id stream)
    (fun s => s <| s_response_status := status_code |> <| s_response_bytes := body_len |>) in
  match h2_stream_find hc (stream_id stream) with
  | None => (w, hc, resp)
  | Some s =>
      let '(w, s') := h2_downgrade_tier_to_normal w s in
      (w, h2_store hc (stream_id stream) (fun _ => s'), resp)
  end.

(** ** Callbacks *)

Inductive FrameType := NGHTTP2_HEADERS | NGHTTP2_DATA | NGHTTP2_OTHER.

#[export] Instance FrameType_eq_dec : EqDecision FrameType.
Proof. solve_decision. Defined.

Record Frame := mkFrame {
  fr_type : FrameType;
  fr_stream_id : Z;
  flag_end_stream : bool;
  hcat_request : bool
}.

(** The two arms of the switch are the same code. *)
Definition h2_on_frame_recv_callback (e : RequestEnv) (w : WorkerProcess) (hc : H2Connection)
    (frame : Frame) : WorkerProcess * H2Connection * option H2Response :=
  match fr_type frame with
  | NGHTTP2_HEADERS | NGHTTP2_DATA =>
      if flag_end_stream frame then
        match h2_stream_find hc (fr_stream_id frame) with
        | None => (w, hc, None)
        | Some stream =>
            let stream := stream <| s_state := H2_STREAM_HALF_CLOSED_REMOTE |> in
            let hc := h2_store hc (fr_stream_id frame) (fun _ => stream) in
            h2_process_stream_request e w hc stream
        end
      else (w, hc, None)
  | NGHTTP2_OTHER => (w, hc, None)
  end.

(** The statistics of a finished exchange. *)
Definition h2_log_stream (w : WorkerProcess) (stream : H2Stream) (now : Z) : WorkerProcess :=
  if s_response_status stream >? 0 then
    let duration_sec := (inject_Z (now - s_start_time stream) / inject_Z 1000000000)%Q in
    let w := update_latency_histogram w duration_sec in
    let w := update_status_counters w (s_response_status stream) in
    let w := update_method_counters w (s_method stream) in
    add_stat response_bytes_total (s_response_bytes stream) w
  else w.

Definition h2_on_stream_close_callback (w : WorkerProcess) (hc : H2Connection) (id now : Z)
    : WorkerProcess * H2Connection :=
  match h2_stream_find hc id with
  | None => (w, hc)
  | Some stream => h2_stream_free (h2_log_stream w stream now) hc stream
  end.

Definition h2_on_begin_headers_callback (calloc_ok : bool) (w : WorkerProcess) (hc : H2Connection)
    (frame : Frame) (now : Z) : WorkerProcess * H2Connection * Z :=
  if negb (bool_decide (fr_type frame = NGHTTP2_HEADERS)) || negb (hcat_request frame)
  then (w, hc, 0) else
  let '(sm, got) := slot_manager_acquire (slots w) TIER_NORMAL in
  let w := w <| slots := sm |> in
  if negb got then (bump h2_rst_stream_total w, hc, NGHTTP2_ERR_TEMPORAL_CALLBACK_FAILURE) else
  match h2_stream_new calloc_ok w hc (fr_stream_id frame) now with
  | None =>
      (bump h2_rst_stream_total (w <| slots ::= fun sm => slot_manager_release sm TIER_NORMAL |>),
       hc, NGHTTP2_ERR_TEMPORAL_CALLBACK_FAILURE)
  | Some (w, hc) =>
      (w, h2_store hc (fr_stream_id frame)
            (fun s => s <| slot_acquired := true |> <| tier := TIER_NORMAL |>), 0)
  end.

Definition name_is (name : chars) (s : string) : bool := bool_decide (name = str s).

(** [strndup_ok] is the outcome of the allocation in the branch taken. *)
Definition h2_on_header_callback (strndup_ok : bool) (w : WorkerProcess) (hc : H2Connection)
    (frame : Frame) (name value : chars) : WorkerProcess * H2Connection * Z :=
  if negb (bool_decide (fr_type frame = NGHTTP2_HEADERS)) then (w, hc, 0) else
  let id := fr_stream_id frame in
  match h2_stream_find hc id with
  | None => (w, hc, 0)
  | Some stream =>
      let dup := if strndup_ok then Some (c_string value) else None in
      if name_is name ":method" then (w, h2_store hc id (fun s => s <| s_method := dup |>), 0) else
      if name_is name ":path" then
        let hc := h2_store hc id
          (fun s => s <| s_path := dup |> <| s_path_len := zlen value |>) in
        if strndup_ok && (zlen value >? 1) && (validate_hex_path (tail (c_string value)) <? 0) then
          (bump errors_parse (bump h2_rst_stream_total w), hc,
           NGHTTP2_ERR_TEMPORAL_CALLBACK_FAILURE)
        else
        let required := size_to_tier (zlen value) (config w) in
        if tier_index required >? tier_index (tier stream) then
          let '(sm, ok) := slot_manager_promote (slots w) (tier stream) required in
          let w := w <| slots := sm |> in
          if negb ok then
            (bump h2_rst_stream_total (bump slot_promotion_failures w), hc,
             NGHTTP2_ERR_TEMPORAL_CALLBACK_FAILURE)
          else (w, h2_store hc id (fun s => s <| tier := required |>), 0)
        else (w, hc, 0)
      else
      if name_is name ":authority" then (w, h2_store hc id (fun s => s <| authority := dup |>), 0) else
      if name_is name ":scheme" then (w, h2_store hc id (fun s => s <| scheme := dup |>), 0) else
      if name_is name "content-length"
      then (w, h2_store hc id (fun s => s <| s_content_length := st_val (strtoul value) |>), 0)
      else (w, hc, 0)
  end.

Definition h2_on_data_chunk_recv_callback (hc : H2Connection) (id len : Z) : H2Connection :=
  match h2_stream_find hc id with
  | None => hc
  | Some _ => h2_store hc id (fun s => s <| s_body_received ::= fun n => u64 (n + len) |>)
  end.

(** ** Sessions *)

(** The SETTINGS frame; the limit on header lists is a size cast to 32
    bits. *)
Inductive H2Setting :=
  MAX_CONCURRENT_STREAMS | INITIAL_WINDOW_SIZE | MAX_HEADER_LIST_SIZE | ENABLE_PUSH.

Definition h2_settings (cfg : Config) : list (H2Setting * Z) :=
  [(MAX_CONCURRENT_STREAMS, H2_MAX_CONCURRENT_STREAMS);
   (INITIAL_WINDOW_SIZE, H2_INITIAL_WINDOW_SIZE);
   (MAX_HEADER_LIST_SIZE, u32 (u64 (max_buffer_size cfg + 4096)));
   (ENABLE_PUSH, 0)].

(** The protections that the version of nghttp2 offers; [None] when
    [NGHTTP2_VERSION_NUM] is not defined. *)
Inductive H2Option :=
| STREAM_RESET_RATE_LIMIT (burst rate : Z)
| MAX_CONTINUATIONS (n : Z)
| MAX_SETTINGS (n : Z)
| MAX_OUTBOUND_ACK (n : Z).

Definition h2_options (version : option Z) : list H2Option :=
  match version with
  | None => []
  | Some v =>
      (if v >=? 0x013900 then [STREAM_RESET_RATE_LIMIT 1000 33] else []) ++
      (if v >=? 0x013d00 then [MAX_CONTINUATIONS 8] else []) ++
      (if v >=? 0x012900 then [MAX_SETTINGS 32] else []) ++
      (if v >=? 0x012702 then [MAX_OUTBOUND_ACK 1000] else [])
  end.

(** A request that fits the HTTP/1.1 buffer fits the header list too, unless
    the configured buffer comes within 4096 bytes of 4 GiB: the cast then
    drops the high bits, and the limit announced is tiny. *)
Lemma h2_header_limit cfg n :
  0 <= max_buffer_size cfg <= SIZE_MAX - 4096 ->
  (MAX_HEADER_LIST_SIZE, n) ∈ h2_settings cfg ->
  if max_buffer_size cfg <? 2 ^ 32 - 4096 then n = max_buffer_size cfg + 4096
  else n = (max_buffer_size cfg + 4096) mod 2 ^ 32.
Proof.
  intros Hm Hin. unfold h2_settings in Hin. rewrite !elem_of_cons in Hin.
  destruct Hin as [?|[?|[[= ->]|[?|[]%not_elem_of_nil]]]]; [done..| |done].
  unfold u64, SIZE_MAX in *. rewrite (wrap_small 64) by lia. case_match; b2p; [|done].
  unfold u32. apply wrap_small. lia.
Qed.

(** The outcomes of the nghttp2 set-up calls, in order. *)
Record H2InitEnv := mkH2InitEnv {
  h2_calloc_ok : bool; callbacks_ok : bool; option_ok : bool; session_ok : bool; settings_ok : bool
}.

Definition h2_connection_init (e : H2InitEnv) (c : Connection) : Connection * Z :=
  if negb (h2_calloc_ok e) then (c, -1) else
  if negb (callbacks_ok e) then (c, -1) else
  if negb (option_ok e) then (c, -1) else
  if negb (session_ok e) then (c, -1) else
  if negb (settings_ok e) then (c, -1) else
  (c <| h2 := Some {| streams := []; stream_count := 0;
                      max_concurrent_streams := H2_MAX_CONCURRENT_STREAMS;
                      initial_window_size := H2_INITIAL_WINDOW_SIZE |} |>
     <| protocol := PROTO_HTTP_2 |>, 0).

(** [while (h2->streams) h2_stream_free(h2, h2->streams)]: each round
    frees the head of the list, so the list bounds the loop. *)
Fixpoint free_streams (w : WorkerProcess) (hc : H2Connection) (l : list H2Stream)
    : WorkerProcess * H2Connection :=
  match l with
  | [] => (w, hc)
  | s :: r => let '(w, hc) := h2_stream_free w hc s in free_streams w hc r
  end.

Definition h2_connection_free (w : WorkerProcess) (hc : H2Connection) : WorkerProcess :=
  fst (free_streams w hc (streams hc)).

(** The callbacks that one call into nghttp2 makes. *)
Inductive H2Event :=
| EvBeginHeaders (calloc_ok : bool) (frame : Frame) (now : Z)
| EvHeader (strndup_ok : bool) (frame : Frame) (name value : chars)
| EvFrameRecv (e : RequestEnv) (frame : Frame)
| EvDataChunk (id len : Z)
| EvStreamClose (id now : Z).

Definition h2_callback (w : WorkerProcess) (hc : H2Connection) (ev : H2Event)
    : WorkerProcess * H2Connection :=
  match ev with
  | EvBeginHeaders ok frame now => fst (h2_on_begin_headers_callback ok w hc frame now)
  | EvHeader ok frame name value => fst (h2_on_header_callback ok w hc frame name value)
  | EvFrameRecv e frame => fst (h2_on_frame_recv_callback e w hc frame)
  | EvDataChunk id len => (w, h2_on_data_chunk_recv_callback hc id len)
  | EvStreamClose id now => h2_on_stream_close_callback w hc id now
  end.

Definition run_callbacks (w : WorkerProcess) (hc : H2Connection) (evs : list H2Event)
    : WorkerProcess * H2Connection :=
  foldl (fun '(w, hc) ev => h2_callback w hc ev) (w, hc) evs.

(** [add_ok] is what [evbuffer_add] answers. *)
Definition h2_send_callback (add_ok : bool) (c : Connection) (data : chars) : Connection * Z :=
  if negb add_ok then (c, NGHTTP2_ERR_CALLBACK_FAILURE)
  else (c <| output ::= fun o => o ++ data |>, zlen data).

Definition h2_write_all (c : Connection) (writes : list (bool * chars)) : Connection :=
  foldl (fun c '(add_ok, data) => fst (h2_send_callback add_ok c data)) c writes.

Lemma h2_write_all_output writes : forall c, exists o, h2_write_all c writes = c <| output := o |>.
Proof.
  induction writes as [|[[] data] writes IH]; intros c.
  - exists (output c). by destruct c.
  - destruct (IH (c <| output ::= fun o => o ++ data |>)) as [o E]. exists o. exact E.
  - apply IH.
Qed.

(** What [nghttp2_session_send] does: the callbacks it makes (streams that
    close), the calls of [h2_send_callback], its success. *)
Record SessionSend := mkSessionSend {
  ss_events : list H2Event; ss_writes : list (bool * chars); ss_ok : bool }.

Definition h2_send_pending (ss : SessionSend) (w : WorkerProcess) (c : Connection)
    : WorkerProcess * Connection * Z :=
  match h2 c with
  | None => (w, c, -1)
  | Some hc =>
      let '(w, hc) := run_callbacks w hc (ss_events ss) in
      let c := h2_write_all (c <| h2 := Some hc |>) (ss_writes ss) in
      (w, c, if ss_ok ss then 0 else -1)
  end.

(** What [nghttp2_session_mem_recv] does with the input. *)
Record SessionRecv := mkSessionRecv { sr_events : list H2Event; sr_ok : bool }.

Definition h2_process_input (sr : SessionRecv) (ss : SessionSend) (w : WorkerProcess) (c : Connection)
    : WorkerProcess * Connection * Z :=
  match h2 c with
  | None => (w, c, -1)
  | Some hc =>
      let '(w, hc) := run_callbacks w hc (sr_events sr) in
      let c := c <| h2 := Some hc |> in
      if negb (sr_ok sr) then (w, c, -1) else h2_send_pending ss w c
  end.
