(* ===== verification/StaticFiles.v ===== *)
(** * Static pages ([src/static_files.c])

    A page is read into memory by a loop over [read], whose successive
    outcomes are an argument. *)
From Stdlib Require Import ZArith QArith Lia Ascii String.
From stdpp Require Import base list numbers strings.
From S2P Require Import Prelude CLib State Http2.

#[local] Open Scope Z_scope.

Definition MAX_FILE_SIZE : Z := 1024 * 1024.

(** One call of [read]: the bytes it returned (none at end of file),
    [EINTR], or another error. *)
Inductive ReadResult := ReadBytes (data : chars) | ReadEINTR | ReadFail.

(** What the calls on one path find. *)
Record PageFile := mkPageFile {
  st_size : option Z;
  malloc_ok : bool;
  open_ok : bool;
  reads : list ReadResult
}.

(** [while (total < st.st_size)]: the contents read so far, or an error.
    An outcome per iteration bounds the loop; a file that never answers
    has no further outcome. *)
Fixpoint read_loop (size : Z) (acc : chars) (rs : list ReadResult) : option chars :=
  if zlen acc <? size then
    match rs with
    | [] => Some acc
    | ReadEINTR :: rs => read_loop size acc rs
    | ReadFail :: _ => None
    | ReadBytes data :: rs =>
        let data := take (Z.to_nat (size - zlen acc)) data in
        if zlen data =? 0 then Some acc else read_loop size (acc ++ data) rs
    end
  else Some acc.

Definition load_file (p : PageFile) (ctype : chars) : option StaticFile :=
  match st_size p with
  | None => None
  | Some size =>
      if size >? MAX_FILE_SIZE then None else
      if negb (malloc_ok p) then None else
      if negb (open_ok p) then None else
      match read_loop size [] (reads p) with
      | None => None
      | Some text => Some {| content := text; length_ := zlen text; content_type := ctype |}
      end
  end.

Definition free_file (f : StaticFile) : StaticFile := f <| content := [] |> <| length_ := 0 |>.

(** The directory as the pages found in it. *)
Definition page_path (dir : chars) (name : string) : chars := snprintf 512 (dir ++ str "/" ++ str name).

Definition static_files_load (disk : chars -> PageFile) (dir : chars) : option StaticFiles :=
  let load name := load_file (disk (page_path dir name)) HTML_TYPE in
  i ← load "index.html"%string; b ← load "broadcast.html"%string; r ← load "result.html"%string;
  e ← load "error.html"%string; d ← load "docs.html"%string; s ← load "status.html"%string;
  l ← load "logos.html"%string;
  Some {| index := i; broadcast := b; result := r; error := e; docs := d; status := s; logos := l |}.

Definition static_files_free (f : StaticFiles) : StaticFiles :=
  {| index := free_file (index f); broadcast := free_file (broadcast f);
     result := free_file (result f); error := free_file (error f); docs := free_file (docs f);
     status := free_file (status f); logos := free_file (logos f) |}.

(** ** Lemmas *)

(** A page is whole when its recorded length is that of its contents. *)
Definition page_wf (f : StaticFile) : Prop :=
  length_ f = zlen (content f) /\ zlen (content f) <= MAX_FILE_SIZE /\ content_type f = HTML_TYPE.

Definition pages_wf (f : StaticFiles) : Prop :=
  Forall page_wf [index f; broadcast f; result f; error f; docs f; status f; logos f].

Lemma read_loop_bound size rs : forall acc text,
  zlen acc <= Z.max 0 size -> read_loop size acc rs = Some text -> zlen text <= Z.max 0 size.
Proof.
  induction rs as [|r rs IH]; intros acc text Ha; simpl.
  - destruct (_ <? _); by intros [= <-].
  - destruct (_ <? _) eqn:El; [|by intros [= <-]]. b2p. destruct r as [data| |]; [|by apply IH|done].
    destruct (_ =? 0); [by intros [= <-]|]. apply IH. rewrite zlen_app. unfold zlen in *.
    rewrite length_take. lia.
Qed.

Lemma load_file_wf p f : load_file p HTML_TYPE = Some f -> page_wf f.
Proof.
  unfold load_file. destruct (st_size p) as [size|]; [|done].
  destruct (size >? MAX_FILE_SIZE) eqn:Em; [done|]. b2p.
  destruct (negb _); [done|]. destruct (negb _); [done|].
  destruct (read_loop size [] (reads p)) as [text|] eqn:Er; [|done]. intros [= <-].
  split; [done|]. split; [|done]. simpl.
  apply read_loop_bound in Er; [|rewrite zlen_nil; lia]. unfold MAX_FILE_SIZE in *. lia.
Qed.

Lemma static_files_load_wf disk dir f : static_files_load disk dir = Some f -> pages_wf f.
Proof.
  unfold static_files_load. intros H.
  repeat match type of H with
  | context [load_file ?p HTML_TYPE] =>
      let E := fresh "E" in destruct (load_file p HTML_TYPE) eqn:E; simpl in H; [|discriminate H];
      apply load_file_wf in E
  end.
  injection H as <-. unfold pages_wf. simpl. rewrite !Forall_cons, Forall_nil. by split_and!.
Qed.

(** Reading a file piece by piece, with interruptions, yields the file. *)
Inductive chunks : chars -> list ReadResult -> Prop :=
  | chunks_done : chunks [] []
  | chunks_eintr text rs : chunks text rs -> chunks text (ReadEINTR :: rs)
  | chunks_data piece text rs :
      piece <> [] -> chunks text rs -> chunks (piece ++ text) (ReadBytes piece :: rs).

Lemma read_loop_chunks text rs : chunks text rs -> forall acc,
  read_loop (zlen (acc ++ text)) acc rs = Some (acc ++ text).
Proof.
  induction 1 as [|text rs Hc IH|piece text rs Hp Hc IH]; intros acc; cbn [read_loop].
  - rewrite app_nil_r, Z.ltb_irrefl. done.
  - destruct (_ <? _) eqn:El; [apply IH|]. b2p. rewrite zlen_app in El.
    destruct text; [by rewrite app_nil_r|]. rewrite zlen_cons in El. unfold zlen in El. lia.
  - assert (zlen acc <? zlen (acc ++ piece ++ text) = true) as ->.
    { apply Z.ltb_lt. rewrite !zlen_app. destruct piece; [done|]. rewrite zlen_cons. unfold zlen. lia. }
    assert (take (Z.to_nat (zlen (acc ++ piece ++ text) - zlen acc)) piece = piece) as ->.
    { apply take_ge. rewrite !zlen_app. unfold zlen. lia. }
    destruct (zlen piece =? 0) eqn:E0; [b2p; destruct piece; [done|unfold zlen in E0; simpl in E0; lia]|].
    specialize (IH (acc ++ piece)). rewrite <- app_assoc in IH. exact IH.
Qed.

(** ** What loading promises *)

(** A page is served whole: however [read] splits the file and however often it is
    interrupted, a regular file of at most 1 MB is loaded with exactly its contents and
    its length. *)
Theorem load_file_complete (text : chars) (rs : list ReadResult) (ctype : chars) :
  chunks text rs -> zlen text <= MAX_FILE_SIZE ->
  load_file {| st_size := Some (zlen text); malloc_ok := true; open_ok := true; reads := rs |} ctype
  = Some {| content := text; length_ := zlen text; content_type := ctype |}.
Proof.
  intros Hc Hl. unfold load_file. cbn [st_size malloc_ok open_ok reads negb].
  replace (zlen text >? MAX_FILE_SIZE) with false by (symmetry; rewrite Z.gtb_ltb; apply Z.ltb_ge; lia).
  pose proof (read_loop_chunks text rs Hc []) as Hr. simpl in Hr. by rewrite Hr.
Qed.

Lemma load_file_complete_witness :
  load_file {| st_size := Some 7; malloc_ok := true; open_ok := true;
               reads := [ReadBytes (str "<ht"); ReadEINTR; ReadBytes (str "ml/>")] |} (str "t")
  = Some {| content := str "<html/>"; length_ := 7; content_type := str "t" |}.
Proof.
  apply (load_file_complete (str "<html/>")
    [ReadBytes (str "<ht"); ReadEINTR; ReadBytes (str "ml/>")] (str "t")); [|vm_compute; discriminate].
  apply (chunks_data (str "<ht") (str "ml/>")); [done|]. apply chunks_eintr.
  apply (chunks_data (str "ml/>") []); [done|]. constructor.
Defined.
