(* ===== verification/Connection.v ===== *)
(** * HTTP/1.1 connections ([src/connection.c])

    Each handler takes the worker and the connection and returns them;
    [None] for the connection means that [connection_free] was called on
    it.  The conditions the code reads from libevent, OpenSSL, the clock
    and the allocator are arguments. *)
From Stdlib Require Import ZArith QArith Lia Ascii String.
From stdpp Require Import base list numbers strings.
From S2P Require Import Prelude CLib Router Network Config Slots IpAcl RateLimiter Rpc Tls State Endpoints Metrics Http2.

#[local] Open Scope Z_scope.

Definition READ_TIMEOUT_SEC : Z := 30.
Definition THROUGHPUT_CHECK_INTERVAL_SEC : Z := 5.
Definition MIN_BYTES_PER_CHECK : Z := 100.
Definition MAX_REQUEST_TIME_SEC : Z := 120.
Definition NSEC : Z := 1000000000.

(** ** Handlers that may end early *)

(** A step of a handler goes on, or returns with the connection alive or
    freed. *)
Inductive outcome :=
| Continue (w : WorkerProcess) (c : Connection)
| Return (w : WorkerProcess) (c : option Connection).

Definition and_then (o : outcome) (k : WorkerProcess -> Connection -> outcome) : outcome :=
  match o with Continue w c => k w c | Return w c => Return w c end.

Definition finish (o : outcome) : WorkerProcess * option Connection :=
  match o with Continue w c => (w, Some c) | Return w c => (w, c) end.

Notation "'let*' w c ':=' o 'in' k" := (and_then o (fun w c => k))
  (at level 200, w name, c name, o at level 100, k at level 200) : relay_scope.

#[local] Open Scope relay_scope.

(** ** Slots *)

Definition try_promote_tier (w : WorkerProcess) (c : Connection) (new_size : Z)
    : WorkerProcess * Connection * Z :=
  let required_tier := size_to_tier new_size (config w) in
  if tier_index (current_tier c) >=? tier_index required_tier then (w, c, 0) else
  let '(sm, ok) := slot_manager_promote (slots w) (current_tier c) required_tier in
  let w := w <| slots := sm |> in
  if negb ok then (w, c, -1) else (w, c <| current_tier := required_tier |>, 0).

Definition downgrade_tier_to_normal (w : WorkerProcess) (c : Connection) : WorkerProcess * Connection :=
  if negb (slot_held c) || bool_decide (current_tier c = TIER_NORMAL) then (w, c) else
  let sm := slot_manager_release (slots w) (current_tier c) in
  let '(sm, got) := slot_manager_acquire sm TIER_NORMAL in
  if got then (w <| slots := sm |>, c <| current_tier := TIER_NORMAL |>) else
  let '(sm, back) := slot_manager_acquire sm (current_tier c) in
  if negb back then (w <| slots := sm |>, c <| slot_held := false |>)
  else (w <| slots := sm |>, c).

(** ** Creation and destruction *)

(** A client's address: [inet_ntop] and the port, or another family. *)
Inductive SockAddr := SockInet (ip : chars) (port : Z) | SockOther.

Definition no_flags : PathFlags := {| path_validated := false; validation_failed := false |}.

(** The structure as [calloc] and [connection_init_common] leave it, at the
    head of the worker's list. *)
Definition connection_init_common (w : WorkerProcess) (id : positive) (addr : SockAddr) (now : Z)
    : WorkerProcess * Connection :=
  let conn := {|
    conn_id := id; input := []; output := [];
    state := CONN_STATE_READING_HEADERS; protocol := PROTO_HTTP_1_1; current_tier := TIER_NORMAL;
    client_ip := match addr with SockInet ip _ => ip | SockOther => str "unknown" end;
    client_port := match addr with SockInet _ p => p | SockOther => 0 end;
    headers_scanned := 0; headers_end := 0; content_length := 0; body_received := 0;
    method := []; path := None; path_len := 0; flags := no_flags;
    keep_alive := true; slot_held := true; requests_on_connection := 0;
    ssl := false; tls_handshake_done := false; h2 := None;
    start_time := now; last_progress_time := now; bytes_at_last_check := 0;
    request_id := format_request_id (worker_id w) now (request_counter w) [];
    response_status := 0; response_bytes := 0 |} in
  let w := w <| request_counter ::= fun n => u32 (n + 1) |> in
  (w <| connections ::= cons conn |>, conn).

Definition connection_new (calloc_ok bev_ok : bool) (w : WorkerProcess) (id : positive)
    (addr : SockAddr) (now : Z) : WorkerProcess * option Connection :=
  if negb calloc_ok then (w, None) else
  if negb bev_ok then (w, None) else
  let '(w, conn) := connection_init_common w id addr now in (w, Some conn).

Definition connection_new_with_bev (calloc_ok : bool) (w : WorkerProcess) (id : positive)
    (addr : SockAddr) (now : Z) : WorkerProcess * option Connection :=
  if negb calloc_ok then (w, None) else
  let '(w, conn) := connection_init_common w id addr now in (w, Some conn).

Definition connection_free (w : WorkerProcess) (c : Connection) : WorkerProcess :=
  let w := w <| connections ::= unlink (conn_id c) |> in
  let w := match h2 c with Some hc => h2_connection_free w hc | None => w end in
  let w := if slot_held c
           then w <| slots ::= fun sm => slot_manager_release sm (current_tier c) |> else w in
  let w := w <| active_connections ::= Z.pred |> in
  let w := bump requests_processed w in
  worker_check_drain w.

(** ** Parsing *)

(** The loop [for (i = 0; i + n < len; i++)] that looks for a header name:
    the position after it. *)
Fixpoint find_header (name : chars) (l : chars) : option nat :=
  match l with
  | [] => None
  | c :: r =>
      if Z.of_nat (length name) <? zlen l then
        if (eqc c "C"%char || eqc c "c"%char) && strncasecmp_eq l name (length name)
        then Some (length name) else S <$> find_header name r
      else None
  end.

(** Skip blanks, within the header block. *)
Definition skip_blanks (l : chars) : chars := drop_while (fun c => eqc c SP || eqc c TAB) l.

(** [mem] is what follows the header block in memory: [strtoul] stops only
    at a character that is not part of a number. *)
Definition parse_content_length (headers mem : chars) : Z :=
  match find_header (str "Content-Length:") headers with
  | None => 0
  | Some i =>
      let found := skip_blanks (drop i headers) in
      match found with
      | [] => 0
      | c :: _ =>
          if eqc c "-"%char || eqc c "+"%char then 0 else
          let r := strtoul (found ++ mem) in
          if st_erange r || negb (st_conv r) then 0 else st_val r
      end
  end.

Definition parse_keep_alive (headers : chars) (current : bool) : bool :=
  match find_header (str "Connection:") headers with
  | None => current
  | Some i =>
      let found := skip_blanks (drop i headers) in
      if (5 <=? zlen found) && strncasecmp_eq found (str "close") 5 then false
      else if (10 <=? zlen found) && strncasecmp_eq found (str "keep-alive") 10 then true
      else current
  end.

Definition parse_request_headers (malloc_ok : bool) (mem : chars) (c : Connection) (headers : chars)
    : Connection * Z :=
  match memmem headers CRLF with
  | None => (c, -1)
  | Some e =>
      let line := take e headers in
      match memchr SP line with
      | None => (c, -1)
      | Some sp1 =>
          if Z.of_nat sp1 >=? 16 then (c, -1) else
          let c := c <| method := take sp1 line |> in
          let rest := drop (S sp1) line in
          let p := match memchr SP rest with None => rest | Some sp2 => take sp2 rest end in
          if negb malloc_ok then (c <| path := None |>, -1) else
          let c := c <| path := Some p |> <| path_len := zlen p |> in
          let c := c <| content_length := parse_content_length headers mem |> in
          (c <| keep_alive ::= parse_keep_alive headers |>, 0)
      end
  end.

(** ** Responses *)

Definition conn_header (c : Connection) : chars :=
  if keep_alive c then str "keep-alive" else str "close".

Definition line (parts : list chars) : chars := concat parts ++ CRLF.

(** The state a response leaves the connection in. *)
Definition respond (c : Connection) (text : chars) (st bytes : Z) (next : ConnState) : Connection :=
  c <| output ::= fun o => o ++ text |> <| response_status := st |> <| response_bytes := bytes |>
    <| state := next |>.

Definition after_response (c : Connection) : ConnState :=
  if keep_alive c then CONN_STATE_WRITING_RESPONSE else CONN_STATE_CLOSING.

Definition serve_static_file (w : WorkerProcess) (c : Connection) (file : StaticFile) (st : Z)
    (status_text : chars) : Connection :=
  let max_age := cache_max_age (config w) in
  let text :=
    line [str "HTTP/1.1 "; print_dec st; str " "; status_text] ++
    line [str "Content-Type: "; content_type file] ++
    line [str "Content-Length: "; print_dec (length_ file)] ++
    (if max_age >? 0 then line [str "Cache-Control: public, max-age="; print_dec max_age]
     else line [str "Cache-Control: no-store"]) ++
    line [str "Connection: "; conn_header c] ++
    line [str "X-Request-ID: "; request_id c] ++
    CRLF ++ take (Z.to_nat (length_ file)) (content file) in
  respond c text st (length_ file) (after_response c).

(** The four small endpoints share their header block. *)
Definition small_response (c : Connection) (st : Z) (status_text ctype conn : chars) (len : Z)
    (body : chars) : chars :=
  line [str "HTTP/1.1 "; print_dec st; str " "; status_text] ++
  line [str "Content-Type: "; ctype] ++
  line [str "Content-Length: "; print_dec len] ++
  line [str "Cache-Control: no-store"] ++
  line [str "X-Request-ID: "; request_id c] ++
  line [str "Connection: "; conn] ++
  CRLF ++ body.

Definition serve_health (e : RequestEnv) (w : WorkerProcess) (c : Connection) : Connection :=
  let '(body, body_len) := generate_health_body w (health_env e) 1024 in
  respond c (small_response c 200 (str "OK") (str "application/json") (conn_header c) body_len body)
    200 body_len (after_response c).

Definition serve_ready (w : WorkerProcess) (c : Connection) : Connection :=
  let st := if draining w then 503 else 200 in
  let status_text := if draining w then str "Service Unavailable" else str "OK" in
  respond c (small_response c st status_text (str "text/plain") (conn_header c) 0 [])
    st 0 (after_response c).

Definition serve_version (c : Connection) : Connection :=
  let body_len := zlen version_body in
  respond c (small_response c 200 (str "OK") (str "application/json") (conn_header c) body_len
               version_body)
    200 body_len (after_response c).

Definition serve_alive (c : Connection) : Connection :=
  respond c (small_response c 200 (str "OK") (str "text/plain") (conn_header c) 0 [])
    200 0 (after_response c).

Definition serve_metrics (e : RequestEnv) (w : WorkerProcess) (c : Connection) : Connection :=
  let '(body, body_len) := generate_metrics_body w (health_env e) 16384 in
  respond c (small_response c 200 (str "OK") (str "text/plain; version=0.0.4; charset=utf-8")
               (str "close") body_len body)
    200 body_len CONN_STATE_CLOSING.

(** The checks of [serve_acme_challenge] on the path. *)
Definition acme_token (p : chars) (plen : Z) : option chars :=
  if (plen <? ACME_PREFIX_LEN + 2) || negb (eqc (deref p) "/"%char) then None else
  let token := drop 28 p in
  let token_len := plen - 1 - ACME_PREFIX_LEN in
  if bool_decide (is_Some (strstr token (str ".."))) ||
     bool_decide (is_Some (strchr token "/"%char)) || bool_decide (is_Some (strchr token BSL))
  then None else
  let bytes := take (Z.to_nat token_len) token in
  if forallb token_char bytes then Some bytes else None.

Definition serve_acme_challenge (e : RequestEnv) (w : WorkerProcess) (c : Connection) : Connection :=
  let found := match acme_token (default [] (path c)) (path_len c) with
               | None => None
               | Some token => acme_read (fs e) (acme_challenge_dir (config w)) token
               end in
  match found with
  | Some data =>
      respond c (small_response c 200 (str "OK") (str "text/plain") (conn_header c) (zlen data) data)
        200 (zlen data) (after_response c)
  | None =>
      respond c (small_response c 404 (str "Not Found") (str "text/plain") (str "close") 9
                   not_found_body)
        404 9 CONN_STATE_CLOSING
  end.

Definition connection_send_response (c : Connection) (st : Z) (status_text body : chars)
    : Connection :=
  let body_len := strlen body in
  let text :=
    line [str "HTTP/1.1 "; print_dec st; str " "; status_text] ++
    line [str "Content-Type: text/plain"] ++
    line [str "Content-Length: "; print_dec body_len] ++
    line [str "Connection: "; conn_header c] ++
    line [str "X-Request-ID: "; request_id c] ++
    CRLF ++ (if body_len >? 0 then c_string body else []) in
  respond c text st body_len (after_response c).

Definition connection_send_error (c : Connection) (st : Z) (status_text : chars) : Connection :=
  let c := c <| keep_alive := false |> in
  let body := snprintf 256 (str "Error " ++ print_dec st ++ str ": " ++ status_text ++ [LF]) in
  connection_send_response c st status_text body.

Definition process_request (e : RequestEnv) (w : WorkerProcess) (c : Connection)
    : WorkerProcess * Connection :=
  let c := c <| state := CONN_STATE_PROCESSING |> in
  let route := route_request (default [] (path c)) in
  let w := update_endpoint_counter w route in
  match route with
  | ROUTE_HEALTH => (w, serve_health e w c)
  | ROUTE_READY => (w, serve_ready w c)
  | ROUTE_VERSION => (w, serve_version c)
  | ROUTE_ALIVE => (w, serve_alive c)
  | ROUTE_METRICS => (w, serve_metrics e w c)
  | ROUTE_ACME_CHALLENGE => (w, serve_acme_challenge e w c)
  | ROUTE_ERROR => (w, serve_static_file w c (error (static_files w)) 404 (str "Not Found"))
  | _ => (w, serve_static_file w c (static_page (static_files w) route) 200 (str "OK"))
  end.

(** ** Reading *)

Inductive TlsVersion := TLS1_2_VERSION | TLS1_3_VERSION | TLS_OTHER.

(** What [conn_read_cb] reads from outside; [alpn_offer] is the protocol
    list of the client's hello, if it has one. *)
Record ReadEnv := mkReadEnv {
  now : Z;
  ssl_init_finished : bool;
  ssl_version : TlsVersion;
  alpn_offer : option chars;
  h2_init : H2InitEnv;
  h2_preface : SessionSend;
  pullup_ok : bool;
  h2_recv : SessionRecv;
  h2_send : SessionSend;
  path_malloc_ok : bool;
  mem_after : chars;
  request_env : RequestEnv
}.

(** What [SSL_get0_alpn_selected] gives after a hand-shake: OpenSSL runs the
    selection callback of the context when the client sent the extension. *)
Definition alpn_selected (tls : TLSContext) (offer : option chars) : option chars :=
  match offer with
  | Some input => tls_alpn_select_cb tls input
  | None => None
  end.

(** The hand-shake has just completed: count it and start HTTP/2 if ALPN
    selected it. *)
Definition read_tls (e : ReadEnv) (w : WorkerProcess) (c : Connection) : outcome :=
  if ssl c && negb (tls_handshake_done c) && ssl_init_finished e then
    let c := c <| tls_handshake_done := true |> in
    let w := bump tls_handshakes_total w in
    let w := match ssl_version e with
             | TLS1_3_VERSION => bump tls_protocol_tls13 w
             | TLS1_2_VERSION => bump tls_protocol_tls12 w
             | TLS_OTHER => w
             end in
    if tls_is_http2 (alpn_selected (tls w) (alpn_offer e)) then
      let '(c, rc) := h2_connection_init (h2_init e) c in
      if rc <? 0 then Return (connection_free w c) None else
      let '(w, c, rc) := h2_send_pending (h2_preface e) w c in
      if rc <? 0 then Return (connection_free w c) None else Continue w c
    else Continue w c
  else Continue w c.

Definition read_slowloris (e : ReadEnv) (available : Z) (w : WorkerProcess) (c : Connection) : outcome :=
  let total_elapsed := now e - start_time c in
  if total_elapsed >? MAX_REQUEST_TIME_SEC * NSEC
  then Return (connection_free (bump slowloris_kills w) c) None else
  let check_elapsed := now e - last_progress_time c in
  if check_elapsed >=? THROUGHPUT_CHECK_INTERVAL_SEC * NSEC then
    let bytes_this_period := u64 (available - bytes_at_last_check c) in
    if (available <? bytes_at_last_check c) || (bytes_this_period <? MIN_BYTES_PER_CHECK)
    then Return (connection_free (bump slowloris_kills w) c) None
    else Continue w (c <| last_progress_time := now e |> <| bytes_at_last_check := available |>)
  else Continue w c.

Definition read_h2 (e : ReadEnv) (w : WorkerProcess) (c : Connection) : outcome :=
  match protocol c, h2 c with
  | PROTO_HTTP_2, Some _ =>
      if (zlen (input c) >? 0) && pullup_ok e then
        let '(w, c, rc) := h2_process_input (h2_recv e) (h2_send e) w c in
        if rc <? 0 then Return (connection_free w c) None
        else Return w (Some (c <| input := [] |>))
      else Return w (Some c)
  | _, _ => Continue w c
  end.

(** The header block is complete: [headers] ends at its blank line. *)
Definition headers_complete (e : ReadEnv) (w : WorkerProcess) (c : Connection) (headers_len : nat)
    : WorkerProcess * Connection :=
  let c := c <| headers_end := Z.of_nat headers_len |> in
  let headers := take headers_len (input c) in
  if negb (pullup_ok e) then (w, connection_send_error c 500 (str "Internal Server Error")) else
  let '(fl, rc) := validate_path_early (flags c) headers in
  let c := c <| flags := fl |> in
  if rc <? 0 then
    (bump errors_parse w, connection_send_error c 400 (str "Bad Request - Invalid Characters")) else
  let '(c, rc) := parse_request_headers (path_malloc_ok e) (mem_after e) c headers in
  if rc <? 0 then (bump errors_parse w, connection_send_error c 400 (str "Bad Request")) else
  if content_length c >? max_buffer_size (config w)
  then (w, connection_send_error c 413 (str "Payload Too Large")) else
  let remaining := drop headers_len (input c) in
  let c := c <| input := [] |> <| body_received := zlen remaining |> in
  if (content_length c >? 0) && (body_received c <? content_length c)
  then (w, c <| state := CONN_STATE_READING_BODY |>)
  else
    let '(w, c) := downgrade_tier_to_normal w c in
    process_request (request_env e) w c.

Definition HEADER_END : chars := [CR; LF; CR; LF].

(** [evbuffer_search] from an offset. *)
Definition search_from (l : chars) (start : nat) : option nat :=
  (fun i => (start + i)%nat) <$> memmem (drop start l) HEADER_END.

Definition read_headers (e : ReadEnv) (available : Z) (w : WorkerProcess) (c : Connection)
    : WorkerProcess * Connection :=
  if available >? max_buffer_size (config w)
  then (w, connection_send_error c 413 (str "Request Entity Too Large")) else
  let '(w, c, rc) := try_promote_tier w c available in
  if rc <? 0 then
    (bump slot_promotion_failures w, connection_send_error c 503 (str "Service Unavailable")) else
  match search_from (input c) (Z.to_nat (headers_scanned c)) with
  | None =>
      let c := c <| headers_scanned := if available >? 3 then available - 3 else 0 |> in
      if (available >? 0) && pullup_ok e then
        let '(fl, rc) := validate_path_early (flags c) (input c) in
        let c := c <| flags := fl |> in
        if rc <? 0 then
          (bump errors_parse w,
           connection_send_error c 400 (str "Bad Request - Invalid Characters"))
        else (w, c)
      else (w, c)
  | Some pos => headers_complete e w c (pos + 4)
  end.

Definition read_body (e : ReadEnv) (available : Z) (w : WorkerProcess) (c : Connection)
    : WorkerProcess * Connection :=
  let remaining := u64 (content_length c - body_received c) in
  let to_drain := if available <? remaining then available else remaining in
  let c := c <| input ::= drop (Z.to_nat to_drain) |>
             <| body_received ::= fun n => u64 (n + to_drain) |> in
  if body_received c >=? content_length c then
    let '(w, c) := downgrade_tier_to_normal w c in
    process_request (request_env e) w c
  else (w, c).

Definition conn_read_cb (e : ReadEnv) (w : WorkerProcess) (c : Connection)
    : WorkerProcess * option Connection :=
  let available := zlen (input c) in
  finish (
    let* w c := read_tls e w c in
    let* w c := read_slowloris e available w c in
    let* w c := read_h2 e w c in
    match state c with
    | CONN_STATE_READING_HEADERS =>
        let '(w, c) := read_headers e available w c in Return w (Some c)
    | CONN_STATE_READING_BODY =>
        let '(w, c) := read_body e available w c in Return w (Some c)
    | _ => Return w (Some c)
    end).

(** ** Writing and events *)

(** The parsing state is cleared, ... *)
Definition clear_request (c : Connection) : Connection :=
  c <| path := None |> <| path_len := 0 |> <| headers_scanned := 0 |>
    <| headers_end := 0 |> <| content_length := 0 |> <| body_received := 0 |>
    <| method := [] |> <| flags := no_flags |>.

(** ... a large or huge slot is exchanged for a normal one ([false] if
    there is none), ... *)
Definition keepalive_slot (w : WorkerProcess) (c : Connection) : WorkerProcess * Connection * bool :=
  if slot_held c && negb (bool_decide (current_tier c = TIER_NORMAL)) then
    let sm := slot_manager_release (slots w) (current_tier c) in
    let c := c <| current_tier := TIER_NORMAL |> in
    let '(sm, got) := slot_manager_acquire sm TIER_NORMAL in
    if negb got then (w <| slots := sm |>, c <| keep_alive := false |> <| slot_held := false |>, false)
    else (w <| slots := sm |>, c, true)
  else (w, c, true).

(** ... and the connection waits for the next request. *)
Definition connection_reset_for_keepalive (w : WorkerProcess) (c : Connection) (t : Z)
    : WorkerProcess * Connection :=
  let '(w, c, ok) := keepalive_slot w (clear_request c) in
  if negb ok then (w, c) else
  let c := c <| response_status := 0 |> <| response_bytes := 0 |>
             <| start_time := t |> <| last_progress_time := t |> <| bytes_at_last_check := 0 |>
             <| request_id := format_request_id (worker_id w) t (keepalive_counter w) [] |> in
  let w := w <| keepalive_counter ::= fun n => u32 (n + 1) |> in
  (w, c <| state := CONN_STATE_READING_HEADERS |> <| requests_on_connection ::= Z.succ |>).

(** The counters; the line of the access log is in [AccessLog]. *)
Definition log_request_complete (w : WorkerProcess) (c : Connection) (t : Z) : WorkerProcess :=
  if response_status c =? 0 then w else
  let duration_sec := (inject_Z (t - start_time c) / inject_Z NSEC)%Q in
  let w := update_latency_histogram w duration_sec in
  let w := update_status_counters w (response_status c) in
  let w := update_method_counters w (Some (method c)) in
  let w := add_stat response_bytes_total (response_bytes c) w in
  bump_if (requests_on_connection c >? 0) keepalive_reuses w.

Definition conn_write_cb (t : Z) (w : WorkerProcess) (c : Connection)
    : WorkerProcess * option Connection :=
  if zlen (output c) >? 0 then (w, Some c) else
  let w := log_request_complete w c t in
  match state c with
  | CONN_STATE_CLOSING => (connection_free w c, None)
  | CONN_STATE_WRITING_RESPONSE =>
      if keep_alive c then
        let '(w, c) := connection_reset_for_keepalive w c t in
        if negb (slot_held c) then (connection_free w c, None) else (w, Some c)
      else (w, Some c)
  | _ => (w, Some c)
  end.

(** The bits of [events], and how many entries OpenSSL's error queue has. *)
Record BevEvent := mkBevEvent {
  BEV_EVENT_CONNECTED : bool; BEV_EVENT_TIMEOUT : bool; BEV_EVENT_ERROR : bool; ssl_errors : nat
}.

Definition conn_event_cb (ev : BevEvent) (w : WorkerProcess) (c : Connection)
    : WorkerProcess * option Connection :=
  if BEV_EVENT_CONNECTED ev then (w, Some c) else
  let w :=
    if BEV_EVENT_TIMEOUT ev then bump errors_timeout w
    else if BEV_EVENT_ERROR ev then
      if ssl c && negb (Nat.eqb (ssl_errors ev) 0)
      then bump errors_tls (bump tls_handshake_errors w) else w
    else w in
  (connection_free w c, None).
