(* ===== verification/Balance.v ===== *)
(** * Slots, streams and connections in balance

    What every handler of [src/connection.c] and [src/http2.c] preserves:
    the slots it takes and gives back are exactly the ones that its
    connection (and the connection's streams) record as held, the gauge of
    active streams moves with the streams, and the rest of the worker is
    left alone.  Handlers that free their connection return everything it
    held. *)
From Stdlib Require Import ZArith QArith Lia Ascii String.
From stdpp Require Import base list numbers strings.
From S2P Require Import Prelude CLib Router Network Config Slots IpAcl RateLimiter Rpc Tls State Endpoints Metrics Http2 Connection.

#[local] Open Scope Z_scope.

(** ** What is held *)

Definition stream_held (s : H2Stream) : list RequestTier :=
  if slot_acquired s then [tier s] else [].

Definition h2_held (hc : H2Connection) : list RequestTier := flat_map stream_held (streams hc).

Definition own_held (c : Connection) : list RequestTier :=
  if slot_held c then [current_tier c] else [].

Definition streams_of (c : Connection) : list H2Stream :=
  match h2 c with Some hc => streams hc | None => [] end.

Definition conn_held (c : Connection) : list RequestTier :=
  own_held c ++ flat_map stream_held (streams_of c).

(** ** The parts of a worker that request handling does not touch *)

Definition frame (w : WorkerProcess) :=
  (connections w, active_connections w, config w, draining w, static_files w,
   (listener w, tls_listener w, listener_disabled w, tls_listener_disabled w, loopexit w),
   (ip_acl w, rate_limiter w, worker_id w), (tls w, ssl_heap w, rpc w)).

Definition core (w : WorkerProcess) := (frame w, slots w, h2_streams_active w).

Create Rewrite HintDb core.

Lemma core_add_stat c n w : core (add_stat c n w) = core w.
Proof. done. Qed.
Lemma core_bump c w : core (bump c w) = core w.
Proof. done. Qed.
Lemma core_bump_if b c w : core (bump_if b c w) = core w.
Proof. by destruct b. Qed.
#[export] Hint Rewrite core_add_stat core_bump core_bump_if : core.

Lemma core_latency w d : core (update_latency_histogram w d) = core w.
Proof.
  unfold update_latency_histogram. cbn zeta.
  match goal with |- core (update _ _ ?x) = _ => change (core x = core w) end.
  by autorewrite with core.
Qed.

Lemma core_status w st : core (update_status_counters w st) = core w.
Proof. unfold update_status_counters. by repeat case_match; autorewrite with core. Qed.
Lemma core_method w m : core (update_method_counters w m) = core w.
Proof. unfold update_method_counters. by repeat case_match; autorewrite with core. Qed.
Lemma core_endpoint w r : core (update_endpoint_counter w r) = core w.
Proof. by destruct r. Qed.
#[export] Hint Rewrite core_latency core_status core_method core_endpoint : core.

Lemma core_h2_log w s t : core (h2_log_stream w s t) = core w.
Proof. unfold h2_log_stream. case_match; by autorewrite with core. Qed.
Lemma core_log_complete w c t : core (log_request_complete w c t) = core w.
Proof. unfold log_request_complete. case_match; by autorewrite with core. Qed.
#[export] Hint Rewrite core_h2_log core_log_complete : core.

Lemma core_slots w w' : core w' = core w -> slots w' = slots w.
Proof. unfold core. congruence. Qed.
Lemma core_streams w w' : core w' = core w -> h2_streams_active w' = h2_streams_active w.
Proof. unfold core. congruence. Qed.
Lemma core_frame w w' : core w' = core w -> frame w' = frame w.
Proof. unfold core. congruence. Qed.

(** ** Balanced steps *)

(** What a part of the system holds: slots, a number of streams, and the
    condition that every holder of the part is marked as holding. *)
Record part := Part { p_held : list RequestTier; p_count : Z; p_ok : Prop }.

Definition p_app (a b : part) : part :=
  Part (p_held a ++ p_held b) (p_count a + p_count b) (p_ok a /\ p_ok b).

Definition p_nil : part := Part [] 0 True.

Definition p_equiv (a b : part) : Prop :=
  p_held a ≡ₚ p_held b /\ p_count a = p_count b /\ (p_ok a <-> p_ok b).

(** A step from holding [p] to holding [p'], whatever the others hold. *)
Record balanced (w : WorkerProcess) (p : part) (w' : WorkerProcess) (p' : part) : Prop := {
  bal_step : forall rest k, 0 <= k -> p_ok p -> accounts (slots w) (p_held p ++ rest) ->
    h2_streams_active w = p_count p + k ->
    p_ok p' /\ accounts (slots w') (p_held p' ++ rest) /\ h2_streams_active w' = p_count p' + k;
  bal_frame : frame w' = frame w
}.

Lemma balanced_core w w' p : core w' = core w -> balanced w p w' p.
Proof.
  intros Hc. split; [|by apply core_frame].
  intros rest k _. by rewrite (core_slots _ _ Hc), (core_streams _ _ Hc).
Qed.

Lemma balanced_refl w p : balanced w p w p.
Proof. by apply balanced_core. Qed.

Lemma balanced_trans w1 p1 w2 p2 w3 p3 :
  balanced w1 p1 w2 p2 -> balanced w2 p2 w3 p3 -> balanced w1 p1 w3 p3.
Proof.
  intros [S1 F1] [S2 F2]. split; [|by rewrite F2].
  intros rest k Hk Ho Ha He. destruct (S1 rest k Hk Ho Ha He) as (? & ? & ?). eauto.
Qed.

(** Statistics on top of a step. *)
Lemma balanced_then_core w p w' w'' p' :
  core w'' = core w' -> balanced w p w' p' -> balanced w p w'' p'.
Proof. intros Hc Hb. eapply balanced_trans; [exact Hb|by apply balanced_core]. Qed.

Lemma balanced_after_core w p w' w'' p' :
  core w' = core w -> balanced w' p w'' p' -> balanced w p w'' p'.
Proof. intros Hc Hb. eapply balanced_trans; [by apply balanced_core|exact Hb]. Qed.

#[export] Instance accounts_proper (sm : SlotManager) :
  Proper ((≡ₚ) ==> iff) (accounts sm).
Proof.
  assert (forall t h k, h ≡ₚ k -> tier_count t h = tier_count t k) as Hc.
  { intros t h k Hp. unfold tier_count, zlen. by rewrite Hp. }
  intros h k Hp. split; apply accounts_perm; intros t; [|symmetry]; auto.
Qed.

Lemma balanced_equiv w p w' p' q q' :
  p_equiv q p -> p_equiv q' p' -> balanced w p w' p' -> balanced w q w' q'.
Proof.
  intros (Hh & Hn & Ho) (Hh' & Hn' & Ho') [HS HF]. split; [|done].
  intros rest k. rewrite Hh, Hh', Ho, Ho', Hn, Hn'. apply HS.
Qed.

(** Framing: what one part holds while another steps. *)
Lemma balanced_app w p w' p' q :
  0 <= p_count q -> balanced w p w' p' -> balanced w (p_app p q) w' (p_app p' q).
Proof.
  intros Hm [HS HF]. split; simpl; [|done].
  intros rest k Hk [Ho Hq]. rewrite <- !app_assoc. intros Ha He.
  destruct (HS _ (p_count q + k) ltac:(lia) Ho Ha ltac:(lia)) as (? & ? & ?).
  split_and!; [done..|lia].
Qed.

(** Only the slots change. *)
Lemma balanced_slots w p sm p' :
  p_count p' = p_count p ->
  (forall rest, p_ok p -> accounts (slots w) (p_held p ++ rest) ->
     p_ok p' /\ accounts sm (p_held p' ++ rest)) ->
  balanced w p (w <| slots := sm |>) p'.
Proof.
  intros Hn Hs. split; [|done]. intros rest k Hk Ho Ha He. rewrite Hn.
  destruct (Hs rest Ho Ha). by split_and!.
Qed.

(** ** The parts *)

Definition stream_part (s : H2Stream) : part := Part (stream_held s) 1 (slot_acquired s = true).

Definition streams_part (l : list H2Stream) : part :=
  Part (flat_map stream_held l) (zlen l) (Forall (fun s => slot_acquired s = true) l).

(** A session exists only once the TLS hand-shake is done. *)
Definition tls_ok (c : Connection) : Prop := tls_handshake_done c = false -> h2 c = None.

Definition own_part (c : Connection) : part := Part (own_held c) 0 (slot_held c = true /\ tls_ok c).

Definition conn_part (c : Connection) : part := p_app (own_part c) (streams_part (streams_of c)).

Lemma streams_part_cons s l : p_equiv (streams_part (s :: l)) (p_app (stream_part s) (streams_part l)).
Proof.
  split; [done|]. split; [simpl; rewrite zlen_cons; lia|]. simpl. by rewrite Forall_cons.
Qed.

Lemma streams_part_perm l k : l ≡ₚ k -> p_equiv (streams_part l) (streams_part k).
Proof.
  intros Hp. split; [simpl; by rewrite Hp|]. split; [simpl; unfold zlen; by rewrite Hp|].
  simpl. by rewrite Hp.
Qed.

Lemma p_equiv_trans a b c : p_equiv a b -> p_equiv b c -> p_equiv a c.
Proof. intros (H1 & H2 & H3) (G1 & G2 & G3). split; [by rewrite H1|]. split; [congruence|tauto]. Qed.

Lemma p_equiv_refl a : p_equiv a a.
Proof. by repeat split. Qed.

(** ** Slot operations of the handlers *)

Lemma downgrade_balanced (sm : SlotManager) t rest :
  accounts sm ([t] ++ rest) ->
  let sm1 := slot_manager_release sm t in
  let '(sm2, got) := slot_manager_acquire sm1 TIER_NORMAL in
  if got then accounts sm2 ([TIER_NORMAL] ++ rest) else
  let '(sm3, back) := slot_manager_acquire sm2 t in
  back = true /\ accounts sm3 ([t] ++ rest).
Proof.
  intros Ha. pose proof (downgrade_accounts sm rest t Ha) as (s' & t' & Hd & Ha').
  unfold pool_downgrade in Hd. change (@pool_acquire SlotManager _) with slot_manager_acquire in Hd.
  change (@pool_release SlotManager _) with slot_manager_release in Hd. cbn zeta in *.
  destruct (slot_manager_acquire (slot_manager_release sm t) TIER_NORMAL) as [sm2 [|]].
  - by simplify_eq.
  - destruct (slot_manager_acquire sm2 t) as [sm3 [|]]; by simplify_eq.
Qed.

(** The shape shared by the two downgrade functions. *)
Lemma downgrade_part w t p (mk : RequestTier -> bool -> part) :
  (forall u b, p_count (mk u b) = p_count p) ->
  (forall u, p_held (mk u true) = [u] ++ p_held p) ->
  (forall u, p_ok (mk u true) <-> p_ok p) ->
  let '(sm2, got) := slot_manager_acquire (slot_manager_release (slots w) t) TIER_NORMAL in
  if got then balanced w (mk t true) (w <| slots := sm2 |>) (mk TIER_NORMAL true) else
  let '(sm3, back) := slot_manager_acquire sm2 t in
  balanced w (mk t true) (w <| slots := sm3 |>) (mk t back).
Proof.
  intros Hn Hh Ho. pose proof (downgrade_balanced (slots w) t) as Hd. cbn zeta in Hd.
  destruct (slot_manager_acquire (slot_manager_release (slots w) t) TIER_NORMAL) as [sm2 [|]].
  - apply balanced_slots; [by rewrite !Hn|]. intros rest. rewrite !Hh, !Ho, <- !app_assoc. auto.
  - destruct (slot_manager_acquire sm2 t) as [sm3 back].
    apply balanced_slots; [by rewrite !Hn|]. intros rest. rewrite !Hh, !Ho, <- !app_assoc.
    intros Hok Ha. destruct (Hd _ Ha) as [-> Ha']. by rewrite !Hh, !Ho, <- !app_assoc.
Qed.

Lemma h2_downgrade_balanced w s :
  let '(w', s') := h2_downgrade_tier_to_normal w s in balanced w (stream_part s) w' (stream_part s').
Proof.
  unfold h2_downgrade_tier_to_normal.
  destruct (negb (slot_acquired s) || _) eqn:Eg; [apply balanced_refl|]. b2p.
  pose proof (downgrade_part w (tier s) (Part [] 1 True)
    (fun u b => Part (if b then [u] else []) 1 (b = true))) as Hd.
  simpl in Hd. specialize (Hd ltac:(done) ltac:(done) ltac:(done)).
  destruct (slot_manager_acquire _ TIER_NORMAL) as [sm2 [|]].
  { unfold stream_part, stream_held. simpl. by rewrite H. }
  destruct (slot_manager_acquire sm2 (tier s)) as [sm3 [|]];
    unfold stream_part, stream_held; simpl; by rewrite H.
Qed.

Lemma conn_downgrade_balanced w c :
  let '(w', c') := downgrade_tier_to_normal w c in
  balanced w (conn_part c) w' (conn_part c') /\ streams_of c' = streams_of c /\
  conn_id c' = conn_id c.
Proof.
  unfold downgrade_tier_to_normal.
  destruct (negb (slot_held c) || _) eqn:Eg; [by split; [apply balanced_refl|]|]. b2p.
  pose proof (downgrade_part w (current_tier c) (p_app (Part [] 0 (tls_ok c)) (streams_part (streams_of c)))
    (fun u b => p_app (Part (if b then [u] else []) 0 (b = true /\ tls_ok c)) (streams_part (streams_of c))))
    as Hd.
  specialize (Hd ltac:(intros; simpl; lia) ltac:(done) ltac:(simpl; naive_solver)).
  destruct (slot_manager_acquire _ TIER_NORMAL) as [sm2 [|]].
  { split; [|done]. unfold conn_part, own_part, own_held. simpl in *. by rewrite H. }
  destruct (slot_manager_acquire sm2 (current_tier c)) as [sm3 [|]]; (split; [|done]);
    unfold conn_part, own_part, own_held; simpl in *; by rewrite H.
Qed.

Lemma promote_balanced w t required p :
  balanced w (p_app (Part [t] 0 True) p)
    (w <| slots := fst (slot_manager_promote (slots w) t required) |>)
    (p_app (Part [if snd (slot_manager_promote (slots w) t required) then required else t] 0 True) p).
Proof.
  apply balanced_slots; [done|]. simpl. intros rest Ho Ha. split; [done|].
  pose proof (sm_promote_accounts (slots w) (p_held p ++ rest) t required Ha) as Hp.
  destruct (slot_manager_promote (slots w) t required) as [sm' [|]]; simpl; [done|by subst].
Qed.

(** ** HTTP/2 streams *)

Definition h2_balanced (w : WorkerProcess) (hc : H2Connection) (w' : WorkerProcess)
    (hc' : H2Connection) : Prop :=
  balanced w (streams_part (streams hc)) w' (streams_part (streams hc')).

Lemma h2_balanced_trans w1 c1 w2 c2 w3 c3 :
  h2_balanced w1 c1 w2 c2 -> h2_balanced w2 c2 w3 c3 -> h2_balanced w1 c1 w3 c3.
Proof. apply balanced_trans. Qed.

Lemma h2_balanced_core w w' hc : core w' = core w -> h2_balanced w hc w' hc.
Proof. apply balanced_core. Qed.

Lemma find_remove id l s :
  find (has_id id) l = Some s -> l ≡ₚ s :: remove_stream id l /\ stream_id s = id.
Proof.
  induction l as [|x l IH]; simpl; [done|]. destruct (has_id id x) eqn:E.
  - intros [= ->]. split; [done|]. unfold has_id in E. lia.
  - intros Hf. destruct (IH Hf) as [Hp Hid]. split; [|done]. rewrite Hp at 1. apply Permutation_swap.
Qed.

Lemma find_store id f l s :
  find (has_id id) l = Some s -> store_stream id f l ≡ₚ f s :: remove_stream id l.
Proof.
  induction l as [|x l IH]; simpl; [done|]. destruct (has_id id x) eqn:E.
  - by intros [= ->].
  - intros Hf. rewrite (IH Hf). apply Permutation_swap.
Qed.

Lemma split_part (l : list H2Stream) s k :
  l ≡ₚ s :: k -> p_equiv (streams_part l) (p_app (stream_part s) (streams_part k)).
Proof.
  intros Hp. eapply p_equiv_trans; [by apply streams_part_perm|apply streams_part_cons].
Qed.

(** A stream steps, and the others frame it. *)
Lemma h2_replace_balanced w hc id s w' f :
  h2_stream_find hc id = Some s -> balanced w (stream_part s) w' (stream_part (f s)) ->
  h2_balanced w hc w' (h2_store hc id f).
Proof.
  intros Hf Hb. destruct (find_remove _ _ _ Hf) as [Hp _]. pose proof (find_store id f _ _ Hf) as Hs.
  eapply balanced_equiv; [by apply split_part|apply split_part, Hs|].
  apply balanced_app; [apply zlen_nonneg|done].
Qed.

(** A store that leaves the tier and the slot flag alone. *)
Lemma h2_store_balanced w hc id f :
  (forall s, stream_part (f s) = stream_part s) -> h2_balanced w hc w (h2_store hc id f).
Proof.
  intros Hf. destruct (h2_stream_find hc id) as [s|] eqn:E.
  - eapply h2_replace_balanced; [done|]. rewrite Hf. apply balanced_refl.
  - replace (h2_store hc id f) with hc; [by apply h2_balanced_core|].
    unfold h2_stream_find, h2_store in *. destruct hc as [l n a b]. simpl in *. f_equal.
    induction l as [|x l IH]; simpl in *; [done|]. destruct (has_id id x); [done|]. by rewrite <- IH.
Qed.

Lemma release_head_balanced w hc s :
  balanced w (stream_part s) (fst (h2_stream_free w hc s)) p_nil.
Proof.
  unfold h2_stream_free. cbn [fst]. split; simpl.
  - intros rest k Hk Ho Ha He. unfold stream_held in Ha. rewrite Ho in *. simpl in *.
    apply sm_release_accounts in Ha. split; [done|].
    replace (h2_streams_active w >? 0) with true by (symmetry; apply Z.gtb_lt; lia). simpl.
    split; [done|lia].
  - destruct (slot_acquired s); simpl; by destruct (_ >? 0).
Qed.

Lemma p_app_nil_l p : p_equiv p (p_app p_nil p).
Proof. split; [done|]. split; [done|]. simpl. tauto. Qed.

Lemma h2_free_balanced w hc id s :
  h2_stream_find hc id = Some s ->
  h2_balanced w hc (fst (h2_stream_free w hc s)) (snd (h2_stream_free w hc s)).
Proof.
  intros Hf. destruct (find_remove _ _ _ Hf) as [Hp Hid].
  eapply balanced_equiv; [by apply split_part|apply p_app_nil_l|].
  assert (streams (snd (h2_stream_free w hc s)) = remove_stream id (streams hc)) as ->
    by (by rewrite <- Hid).
  apply balanced_app; [apply zlen_nonneg|apply release_head_balanced].
Qed.

Lemma h2_close_balanced w hc id t :
  h2_balanced w hc (fst (h2_on_stream_close_callback w hc id t))
                   (snd (h2_on_stream_close_callback w hc id t)).
Proof.
  unfold h2_on_stream_close_callback. destruct (h2_stream_find hc id) as [s|] eqn:Ef;
    [|by apply h2_balanced_core].
  eapply balanced_after_core; [|by eapply h2_free_balanced]. by autorewrite with core.
Qed.

Lemma free_streams_balanced l : forall w hc,
  streams hc = l -> balanced w (streams_part l) (fst (free_streams w hc l)) p_nil.
Proof.
  induction l as [|s l IH]; intros w hc Hl; cbn [free_streams].
  { eapply balanced_equiv; [|apply p_equiv_refl|apply balanced_refl].
    split; [done|]. split; [done|]. simpl. split; [done|by constructor]. }
  pose proof (release_head_balanced w hc s) as Hr.
  assert (streams (snd (h2_stream_free w hc s)) = l) as Hl'.
  { unfold h2_stream_free. cbn [snd update streams]. rewrite Hl. simpl. unfold has_id.
    by rewrite Z.eqb_refl. }
  destruct (h2_stream_free w hc s) as [w' hc']. cbn [fst snd] in *.
  eapply balanced_trans; [|exact (IH w' hc' Hl')].
  eapply balanced_equiv; [apply streams_part_cons|apply p_app_nil_l|].
  apply balanced_app; [apply zlen_nonneg|done].
Qed.

Lemma find_store_some id f hc s :
  (forall x, stream_id (f x) = stream_id x) ->
  h2_stream_find hc id = Some s -> h2_stream_find (h2_store hc id f) id = Some (f s).
Proof.
  intros Hid. unfold h2_stream_find, h2_store. cbn [update streams].
  induction (streams hc) as [|x l IH]; simpl; [done|]. destruct (has_id id x) eqn:E; simpl.
  - intros [= <-]. unfold has_id in *. rewrite Hid. by rewrite E.
  - rewrite E. apply IH.
Qed.

Lemma h2_send_response_balanced e w hc id st ctype body :
  h2_balanced w hc w (fst (fst (h2_send_response e w hc id st ctype body))).
Proof.
  unfold h2_send_response. cbn zeta.
  destruct (negb (body_source_ok e)); [by apply h2_balanced_core|].
  destruct (_ && negb (body_data_ok e)); [by apply h2_balanced_core|].
  destruct (negb (submit_ok e)); [by apply h2_balanced_core|].
  by apply h2_store_balanced.
Qed.

Lemma h2_process_balanced e w hc s :
  h2_balanced w hc (fst (fst (h2_process_stream_request e w hc s)))
                   (snd (fst (h2_process_stream_request e w hc s))).
Proof.
  unfold h2_process_stream_request. cbn zeta.
  set (w1 := update_endpoint_counter w _).
  assert (core w1 = core w) as H1 by (unfold w1; by autorewrite with core).
  destruct (h2_answer e w1 _ _ _) as [[[[st ctype] body] code] blen].
  pose proof (h2_send_response_balanced (send_env e) w1 hc (stream_id s) st ctype body) as H2.
  destruct (h2_send_response (send_env e) w1 hc (stream_id s) st ctype body) as [[hc2 rc] resp].
  cbn [fst snd] in H2. eapply balanced_after_core; [exact H1|].
  set (mark := fun x : H2Stream => x <| s_response_status := code |> <| s_response_bytes := blen |>).
  assert (h2_balanced w1 hc2 w1 (h2_store hc2 (stream_id s) mark)) as H3 by by apply h2_store_balanced.
  pose proof (h2_balanced_trans _ _ _ _ _ _ H2 H3) as H4.
  destruct (h2_stream_find (h2_store hc2 (stream_id s) mark) (stream_id s)) as [x|] eqn:Ef; [|done].
  pose proof (h2_downgrade_balanced w1 x) as Hd.
  destruct (h2_downgrade_tier_to_normal w1 x) as [w5 x']. cbn [fst snd].
  eapply h2_balanced_trans; [exact H4|]. by eapply h2_replace_balanced.
Qed.

Lemma h2_frame_recv_balanced e w hc fr :
  h2_balanced w hc (fst (fst (h2_on_frame_recv_callback e w hc fr)))
                   (snd (fst (h2_on_frame_recv_callback e w hc fr))).
Proof.
  unfold h2_on_frame_recv_callback.
  destruct (fr_type fr), (flag_end_stream fr), (h2_stream_find hc (fr_stream_id fr)) as [s|] eqn:Ef;
    try (by apply h2_balanced_core);
    (eapply h2_balanced_trans; [|apply h2_process_balanced]);
    (eapply h2_replace_balanced; [exact Ef|apply balanced_refl]).
Qed.

Lemma stream_new_spec calloc_ok w hc id t w' hc' :
  h2_stream_new calloc_ok w hc id t = Some (w', hc') ->
  exists s, streams hc' = s :: streams hc /\ stream_id s = id /\
    slots w' = slots w /\ h2_streams_active w' = h2_streams_active w + 1 /\ frame w' = frame w.
Proof.
  unfold h2_stream_new. destruct (negb calloc_ok); [done|]. intros [= <- <-].
  eexists. split; [reflexivity|]. by repeat split.
Qed.

Lemma h2_begin_balanced ok w hc fr t :
  h2_balanced w hc (fst (fst (h2_on_begin_headers_callback ok w hc fr t)))
                   (snd (fst (h2_on_begin_headers_callback ok w hc fr t))).
Proof.
  unfold h2_on_begin_headers_callback. destruct (negb _ || _); [by apply h2_balanced_core|].
  pose proof (fun held => sm_acquire_accounts (slots w) held TIER_NORMAL) as Ha.
  destruct (slot_manager_acquire (slots w) TIER_NORMAL) as [sm got]. destruct got; cbn [negb].
  - destruct (h2_stream_new ok (w <| slots := sm |>) hc (fr_stream_id fr) t) as [[w2 hc2]|] eqn:En;
      cbn [fst snd].
    + destruct (stream_new_spec _ _ _ _ _ _ _ En) as (s & Hs & Hid & Hsl & Hact & Hfr).
      unfold h2_balanced, h2_store. cbn [update streams]. rewrite Hs. cbn [store_stream].
      unfold has_id. rewrite Hid, Z.eqb_refl. split; simpl.
      * intros rest k Hk Ho Hac He. rewrite Hsl, Hact, zlen_cons. simpl. split; [by constructor|].
        split; [exact (Ha _ Hac)|lia].
      * rewrite Hfr. done.
    + split; [|done]. simpl. intros rest k Hk Ho Hac He. split_and!; [done| |done].
      apply sm_release_accounts, Ha, Hac.
  - split; [|done]. simpl. intros rest k Hk Ho Hac He. split_and!; [done| |done].
    specialize (Ha _ Hac). by destruct Ha as [-> _].
Qed.

Lemma promote_stream_balanced w s required :
  slot_acquired s = true ->
  balanced w (stream_part s)
    (w <| slots := fst (slot_manager_promote (slots w) (tier s) required) |>)
    (stream_part (s <| tier := if snd (slot_manager_promote (slots w) (tier s) required)
                               then required else tier s |>)).
Proof.
  intros Hs. pose proof (promote_balanced w (tier s) required (Part [] 1 (slot_acquired s = true))) as Hp.
  eapply balanced_equiv; [| |exact Hp]; unfold stream_part, stream_held; simpl; rewrite Hs;
    (split; [done|split; [done|simpl; tauto]]).
Qed.

(** A step may use that the holders are marked. *)
Lemma balanced_if_ok w p w' p' :
  (p_ok p -> balanced w p w' p') ->
  frame w' = frame w -> balanced w p w' p'.
Proof. intros Hb Hf. split; [|done]. intros rest k Hk Ho. by apply Hb. Qed.

Lemma find_ok id (l : list H2Stream) s :
  find (has_id id) l = Some s -> Forall (fun s => slot_acquired s = true) l -> slot_acquired s = true.
Proof.
  intros Hf Ho. apply find_some in Hf as [Hin _]. rewrite Forall_forall in Ho.
  by apply Ho, list_elem_of_In.
Qed.

Lemma h2_promote_balanced w hc id s required :
  h2_stream_find hc id = Some s ->
  let '(sm, ok) := slot_manager_promote (slots w) (tier s) required in
  h2_balanced w hc (w <| slots := sm |>)
    (if ok then h2_store hc id (fun x => x <| tier := required |>) else hc).
Proof.
  intros Hf. destruct (slot_manager_promote (slots w) (tier s) required) as [sm ok] eqn:Ep.
  apply balanced_if_ok; [|done].
  intros Ho. pose proof (promote_stream_balanced w s required (find_ok _ _ _ Hf Ho)) as Hb.
  rewrite Ep in Hb. cbn [fst snd] in Hb. destruct ok.
  - by eapply h2_replace_balanced.
  - destruct (find_remove _ _ _ Hf) as [Hp _].
    eapply balanced_equiv; [by apply split_part|by apply split_part|].
    apply balanced_app; [apply zlen_nonneg|]. by destruct s.
Qed.

Lemma h2_header_balanced ok w hc fr name value :
  h2_balanced w hc (fst (fst (h2_on_header_callback ok w hc fr name value)))
                   (snd (fst (h2_on_header_callback ok w hc fr name value))).
Proof.
  unfold h2_on_header_callback. destruct (negb _); [by apply h2_balanced_core|].
  destruct (h2_stream_find hc (fr_stream_id fr)) as [s|] eqn:Ef; [|by apply h2_balanced_core].
  cbn zeta. destruct (name_is name ":method"); [by apply h2_store_balanced|].
  destruct (name_is name ":path"); cycle 1.
  { destruct (name_is name ":authority"); [by apply h2_store_balanced|].
    destruct (name_is name ":scheme"); [by apply h2_store_balanced|].
    destruct (name_is name "content-length"); [by apply h2_store_balanced|by apply h2_balanced_core]. }
  set (put := fun x : H2Stream => x <| s_path := if ok then Some (c_string value) else None |>
                                    <| s_path_len := zlen value |>).
  set (hc1 := h2_store hc (fr_stream_id fr) put).
  assert (h2_balanced w hc w hc1) as H1 by by apply h2_store_balanced.
  destruct (ok && _ && _); [by eapply balanced_then_core; [|exact H1]|].
  destruct (tier_index _ >? _) eqn:Et; [|exact H1].
  assert (h2_stream_find hc1 (fr_stream_id fr) = Some (put s)) as Ef1 by by apply find_store_some.
  pose proof (h2_promote_balanced w hc1 _ _ (size_to_tier (zlen value) (config w)) Ef1) as Hp.
  change (tier (put s)) with (tier s) in Hp.
  destruct (slot_manager_promote (slots w) (tier s) (size_to_tier (zlen value) (config w))) as [sm okp].
  pose proof (h2_balanced_trans _ _ _ _ _ _ H1 Hp) as H2. destruct okp; cbn [negb fst snd].
  - exact H2.
  - eapply balanced_then_core; [|exact H2]. done.
Qed.

Lemma h2_chunk_balanced w hc id len :
  h2_balanced w hc w (h2_on_data_chunk_recv_callback hc id len).
Proof.
  unfold h2_on_data_chunk_recv_callback. destruct (h2_stream_find hc id);
    [by apply h2_store_balanced|by apply h2_balanced_core].
Qed.

Lemma h2_callback_balanced w hc ev :
  h2_balanced w hc (fst (h2_callback w hc ev)) (snd (h2_callback w hc ev)).
Proof.
  destruct ev; simpl.
  - apply h2_begin_balanced.
  - apply h2_header_balanced.
  - apply h2_frame_recv_balanced.
  - apply h2_chunk_balanced.
  - apply h2_close_balanced.
Qed.

Lemma run_callbacks_balanced evs : forall w hc,
  h2_balanced w hc (fst (run_callbacks w hc evs)) (snd (run_callbacks w hc evs)).
Proof.
  induction evs as [|ev evs IH]; intros w hc; [by apply h2_balanced_core|].
  unfold run_callbacks. cbn [foldl]. pose proof (h2_callback_balanced w hc ev) as Hb.
  destruct (h2_callback w hc ev) as [w1 hc1]. cbn [fst snd] in Hb.
  eapply h2_balanced_trans; [exact Hb|apply IH].
Qed.

(** ** Connections *)

Definition unlinked (id : positive) (w : WorkerProcess) : WorkerProcess :=
  w <| connections ::= unlink id |>.

(** A handler's result: the connection goes on, or it is freed. *)
Definition handled (w : WorkerProcess) (c : Connection) (r : WorkerProcess * option Connection) : Prop :=
  match r with
  | (w', Some c') => balanced w (conn_part c) w' (conn_part c') /\ conn_id c' = conn_id c
  | (w', None) =>
      exists w1, balanced (unlinked (conn_id c) w) (conn_part c) w1 p_nil /\
        w' = worker_check_drain
               (bump requests_processed (w1 <| active_connections ::= Z.pred |>))
  end.

(** An update of the connection that touches neither slots nor streams. *)
Definition same_part (c c' : Connection) : Prop := conn_part c' = conn_part c /\ conn_id c' = conn_id c.

Lemma handled_same w c w' c' : core w' = core w -> same_part c c' -> handled w c (w', Some c').
Proof. intros Hc [Hp Hi]. split; [|done]. rewrite Hp. by apply balanced_core. Qed.

Lemma h2_step_conn w c hc w' hc' :
  h2 c = Some hc -> h2_balanced w hc w' hc' ->
  balanced w (conn_part c) w' (conn_part (c <| h2 := Some hc' |>)).
Proof.
  intros Hh Hb. unfold conn_part, streams_of. simpl. rewrite Hh.
  pose proof (balanced_app w _ w' _ (own_part c) ltac:(simpl; lia) Hb) as Ha.
  assert (tls_ok (c <| h2 := Some hc' |>) <-> tls_ok c) as Ht.
  { unfold tls_ok. simpl. rewrite Hh. split; intros Hx Hd; by specialize (Hx Hd). }
  eapply balanced_equiv; [| |exact Ha];
    (split; [simpl; apply Permutation_app_comm|split; [simpl; lia|simpl; tauto]]).
Qed.

Lemma h2_send_pending_handled ss w c :
  let '(w', c', rc) := h2_send_pending ss w c in handled w c (w', Some c').
Proof.
  unfold h2_send_pending. destruct (h2 c) as [hc|] eqn:Eh; [|by apply handled_same].
  pose proof (run_callbacks_balanced (ss_events ss) w hc) as Hb.
  destruct (run_callbacks w hc (ss_events ss)) as [w1 hc1]. cbn [fst snd] in Hb.
  destruct (h2_write_all_output (ss_writes ss) (c <| h2 := Some hc1 |>)) as [o ->].
  split; [|done]. exact (h2_step_conn w c hc w1 hc1 Eh Hb).
Qed.

Lemma h2_process_input_handled sr ss w c :
  let '(w', c', rc) := h2_process_input sr ss w c in handled w c (w', Some c').
Proof.
  unfold h2_process_input. destruct (h2 c) as [hc|] eqn:Eh; [|by apply handled_same].
  pose proof (run_callbacks_balanced (sr_events sr) w hc) as Hb.
  destruct (run_callbacks w hc (sr_events sr)) as [w1 hc1]. cbn [fst snd] in Hb.
  pose proof (h2_step_conn w c hc w1 hc1 Eh Hb) as Hc.
  destruct (negb (sr_ok sr)); [by split|].
  pose proof (h2_send_pending_handled ss w1 (c <| h2 := Some hc1 |>)) as Hs.
  destruct (h2_send_pending ss w1 (c <| h2 := Some hc1 |>)) as [[w2 c2] rc].
  destruct Hs as [Hs Hi]. split; [|done]. by eapply balanced_trans.
Qed.

Lemma balanced_unlinked id w p w' p' :
  balanced w p w' p' -> balanced (unlinked id w) p (unlinked id w') p'.
Proof.
  intros [HS HF]. split; [exact HS|]. unfold frame in *. simpl. congruence.
Qed.

Lemma balanced_weaken w p w' p' q :
  p_held q = p_held p -> p_count q = p_count p -> (p_ok q -> p_ok p) ->
  balanced w p w' p' -> balanced w q w' p'.
Proof.
  intros Hh Hn Ho [HS HF]. split; [|done]. intros rest k. rewrite Hh, Hn. intros Hk Hq. by apply HS, Ho.
Qed.

(** What [connection_free] gives back: the streams' slots, and the
    connection's own if it is marked as held. *)
Lemma connection_free_shape w c :
  exists w1, connection_free w c =
      worker_check_drain (bump requests_processed (w1 <| active_connections ::= Z.pred |>)) /\
    balanced (unlinked (conn_id c) w)
      (p_app (Part (own_held c) 0 True) (streams_part (streams_of c))) w1 p_nil.
Proof.
  unfold connection_free. fold (unlinked (conn_id c) w).
  set (w0 := unlinked (conn_id c) w).
  set (w1 := match h2 c with Some hc => h2_connection_free w0 hc | None => w0 end).
  assert (balanced w0 (streams_part (streams_of c)) w1 p_nil) as H1.
  { unfold w1, streams_of. destruct (h2 c) as [hc|]; [by apply free_streams_balanced|].
    eapply balanced_equiv; [|apply p_equiv_refl|apply balanced_refl].
    split; [done|]. split; [done|]. simpl. split; [done|by constructor]. }
  exists (if slot_held c then w1 <| slots ::= fun sm => slot_manager_release sm (current_tier c) |> else w1).
  split; [done|]. apply (balanced_app _ _ _ _ (Part (own_held c) 0 True)) in H1; [|simpl; lia].
  eapply balanced_trans; [eapply balanced_equiv; [|apply p_equiv_refl|exact H1]|].
  - split; [simpl; apply Permutation_app_comm|split; [simpl; lia|simpl; tauto]].
  - split; simpl; [|by destruct (slot_held c)].
    intros rest k Hk _. unfold own_held. destruct (slot_held c); simpl; [|done]. intros Ha He.
    split_and!; [done|exact (sm_release_accounts _ _ _ Ha)|done].
Qed.

Lemma connection_free_handled w c : handled w c (connection_free w c, None).
Proof.
  destruct (connection_free_shape w c) as (w1 & -> & Hb). exists w1. split; [|done].
  eapply balanced_weaken; [..|exact Hb]; [done..|]. simpl. tauto.
Qed.

(** Composition: a step that keeps the connection, then a handler. *)
Lemma handled_trans w c w1 c1 r :
  handled w c (w1, Some c1) -> handled w1 c1 r -> handled w c r.
Proof.
  intros [Hb Hi] H2. destruct r as [w2 [c2|]].
  - destruct H2 as [Hb2 Hi2]. split; [by eapply balanced_trans|congruence].
  - destruct H2 as (w3 & Hb3 & ->). exists w3. split; [|done]. rewrite Hi in Hb3.
    eapply balanced_trans; [by apply balanced_unlinked|exact Hb3].
Qed.

Lemma handled_core w w1 c r : core w1 = core w -> handled w1 c r -> handled w c r.
Proof. intros Hc. apply handled_trans. by apply handled_same. Qed.

Lemma handled_update w c c1 r : same_part c c1 -> handled w c1 r -> handled w c r.
Proof. intros Hc. apply handled_trans. by apply handled_same. Qed.

(** ** Requests *)

Lemma respond_same c text st bytes next : same_part c (respond c text st bytes next).
Proof. done. Qed.

Lemma send_error_same c st text : same_part c (connection_send_error c st text).
Proof. done. Qed.

Lemma parse_same ok mem c headers : same_part c (fst (parse_request_headers ok mem c headers)).
Proof. unfold parse_request_headers. by repeat case_match. Qed.

Lemma process_handled e w c :
  handled w c (fst (process_request e w c), Some (snd (process_request e w c))).
Proof.
  unfold process_request. cbn zeta.
  destruct (route_request _); apply handled_same; autorewrite with core; try done.
  - simpl. unfold serve_metrics. by case_match.
  - simpl. unfold serve_acme_challenge. by case_match.
Qed.

Lemma downgrade_then_process e w c :
  handled w c (let '(w, c) := downgrade_tier_to_normal w c in
               let '(w, c) := process_request e w c in (w, Some c)).
Proof.
  pose proof (conn_downgrade_balanced w c) as Hd.
  destruct (downgrade_tier_to_normal w c) as [w1 c1]. destruct Hd as (Hd & _ & Hi).
  pose proof (process_handled e w1 c1) as Hp. destruct (process_request e w1 c1) as [w2 c2].
  eapply handled_trans; [by split|exact Hp].
Qed.

(** A result of a handler that never frees. *)
Definition kept (r : WorkerProcess * Connection) : WorkerProcess * option Connection :=
  let '(w, c) := r in (w, Some c).

Lemma downgrade_process_kept e w c :
  handled w c (kept (let '(w, c) := downgrade_tier_to_normal w c in process_request e w c)).
Proof.
  pose proof (downgrade_then_process e w c) as Hd.
  destruct (downgrade_tier_to_normal w c) as [w1 c1]. by destruct (process_request e w1 c1).
Qed.

Lemma headers_complete_handled e w c n : handled w c (kept (headers_complete e w c n)).
Proof.
  unfold headers_complete. cbn zeta. destruct (negb (pullup_ok e)); [by apply handled_same|].
  destruct (validate_path_early _ _) as [fl rc]. destruct (rc <? 0); [by apply handled_same|].
  match goal with |- context [parse_request_headers ?a ?b ?c0 ?d] =>
    pose proof (parse_same a b c0 d) as Hp; destruct (parse_request_headers a b c0 d) as [c2 rc2] end.
  cbn [fst] in Hp. change (same_part c c2) in Hp.
  destruct (rc2 <? 0); [by apply handled_same|].
  destruct (_ >? _); [by apply handled_same|].
  destruct (_ && _); [by apply handled_same|].
  eapply handled_update; [exact Hp|].
  eapply (handled_update _ _ (c2 <| input := [] |> <| body_received := zlen (drop n (input c2)) |>));
    [done|]. apply downgrade_process_kept.
Qed.

Lemma promote_conn_handled w c size :
  handled w c (kept (fst (try_promote_tier w c size))).
Proof.
  unfold try_promote_tier. destruct (_ >=? _); [by apply handled_same|].
  set (required := size_to_tier size (config w)).
  destruct (slot_manager_promote (slots w) (current_tier c) required) as [sm ok] eqn:Ep.
  pose proof (promote_balanced w (current_tier c) required (streams_part (streams_of c))) as Hb.
  rewrite Ep in Hb. cbn [fst snd] in Hb.
  assert (forall t, slot_held c = true -> tls_ok c ->
    p_equiv (conn_part (c <| current_tier := t |>))
            (p_app (Part [t] 0 True) (streams_part (streams_of c)))) as Heq.
  { intros t Hh Ht. unfold conn_part, own_part, own_held. simpl. rewrite Hh.
    change (tls_ok (c <| current_tier := t |>)) with (tls_ok c).
    split; [done|split; [done|simpl; tauto]]. }
  destruct ok; cbn [negb fst kept]; (split; [|done]);
    (apply balanced_if_ok; [|done]); intros [[Hh Ht] _].
  - eapply balanced_equiv; [|by apply Heq|exact Hb]. exact (Heq (current_tier c) Hh Ht).
  - eapply balanced_equiv; [| |exact Hb]; exact (Heq (current_tier c) Hh Ht).
Qed.

Lemma read_headers_handled e available w c : handled w c (kept (read_headers e available w c)).
Proof.
  unfold read_headers. destruct (_ >? _); [by apply handled_same|].
  pose proof (promote_conn_handled w c available) as Hp.
  destruct (try_promote_tier w c available) as [[w1 c1] rc]. cbn [fst kept] in Hp.
  eapply handled_trans; [exact Hp|]. destruct (rc <? 0); [by apply handled_same|].
  destruct (search_from _ _); [apply headers_complete_handled|].
  destruct (_ && _); [|by apply handled_same].
  destruct (validate_path_early _ _) as [fl rc']. by destruct (rc' <? 0); apply handled_same.
Qed.

Lemma read_body_handled e available w c : handled w c (kept (read_body e available w c)).
Proof.
  unfold read_body. cbn zeta. destruct (_ >=? _); [|by apply handled_same].
  match goal with |- context [downgrade_tier_to_normal w ?c1] =>
    eapply (handled_update _ _ c1); [done|] end.
  apply downgrade_process_kept.
Qed.

Lemma read_slowloris_handled e available w c : handled w c (finish (read_slowloris e available w c)).
Proof.
  unfold read_slowloris. destruct (_ >? _);
    [by eapply handled_core; [|apply connection_free_handled]|].
  destruct (_ >=? _); [|by apply handled_same].
  destruct (_ || _); [by eapply handled_core; [|apply connection_free_handled]|by apply handled_same].
Qed.

(** Starting a session on a connection that has none. *)
Lemma h2_init_handled e w c :
  tls_handshake_done c = false ->
  handled w c (w, Some (fst (h2_connection_init e (c <| tls_handshake_done := true |>)))).
Proof.
  intros Hd. split; [|unfold h2_connection_init; by repeat case_match].
  apply balanced_if_ok; [|done]. intros [[Hh Ht] Hs]. specialize (Ht Hd).
  assert (forall c', slot_held c' = slot_held c -> current_tier c' = current_tier c ->
            streams_of c' = [] -> tls_ok c' -> p_equiv (conn_part c') (conn_part c)) as Heq.
  { intros c' H1 H2 H3 H4. assert (tls_ok c) as H5 by (intros _; exact Ht).
    assert (streams_of c = []) as H6 by (unfold streams_of; by rewrite Ht).
    unfold conn_part, own_part, own_held. rewrite H1, H2, H3, H6.
    split; [done|split; [done|simpl; tauto]]. }
  eapply balanced_equiv; [apply p_equiv_refl| |apply balanced_refl].
  unfold h2_connection_init; repeat case_match; simpl; apply Heq; try done;
    unfold streams_of; simpl; by rewrite Ht.
Qed.

Lemma read_tls_handled e w c : handled w c (finish (read_tls e w c)).
Proof.
  unfold read_tls. destruct (ssl c && _ && _) eqn:Eg; [|by apply handled_same]. b2p.
  set (w1 := match ssl_version e return WorkerProcess with
             | TLS1_2_VERSION => _ | TLS1_3_VERSION => _ | TLS_OTHER => _ end).
  assert (core w1 = core w) as Hc by (unfold w1; by destruct (ssl_version e)).
  eapply handled_core; [exact Hc|]. cbn zeta.
  pose proof (h2_init_handled (h2_init e) w1 c H1) as Hi.
  destruct (tls_is_http2 _).
  - destruct (h2_connection_init _ _) as [c2 rc]. cbn [fst] in Hi.
    eapply handled_trans; [exact Hi|]. destruct (rc <? 0); [apply connection_free_handled|].
    pose proof (h2_send_pending_handled (h2_preface e) w1 c2) as Hs.
    destruct (h2_send_pending (h2_preface e) w1 c2) as [[w3 c3] rc3].
    eapply handled_trans; [exact Hs|]. destruct (rc3 <? 0); [apply connection_free_handled|].
    by apply handled_same.
  - pose proof (h2_init_handled (mkH2InitEnv false true true true true) w1 c H1) as Hj. exact Hj.
Qed.

Lemma read_h2_handled e w c : handled w c (finish (read_h2 e w c)).
Proof.
  unfold read_h2. destruct (protocol c), (h2 c); try (by apply handled_same).
  destruct (_ && _); [|by apply handled_same].
  pose proof (h2_process_input_handled (h2_recv e) (h2_send e) w c) as Hp.
  destruct (h2_process_input _ _ w c) as [[w1 c1] rc]. eapply handled_trans; [exact Hp|].
  destruct (rc <? 0); [apply connection_free_handled|by apply handled_same].
Qed.

Lemma handled_and_then w c o k :
  handled w c (finish o) -> (forall w c, handled w c (finish (k w c))) ->
  handled w c (finish (and_then o k)).
Proof. intros Ho Hk. destruct o as [w1 c1|w1 [c1|]]; simpl in *; [|done..]. by eapply handled_trans. Qed.

Lemma conn_read_cb_handled e w c : handled w c (conn_read_cb e w c).
Proof.
  unfold conn_read_cb. cbn zeta. apply handled_and_then; [apply read_tls_handled|]. intros w1 c1.
  apply handled_and_then; [apply read_slowloris_handled|]. intros w2 c2.
  apply handled_and_then; [apply read_h2_handled|]. intros w3 c3.
  destruct (state c3); try (by apply handled_same).
  - pose proof (read_headers_handled e (zlen (input c)) w3 c3) as Hr.
    by destruct (read_headers e _ w3 c3).
  - pose proof (read_body_handled e (zlen (input c)) w3 c3) as Hr.
    by destruct (read_body e _ w3 c3).
Qed.

(** ** Writing and events *)

Definition unheld_part (c : Connection) : part :=
  p_app (Part (own_held c) 0 True) (streams_part (streams_of c)).

(** Whether the exchange succeeds is whether the connection holds a slot. *)
Lemma keepalive_slot_balanced w c :
  let '(w', c', ok) := keepalive_slot w c in
  conn_id c' = conn_id c /\ (ok = false -> slot_held c' = false) /\
  balanced w (conn_part c) w' (if slot_held c' then conn_part c' else unheld_part c').
Proof.
  unfold keepalive_slot. destruct (slot_held c && _) eqn:Eg.
  - b2p. pose proof (fun rest => sm_release_accounts (slots w) rest (current_tier c)) as Hr.
    set (sm1 := slot_manager_release (slots w) (current_tier c)) in *.
    pose proof (fun held => sm_acquire_accounts sm1 held TIER_NORMAL) as Ha.
    cbn zeta. destruct (slot_manager_acquire sm1 TIER_NORMAL) as [sm2 got].
    destruct got; cbn [negb]; (split; [done|]); (split; [done|]).
    + change (slot_held (c <| current_tier := TIER_NORMAL |>)) with (slot_held c). rewrite H.
      apply balanced_slots; [done|]. unfold conn_part, own_part, own_held. simpl. rewrite H. simpl.
      intros rest Ho Hac. split; [exact Ho|]. apply Ha, Hr, Hac.
    + apply balanced_slots; [done|]. unfold unheld_part, conn_part, own_part, own_held. simpl.
      rewrite H. simpl. intros rest Ho Hac. split; [split; [done|apply Ho]|].
      apply Hr in Hac. destruct (Ha _ Hac) as [-> _]. exact Hac.
  - split; [done|]. split; [done|]. destruct (slot_held c) eqn:Eh; [apply balanced_refl|].
    eapply balanced_weaken; [..|apply balanced_refl]; [done..|]. simpl. tauto.
Qed.

Lemma reset_balanced w c t :
  let '(w', c') := connection_reset_for_keepalive w c t in
  conn_id c' = conn_id c /\
  balanced w (conn_part c) w' (if slot_held c' then conn_part c' else unheld_part c').
Proof.
  unfold connection_reset_for_keepalive.
  pose proof (keepalive_slot_balanced w (clear_request c)) as Hk.
  destruct (keepalive_slot w (clear_request c)) as [[w1 c1] ok]. destruct Hk as (Hi & Hf & Hb).
  destruct ok; cbn [negb]; [|by split].
  split; [exact Hi|]. eapply balanced_then_core; [|exact Hb]. done.
Qed.

Lemma conn_write_cb_handled t w c : handled w c (conn_write_cb t w c).
Proof.
  unfold conn_write_cb. destruct (_ >? 0); [by apply handled_same|].
  set (w1 := log_request_complete w c t).
  assert (core w1 = core w) as Hc by (unfold w1; by autorewrite with core).
  eapply handled_core; [exact Hc|]. destruct (state c); try (by apply handled_same).
  - destruct (keep_alive c); [|by apply handled_same].
    pose proof (reset_balanced w1 c t) as Hr.
    destruct (connection_reset_for_keepalive w1 c t) as [w2 c2]. destruct Hr as (Hi & Hn).
    destruct (slot_held c2) eqn:Es; cbn [negb]; [by split|].
    destruct (connection_free_shape w2 c2) as (w3 & -> & Hb). exists w3. split; [|done].
    rewrite <- Hi. eapply balanced_trans; [apply balanced_unlinked, Hn|exact Hb].
  - apply connection_free_handled.
Qed.

Lemma conn_event_cb_handled ev w c : handled w c (conn_event_cb ev w c).
Proof.
  unfold conn_event_cb. destruct (BEV_EVENT_CONNECTED ev); [by apply handled_same|].
  eapply handled_core; [|apply connection_free_handled]. by repeat case_match.
Qed.
