(* ===== verification/Worker.v ===== *)
(** * The worker process ([src/worker.c])

    Accepting connections, draining, start-up, and the event loop that
    runs the handlers of [Connection].  The invariants of the whole worker
    are proved here. *)
From Stdlib Require Import ZArith QArith Lia Ascii String.
From stdpp Require Import base list numbers strings relations.
From S2P Require Import Prelude CLib Addr Router Network Config Slots IpAcl RateLimiter Rpc Tls Sockets State Endpoints Metrics Http2 StaticFiles Connection Balance.

#[local] Open Scope Z_scope.

(** ** Refusals *)

Definition send_503_response : chars :=
  line [str "HTTP/1.1 503 Service Unavailable"] ++ line [str "Content-Type: text/plain"] ++
  line [str "Content-Length: 20"] ++ line [str "Connection: close"] ++ line [str "Retry-After: 5"] ++
  CRLF ++ str "Service Unavailable" ++ [LF].

Definition send_429_response : chars :=
  line [str "HTTP/1.1 429 Too Many Requests"] ++ line [str "Content-Type: text/plain"] ++
  line [str "Content-Length: 18"] ++ line [str "Connection: close"] ++ line [str "Retry-After: 1"] ++
  CRLF ++ str "Too Many Requests" ++ [LF].

Definition send_403_response : chars :=
  line [str "HTTP/1.1 403 Forbidden"] ++ line [str "Content-Type: text/plain"] ++
  line [str "Content-Length: 10"] ++ line [str "Connection: close"] ++
  CRLF ++ str "Forbidden" ++ [LF].

(** ** Accepting *)

Definition get_ip_string (addr : SockAddr) : chars :=
  match addr with SockInet ip _ => ip | SockOther => str "unknown" end.

(** What happens to the socket: closed, closed after a reply, or handed to
    a new connection. *)
Inductive AcceptResult := Closed | Refused (reply : chars) | Accepted.

(** The clocks, the outcomes of allocations and library calls, and the
    address of the new structure. *)
Record AcceptEnv := mkAcceptEnv {
  clock : Clock;
  mono_ns : Z;
  rl_entry_ok : bool;
  conn_ok : bool;
  bev_ok : bool;
  ssl_ok : bool;
  ssl_bev_ok : bool;
  new_id : positive
}.

Section WithInet.
Context `{Inet} `{SslBuild}.

(** The checks both accept callbacks make before they create anything;
    [inl] is an early return, [inr] a worker with the slot taken. *)
Definition check_client (e : AcceptEnv) (w : WorkerProcess) (addr : SockAddr)
    : WorkerProcess * AcceptResult + WorkerProcess :=
  if draining w then inl (w, Closed) else
  let ip := get_ip_string addr in
  let acl_result := ip_acl_check (Some (ip_acl w)) ip in
  if bool_decide (acl_result = IP_ACL_BLOCK)
  then inl (bump connections_rejected_blocked w, Refused send_403_response) else
  let '(w, allowed) :=
    if bool_decide (acl_result = IP_ACL_ALLOW) then (bump connections_allowlisted w, true) else
    let '(rl, ok) := rate_limiter_allow (rl_entry_ok e) (rate_limiter w) ip (clock e) in
    (w <| rate_limiter := rl |>, ok) in
  if negb allowed then inl (bump connections_rejected_rate w, Refused send_429_response) else
  let '(sm, got) := slot_manager_acquire (slots w) TIER_NORMAL in
  let w := w <| slots := sm |> in
  if negb got then inl (bump connections_rejected_slot w, Refused send_503_response) else
  inr ((bump connections_accepted w) <| active_connections ::= Z.succ |>).

(** The roll-back after a failed set-up. *)
Definition abandon (w : WorkerProcess) : WorkerProcess :=
  w <| active_connections ::= Z.pred |>
    <| slots ::= fun sm => slot_manager_release sm TIER_NORMAL |>.

Definition accept_cb (e : AcceptEnv) (w : WorkerProcess) (addr : SockAddr)
    : WorkerProcess * AcceptResult :=
  match check_client e w addr with
  | inl r => r
  | inr w =>
      match connection_new (conn_ok e) (bev_ok e) w (new_id e) addr (mono_ns e) with
      | (w, None) => (abandon w, Closed)
      | (w, Some _) => (w, Accepted)
      end
  end.

(** Replace the connection with the same identity. *)
Definition store_conn (c : Connection) (l : list Connection) : list Connection :=
  map (fun x => if Pos.eqb (conn_id x) (conn_id c) then c else x) l.

Definition tls_accept_cb (e : AcceptEnv) (w : WorkerProcess) (addr : SockAddr)
    : WorkerProcess * AcceptResult :=
  match check_client e w addr with
  | inl r => r
  | inr w =>
      if negb (tls_create_ssl (ssl_ok e) (tls w)) then (abandon w, Closed) else
      if negb (ssl_bev_ok e) then (abandon w, Closed) else
      match connection_new_with_bev (conn_ok e) w (new_id e) addr (mono_ns e) with
      | (w, None) => (abandon w, Closed)
      | (w, Some conn) =>
          (w <| connections ::= store_conn (conn <| ssl := true |> <| tls_handshake_done := false |>) |>,
           Accepted)
      end
  end.

(** ** Signals and timers *)

Definition signal_cb (w : WorkerProcess) : WorkerProcess :=
  worker_check_drain (w <| draining := true |>).

Definition signal_reload_cb (e : SslEnv) (w : WorkerProcess) : WorkerProcess :=
  if tls_enabled (config w) =? 0 then w else
  let '(h, t, _) := tls_context_reload e (config w) (ssl_heap w) (tls w) in
  w <| ssl_heap := h |> <| tls := t |>.

Definition cleanup_timer_cb (w : WorkerProcess) (c : Clock) : WorkerProcess :=
  w <| rate_limiter ::= fun rl => rate_limiter_cleanup rl c |>.

Inductive SocketError := EMFILE | ENFILE | EOTHER.

Definition accept_error_cb (w : WorkerProcess) (err : SocketError) : WorkerProcess :=
  match err with EMFILE | ENFILE => w | EOTHER => w <| loopexit := true |> end.

(** ** The event loop *)

Inductive event :=
| EvAccept (e : AcceptEnv) (addr : SockAddr)
| EvTlsAccept (e : AcceptEnv) (addr : SockAddr)
| EvRead (id : positive) (data : chars) (e : ReadEnv)
| EvWrite (id : positive) (n : nat) (t : Z)
| EvBev (id : positive) (ev : BevEvent)
| EvDrain
| EvReload (e : SslEnv)
| EvCleanup (c : Clock)
| EvAcceptError (err : SocketError).

Definition find_conn (w : WorkerProcess) (id : positive) : option Connection :=
  find (fun c => Pos.eqb (conn_id c) id) (connections w).

(** Run a handler on the connection it is registered with. *)
Definition with_conn (w : WorkerProcess) (id : positive)
    (handler : WorkerProcess -> Connection -> WorkerProcess * option Connection) : WorkerProcess :=
  match find_conn w id with
  | None => w
  | Some c =>
      match handler w c with
      | (w, Some c) => w <| connections ::= store_conn c |>
      | (w, None) => w
      end
  end.

(** Data that arrives goes to the input buffer; data that the socket takes
    leaves the output buffer. *)
Definition dispatch (w : WorkerProcess) (ev : event) : WorkerProcess :=
  match ev with
  | EvAccept e addr => fst (accept_cb e w addr)
  | EvTlsAccept e addr => fst (tls_accept_cb e w addr)
  | EvRead id data e =>
      with_conn w id (fun w c => conn_read_cb e w (c <| input ::= fun i => i ++ data |>))
  | EvWrite id n t => with_conn w id (fun w c => conn_write_cb t w (c <| output ::= drop n |>))
  | EvBev id ev => with_conn w id (conn_event_cb ev)
  | EvDrain => signal_cb w
  | EvReload e => signal_reload_cb e w
  | EvCleanup c => cleanup_timer_cb w c
  | EvAcceptError err => accept_error_cb w err
  end.

(** A fresh structure does not overlap a live one. *)
Definition fresh_event (w : WorkerProcess) (ev : event) : Prop :=
  match ev with
  | EvAccept e _ | EvTlsAccept e _ => new_id e ∉ conn_id <$> connections w
  | _ => True
  end.

Inductive step : WorkerProcess -> WorkerProcess -> Prop :=
  | step_event w ev : fresh_event w ev -> step w (dispatch w ev).

(** ** Start-up *)

(** [n] is [sysconf(_SC_NPROCESSORS_ONLN)]. *)
Definition get_num_cpus (n : Z) : Z := if n >? 0 then to_int n else 1.

(** The environment of [worker_main]: the clocks and the number of
    processors, the outcomes of the allocations and of libevent, the list
    files, the pages, the node's cookie files and address, the sockets and
    TLS. *)
Record StartEnv := mkStartEnv {
  se_now : Z;
  se_time : Z;
  nprocessors : Z;
  rl_calloc_ok : bool;
  acl_calloc1_ok : bool;
  acl_calloc2_ok : bool;
  acl_malloc : Z -> bool;
  list_file : chars -> option chars;
  disk : chars -> PageFile;
  event_base_ok : bool;
  cookie_files : chars -> option chars;
  resolve_host : chars -> Z -> option chars;
  socket_env : SocketEnv;
  listener_ok : bool;
  start_ssl : SslEnv;
  tls_socket_env : SocketEnv;
  tls_listener_ok : bool;
  evsignal_ok : bool;
  evsignal_reload_ok : bool;
  cleanup_event_ok : bool
}.

(** The worker as it enters [event_base_dispatch], [exit(1)], or the
    overflow of an authentication header that [rpc_init] can run into. *)
Inductive StartResult := Started (w : WorkerProcess) | Exit1 | Undefined.

Definition setup_worker_signals (e : StartEnv) (w : WorkerProcess) : WorkerProcess :=
  w <| signal_event := evsignal_ok e |> <| signal_event_reload := evsignal_reload_ok e |>.

(** [WorkerProcess worker = {0}] after the identity and the clocks. *)
Definition new_worker (e : StartEnv) (wid : Z) (cfg : Config) (files : StaticFiles) (sm : SlotManager)
    (rl : RateLimiter) (acl : IpACLContext) (mgr : RPCManager) : WorkerProcess :=
  {| worker_id := wid; config := cfg; static_files := files; slots := sm;
     rate_limiter := rl; ip_acl := acl; draining := false; listener := false;
     tls_listener := false; listener_disabled := false;
     tls_listener_disabled := false; stats := fun _ => 0; active_connections := 0;
     h2_streams_active := 0; w_start_time := se_now e; latency_sum_seconds := 0%Q;
     connections := []; loopexit := false; request_counter := 0;
     keepalive_counter := 0; h2_request_counter := 0; tls := zero_tls; ssl_heap := empty_heap;
     rpc := mgr; cpu_core := Z.rem wid (get_num_cpus (nprocessors e)); start_wallclock := se_time e;
     signal_event := false; signal_event_reload := false; cleanup_event := false |}.

(** [if (config->tls_enabled)]: [None] is [exit(1)]. *)
Definition start_tls (e : StartEnv) (cfg : Config) (w : WorkerProcess) : option WorkerProcess :=
  if tls_enabled cfg =? 0 then Some w else
  let '(h, t, rc) := tls_context_init (start_ssl e) cfg (ssl_heap w) in
  let w := w <| ssl_heap := h |> <| tls := t |> in
  if rc <? 0 then None else
  match create_tls_reuseport_socket (tls_socket_env e) cfg with
  | inl _ => None
  | inr _ => if negb (tls_listener_ok e) then None else Some (w <| tls_listener := true |>)
  end.

Definition worker_main (e : StartEnv) (wid : Z) (cfg : Config) : StartResult :=
  let sm := slot_manager_init (slots_normal_max cfg) (slots_large_max cfg) (slots_huge_max cfg) in
  let '(rl, rc) := rate_limiter_init (rl_calloc_ok e) (rate_limit_rps cfg) (rate_limit_burst cfg) in
  if rc <? 0 then Exit1 else
  let '(acl, rc) := ip_acl_context_init (acl_calloc1_ok e) (acl_calloc2_ok e) in
  if rc <? 0 then Exit1 else
  let load acl file := if eqc (deref file) NUL then acl
                       else fst (ip_acl_load_file (acl_malloc e) acl file (list_file e file)) in
  let acl := {| blocklist := load (blocklist acl) (blocklist_file cfg);
                allowlist := load (allowlist acl) (allowlist_file cfg) |} in
  match static_files_load (disk e) (static_dir cfg) with
  | None => Exit1
  | Some files =>
      if negb (event_base_ok e) then Exit1 else
      match rpc_manager_init_async (cookie_files e) (resolve_host e) (Some (rpc_mainnet cfg))
              (Some (rpc_testnet cfg)) (Some (rpc_signet cfg)) (Some (rpc_regtest cfg)) with
      | None => Undefined
      | Some mgr =>
          let w := new_worker e wid cfg files sm rl acl mgr in
          match create_reuseport_socket (socket_env e) cfg with
          | inl _ => Exit1
          | inr _ =>
              if negb (listener_ok e) then Exit1 else
              let w := w <| listener := true |> in
              match start_tls e cfg w with
              | None => Exit1
              | Some w =>
                  let w := setup_worker_signals e w in
                  Started (w <| cleanup_event := cleanup_event_ok e |>)
              end
          end
      end
  end.

Definition worker_cleanup (w : WorkerProcess) : WorkerProcess :=
  let w := w <| signal_event := false |> in
  let w := w <| signal_event_reload := false |> in
  let w := w <| cleanup_event := false |> in
  let w := w <| listener := false |> in
  let w := w <| tls_listener := false |> in
  let w := w <| rpc ::= rpc_manager_cancel_all |> in
  let '(h, t) := tls_context_free (tls w) (ssl_heap w) in
  let w := w <| ssl_heap := h |> <| tls := t |> in
  let w := w <| static_files ::= static_files_free |> in
  let w := w <| rate_limiter ::= rate_limiter_free |> in
  w <| ip_acl ::= ip_acl_context_free |>.

End WithInet.

(** ** The invariant *)

Definition all_held (l : list Connection) : list RequestTier := flat_map conn_held l.

Definition conns_part (l : list Connection) : part :=
  Part (flat_map conn_held l) (zlen (flat_map streams_of l)) (Forall (fun c => p_ok (conn_part c)) l).

(** Draining has stopped the listeners, and an empty worker is leaving. *)
Definition drain_inv (w : WorkerProcess) : Prop :=
  draining w = true ->
  (listener w = true -> listener_disabled w = true) /\
  (tls_listener w = true -> tls_listener_disabled w = true) /\
  (active_connections w = 0 -> loopexit w = true).

Record worker_inv (w : WorkerProcess) : Prop := {
  wi_ids : NoDup (conn_id <$> connections w);
  wi_slots : accounts (slots w) (all_held (connections w));
  wi_marked : Forall (fun c => p_ok (conn_part c)) (connections w);
  wi_active : active_connections w = zlen (connections w);
  wi_streams : h2_streams_active w = zlen (flat_map streams_of (connections w));
  wi_drain : drain_inv w
}.

Lemma conns_part_cons c l :
  p_equiv (conns_part (c :: l)) (p_app (conn_part c) (conns_part l)).
Proof.
  split; [done|]. split; [simpl; rewrite zlen_app; lia|]. simpl. by rewrite Forall_cons.
Qed.

Lemma conns_part_perm l k : l ≡ₚ k -> p_equiv (conns_part l) (conns_part k).
Proof.
  intros Hp. split; [simpl; by rewrite Hp|]. split; [simpl; unfold zlen; by rewrite Hp|].
  simpl. by rewrite Hp.
Qed.

Lemma find_conn_split w id c :
  NoDup (conn_id <$> connections w) -> find_conn w id = Some c ->
  conn_id c = id /\ connections w ≡ₚ c :: unlink id (connections w).
Proof.
  unfold find_conn, unlink. induction (connections w) as [|x l IH]; simpl; [done|].
  intros [Hni Hn]%list.NoDup_cons. destruct (Pos.eqb (conn_id x) id) eqn:E; simpl.
  - apply Pos.eqb_eq in E. intros [= ->]. split; [done|].
    assert (List.filter (fun c0 => negb (Pos.eqb (conn_id c0) id)) l = l) as ->; [|done].
    clear IH Hn. induction l as [|y l IH]; simpl; [done|].
    apply not_elem_of_cons in Hni as [Hy Hni].
    destruct (Pos.eqb (conn_id y) id) eqn:Ey; simpl; [apply Pos.eqb_eq in Ey; congruence|].
    by rewrite IH.
  - intros Hf. destruct (IH Hn Hf) as [Hi Hp]. split; [done|]. rewrite Hp at 1. apply Permutation_swap.
Qed.

Lemma store_conn_split w id c c' :
  NoDup (conn_id <$> connections w) -> find_conn w id = Some c -> conn_id c' = id ->
  store_conn c' (connections w) ≡ₚ c' :: unlink id (connections w) /\
  conn_id <$> store_conn c' (connections w) = conn_id <$> connections w.
Proof.
  intros Hn Hf Hi. subst id. split.
  - revert Hn Hf. unfold find_conn, unlink, store_conn.
    induction (connections w) as [|x l IH]; simpl; [done|].
    intros [Hni Hn]%list.NoDup_cons. destruct (Pos.eqb (conn_id x) (conn_id c')) eqn:E; simpl.
    + intros _. apply Pos.eqb_eq in E. constructor.
      assert (forall y, y ∈ l -> Pos.eqb (conn_id y) (conn_id c') = false) as Hne.
      { intros y Hy. apply Pos.eqb_neq. intros Heq. apply Hni. rewrite E, <- Heq.
        by apply list_elem_of_fmap_2. }
      clear IH Hn Hni. induction l as [|y l IH]; simpl; [done|].
      rewrite (Hne y) by by left. simpl. constructor. apply IH. intros z Hz. apply Hne. by right.
    + intros Hf. rewrite (IH Hn Hf). apply Permutation_swap.
  - unfold store_conn. change (map ?f (connections w)) with (f <$> connections w).
    rewrite <- list_fmap_compose. apply list_fmap_ext. intros i x _. simpl.
    destruct (Pos.eqb _ _) eqn:E; [by apply Pos.eqb_eq in E|done].
Qed.

Lemma unlink_nodup id l : NoDup (conn_id <$> l) -> NoDup (conn_id <$> unlink id l).
Proof.
  unfold unlink. induction l as [|x l IH]; simpl; [done|]. intros [Hni Hn]%list.NoDup_cons.
  destruct (negb _); simpl; [|auto]. apply list.NoDup_cons. split; [|auto].
  intros (y & Hy & Hin)%list_elem_of_fmap. apply Hni. rewrite Hy. apply list_elem_of_fmap_2.
  apply list_elem_of_In, List.filter_In in Hin as [Hin _]. by apply list_elem_of_In.
Qed.

(** The drain check only ever adds to what it promises. *)
Lemma check_drain_core w :
  let w' := worker_check_drain w in
  connections w' = connections w /\ active_connections w' = active_connections w /\
  slots w' = slots w /\ h2_streams_active w' = h2_streams_active w /\ draining w' = draining w /\
  drain_inv w'.
Proof.
  destruct w as [wid cfg pages sm rl acl dr ls tls ld tld st act]. unfold worker_check_drain, drain_inv.
  simpl. destruct dr; simpl; [|by split_and!].
  destruct ls, tls, ld, tld; simpl; destruct (act =? 0) eqn:Ea; b2p; simpl; by split_and!.
Qed.

(** A frame-preserving step keeps the drain condition. *)
Lemma frame_drain w w' : frame w' = frame w -> drain_inv w -> drain_inv w'.
Proof.
  unfold frame, drain_inv. intros Hf. injection Hf as E1 E2 E3 E4 E5 E6 E7 E8 E9 E10 E11 E12 E13 E14 E15 E16.
  by rewrite E2, E4, E6, E7, E8, E9, E10.
Qed.

Lemma frame_connections w w' : frame w' = frame w -> connections w' = connections w.
Proof. unfold frame. congruence. Qed.
Lemma frame_active w w' : frame w' = frame w -> active_connections w' = active_connections w.
Proof. unfold frame. congruence. Qed.

(** Lifting a balanced step of one connection to the worker. *)
Lemma handled_inv w id c c0 r :
  worker_inv w -> find_conn w id = Some c -> same_part c c0 -> handled w c0 r ->
  worker_inv (match r with (w', Some c') => w' <| connections ::= store_conn c' |> | (w', None) => w' end).
Proof.
  intros [Hids Hsl Hmk Hac Hst Hdr] Hf Hsame Hh.
  assert (handled w c r) as Hh' by by eapply handled_update. clear Hh Hsame c0.
  destruct (find_conn_split w id c Hids Hf) as [Hid Hp].
  pose proof (conns_part_perm _ _ Hp) as Hpp.
  pose proof (p_equiv_trans _ _ _ Hpp (conns_part_cons _ _)) as (Hheld & Hcnt & Hok).
  simpl in Hheld, Hcnt, Hok. unfold all_held in Hsl. rewrite Hheld in Hsl.
  rewrite Hok in Hmk. destruct Hmk as [Hmc Hmr].
  set (rest := flat_map conn_held (unlink id (connections w))) in *.
  set (k := zlen (flat_map streams_of (unlink id (connections w)))) in *.
  assert (0 <= k) as Hk by apply zlen_nonneg.
  assert (zlen (connections w) = zlen (unlink id (connections w)) + 1) as Hlen.
  { unfold zlen. rewrite Hp at 1. simpl length. lia. }
  destruct r as [w' [c'|]].
  - destruct Hh' as [[HS HF] Hid']. rewrite Hid in Hid'.
    destruct (store_conn_split w id c c' Hids Hf Hid') as [Hp' Hk'].
    destruct (HS rest k Hk Hmc) as (Hmc' & Hsl' & Hst'); [exact Hsl|simpl; lia|].
    pose proof (p_equiv_trans _ _ _ (conns_part_perm _ _ Hp') (conns_part_cons _ _)) as (Hh2 & Hc2 & Ho2).
    simpl in Hh2, Hc2, Ho2. fold rest in Hh2. fold k in Hc2.
    pose proof (frame_connections _ _ HF) as Hcon. pose proof (frame_active _ _ HF) as Hact.
    split; simpl; rewrite ?Hcon.
    + by rewrite Hk'.
    + unfold all_held. by rewrite Hh2.
    + by rewrite Ho2.
    + rewrite Hact, Hac. unfold store_conn, zlen. by rewrite length_map.
    + rewrite Hst', Hc2. done.
    + exact (frame_drain _ _ HF Hdr).
  - destruct Hh' as (w1 & [HS HF] & ->). rewrite Hid in *.
    destruct (HS rest k Hk Hmc) as (_ & Hsl' & Hst'); [exact Hsl|simpl; lia|].
    pose proof (frame_connections _ _ HF) as Hcon. pose proof (frame_active _ _ HF) as Hact.
    simpl in Hcon, Hact.
    destruct (check_drain_core (bump requests_processed (w1 <| active_connections ::= Z.pred |>)))
      as (E1 & E2 & E3 & E4 & _ & E6). cbn zeta in *.
    split; [| | | | |exact E6]; rewrite ?E1, ?E2, ?E3, ?E4; simpl; rewrite ?Hcon.
    + by apply unlink_nodup.
    + exact Hsl'.
    + done.
    + rewrite Hact, Hac. lia.
    + exact Hst'.
Qed.

(** ** Every event keeps the invariant *)

Section Preservation.
Context `{Inet} `{SslBuild}.

(** The slot a client is admitted with, not yet owned by a connection. *)
Definition admitted (w w' : WorkerProcess) : Prop :=
  accounts (slots w') (TIER_NORMAL :: all_held (connections w)) /\
  active_connections w' = active_connections w + 1 /\ connections w' = connections w /\
  h2_streams_active w' = h2_streams_active w /\ draining w' = draining w /\ draining w = false.

Lemma inv_core w w' : core w' = core w -> worker_inv w -> worker_inv w'.
Proof.
  intros Hc [Hids Hsl Hmk Hac Hst Hdr]. pose proof (core_frame _ _ Hc) as Hf.
  pose proof (frame_connections _ _ Hf) as Ec. pose proof (frame_active _ _ Hf) as Ea.
  split; rewrite ?Ec, ?Ea, ?(core_slots _ _ Hc), ?(core_streams _ _ Hc); try done.
  exact (frame_drain _ _ Hf Hdr).
Qed.

Lemma bump_inv c w : worker_inv w -> worker_inv (bump c w).
Proof. by apply inv_core. Qed.

(** Fields that the invariant does not mention. *)
Lemma inv_tls w h t : worker_inv w -> worker_inv (w <| ssl_heap := h |> <| tls := t |>).
Proof. intros [Hids Hsl Hmk Hac Hst Hdr]. by split. Qed.

Lemma inv_rate_limiter w rl : worker_inv w -> worker_inv (w <| rate_limiter := rl |>).
Proof. intros [Hids Hsl Hmk Hac Hst Hdr]. by split. Qed.

Lemma check_client_spec e w addr :
  worker_inv w ->
  match check_client e w addr with
  | inl (w', _) => worker_inv w'
  | inr w' => admitted w w'
  end.
Proof.
  intros Hw. unfold check_client. destruct (draining w) eqn:Ed; [done|].
  destruct (bool_decide (_ = IP_ACL_BLOCK)); [by apply bump_inv|].
  set (r := if bool_decide (_ = IP_ACL_ALLOW) then _ else _).
  assert (worker_inv (fst r) /\ connections (fst r) = connections w /\
          active_connections (fst r) = active_connections w /\ slots (fst r) = slots w /\
          h2_streams_active (fst r) = h2_streams_active w /\ draining (fst r) = draining w)
    as (Hr & E1 & E2 & E3 & E4 & E5).
  { unfold r. destruct (bool_decide _); [split; [by apply bump_inv|done]|].
    destruct (rate_limiter_allow _ _ _ _) as [rl ok]. split; [by apply inv_rate_limiter|done]. }
  destruct r as [w1 allowed]. cbn [fst] in *. destruct allowed; cbn [negb]; [|by apply bump_inv].
  pose proof (sm_acquire_accounts (slots w1) _ TIER_NORMAL (wi_slots _ Hr)) as Ha.
  destruct (slot_manager_acquire (slots w1) TIER_NORMAL) as [sm got]. destruct got; cbn [negb].
  - split; [simpl; by rewrite <- E1|]. simpl. rewrite E1, E2, E4, E5, Ed. split_and!; (done || lia).
  - destruct Ha as [-> _]. eapply inv_core; [|exact Hr]. done.
Qed.

Lemma abandon_inv w w' : worker_inv w -> admitted w w' -> worker_inv (abandon w').
Proof.
  intros [Hids Hsl Hmk Hac Hst Hdr] (Ha & E2 & E1 & E4 & E5 & Ed).
  split; simpl; rewrite ?E1; try done.
  - by apply sm_release_accounts.
  - lia.
  - congruence.
  - unfold drain_inv. simpl. congruence.
Qed.

(** Linking the new connection in. *)
Lemma link_inv w w' id addr t (tls : bool) :
  worker_inv w -> admitted w w' -> id ∉ conn_id <$> connections w ->
  let '(w2, conn) := connection_init_common w' id addr t in
  worker_inv w2 /\
  worker_inv (w2 <| connections ::= store_conn (conn <| ssl := true |> <| tls_handshake_done := false |>) |>).
Proof.
  intros [Hids Hsl Hmk Hac Hst Hdr] (Ha & E2 & E1 & E4 & E5 & Ed) Hfresh.
  unfold connection_init_common.
  set (c := {| conn_id := id |}).
  set (c' := c <| ssl := true |> <| tls_handshake_done := false |>).
  assert (forall d, conn_held d = [TIER_NORMAL] -> streams_of d = [] -> conn_id d = id ->
            p_ok (conn_part d) ->
            worker_inv (w' <| request_counter ::= fun n => u32 (n + 1) |> <| connections := d :: connections w |>))
    as Hlink.
  { intros d Hd1 Hd2 Hd3 Hd4. split; simpl.
    - rewrite Hd3. by apply list.NoDup_cons.
    - rewrite Hd1. exact Ha.
    - by constructor.
    - rewrite E2, Hac, zlen_cons. lia.
    - rewrite E4, Hst, Hd2. done.
    - unfold drain_inv. simpl. congruence. }
  assert (p_ok (conn_part c) /\ p_ok (conn_part c')) as [Ho Ho'].
  { unfold c', c, conn_part, own_part, tls_ok, streams_of. simpl. repeat split; constructor. }
  split.
  - specialize (Hlink c eq_refl eq_refl eq_refl Ho). rewrite <- E1 in Hlink. exact Hlink.
  - specialize (Hlink c' eq_refl eq_refl eq_refl Ho').
    replace (w' <| request_counter ::= fun n => u32 (n + 1) |> <| connections ::= cons c |>
               <| connections ::= store_conn c' |>)
      with (w' <| request_counter ::= fun n => u32 (n + 1) |> <| connections := c' :: connections w |>);
      [done|].
    simpl. f_equal. rewrite E1, Pos.eqb_refl. f_equal.
    clear -Hfresh. induction (connections w) as [|x l IH]; simpl in *; [done|].
    apply not_elem_of_cons in Hfresh as [Hx Hl].
    destruct (Pos.eqb (conn_id x) id) eqn:E; [apply Pos.eqb_eq in E; congruence|]. by rewrite <- IH.
Qed.

Lemma accept_inv e w addr :
  worker_inv w -> new_id e ∉ conn_id <$> connections w -> worker_inv (fst (accept_cb e w addr)).
Proof.
  intros Hw Hf. unfold accept_cb. pose proof (check_client_spec e w addr Hw) as Hc.
  destruct (check_client e w addr) as [[w1 res]|w1]; [done|]. unfold connection_new.
  destruct (negb (conn_ok e)); [by eapply abandon_inv|].
  destruct (negb (bev_ok e)); [by eapply abandon_inv|].
  pose proof (link_inv w w1 (new_id e) addr (mono_ns e) false Hw Hc Hf) as Hl.
  destruct (connection_init_common w1 (new_id e) addr (mono_ns e)) as [w2 conn]. apply Hl.
Qed.

Lemma tls_accept_inv e w addr :
  worker_inv w -> new_id e ∉ conn_id <$> connections w -> worker_inv (fst (tls_accept_cb e w addr)).
Proof.
  intros Hw Hf. unfold tls_accept_cb. pose proof (check_client_spec e w addr Hw) as Hc.
  destruct (check_client e w addr) as [[w1 res]|w1]; [done|].
  destruct (negb (tls_create_ssl _ _)); [by eapply abandon_inv|].
  destruct (negb (ssl_bev_ok e)); [by eapply abandon_inv|]. unfold connection_new_with_bev.
  destruct (negb (conn_ok e)); [by eapply abandon_inv|].
  pose proof (link_inv w w1 (new_id e) addr (mono_ns e) true Hw Hc Hf) as Hl.
  destruct (connection_init_common w1 (new_id e) addr (mono_ns e)) as [w2 conn]. apply Hl.
Qed.

Lemma with_conn_inv w id (h : WorkerProcess -> Connection -> WorkerProcess * option Connection)
    (f : Connection -> Connection) :
  (forall c, same_part c (f c)) -> (forall w c, handled w c (h w c)) -> worker_inv w ->
  worker_inv (with_conn w id (fun w c => h w (f c))).
Proof.
  intros Hf Hh Hw. unfold with_conn. destruct (find_conn w id) as [c|] eqn:Ec; [|done].
  exact (handled_inv w id c (f c) (h w (f c)) Hw Ec (Hf c) (Hh w (f c))).
Qed.

Lemma drain_step_inv w : worker_inv w -> worker_inv (signal_cb w).
Proof.
  intros [Hids Hsl Hmk Hac Hst Hdr]. unfold signal_cb.
  destruct (check_drain_core (w <| draining := true |>)) as (E1 & E2 & E3 & E4 & _ & E6). cbn zeta in *.
  split; [| | | | |exact E6]; rewrite ?E1, ?E2, ?E3, ?E4; done.
Qed.

Lemma dispatch_inv w ev : worker_inv w -> fresh_event w ev -> worker_inv (dispatch w ev).
Proof.
  intros Hw Hf. destruct ev; cbn [dispatch].
  - by apply accept_inv.
  - by apply tls_accept_inv.
  - apply (with_conn_inv w id (conn_read_cb e) (fun c => c <| input ::= fun i => i ++ data |>));
      [done|apply conn_read_cb_handled|done].
  - apply (with_conn_inv w id (conn_write_cb t) (fun c => c <| output ::= drop n |>));
      [done|apply conn_write_cb_handled|done].
  - apply (with_conn_inv w id (conn_event_cb ev) (fun c => c));
      [done|apply conn_event_cb_handled|done].
  - by apply drain_step_inv.
  - unfold signal_reload_cb. case_match; [done|]. do 2 case_match. by apply inv_tls.
  - by apply inv_rate_limiter.
  - destruct Hw as [Hids Hsl Hmk Hac Hst Hdr]. destruct err; simpl; split; try done.
    intros Hd. destruct (Hdr Hd) as (? & ? & ?). by split_and!.
Qed.

Lemma worker_main_inv e wid cfg w :
  config_wf cfg -> worker_main e wid cfg = Started w -> worker_inv w.
Proof.
  intros (_ & _ & (Hn & Hl & Hh) & _) Hm.
  assert (slots w = slot_manager_init (slots_normal_max cfg) (slots_large_max cfg) (slots_huge_max cfg) /\
    connections w = [] /\ active_connections w = 0 /\ h2_streams_active w = 0 /\ draining w = false)
    as (E1 & E2 & E3 & E4 & E5).
  { unfold worker_main, start_tls in Hm. by repeat case_match; simplify_eq. }
  split; rewrite ?E1, ?E2, ?E3, ?E4; try done.
  - constructor.
  - apply init_accounts; unfold int_ok in *; lia.
  - intros Hd. congruence.
Qed.

Lemma frame_draining w w' : frame w' = frame w -> draining w' = draining w.
Proof. unfold frame. congruence. Qed.

Lemma with_conn_draining w id (h : WorkerProcess -> Connection -> WorkerProcess * option Connection) :
  (forall w c, exists c0, handled w c0 (h w c)) -> draining (with_conn w id h) = draining w.
Proof.
  intros Hh. unfold with_conn. destruct (find_conn w id) as [c|]; [|done].
  destruct (Hh w c) as [c0 Hc]. destruct (h w c) as [w1 [c1|]].
  - destruct Hc as [[_ HF] _]. exact (frame_draining _ _ HF).
  - destruct Hc as (w2 & [_ HF] & ->).
    destruct (check_drain_core (bump requests_processed (w2 <| active_connections ::= Z.pred |>)))
      as (_ & _ & _ & _ & -> & _). exact (frame_draining _ _ HF).
Qed.

Lemma dispatch_draining w ev : draining w = true -> draining (dispatch w ev) = true.
Proof.
  intros Hd. destruct ev; cbn [dispatch].
  - unfold accept_cb, check_client. by rewrite Hd.
  - unfold tls_accept_cb, check_client. by rewrite Hd.
  - rewrite with_conn_draining; [done|]. intros. eexists. apply conn_read_cb_handled.
  - rewrite with_conn_draining; [done|]. intros. eexists. apply conn_write_cb_handled.
  - rewrite with_conn_draining; [done|]. intros. eexists. apply conn_event_cb_handled.
  - unfold signal_cb. by destruct (check_drain_core (w <| draining := true |>)) as (_ & _ & _ & _ & -> & _).
  - unfold signal_reload_cb. by repeat case_match.
  - done.
  - by destruct err.
Qed.

Lemma reachable_draining w w' : rtc step w w' -> draining w = true -> draining w' = true.
Proof. induction 1 as [|x y z [w0 ev _] _ IH]; [done|]. intros Hd. by apply IH, dispatch_draining. Qed.

Lemma reachable_inv w w' : rtc step w w' -> worker_inv w -> worker_inv w'.
Proof. induction 1 as [|x y z [w0 ev Hf] _ IH]; [done|]. intros Hw. by apply IH, dispatch_inv. Qed.

End Preservation.

(** ** What a worker promises *)

Section Claims.
Context `{Inet} `{SslBuild}.

(** C1: No slot is ever leaked or given back twice.  In every state a worker reaches from its
    start, by any sequence of accepts, reads, writes, time-outs, HTTP/2 callbacks, signals
    and timers, with any allocation or library call failing: the used count of each tier is
    exactly the number of slots that the live connections and their streams hold, it is
    within the tier's maximum, and every live connection and stream holds exactly one slot. *)
Theorem worker_slot_accounting (e : StartEnv) (wid : Z) (cfg : Config) (w0 w : WorkerProcess) :
  config_wf cfg -> worker_main e wid cfg = Started w0 -> rtc step w0 w ->
  (forall t, slot_manager_current (slots w) t = tier_count t (all_held (connections w)) /\
             slot_manager_current (slots w) t <= slot_manager_max (slots w) t) /\
  Forall (fun c => slot_held c = true /\ Forall (fun s => slot_acquired s = true) (streams_of c))
         (connections w).
Proof.
  intros Hc Hm Hr. pose proof (reachable_inv _ _ Hr (worker_main_inv _ _ _ _ Hc Hm)) as Hi.
  split; [exact (wi_slots _ Hi)|]. eapply Forall_impl; [apply (wi_marked _ Hi)|].
  intros c [[? _] ?]. by split.
Qed.

(** C2: The gauges are exact and connections are distinct: [active_connections] is the number
    of live connections and [h2_streams_active] the number of their streams in every
    reachable state, so an idle worker has no slot in use. *)
Theorem worker_gauges_exact (e : StartEnv) (wid : Z) (cfg : Config) (w0 w : WorkerProcess) :
  config_wf cfg -> worker_main e wid cfg = Started w0 -> rtc step w0 w ->
  NoDup (conn_id <$> connections w) /\
  active_connections w = zlen (connections w) /\
  h2_streams_active w = zlen (flat_map streams_of (connections w)) /\
  (active_connections w = 0 ->
     h2_streams_active w = 0 /\ forall t, slot_manager_current (slots w) t = 0).
Proof.
  intros Hc Hm Hr. pose proof (reachable_inv _ _ Hr (worker_main_inv _ _ _ _ Hc Hm)) as Hi.
  split_and!; [apply Hi..|]. intros Ha. rewrite (wi_active _ Hi) in Ha.
  assert (connections w = []) as En by (destruct (connections w); [done|rewrite zlen_cons in Ha;
    unfold zlen in Ha; lia]).
  split; [by rewrite (wi_streams _ Hi), En|]. intros t.
  destruct (wi_slots _ Hi t) as [Hu _]. rewrite En in Hu. exact Hu.
Qed.

(** Graceful drain: once SIGUSR1 has been handled, in every later state the worker is
    still draining, both listeners are disabled, a new client is turned away without any
    change, and as soon as no connection is left the event loop has been told to exit. *)
Theorem drain_completes (e : StartEnv) (wid : Z) (cfg : Config) (w0 w w' : WorkerProcess) :
  config_wf cfg -> worker_main e wid cfg = Started w0 -> rtc step w0 w -> rtc step (signal_cb w) w' ->
  draining w' = true /\
  (listener w' = true -> listener_disabled w' = true) /\
  (tls_listener w' = true -> tls_listener_disabled w' = true) /\
  (forall ae addr, accept_cb ae w' addr = (w', Closed) /\ tls_accept_cb ae w' addr = (w', Closed)) /\
  (connections w' = [] -> loopexit w' = true).
Proof.
  intros Hc Hm Hr Hr'. pose proof (reachable_inv _ _ Hr (worker_main_inv _ _ _ _ Hc Hm)) as Hi.
  pose proof (reachable_inv _ _ Hr' (drain_step_inv _ Hi)) as Hi'.
  assert (draining w' = true) as Hd.
  { apply (reachable_draining _ _ Hr'). unfold signal_cb.
    by destruct (check_drain_core (w <| draining := true |>)) as (_ & _ & _ & _ & -> & _). }
  destruct (wi_drain _ Hi' Hd) as (H1 & H2 & H3). split_and!; try done.
  - intros ae addr. unfold accept_cb, tls_accept_cb, check_client. by rewrite Hd.
  - intros En. apply H3. by rewrite (wi_active _ Hi'), En.
Qed.

End Claims.

(** ** Witnesses *)

Definition sample_page (name : chars) : PageFile :=
  {| st_size := Some 2; malloc_ok := true; open_ok := true; reads := [ReadBytes (str "ok")] |}.

(** A build against OpenSSL 3, where every call succeeds. *)
Definition openssl3 : SslBuild := mkSslBuild true true true.

Definition sample_ssl : SslEnv :=
  {| ssl_ctx_new := true; use_chain_file := fun _ => true; use_key_file := fun _ => true;
     key_matches := true; not_after := Some (90, 0); ssl_time := 1700000000;
     set_cipher_list_ok := true |}.

Definition sample_socket : SocketEnv :=
  {| socket_ok := true; default_v6only := false; fcntl_ok := true; reuseport_ok := true;
     reuseaddr_ok := true; v6only_ok := true; bind_ok := fun _ => true; listen_ok := true |}.

Definition sample_start : StartEnv :=
  {| se_now := 0; se_time := 1700000000; nprocessors := 4; rl_calloc_ok := true; acl_calloc1_ok := true; acl_calloc2_ok := true;
     acl_malloc := fun _ => true; list_file := fun _ => None; disk := sample_page;
     event_base_ok := true; cookie_files := fun _ => None; resolve_host := fun _ _ => None;
     socket_env := sample_socket; listener_ok := true; start_ssl := sample_ssl;
     tls_socket_env := sample_socket; tls_listener_ok := true; evsignal_ok := true;
     evsignal_reload_ok := true; cleanup_event_ok := true |}.

Definition sample_accept (id : positive) : event :=
  EvAccept {| clock := {| mono := 1; wall := 1700000000 |}; mono_ns := 1000; rl_entry_ok := true;
              conn_ok := true; bev_ok := true; ssl_ok := true; ssl_bev_ok := true; new_id := id |}
           (SockInet (str "10.0.0.1") 4000).

Definition sample_session_send : SessionSend := {| ss_events := []; ss_writes := []; ss_ok := true |}.

Definition sample_request_env : RequestEnv :=
  {| health_env := {| he_now := 0; he_time := 0; proc_self_fd := Some [str "."; str ".."; str "0"];
                    rlimit_nofile := Some 1024 |};
     fs := fun _ => None;
     send_env := {| body_source_ok := true; body_data_ok := true; submit_ok := true;
                    session_send_ok := true |} |}.

Definition sample_read_env : ReadEnv :=
  {| now := 2000; ssl_init_finished := false; ssl_version := TLS1_3_VERSION; alpn_offer := None;
     h2_init := {| h2_calloc_ok := true; callbacks_ok := true; option_ok := true;
                   session_ok := true; settings_ok := true |};
     h2_preface := sample_session_send; pullup_ok := true;
     h2_recv := {| sr_events := []; sr_ok := true |}; h2_send := sample_session_send;
     path_malloc_ok := true; mem_after := []; request_env := sample_request_env |}.

Definition alive_request : chars := str "GET /alive HTTP/1.1" ++ HEADER_END.

(** Two clients connect and the first sends a request. *)
Definition sample_events : list event :=
  [sample_accept 1; sample_accept 2; EvRead 1 alive_request sample_read_env].

Definition run (w : WorkerProcess) (evs : list event) : WorkerProcess :=
  foldl (@dispatch inet_quad openssl3) w evs.

Lemma run_steps w evs :
  (forall k w' ev, w' = run w (take k evs) -> evs !! k = Some ev -> fresh_event w' ev) ->
  rtc (@step inet_quad openssl3) w (run w evs).
Proof.
  revert w. induction evs as [|ev evs IH]; intros w Hf; [apply rtc_refl|].
  unfold run. cbn [foldl]. eapply rtc_l.
  - apply (@step_event inet_quad openssl3). exact (Hf O w ev eq_refl eq_refl).
  - apply IH. intros k w' ev' Hw Hk. exact (Hf (S k) w' ev' Hw Hk).
Qed.

Lemma sample_reachable w0 :
  @worker_main inet_quad openssl3 sample_start 0 default_values = Started w0 ->
  rtc (@step inet_quad openssl3) w0 (run w0 sample_events).
Proof.
  intros Hm. assert (connections w0 = []) as Hc by (vm_compute in Hm; by injection Hm as <-).
  apply run_steps. intros [|[|[|k]]] w' ev -> Hk; simplify_eq/=.
  - rewrite Hc. apply not_elem_of_nil.
  - vm_compute in Hm. injection Hm as <-. vm_compute. intros Hin.
    apply list_elem_of_singleton in Hin. discriminate.
  - done.
Qed.

Lemma worker_slot_accounting_witness :
  exists w0, @worker_main inet_quad openssl3 sample_start 0 default_values = Started w0 /\
    slot_manager_current (slots (run w0 sample_events)) TIER_NORMAL = 2.
Proof.
  destruct (@worker_main inet_quad openssl3 sample_start 0 default_values) as [w0| |] eqn:Hm;
    [|vm_compute in Hm; discriminate..].
  exists w0. split; [done|].
  destruct (@worker_slot_accounting inet_quad openssl3 sample_start 0 default_values w0 (run w0 sample_events)
    default_values_wf Hm (sample_reachable w0 Hm)) as [Hs _].
  destruct (Hs TIER_NORMAL) as [-> _]. vm_compute in Hm. injection Hm as <-. vm_compute. reflexivity.
Defined.

Lemma worker_gauges_exact_witness :
  exists w0, @worker_main inet_quad openssl3 sample_start 0 default_values = Started w0 /\
    active_connections (run w0 sample_events) = 2.
Proof.
  destruct (@worker_main inet_quad openssl3 sample_start 0 default_values) as [w0| |] eqn:Hm;
    [|vm_compute in Hm; discriminate..].
  exists w0. split; [done|].
  destruct (@worker_gauges_exact inet_quad openssl3 sample_start 0 default_values w0 (run w0 sample_events)
    default_values_wf Hm (sample_reachable w0 Hm)) as (_ & -> & _).
  vm_compute in Hm. injection Hm as <-. vm_compute. reflexivity.
Defined.

(** After the drain signal both clients time out, and the worker leaves. *)
Lemma drain_completes_witness :
  exists w0, @worker_main inet_quad openssl3 sample_start 0 default_values = Started w0 /\
    let timeout := {| BEV_EVENT_CONNECTED := false; BEV_EVENT_TIMEOUT := true;
                      BEV_EVENT_ERROR := false; ssl_errors := 0 |} in
    loopexit (run (signal_cb (run w0 sample_events)) [EvBev 1 timeout; EvBev 2 timeout]) = true.
Proof.
  destruct (@worker_main inet_quad openssl3 sample_start 0 default_values) as [w0| |] eqn:Hm;
    [|vm_compute in Hm; discriminate..].
  exists w0. split; [done|]. intros timeout.
  apply (@drain_completes inet_quad openssl3 sample_start 0 default_values w0 (run w0 sample_events)
    (run (signal_cb (run w0 sample_events)) [EvBev 1 timeout; EvBev 2 timeout])
    default_values_wf Hm (sample_reachable w0 Hm)).
  - apply run_steps. intros [|[|k]] w' ev -> Hk; by simplify_eq/=.
  - vm_compute in Hm. injection Hm as <-. vm_compute. reflexivity.
Defined.
