(* ===== verification/WorkerSpec.v ===== *)
(** * More properties of the worker

    The TLS context over the life of a worker, the protocol of its
    connections, and the end of a drain. *)
From Stdlib Require Import ZArith QArith Lia Ascii String.
From stdpp Require Import base sets list numbers strings relations.
From S2P Require Import Prelude CLib Addr Router Network Config Slots IpAcl RateLimiter Rpc Tls Sockets State Endpoints Metrics Http2 StaticFiles Connection Balance Worker.

#[local] Open Scope Z_scope.

(** ** What handlers leave alone *)

Definition tls_part (w : WorkerProcess) := (config w, tls w, ssl_heap w, rpc w).

Lemma frame_tls_part w w' : frame w' = frame w -> tls_part w' = tls_part w.
Proof. unfold frame, tls_part. congruence. Qed.

Lemma check_drain_keeps w :
  tls_part (worker_check_drain w) = tls_part w /\ connections (worker_check_drain w) = connections w.
Proof. unfold worker_check_drain. repeat case_match; done. Qed.

(** The worker after a handler: the list of connections is as it was, or
    without the one that was freed. *)
Lemma handled_keeps w c w' r :
  handled w c (w', r) ->
  tls_part w' = tls_part w /\
  match r with
  | Some c' => connections w' = connections w /\ conn_id c' = conn_id c
  | None => connections w' = unlink (conn_id c) (connections w)
  end.
Proof.
  destruct r as [c'|].
  - intros [[_ HF] Hi]. split; [by apply frame_tls_part|]. split; [by apply frame_connections|done].
  - intros (w1 & [_ HF] & ->).
    destruct (check_drain_keeps (bump requests_processed (w1 <| active_connections ::= Z.pred |>))) as [-> ->].
    split; [exact (frame_tls_part _ _ HF)|exact (frame_connections _ _ HF)].
Qed.

(** Running a handler on a connection of the worker. *)
Lemma with_conn_cases w id (h : WorkerProcess -> Connection -> WorkerProcess * option Connection)
    (f : Connection -> Connection) :
  (forall c, conn_id (f c) = conn_id c) -> (forall w c, handled w c (h w c)) ->
  let w' := with_conn w id (fun w c => h w (f c)) in
  tls_part w' = tls_part w /\
  ((w' = w /\ find_conn w id = None) \/
   (exists c, find_conn w id = Some c /\ conn_id c = id /\
      match snd (h w (f c)) with
      | Some c' => connections w' = store_conn c' (connections w) /\ conn_id c' = id
      | None => connections w' = unlink id (connections w)
      end)).
Proof.
  intros Hf Hh. cbv zeta. unfold with_conn. destruct (find_conn w id) as [c|] eqn:Ec.
  2: { split; [done|]. by left. }
  assert (conn_id c = id) as Hid.
  { unfold find_conn in Ec. apply find_some in Ec as [_ Ec]. by apply Pos.eqb_eq in Ec. }
  pose proof (Hh w (f c)) as H. destruct (h w (f c)) as [w1 r] eqn:Er.
  apply handled_keeps in H as [Ht Hr]. rewrite Hf, Hid in Hr.
  destruct r as [c'|]; (split; [exact Ht|right; exists c; split_and!; [done|done|]]); rewrite Er; simpl.
  - destruct Hr as [-> ?]. done.
  - exact Hr.
Qed.

(** ** The TLS context *)

Section Tls.
Context `{Inet} `{SslBuild}.

(** Without TLS there is no context; with TLS exactly one, configured as
    [tls_context_init] does, and the HTTP/2 switch is that of the
    configuration. *)
Definition tls_inv (w : WorkerProcess) : Prop :=
  if tls_enabled (config w) =? 0
  then tls w = zero_tls /\ owns (ssl_heap w) []
  else exists id, ctx (tls w) = Some (hardened (config w) id) /\ owns (ssl_heap w) [id] /\
         tls_http2_enabled (tls w) = negb (http2_enabled (config w) =? 0).

Lemma tls_part_inv w w' : tls_part w' = tls_part w -> tls_inv w -> tls_inv w'.
Proof. unfold tls_part, tls_inv. by intros [= -> -> -> _]. Qed.

Lemma check_client_keeps e w addr :
  match check_client e w addr with
  | inl (w', _) | inr w' => tls_part w' = tls_part w /\ connections w' = connections w
  end.
Proof.
  unfold check_client. destruct (draining w); [done|]. destruct (bool_decide _); [done|].
  set (r := if bool_decide _ then _ else _).
  assert (tls_part (fst r) = tls_part w /\ connections (fst r) = connections w) as [E1 E2]
    by (unfold r; repeat case_match; done).
  destruct r as [w1 allowed]. simpl in E1, E2. destruct allowed; [|done]. cbn [negb].
  destruct (slot_manager_acquire _ _) as [sm got]. by destruct got.
Qed.

(** Accepting leaves the context alone and adds at most one connection, which
    speaks HTTP/1.1 to begin with. *)
Definition new_session (id : positive) (c : Connection) : Prop :=
  conn_id c = id /\ h2 c = None /\ protocol c = PROTO_HTTP_1_1 /\ tls_handshake_done c = false.

Lemma accept_keeps e w addr :
  let w' := fst (accept_cb e w addr) in
  tls_part w' = tls_part w /\
  (connections w' = connections w \/
   (draining w = false /\ exists c, new_session (new_id e) c /\ connections w' = c :: connections w)).
Proof.
  cbv zeta. unfold accept_cb. pose proof (check_client_keeps e w addr) as Hk.
  destruct (check_client e w addr) as [[w1 r]|w1] eqn:Ec; destruct Hk as [E1 E2]; [by auto|].
  unfold connection_new. destruct (conn_ok e), (bev_ok e); simpl; auto.
  split; [exact E1|]. right. split; [|eexists; split; [|by rewrite E2]; by split_and!].
  unfold check_client in Ec. by destruct (draining w).
Qed.

Lemma store_head c c' l : conn_id c' = conn_id c -> conn_id c ∉ conn_id <$> l -> store_conn c' (c :: l) = c' :: l.
Proof.
  intros Hi Hn. unfold store_conn. cbn [map]. rewrite Hi, Pos.eqb_refl. f_equal.
  induction l as [|x l IH]; [done|]. simpl in *. apply not_elem_of_cons in Hn as [Hx Hl].
  rewrite (proj2 (Pos.eqb_neq _ _)) by done. by rewrite IH.
Qed.

Lemma tls_accept_keeps e w addr :
  new_id e ∉ conn_id <$> connections w ->
  let w' := fst (tls_accept_cb e w addr) in
  tls_part w' = tls_part w /\
  (connections w' = connections w \/
   (draining w = false /\ exists c, new_session (new_id e) c /\ connections w' = c :: connections w)).
Proof.
  intros Hn. cbv zeta. unfold tls_accept_cb. pose proof (check_client_keeps e w addr) as Hk.
  destruct (check_client e w addr) as [[w1 r]|w1] eqn:Ec; destruct Hk as [E1 E2]; [by auto|].
  destruct (tls_create_ssl _ _); [|by auto]. destruct (ssl_bev_ok e); [|by auto].
  unfold connection_new_with_bev. destruct (conn_ok e); [|by auto].
  split; [exact E1|]. right. split; [unfold check_client in Ec; by destruct (draining w)|].
  cbn -[store_conn]. rewrite E2, store_head by done. eexists. split; [|done]. by split_and!.
Qed.

Lemma dispatch_tls_part w ev :
  fresh_event w ev ->
  match ev with EvReload _ => True | _ => tls_part (dispatch w ev) = tls_part w end.
Proof.
  intros Hf. destruct ev; cbn [dispatch].
  - apply accept_keeps.
  - by apply tls_accept_keeps.
  - apply (with_conn_cases w id (conn_read_cb e) (fun c => c <| input ::= fun i => i ++ data |>));
      [done|apply conn_read_cb_handled].
  - apply (with_conn_cases w id (conn_write_cb t) (fun c => c <| output ::= drop n |>));
      [done|apply conn_write_cb_handled].
  - apply (with_conn_cases w id (conn_event_cb ev) (fun c => c)); [done|apply conn_event_cb_handled].
  - exact (proj1 (check_drain_keeps (w <| draining := true |>))).
  - done.
  - done.
  - by destruct err.
Qed.

Lemma reload_keeps e w :
  config (signal_reload_cb e w) = config w /\ connections (signal_reload_cb e w) = connections w.
Proof. unfold signal_reload_cb. by repeat case_match. Qed.

Lemma dispatch_config w ev : fresh_event w ev -> config (dispatch w ev) = config w.
Proof.
  intros Hf. pose proof (dispatch_tls_part w ev Hf) as Hp. unfold tls_part in Hp.
  destruct ev; try congruence. apply reload_keeps.
Qed.

Lemma reload_tls_inv e w : tls_inv w -> tls_inv (signal_reload_cb e w).
Proof.
  intros Hw. unfold signal_reload_cb. unfold tls_inv in Hw. destruct (tls_enabled (config w) =? 0) eqn:Et;
    [unfold tls_inv; by rewrite Et|].
  destruct Hw as (id & Hc & Ho & Hh). destruct (tls_context_reload _ _ _ _) as [[h t] rc] eqn:Er.
  pose proof (reload_spec e (config w) _ _ _ [] h t rc Hc Ho ltac:(apply not_elem_of_nil) Er) as Hs.
  unfold tls_inv. cbn [config ssl_heap tls update eta eta_WorkerProcess]. rewrite Et.
  destruct (setup_ok e (config w)).
  - destruct Hs as (_ & Ho' & _ & ->). exists (next_ctx (ssl_heap w)). by split_and!.
  - destruct Hs as (_ & Ho' & ->). by exists id.
Qed.

Lemma dispatch_tls_inv w ev : fresh_event w ev -> tls_inv w -> tls_inv (dispatch w ev).
Proof.
  intros Hf Hw. pose proof (dispatch_tls_part w ev Hf) as Hp.
  destruct ev; try by eapply tls_part_inv. by apply reload_tls_inv.
Qed.

Lemma empty_heap_owns : owns empty_heap [].
Proof. by split_and!. Qed.

Lemma start_tls_inv e cfg w w' :
  config w = cfg -> tls w = zero_tls -> ssl_heap w = empty_heap -> start_tls e cfg w = Some w' ->
  tls_inv w' /\ connections w' = connections w /\ config w' = cfg.
Proof.
  intros Hc Ht Hh. unfold start_tls. destruct (tls_enabled cfg =? 0) eqn:Et.
  - intros [= <-]. split_and!; [|done..]. unfold tls_inv. rewrite Hc, Et, Ht, Hh.
    split; [done|apply empty_heap_owns].
  - destruct (tls_context_init _ _ _) as [[h t] rc] eqn:Ei. rewrite Hh in Ei.
    destruct (init_spec _ _ _ _ _ _ _ empty_heap_owns Ei) as [H2 Hs].
    destruct (rc <? 0) eqn:Er; [done|]. destruct (create_tls_reuseport_socket _ _); [done|].
    destruct (negb (tls_listener_ok e)); [done|]. intros [= <-]. split_and!; [|done|exact Hc]. unfold tls_inv.
    cbn [config ssl_heap tls update eta eta_WorkerProcess]. rewrite Hc, Et.
    destruct (setup_ok (start_ssl e) cfg); b2p; [|lia].
    destruct Hs as (_ & Hx & _ & Ho). exists (next_ctx empty_heap). by split_and!.
Qed.

Lemma worker_main_tls_inv e wid cfg w :
  worker_main e wid cfg = Started w -> tls_inv w /\ connections w = [] /\ config w = cfg.
Proof.
  unfold worker_main. destruct (rate_limiter_init _ _ _) as [rl rc]. destruct (rc <? 0); [done|].
  destruct (ip_acl_context_init _ _) as [acl rc']. destruct (rc' <? 0); [done|]. cbv zeta.
  destruct (static_files_load _ _) as [files|]; [|done]. destruct (negb _); [done|].
  destruct (rpc_manager_init_async _ _ _ _ _ _) as [mgr|]; [|done].
  destruct (create_reuseport_socket _ _); [done|]. destruct (negb _); [done|].
  destruct (start_tls _ _ _) as [w1|] eqn:Es; [|done]. intros [= <-].
  apply start_tls_inv in Es as (Ht & Hc & Hg); [|done..].
  split_and!; [exact Ht|exact Hc|exact Hg].
Qed.

Lemma reachable_tls_inv w w' : rtc step w w' -> tls_inv w -> tls_inv w' /\ config w' = config w.
Proof.
  induction 1 as [|x y z [w0 ev Hf] _ IH]; [done|]. intros Hw.
  destruct (IH (dispatch_tls_inv _ _ Hf Hw)) as [Hz ->]. split; [done|by apply dispatch_config].
Qed.

Lemma cleanup_tls w h t :
  tls_context_free (tls w) (ssl_heap w) = (h, t) ->
  ssl_heap (worker_cleanup w) = h /\ tls (worker_cleanup w) = t.
Proof.
  destruct w. intros E.
  cbv beta iota zeta delta -[tls_context_free rpc_manager_cancel_all static_files_free rate_limiter_free
    ip_acl_context_free] in E |- *.
  by rewrite E.
Qed.

(** C5: The TLS context over the life of a worker.  In every state reached from the start,
    whatever reloads SIGUSR2 asked for and whichever of their steps failed, a worker with TLS
    owns exactly one [SSL_CTX], and it is configured exactly as the one [tls_context_init]
    makes: TLS 1.2 or later, the key checked against the certificate, the same options, cipher
    list, session settings and ALPN callback.  No context is leaked or freed twice, and after
    [worker_cleanup] none is left. *)
Theorem tls_context_lifecycle (e : StartEnv) (wid : Z) (cfg : Config) (w0 w : WorkerProcess) :
  worker_main e wid cfg = Started w0 -> rtc step w0 w ->
  config w = cfg /\ tls_inv w /\ bad_free (ssl_heap w) = false /\
  owns (ssl_heap (worker_cleanup w)) [] /\ ctx (tls (worker_cleanup w)) = None.
Proof.
  intros Hm Hr. destruct (worker_main_tls_inv _ _ _ _ Hm) as (Hi & _ & Hg).
  apply (reachable_tls_inv _ _ Hr) in Hi as [Hi ->]. split; [done|]. split; [done|].
  destruct (tls_context_free (tls w) (ssl_heap w)) as [h t] eqn:Ef.
  destruct (cleanup_tls _ _ _ Ef) as [-> ->]. unfold tls_context_free in Ef.
  unfold tls_inv in Hi. destruct (tls_enabled _ =? 0).
  - destruct Hi as [Hn Ho]. rewrite Hn in Ef. simpl in Ef. injection Ef as <- <-.
    by split_and!; [apply Ho| |].
  - destruct Hi as (id & Hs & Ho & _). rewrite Hs in Ef. injection Ef as <- <-. split_and!; [apply Ho| |done].
    apply (free_owns _ (hardened (config w) id) [] []); [done|apply not_elem_of_nil].
Qed.

End Tls.

(** ** Which protocol a connection speaks *)

(** The fields that decide it. *)
Definition sess (c : Connection) : bool * bool * ProtocolType * bool :=
  (ssl c, tls_handshake_done c, protocol c, bool_decide (is_Some (h2 c))).

Lemma downgrade_sess w c : sess (snd (downgrade_tier_to_normal w c)) = sess c.
Proof. unfold downgrade_tier_to_normal. repeat case_match; done. Qed.

Lemma process_sess e w c : sess (snd (process_request e w c)) = sess c.
Proof.
  unfold process_request. cbv zeta. destruct (route_request _); cbn [snd]; try done.
  - unfold serve_metrics. by destruct (generate_metrics_body _ _ _).
  - unfold serve_acme_challenge. by case_match.
Qed.

Lemma downgrade_process_sess e w c :
  sess (snd (let '(w, c) := downgrade_tier_to_normal w c in process_request e w c)) = sess c.
Proof.
  pose proof (downgrade_sess w c) as Hd. destruct (downgrade_tier_to_normal w c) as [w1 c1].
  by rewrite process_sess.
Qed.

Lemma parse_sess ok mem c headers : sess (fst (parse_request_headers ok mem c headers)) = sess c.
Proof. unfold parse_request_headers. by repeat case_match. Qed.

Lemma headers_complete_sess e w c n : sess (snd (headers_complete e w c n)) = sess c.
Proof.
  unfold headers_complete. destruct (negb _); [done|]. destruct (validate_path_early _ _) as [fl rc].
  destruct (rc <? 0); [done|].
  match goal with |- context [parse_request_headers ?ok ?mem ?c0 ?hs] =>
    pose proof (parse_sess ok mem c0 hs) as Hp; destruct (parse_request_headers ok mem c0 hs) as [c1 rc1] end.
  cbn [fst] in Hp. destruct (rc1 <? 0); [exact Hp|]. destruct (_ >? _); [exact Hp|]. cbv zeta.
  destruct (_ && _); [exact Hp|]. rewrite downgrade_process_sess. exact Hp.
Qed.

Lemma read_headers_sess e n w c : sess (snd (read_headers e n w c)) = sess c.
Proof.
  unfold read_headers. destruct (_ >? _); [done|].
  assert (sess (snd (fst (try_promote_tier w c n))) = sess c) as Hp
    by (unfold try_promote_tier; by repeat case_match).
  destruct (try_promote_tier w c n) as [[w1 c1] rc]. cbn [fst snd] in Hp. destruct (rc <? 0); [exact Hp|].
  destruct (search_from _ _); [rewrite headers_complete_sess; exact Hp|].
  destruct (_ && _); [|exact Hp]. destruct (validate_path_early _ _) as [fl rc2].
  destruct (rc2 <? 0); exact Hp.
Qed.

Lemma read_body_sess e n w c : sess (snd (read_body e n w c)) = sess c.
Proof.
  unfold read_body. destruct (_ <? _); destruct (_ >=? _); rewrite ?downgrade_process_sess; done.
Qed.

Lemma h2_pending_sess ss w c : sess (snd (fst (h2_send_pending ss w c))) = sess c.
Proof.
  unfold h2_send_pending. destruct (h2 c) as [hc|] eqn:E; [|done].
  destruct (run_callbacks _ _ _) as [w1 hc1].
  destruct (h2_write_all_output (ss_writes ss) (c <| h2 := Some hc1 |>)) as [o ->].
  unfold sess. simpl. by rewrite E.
Qed.

Lemma h2_input_sess sr ss w c : sess (snd (fst (h2_process_input sr ss w c))) = sess c.
Proof.
  unfold h2_process_input. destruct (h2 c) as [hc|] eqn:E; [|done].
  destruct (run_callbacks _ _ _) as [w1 hc1]. destruct (negb _).
  - unfold sess. simpl. by rewrite E.
  - rewrite h2_pending_sess. unfold sess. simpl. by rewrite E.
Qed.

(** What a hand-shake that has just completed decides. *)
Definition negotiated (w : WorkerProcess) (c : Connection) (s : bool * bool * ProtocolType * bool) : Prop :=
  s = sess c \/
  (ssl c = true /\ (s = (true, true, protocol c, bool_decide (is_Some (h2 c))) \/
                    (s = (true, true, PROTO_HTTP_2, true) /\ tls_http2_enabled (tls w) = true))).

Definition outcome_conn (o : outcome) : option Connection :=
  match o with Continue _ c => Some c | Return _ c => c end.

Lemma is_http2_enabled t offer : tls_is_http2 (alpn_selected t offer) = true -> tls_http2_enabled t = true.
Proof.
  unfold alpn_selected, tls_alpn_select_cb. destruct offer as [input|]; [|done].
  destruct (alpn_scan _ _ _ _) as [a b]. destruct (tls_http2_enabled t); [done|]. by destruct b.
Qed.

Lemma read_tls_sess e w c c' :
  outcome_conn (read_tls e w c) = Some c' -> negotiated w c (sess c').
Proof.
  unfold read_tls. destruct (ssl c && _ && _) eqn:Eg; [|intros [= <-]; by left]. b2p. cbv zeta.
  set (w1 := match ssl_version e return WorkerProcess with
             | TLS1_2_VERSION => _ | TLS1_3_VERSION => _ | TLS_OTHER => _ end).
  assert (tls w1 = tls w) as Ht by (unfold w1; by destruct (ssl_version e)). rewrite Ht.
  destruct (tls_is_http2 _) eqn:E2; [apply is_http2_enabled in E2|].
  - destruct (h2_connection_init _ _) as [c1 rc] eqn:Ei. destruct (rc <? 0) eqn:Er; [done|].
    pose proof (h2_pending_sess (h2_preface e) w1 c1) as Hs.
    destruct (h2_send_pending _ _ _) as [[w2 c2] rc2]. cbn [fst snd] in Hs.
    destruct (rc2 <? 0); [done|]. intros [= <-]. rewrite Hs. right. split; [done|]. right. split; [|done].
    unfold h2_connection_init in Ei.
    repeat (case_match; [injection Ei as <- <-; done|]). injection Ei as <- <-.
    unfold sess. simpl. by rewrite H.
  - intros [= <-]. right. split; [done|]. left. unfold sess. simpl. by rewrite H.
Qed.

Lemma and_then_conn o k c' :
  outcome_conn (and_then o k) = Some c' ->
  exists w1 c1, outcome_conn o = Some c1 /\
    ((o = Continue w1 c1 /\ outcome_conn (k w1 c1) = Some c') \/ c1 = c').
Proof.
  destruct o as [w1 c1|w1 [c1|]]; simpl; [intros Hk|intros [= <-]|done]; exists w1, c1; auto.
Qed.

Lemma conn_read_sess e w c w' c' :
  conn_read_cb e w c = (w', Some c') -> negotiated w c (sess c').
Proof.
  intros H. unfold conn_read_cb in H.
  assert (forall o, finish o = (w', Some c') -> outcome_conn o = Some c') as Hf
    by (intros [] Ho; simpl in *; congruence).
  apply Hf in H. clear Hf. apply and_then_conn in H as (w1 & c1 & Ht & H).
  apply read_tls_sess in Ht. destruct H as [[_ H]| ->]; [|done].
  assert (sess c' = sess c1) as ->; [|done]. apply and_then_conn in H as (w2 & c2 & Hs & H).
  assert (sess c2 = sess c1) as E2.
  { unfold read_slowloris in Hs. cbv zeta in Hs. repeat case_match; simplify_eq/=; done. }
  destruct H as [[_ H]| ->]; [|done]. rewrite <- E2. apply and_then_conn in H as (w3 & c3 & Hh & H).
  assert (sess c3 = sess c2) as E3.
  { unfold read_h2 in Hh. destruct (protocol c2); [by injection Hh as <-|].
    destruct (h2 c2) as [hc|] eqn:E; [|by injection Hh as <-]. destruct (_ && _); [|by injection Hh as <-].
    pose proof (h2_input_sess (h2_recv e) (h2_send e) w2 c2) as Hi.
    destruct (h2_process_input _ _ _ _) as [[w4 c4] rc]. cbn [fst snd] in Hi.
    destruct (rc <? 0); [done|]. injection Hh as <-. exact Hi. }
  destruct H as [[_ H]| ->]; [|done]. rewrite <- E3.
  destruct (state c3); try (by injection H as <-).
  - pose proof (read_headers_sess e (zlen (input c)) w3 c3) as Hx.
    destruct (read_headers _ _ _ _). by injection H as <-.
  - pose proof (read_body_sess e (zlen (input c)) w3 c3) as Hx.
    destruct (read_body _ _ _ _). by injection H as <-.
Qed.

Lemma conn_write_sess t w c w' c' : conn_write_cb t w c = (w', Some c') -> sess c' = sess c.
Proof.
  unfold conn_write_cb. destruct (_ >? _); [by intros [= <- <-]|]. cbv zeta.
  destruct (state c); try (by intros [= <- <-]). destruct (keep_alive c); [|by intros [= <- <-]].
  unfold connection_reset_for_keepalive.
  assert (sess (snd (fst (keepalive_slot (log_request_complete w c t) (clear_request c)))) = sess c) as Hk
    by (unfold keepalive_slot; by repeat case_match).
  destruct (keepalive_slot _ _) as [[w1 c1] ok]. cbn [fst snd] in Hk.
  destruct ok; cbn [negb]; repeat case_match; intros; simplify_eq/=; unfold sess; simpl; congruence.
Qed.

(** HTTP/2 and a session go together, and only after a TLS hand-shake of a
    server that has HTTP/2 enabled. *)
Definition sess_ok (h2_on : bool) (s : bool * bool * ProtocolType * bool) : Prop :=
  let '(tls_conn, done_, proto, session) := s in
  (session = true <-> proto = PROTO_HTTP_2) /\
  (session = true -> tls_conn = true /\ done_ = true /\ h2_on = true).

Definition h2_on (w : WorkerProcess) : bool := tls_http2_enabled (tls w).

Definition sess_inv (w : WorkerProcess) : Prop :=
  Forall (fun c => sess_ok (h2_on w) (sess c)) (connections w).

Lemma tls_part_h2_on w w' : tls_part w' = tls_part w -> h2_on w' = h2_on w.
Proof. unfold tls_part, h2_on. congruence. Qed.

Lemma negotiated_ok w c s : sess_ok (h2_on w) (sess c) -> negotiated w c s -> sess_ok (h2_on w) s.
Proof.
  unfold sess, h2_on. intros [H1 H2] [->|(Hs & [->|[-> Hh]])]; [by split| |by split].
  split; [done|]. intros Hx. destruct (H2 Hx) as (_ & _ & ?). done.
Qed.

Lemma store_forall (P : Connection -> Prop) c l : P c -> Forall P l -> Forall P (store_conn c l).
Proof.
  intros Hc Hl. unfold store_conn. apply Forall_fmap. eapply Forall_impl; [exact Hl|].
  intros x Hx. simpl. by destruct (Pos.eqb _ _).
Qed.

Lemma unlink_forall (P : Connection -> Prop) id l : Forall P l -> Forall P (unlink id l).
Proof.
  unfold unlink. rewrite !Forall_forall. intros Hl x Hx. apply Hl.
  apply list_elem_of_In, List.filter_In in Hx as [Hx _]. by apply list_elem_of_In.
Qed.

Lemma find_forall (P : Connection -> Prop) w id c :
  Forall P (connections w) -> find_conn w id = Some c -> P c.
Proof.
  intros Hl Hf. apply find_some in Hf as [Hin _]. rewrite Forall_forall in Hl.
  by apply Hl, list_elem_of_In.
Qed.

Lemma with_conn_sess w id (h : WorkerProcess -> Connection -> WorkerProcess * option Connection)
    (f : Connection -> Connection) :
  (forall c, conn_id (f c) = conn_id c /\ sess (f c) = sess c) -> (forall w c, handled w c (h w c)) ->
  (forall w c w' c', h w c = (w', Some c') -> sess_ok (h2_on w) (sess c) -> sess_ok (h2_on w) (sess c')) ->
  sess_inv w -> sess_inv (with_conn w id (fun w c => h w (f c))).
Proof.
  intros Hf Hh Hs Hw. destruct (with_conn_cases w id h f ltac:(apply Hf) Hh) as [Ht Hc]. cbv zeta in Hc.
  unfold sess_inv. rewrite (tls_part_h2_on _ _ Ht).
  destruct Hc as [[-> _]|(c & Hfc & _ & Hc)]; [exact Hw|].
  destruct (h w (f c)) as [w1 [c1|]] eqn:Er; simpl in Hc.
  - destruct Hc as [-> _]. apply store_forall; [|exact Hw]. eapply Hs; [exact Er|].
    rewrite (proj2 (Hf c)). exact (find_forall _ _ _ _ Hw Hfc).
  - rewrite Hc. by apply unlink_forall.
Qed.

Section Claims2.
Context `{Inet} `{SslBuild}.

Lemma new_session_ok b id c : new_session id c -> sess_ok b (sess c).
Proof. intros (_ & Hh & Hp & _). unfold sess, sess_ok. rewrite Hh, Hp. by split. Qed.

Lemma accepted_sess w w' id :
  tls_part w' = tls_part w ->
  (connections w' = connections w \/
   (draining w = false /\ exists c, new_session id c /\ connections w' = c :: connections w)) ->
  sess_inv w -> sess_inv w'.
Proof.
  intros Ht Hc Hw. unfold sess_inv. rewrite (tls_part_h2_on _ _ Ht).
  destruct Hc as [->|(_ & c & Hn & ->)]; [exact Hw|]. constructor; [by eapply new_session_ok|exact Hw].
Qed.

Lemma reload_h2_on e w : h2_on (signal_reload_cb e w) = h2_on w.
Proof.
  unfold signal_reload_cb, tls_context_reload, h2_on. destruct (_ =? 0); [done|].
  destruct (SSL_CTX_new _ _) as [h [c|]]; [|done]. cbv zeta.
  destruct (negb _); [done|]. destruct (negb _); [done|]. destruct (negb _); [done|]. by destruct (negb _).
Qed.

Lemma dispatch_sess_inv w ev : fresh_event w ev -> sess_inv w -> sess_inv (dispatch w ev).
Proof.
  intros Hf Hw. destruct ev; cbn [dispatch].
  - destruct (accept_keeps e w addr). by eapply accepted_sess.
  - destruct (tls_accept_keeps e w addr Hf). by eapply accepted_sess.
  - apply (with_conn_sess w id (conn_read_cb e) (fun c => c <| input ::= fun i => i ++ data |>));
      [done|apply conn_read_cb_handled| |done].
    intros w0 c w' c' Hr Hc. eapply negotiated_ok; [done|by eapply conn_read_sess].
  - apply (with_conn_sess w id (conn_write_cb t) (fun c => c <| output ::= drop n |>));
      [done|apply conn_write_cb_handled| |done].
    intros w0 c w' c' Hr Hc. by rewrite (conn_write_sess _ _ _ _ _ Hr).
  - apply (with_conn_sess w id (conn_event_cb ev) (fun c => c)); [done|apply conn_event_cb_handled| |done].
    intros w0 c w' c' Hr. unfold conn_event_cb in Hr. destruct (BEV_EVENT_CONNECTED ev); by simplify_eq.
  - destruct (check_drain_keeps (w <| draining := true |>)) as [Ht Hc]. unfold sess_inv, signal_cb.
    rewrite Hc, (tls_part_h2_on _ _ Ht). exact Hw.
  - unfold sess_inv. rewrite reload_h2_on, (proj2 (reload_keeps e w)). exact Hw.
  - done.
  - by destruct err.
Qed.

Lemma reachable_sess w w' : rtc step w w' -> sess_inv w -> sess_inv w'.
Proof. induction 1 as [|x y z [w0 ev Hf] _ IH]; [done|]. intros Hw. by apply IH, dispatch_sess_inv. Qed.

(** C6: HTTP/2 is spoken only where it was negotiated.  In every reachable state a connection
    has an HTTP/2 session exactly when its protocol is HTTP/2, and then it is a TLS connection
    whose hand-shake is complete and the configuration enables both TLS and HTTP/2: a client
    of the plain port, or of a server with HTTP/2 switched off, never reaches the HTTP/2 code. *)
Theorem http2_only_negotiated (e : StartEnv) (wid : Z) (cfg : Config) (w0 w : WorkerProcess) (c : Connection) :
  worker_main e wid cfg = Started w0 -> rtc step w0 w -> c ∈ connections w ->
  (is_Some (h2 c) <-> protocol c = PROTO_HTTP_2) /\
  (is_Some (h2 c) -> ssl c = true /\ tls_handshake_done c = true /\
                     tls_enabled cfg <> 0 /\ http2_enabled cfg <> 0).
Proof.
  intros Hm Hr Hin. destruct (worker_main_tls_inv _ _ _ _ Hm) as (Hi & Hn & Hg).
  assert (sess_inv w) as Hs by (apply (reachable_sess _ _ Hr); unfold sess_inv; rewrite Hn; constructor).
  apply (reachable_tls_inv _ _ Hr) in Hi as [Hi Hc]. rewrite Hg in Hc.
  unfold sess_inv in Hs. rewrite Forall_forall in Hs. destruct (Hs c Hin) as [H1 H2].
  rewrite bool_decide_eq_true in H1, H2. split; [done|]. intros Hh. destruct (H2 Hh) as (? & ? & Ho).
  split_and!; [done|done|..]; unfold tls_inv in Hi; rewrite Hc in Hi; unfold h2_on in Ho;
    destruct (tls_enabled cfg =? 0) eqn:Et; b2p; try done.
  - destruct Hi as [Hz _]. by rewrite Hz in Ho.
  - destruct Hi as [Hz _]. by rewrite Hz in Ho.
  - destruct Hi as (id & _ & _ & Hx). rewrite Hx in Ho. by b2p.
Qed.

(** ** The end of a drain *)

Definition ids (w : WorkerProcess) : list positive := conn_id <$> connections w.

Lemma unlink_ids id l : conn_id <$> unlink id l ⊆ conn_id <$> l /\ id ∉ conn_id <$> unlink id l.
Proof.
  unfold unlink. split.
  - intros x (c & -> & Hc)%list_elem_of_fmap. apply list_elem_of_In, List.filter_In in Hc as [Hc _].
    by apply list_elem_of_fmap_2, list_elem_of_In.
  - intros (c & Hi & Hc)%list_elem_of_fmap. apply list_elem_of_In, List.filter_In in Hc as [_ Hc].
    apply negb_true_iff, Pos.eqb_neq in Hc. congruence.
Qed.

Lemma store_ids c l : conn_id <$> store_conn c l = conn_id <$> l.
Proof.
  unfold store_conn. change (map ?f l) with (f <$> l). rewrite <- list_fmap_compose. apply list_fmap_ext.
  intros i x _. simpl. destruct (Pos.eqb _ _) eqn:E; [by apply Pos.eqb_eq in E|done].
Qed.

Lemma with_conn_ids w id (h : WorkerProcess -> Connection -> WorkerProcess * option Connection)
    (f : Connection -> Connection) :
  (forall c, conn_id (f c) = conn_id c) -> (forall w c, handled w c (h w c)) ->
  ids (with_conn w id (fun w c => h w (f c))) ⊆ ids w.
Proof.
  intros Hf Hh. destruct (with_conn_cases w id h f Hf Hh) as [_ Hc]. cbv zeta in Hc. unfold ids.
  destruct Hc as [[-> _]|(c & _ & _ & Hc)]; [done|]. destruct (snd _) as [c'|].
  - destruct Hc as [-> _]. by rewrite store_ids.
  - rewrite Hc. apply unlink_ids.
Qed.

(** While draining, no event adds a connection. *)
Lemma dispatch_ids w ev : draining w = true -> ids (dispatch w ev) ⊆ ids w.
Proof.
  intros Hd. destruct ev; cbn [dispatch].
  - unfold accept_cb, check_client. by rewrite Hd.
  - unfold tls_accept_cb, check_client. by rewrite Hd.
  - apply (with_conn_ids w id (conn_read_cb e) (fun c => c <| input ::= fun i => i ++ data |>));
      [done|apply conn_read_cb_handled].
  - apply (with_conn_ids w id (conn_write_cb t) (fun c => c <| output ::= drop n |>));
      [done|apply conn_write_cb_handled].
  - apply (with_conn_ids w id (conn_event_cb ev) (fun c => c)); [done|apply conn_event_cb_handled].
  - unfold ids, signal_cb. by rewrite (proj2 (check_drain_keeps (w <| draining := true |>))).
  - unfold ids. by rewrite (proj2 (reload_keeps e w)).
  - done.
  - by destruct err.
Qed.

(** A time-out, an error or the end of the stream removes its connection. *)
Lemma event_closes w id ev :
  BEV_EVENT_CONNECTED ev = false -> id ∉ ids (dispatch w (EvBev id ev)).
Proof.
  intros He. cbn [dispatch].
  change (with_conn w id (conn_event_cb ev)) with (with_conn w id (fun w c => conn_event_cb ev w c)).
  destruct (with_conn_cases w id (conn_event_cb ev) (fun c => c) ltac:(done)
              ltac:(intros; apply conn_event_cb_handled)) as [_ Hc].
  cbv zeta in Hc. unfold ids. destruct Hc as [[-> Hn]|(c & _ & _ & Hc)].
  - intros (c & Hi & Hin)%list_elem_of_fmap. apply list_elem_of_In in Hin.
    pose proof (find_none _ _ Hn _ Hin) as Hx. simpl in Hx. rewrite <- Hi, Pos.eqb_refl in Hx. done.
  - unfold conn_event_cb at 1 in Hc. rewrite He in Hc. simpl snd in Hc. rewrite Hc. apply unlink_ids.
Qed.

(** A run of events, each of which is possible when it comes. *)
Fixpoint fresh_run (w : WorkerProcess) (evs : list event) : Prop :=
  match evs with
  | [] => True
  | ev :: evs => fresh_event w ev /\ fresh_run (dispatch w ev) evs
  end.

Lemma fresh_run_steps w evs : fresh_run w evs -> rtc step w (foldl dispatch w evs).
Proof.
  revert w. induction evs as [|ev evs IH]; intros w; [intros _; apply rtc_refl|].
  intros [Hf Hr]. simpl. eapply rtc_l; [by apply step_event|by apply IH].
Qed.

Lemma draining_run_ids w evs id :
  draining w = true -> id ∈ ids (foldl dispatch w evs) ->
  id ∈ ids w /\ forall ev, BEV_EVENT_CONNECTED ev = false -> EvBev id ev ∉ evs.
Proof.
  revert w. induction evs as [|ev evs IH]; intros w Hd Hin; [split; [done|intros; apply not_elem_of_nil]|].
  simpl in Hin. destruct (IH _ (dispatch_draining w ev Hd) Hin) as [Hi Hn].
  split; [by apply (dispatch_ids w ev Hd)|]. intros ev' He [<-|Hx]%elem_of_cons.
  - by apply (event_closes w id ev' He).
  - by apply (Hn ev').
Qed.

(** C4: A drain ends.  After SIGUSR1, take any run of events in which every connection that was
    open gets a time-out, an error or the end of its stream at some point (libevent delivers
    one for each: a connection has read and write time-outs), in any order and with anything
    else in between: accepts, requests, HTTP/2 callbacks, further signals.  At its end no
    connection is left and the event loop has been told to exit. *)
Theorem drain_terminates (e : StartEnv) (wid : Z) (cfg : Config) (w0 w : WorkerProcess) (evs : list event) :
  config_wf cfg -> worker_main e wid cfg = Started w0 -> rtc step w0 w ->
  fresh_run (signal_cb w) evs ->
  (forall id, id ∈ ids w -> exists ev, EvBev id ev ∈ evs /\ BEV_EVENT_CONNECTED ev = false) ->
  connections (foldl dispatch (signal_cb w) evs) = [] /\
  loopexit (foldl dispatch (signal_cb w) evs) = true.
Proof.
  intros Hc Hm Hr Hf Hall. pose proof (reachable_inv _ _ Hr (worker_main_inv _ _ _ _ Hc Hm)) as Hi.
  pose proof (reachable_inv _ _ (fresh_run_steps _ _ Hf) (drain_step_inv _ Hi)) as Hi'.
  assert (draining (signal_cb w) = true) as Hd
    by (unfold signal_cb; by destruct (check_drain_core (w <| draining := true |>)) as (_ & _ & _ & _ & -> & _)).
  assert (ids (signal_cb w) = ids w) as Hid
    by (unfold ids, signal_cb; by rewrite (proj2 (check_drain_keeps (w <| draining := true |>)))).
  assert (connections (foldl dispatch (signal_cb w) evs) = []) as Hnil.
  { destruct (connections (foldl dispatch (signal_cb w) evs)) as [|c l] eqn:El; [done|].
    destruct (draining_run_ids (signal_cb w) evs (conn_id c) Hd) as [Hin Hno];
      [unfold ids; rewrite El; by left|].
    rewrite Hid in Hin. destruct (Hall _ Hin) as (ev & Hx & He). by destruct (Hno ev He). }
  split; [exact Hnil|]. eapply wi_drain; [exact Hi'| |].
  - exact (reachable_draining _ _ (fresh_run_steps _ _ Hf) Hd).
  - by rewrite (wi_active _ Hi'), Hnil.
Qed.

End Claims2.

(** ** Witnesses *)

Definition tls_config : Config :=
  default_values <| tls_enabled := 1 |> <| tls_cert_file := str "cert.pem" |> <| tls_key_file := str "key.pem" |>.

(** A renewal whose key does not match. *)
Definition bad_renewal : SslEnv :=
  {| ssl_ctx_new := true; use_chain_file := fun _ => true; use_key_file := fun _ => true;
     key_matches := false; not_after := None; ssl_time := 1700000000; set_cipher_list_ok := true |}.

Definition reloads : list event := [EvReload sample_ssl; EvReload bad_renewal].

Lemma tls_context_lifecycle_witness :
  exists w0, @worker_main inet_quad openssl3 sample_start 0 tls_config = Started w0 /\
    ctx (tls (run w0 reloads)) = Some (@hardened openssl3 tls_config 2) /\
    live (ssl_heap (worker_cleanup (run w0 reloads))) = [].
Proof.
  destruct (@worker_main inet_quad openssl3 sample_start 0 tls_config) as [w0| |] eqn:Hm;
    [|vm_compute in Hm; discriminate..].
  exists w0. split; [done|].
  destruct (@tls_context_lifecycle inet_quad openssl3 sample_start 0 tls_config w0 (run w0 reloads) Hm)
    as (_ & _ & _ & (Hl & _) & _).
  - apply run_steps. intros [|[|k]] w' ev -> Hk; by simplify_eq/=.
  - split; [|exact Hl]. clear Hl. vm_compute in Hm. injection Hm as <-. vm_compute. reflexivity.
Defined.

(** A TLS client whose hand-shake ends with h2 selected. *)
Definition h2_events : list event :=
  [EvTlsAccept {| clock := {| mono := 1; wall := 1700000000 |}; mono_ns := 1000; rl_entry_ok := true;
                  conn_ok := true; bev_ok := true; ssl_ok := true; ssl_bev_ok := true; new_id := 1 |}
               (SockInet (str "10.0.0.1") 4000);
   EvRead 1 [] {| now := 2000; ssl_init_finished := true; ssl_version := TLS1_3_VERSION;
                  alpn_offer := Some (alpn_encode [str "h2"; str "http/1.1"]);
                  h2_init := h2_init sample_read_env; h2_preface := sample_session_send; pullup_ok := true;
                  h2_recv := h2_recv sample_read_env; h2_send := sample_session_send;
                  path_malloc_ok := true; mem_after := []; request_env := sample_request_env |}].

Lemma http2_only_negotiated_witness :
  exists w0 c, @worker_main inet_quad openssl3 sample_start 0 tls_config = Started w0 /\
    find_conn (run w0 h2_events) 1 = Some c /\ protocol c = PROTO_HTTP_2 /\ tls_handshake_done c = true.
Proof.
  destruct (@worker_main inet_quad openssl3 sample_start 0 tls_config) as [w0| |] eqn:Hm;
    [|vm_compute in Hm; discriminate..].
  destruct (find_conn (run w0 h2_events) 1) as [c|] eqn:Ec;
    [|vm_compute in Hm; injection Hm as <-; vm_compute in Ec; discriminate].
  exists w0, c. split; [done|]. split; [done|].
  assert (protocol c = PROTO_HTTP_2) as Hp.
  { clear -Hm Ec. vm_compute in Hm. injection Hm as <-. vm_compute in Ec. injection Ec as <-. reflexivity. }
  split; [exact Hp|].
  destruct (@http2_only_negotiated inet_quad openssl3 sample_start 0 tls_config w0 (run w0 h2_events) c Hm)
    as [Hi Hs].
  - apply run_steps. intros [|[|k]] w' ev -> Hk; simplify_eq/=; [|done].
    assert (connections w0 = []) as -> by (vm_compute in Hm; by injection Hm as <-). apply not_elem_of_nil.
  - apply find_some in Ec as [Hin _]. by apply list_elem_of_In.
  - apply Hs. by apply Hi.
Defined.

Definition time_out : BevEvent :=
  {| BEV_EVENT_CONNECTED := false; BEV_EVENT_TIMEOUT := true; BEV_EVENT_ERROR := false; ssl_errors := 0 |}.

Lemma drain_terminates_witness :
  exists w0, @worker_main inet_quad openssl3 sample_start 0 default_values = Started w0 /\
    loopexit (run (signal_cb (run w0 sample_events)) [EvBev 2 time_out; sample_accept 3; EvBev 1 time_out]) = true.
Proof.
  destruct (@worker_main inet_quad openssl3 sample_start 0 default_values) as [w0| |] eqn:Hm;
    [|vm_compute in Hm; discriminate..].
  exists w0. split; [done|].
  apply (@drain_terminates inet_quad openssl3 sample_start 0 default_values w0 (run w0 sample_events)
    [EvBev 2 time_out; sample_accept 3; EvBev 1 time_out] default_values_wf Hm (sample_reachable w0 Hm)).
  - vm_compute in Hm. injection Hm as <-. split; [done|]. split; [|done].
    vm_compute. intros Hin. apply list_elem_of_singleton in Hin. discriminate.
  - intros id Hin. exists time_out. split; [|done].
    assert (ids (run w0 sample_events) = [2%positive; 1%positive]) as Hids
      by (vm_compute in Hm; injection Hm as <-; vm_compute; reflexivity).
    rewrite Hids in Hin. apply elem_of_cons in Hin as [->|Hin%list_elem_of_singleton]; [|subst id]; set_solver.
Defined.
