(* ===== verification/Http1.v ===== *)
(** * What the HTTP/1.1 handlers promise

    Theorems about [Connection]: framing of responses, parsing of the
    request line, the incremental search for the end of the headers, slot
    tiers while a request is buffered, ACME tokens, and the limits of the
    throughput check and of the Content-Length parser. *)
From Stdlib Require Import ZArith QArith Lia Ascii String.
From stdpp Require Import base list numbers strings.
From S2P Require Import Prelude CLib Router Network Config Slots IpAcl RateLimiter Rpc Tls State Endpoints Metrics Http2 StaticFiles Connection Balance.

#[local] Open Scope Z_scope.

(** ** Responses *)

(** Text that stays on its line and in its C string. *)
Definition clean (l : chars) : bool :=
  forallb (fun x => negb (eqc x CR) && negb (eqc x LF) && negb (eqc x NUL)) l.

(** A header: a name and a value. *)
Definition header_text (h : chars * chars) : chars := fst h ++ str ": " ++ snd h.

Definition header_ok (h : chars * chars) : bool :=
  negb (bool_decide (fst h = [])) && clean (fst h) && forallb (fun x => negb (eqc x ":"%char)) (fst h) &&
  clean (snd h).

Definition status_line (st : Z) (reason : chars) : chars :=
  str "HTTP/1.1 " ++ print_dec st ++ str " " ++ reason.

(** How a client reads a response: lines up to the first empty one, then
    the body. *)
Fixpoint read_head (fuel : nat) (l : chars) : option (list chars * chars) :=
  match fuel with
  | O => None
  | S fuel =>
      match memmem l CRLF with
      | None => None
      | Some O => Some ([], drop 2 l)
      | Some n =>
          match read_head fuel (drop (n + 2) l) with
          | None => None
          | Some (ls, rest) => Some (take n l :: ls, rest)
          end
      end
  end.

(** Whether [conn_write_cb] can keep the connection: it has a slot, which is
    a normal one or can be exchanged for one. *)
Definition kept_open (w : WorkerProcess) (c : Connection) : bool :=
  slot_held c &&
  (bool_decide (current_tier c = TIER_NORMAL) ||
   snd (slot_manager_acquire (slot_manager_release (slots w) (current_tier c)) TIER_NORMAL)).

(** What happens to [c] when its last byte has been written, whatever the
    time and the worker are then, when the client was told [conn]. *)
Definition does_next (c : Connection) (conn : chars) : Prop :=
  forall t w,
    match snd (conn_write_cb t w (c <| output := [] |>)) with
    | Some c' => conn = str "keep-alive" /\ kept_open w c = true /\ state c' = CONN_STATE_READING_HEADERS
    | None => conn = str "close" \/ (conn = str "keep-alive" /\ kept_open w c = false)
    end.

(** The response that took [c] to [c'].  A client that reads lines up to the
    first empty one gets the status line with the recorded status and the
    headers, each with a name of its own, and is left with the body, whose
    recorded size is the Content-Length; the Connection header says what
    happens after the response. *)
Definition responded (c c' : Connection) : Prop :=
  exists reason (headers : list (chars * chars)) body conn text,
    output c' = output c ++ text /\
    read_head (length headers + 2) text =
      Some (status_line (response_status c') reason :: map header_text headers, body) /\
    forallb header_ok headers = true /\ NoDup headers.*1 /\
    (str "Content-Length", print_dec (zlen body)) ∈ headers /\
    response_bytes c' = zlen body /\
    (str "Connection", conn) ∈ headers /\ does_next c' conn.

Lemma memmem_first (a rest : chars) :
  forallb (fun x => negb (eqc x CR)) a = true -> memmem (a ++ CRLF ++ rest) CRLF = Some (length a).
Proof.
  induction a as [|x a IH]; intros Ha; [done|]. cbn [forallb] in Ha.
  apply andb_true_iff in Ha as [Hx Ha]. apply negb_true_iff in Hx.
  change ((x :: a) ++ CRLF ++ rest) with (x :: (a ++ CRLF ++ rest)). cbn [memmem].
  replace (starts_with CRLF (x :: a ++ CRLF ++ rest)) with false; [by rewrite IH|].
  unfold CRLF. cbn [starts_with]. destruct (eqc CR x) eqn:E; [|done].
  apply eqc_eq in E. subst x. by rewrite eqc_refl in Hx.
Qed.

Lemma read_head_line fuel (l rest : chars) :
  l <> [] -> clean l = true ->
  read_head (S fuel) (l ++ CRLF ++ rest) =
  match read_head fuel rest with None => None | Some (ls, body) => Some (l :: ls, body) end.
Proof.
  intros Hne Hl. cbn [read_head]. rewrite memmem_first; cycle 1.
  { unfold clean in Hl. rewrite forallb_forall in *. intros x Hx. specialize (Hl x Hx).
    by destruct (eqc x CR). }
  replace (drop (length l + 2) (l ++ CRLF ++ rest)) with rest
    by (rewrite drop_app_ge by lia; by replace (length l + 2 - length l)%nat with 2%nat by lia).
  rewrite take_app_length. by destruct l.
Qed.

(** Reading the lines that were written gives them back. *)
Lemma read_head_lines ls body :
  forallb (fun l => negb (bool_decide (l = [])) && clean l) ls = true ->
  read_head (S (length ls)) (concat (map (fun l => l ++ CRLF) ls) ++ CRLF ++ body) = Some (ls, body).
Proof.
  induction ls as [|l ls IH]; intros Hc; [done|]. cbn [forallb] in Hc.
  apply andb_true_iff in Hc as [Hl Hc]. apply andb_true_iff in Hl as [Hne Hl].
  cbn [map concat length]. rewrite <- !app_assoc. rewrite read_head_line; [by rewrite IH| |done].
  intros ->. done.
Qed.

Lemma clean_app a b : clean (a ++ b) = clean a && clean b.
Proof. apply forallb_app_iff. Qed.

Lemma clean_take n l : clean l = true -> clean (take n l) = true.
Proof. apply forallb_take. Qed.

Lemma clean_dec z : clean (print_dec z) = true.
Proof.
  pose proof (print_dec_chars z) as H. unfold clean. rewrite forallb_forall in *. intros x Hx.
  specialize (H x Hx). destruct (eqc x CR) eqn:E1, (eqc x LF) eqn:E2, (eqc x NUL) eqn:E3; try done;
    rewrite ?eqc_eq in *; by subst x.
Qed.

Lemma clean_hex fuel : forall z acc, clean acc = true -> clean (hex_digits fuel z acc) = true.
Proof.
  induction fuel as [|fuel IH]; intros z acc Ha; [done|]. cbn [hex_digits].
  pose proof (Z.mod_pos_bound z 16 ltac:(lia)) as Hd. revert Hd. generalize (z mod 16). intros d Hd.
  assert (clean ((if d <? 10 then chr (48 + d) else chr (87 + d)) :: acc) = true) as Hc.
  { change (clean ([if d <? 10 then chr (48 + d) else chr (87 + d)] ++ acc) = true).
    rewrite clean_app, Ha, andb_true_r. rewrite <- (Z2Nat.id d) by lia.
    assert (Z.to_nat d < 16)%nat as Hn by lia. revert Hn. generalize (Z.to_nat d). intros n Hn.
    do 16 (destruct n as [|n]; [done|]). lia. }
  destruct (_ =? 0); [done|]. by apply IH.
Qed.

(** The identifiers that connections get when they are accepted and when
    they are reset. *)
Definition issued_id (id : chars) : Prop := exists wid t n, id = format_request_id wid t n [].

Lemma issued_clean id : issued_id id -> clean id = true.
Proof.
  intros (wid & t & n & ->). unfold format_request_id, snprintf, print_hex. apply clean_take.
  by rewrite !clean_app, clean_dec, !clean_hex.
Qed.

(** They are the only ones: no other function writes [request_id]. *)
Lemma init_issued w id a t : issued_id (request_id (snd (connection_init_common w id a t))).
Proof. unfold connection_init_common. by repeat eexists. Qed.

Lemma reset_issued w c t :
  issued_id (request_id c) -> issued_id (request_id (snd (connection_reset_for_keepalive w c t))).
Proof.
  intros Hi. unfold connection_reset_for_keepalive, keepalive_slot.
  repeat case_match; simplify_eq; first [exact Hi|by repeat eexists].
Qed.

Lemma closing_next c : state c = CONN_STATE_CLOSING -> does_next c (str "close").
Proof. intros Hs t w. unfold conn_write_cb. cbn. rewrite Hs. by left. Qed.

Lemma keepalive_slot_kept w c :
  let '(_, c', ok) := keepalive_slot w c in slot_held c' = kept_open w c /\ (kept_open w c = true -> ok = true).
Proof.
  unfold keepalive_slot, kept_open. destruct (slot_held c) eqn:Eh; [|by cbn].
  case_bool_decide as Et; cbn [andb negb orb]; [by rewrite Eh|].
  destruct (slot_manager_acquire _ _) as [sm []]; cbn [negb snd]; [|by split]. by split.
Qed.

Lemma reset_kept w c t :
  let '(_, c') := connection_reset_for_keepalive w c t in
  slot_held c' = kept_open w c /\ (slot_held c' = true -> state c' = CONN_STATE_READING_HEADERS).
Proof.
  unfold connection_reset_for_keepalive. pose proof (keepalive_slot_kept w (clear_request c)) as Hk.
  destruct (keepalive_slot w (clear_request c)) as [[w1 c1] ok].
  change (kept_open w (clear_request c)) with (kept_open w c) in Hk. destruct Hk as [<- Hok].
  destruct ok; cbn [negb]; [by split|]. split; [done|]. intros Hs. by specialize (Hok Hs).
Qed.

Lemma written_keepalive c t w :
  output c = [] -> state c = CONN_STATE_WRITING_RESPONSE -> keep_alive c = true ->
  match snd (conn_write_cb t w c) with
  | Some c' => kept_open w c = true /\ state c' = CONN_STATE_READING_HEADERS
  | None => kept_open w c = false
  end.
Proof.
  intros Ho Hs Hk. unfold conn_write_cb. rewrite Ho, Hs, Hk. change (zlen (@nil ascii) >? 0) with false. cbv iota zeta.
  assert (kept_open w c = kept_open (log_request_complete w c t) c) as ->.
  { unfold kept_open. pose proof (core_log_complete w c t) as Hcore.
    apply (f_equal (fun x => x.1.2)) in Hcore. cbn [core fst snd] in Hcore. by rewrite Hcore. }
  generalize (log_request_complete w c t). intros w1. pose proof (reset_kept w1 c t) as Hr.
  destruct (connection_reset_for_keepalive w1 c t) as [w2 c2]. destruct Hr as [<- Hst].
  destruct (slot_held c2); cbn [negb snd]; auto.
Qed.

Lemma keepalive_next c :
  state c = CONN_STATE_WRITING_RESPONSE -> keep_alive c = true -> does_next c (str "keep-alive").
Proof.
  intros Hs Hk t w. pose proof (written_keepalive (c <| output := [] |>) t w eq_refl Hs Hk) as Hw.
  destruct (snd (conn_write_cb t w _)); [|by right]. destruct Hw. by split_and!.
Qed.

Lemma after_next c text st n :
  does_next (respond c text st n (after_response c)) (conn_header c).
Proof.
  unfold after_response, conn_header. destruct (keep_alive c) eqn:E; [by apply keepalive_next|by apply closing_next].
Qed.

Ltac in_headers := repeat (first [apply list_elem_of_here | apply list_elem_of_further]).

Lemma responded_intro c text st next reason headers body conn :
  text = concat (map (fun l => l ++ CRLF) (status_line st reason :: map header_text headers)) ++ CRLF ++ body ->
  clean reason = true -> forallb header_ok headers = true -> NoDup headers.*1 ->
  (str "Content-Length", print_dec (zlen body)) ∈ headers ->
  (str "Connection", conn) ∈ headers -> does_next (respond c text st (zlen body) next) conn ->
  responded c (respond c text st (zlen body) next).
Proof.
  intros Ht Hr Hok Hnd Hl Hc Hn. exists reason, headers, body, conn, text. split; [done|].
  split; [|done]. replace (length headers + 2)%nat with (S (length (status_line st reason :: map header_text headers)))
    by (cbn [length]; rewrite length_map; lia).
  change (response_status (respond c text st (zlen body) next)) with st.
  rewrite Ht. apply read_head_lines. cbn [forallb].
  assert (clean (status_line st reason) = true) as -> by (unfold status_line; by rewrite !clean_app, clean_dec, Hr).
  rewrite bool_decide_eq_false_2 by done. cbn [andb negb].
  rewrite forallb_forall in *. intros x Hx. apply in_map_iff in Hx as ([n v] & <- & Hin).
  specialize (Hok _ Hin). unfold header_ok, header_text in *. cbn [fst snd] in *.
  apply andb_true_iff in Hok as [Hok Hv]. apply andb_true_iff in Hok as [Hok _].
  apply andb_true_iff in Hok as [Hne Hcn]. rewrite !clean_app, Hv, Hcn.
  destruct n; [done|]. by rewrite bool_decide_eq_false_2.
Qed.

Ltac layout := unfold line, status_line, header_text; cbn [map concat fst snd];
  rewrite ?app_nil_r, <- ?app_assoc; reflexivity.

Ltac distinct_names := apply (bool_decide_unpack _); vm_compute; exact I.

(** The header block of the small endpoints. *)
Definition small_headers (c : Connection) (ctype conn : chars) (len : Z) : list (chars * chars) :=
  [(str "Content-Type", ctype); (str "Content-Length", print_dec len);
   (str "Cache-Control", str "no-store"); (str "X-Request-ID", request_id c); (str "Connection", conn)].

Lemma header_ok_value n v :
  header_ok (n, []) = true -> clean v = true -> header_ok (n, v) = true.
Proof. unfold header_ok. cbn [fst snd]. intros H ->. by rewrite andb_true_r in *. Qed.

Lemma small_headers_ok c ctype conn len :
  issued_id (request_id c) -> clean ctype = true -> clean conn = true ->
  forallb header_ok (small_headers c ctype conn len) = true.
Proof.
  intros Hi Hc Hn. unfold small_headers. cbn [forallb].
  by rewrite !header_ok_value by (reflexivity || apply clean_dec || (by apply issued_clean) || done).
Qed.

Lemma conn_header_clean c : clean (conn_header c) = true.
Proof. unfold conn_header. by destruct (keep_alive c). Qed.

Section Responses.
Context (c : Connection) (id_issued : issued_id (request_id c)).

Lemma small_next st reason ctype body conn next :
  clean reason = true -> clean ctype = true -> clean conn = true ->
  does_next (respond c (small_response c st reason ctype conn (zlen body) body) st (zlen body) next) conn ->
  responded c (respond c (small_response c st reason ctype conn (zlen body) body) st (zlen body) next).
Proof.
  intros Hr Ht Hc Hn. apply (responded_intro _ _ _ _ reason (small_headers c ctype conn (zlen body)) _ conn);
    [unfold small_response, small_headers; layout|done|by apply small_headers_ok|distinct_names| | |done];
    unfold small_headers; in_headers.
Qed.

Lemma small_responded st reason ctype body :
  clean reason = true -> clean ctype = true ->
  responded c (respond c (small_response c st reason ctype (conn_header c) (zlen body) body)
                 st (zlen body) (after_response c)).
Proof. intros Hr Ht. apply small_next; [done|done|apply conn_header_clean|apply after_next]. Qed.

Lemma small_closed st reason ctype body :
  clean reason = true -> clean ctype = true ->
  responded c (respond c (small_response c st reason ctype (str "close") (zlen body) body)
                 st (zlen body) CONN_STATE_CLOSING).
Proof. intros Hr Ht. apply small_next; [done|done|done|by apply closing_next]. Qed.

Lemma static_responded w file st reason :
  page_wf file -> clean reason = true -> responded c (serve_static_file w c file st reason).
Proof.
  intros (Hl & _ & Hty) Hr. unfold serve_static_file. rewrite Hl, Hty.
  replace (take (Z.to_nat (zlen (content file))) (content file)) with (content file)
    by (symmetry; apply take_ge; unfold zlen; lia).
  apply (responded_intro _ _ _ _ reason [(str "Content-Type", HTML_TYPE);
    (str "Content-Length", print_dec (zlen (content file)));
    (str "Cache-Control", if cache_max_age (config w) >? 0
     then str "public, max-age=" ++ print_dec (cache_max_age (config w)) else str "no-store");
    (str "Connection", conn_header c); (str "X-Request-ID", request_id c)] _ (conn_header c));
    [|done| |distinct_names|in_headers|in_headers|apply after_next].
  - destruct (_ >? 0); layout.
  - cbn [forallb]. rewrite !header_ok_value; try done; try apply clean_dec; try apply conn_header_clean;
      try (by apply issued_clean). destruct (_ >? 0); [|done]. by rewrite clean_app, clean_dec.
Qed.

End Responses.

Lemma health_body_len w e n :
  (0 < n)%nat -> snd (generate_health_body w e n) = zlen (fst (generate_health_body w e n)).
Proof.
  intros Hn. unfold generate_health_body, snprintf. cbn [fst snd]. rewrite zlen_take.
  destruct (_ >=? _) eqn:E; b2p; unfold zlen in *; lia.
Qed.

Lemma error_responded c st reason :
  issued_id (request_id c) -> clean reason = true -> responded c (connection_send_error c st reason).
Proof.
  intros Hi Hr. assert (forall c', responded (c <| keep_alive := false |>) c' -> responded c c') as Hs by done.
  apply Hs. unfold connection_send_error, connection_send_response. set (body := snprintf 256 _).
  assert (c_string body = body) as Hb.
  { assert (forall l, clean l = true -> forallb (fun x => negb (eqc x NUL)) l = true) as Hnul.
    { intros l Hl. unfold clean in Hl. rewrite forallb_forall in *. intros x Hx. specialize (Hl x Hx).
      by apply andb_true_iff in Hl as [_ ->]. }
    apply no_nul_c_string. unfold body, snprintf. apply forallb_take.
    rewrite !forallb_app_iff, (Hnul _ Hr), (Hnul _ (clean_dec st)). reflexivity. }
  assert ((if strlen body >? 0 then c_string body else []) = body) as ->.
  { unfold strlen. rewrite Hb. destruct body; [done|]. by rewrite zlen_cons;
      replace (1 + zlen body >? 0) with true by (symmetry; apply Z.gtb_lt; unfold zlen; lia). }
  unfold strlen. rewrite Hb.
  apply (responded_intro _ _ _ _ reason [(str "Content-Type", str "text/plain");
    (str "Content-Length", print_dec (zlen body)); (str "Connection", str "close");
    (str "X-Request-ID", request_id c)] _ (str "close"));
    [layout|done| |distinct_names|in_headers|in_headers|by apply closing_next].
  cbn [forallb]. by rewrite !header_ok_value by (reflexivity || apply clean_dec || by apply issued_clean).
Qed.

Lemma process_responded e w c :
  pages_wf (static_files w) -> issued_id (request_id c) -> responded c (snd (process_request e w c)).
Proof.
  unfold pages_wf. rewrite !Forall_cons. intros (H1 & H2 & H3 & H4 & H5 & H6 & H7 & _) Hi.
  unfold process_request. cbn zeta.
  assert (forall c', responded (c <| state := CONN_STATE_PROCESSING |>) c' -> responded c c') as Hs
    by done.
  change (issued_id (request_id (c <| state := CONN_STATE_PROCESSING |>))) in Hi.
  destruct (route_request _); cbn [snd]; apply Hs.
  - by apply static_responded; [|exact H1|].
  - by apply static_responded; [|exact H2|].
  - by apply static_responded; [|exact H3|].
  - by apply static_responded; [|exact H4|].
  - by apply static_responded; [|exact H5|].
  - by apply static_responded; [|exact H6|].
  - by apply static_responded; [|exact H7|].
  - unfold serve_health. pose proof (health_body_len
      (update_endpoint_counter w ROUTE_HEALTH) (health_env e) 1024 ltac:(lia)) as Hh.
    destruct (generate_health_body _ _ _) as [body len]. cbn [fst snd] in Hh. subst len.
    by apply small_responded.
  - unfold serve_ready. apply (small_responded _ Hi _ _ _ []); [by destruct (draining _)|done].
  - unfold serve_alive. by apply (small_responded _ Hi _ _ _ []).
  - unfold serve_metrics. pose proof (metrics_body_len (update_endpoint_counter w ROUTE_METRICS)
      (health_env e) 16384) as Hm.
    destruct (generate_metrics_body _ _ _) as [body len]. cbn [fst snd] in Hm. subst len.
    by apply small_closed.
  - unfold serve_version. by apply small_responded.
  - unfold serve_acme_challenge.
    destruct (match acme_token _ _ with Some _ => _ | None => _ end) as [data|];
      [by apply small_responded|]. by apply (small_closed _ Hi 404 _ _ not_found_body).
Qed.

(** ** Searching *)

Lemma memmem_none_starts p l j : memmem l p = None -> starts_with p (drop j l) = false.
Proof.
  intros Hn. destruct (starts_with p (drop j l)) eqn:E; [|done].
  apply starts_with_app in E as [b Hb]. rewrite memmem_None in Hn.
  exfalso. apply (Hn (take j l) b). rewrite <- Hb. by rewrite take_drop.
Qed.

Lemma starts_with_prefix p a b :
  (length p <= length a)%nat -> starts_with p (a ++ b) = starts_with p a.
Proof. intros Hl. rewrite !starts_with_take. by rewrite take_app_le. Qed.

(** An occurrence that would have been in [seen] cannot start before its
    last three bytes. *)
Lemma scan_from seen more k :
  memmem seen HEADER_END = None -> (k + 3 <= length seen \/ k = 0)%nat ->
  search_from (seen ++ more) k = memmem (seen ++ more) HEADER_END.
Proof.
  intros Hn Hk. unfold search_from. symmetry. destruct Hk as [Hk| ->].
  - apply memmem_skip; [|rewrite length_app; lia]. intros j Hj. rewrite drop_app_le by lia.
    rewrite starts_with_prefix; [by apply memmem_none_starts|]. rewrite length_drop.
    change (length HEADER_END) with 4%nat. lia.
  - apply memmem_skip; [intros j Hj; lia|lia].
Qed.

(** Neither a blank nor part of a line end. *)
Definition word_char (x : ascii) : bool := negb (eqc x SP) && negb (eqc x CR).

Lemma word_no c l : (c = SP \/ c = CR) -> forallb word_char l = true ->
  forallb (fun x => negb (eqc x c)) l = true.
Proof.
  intros Hc Hl. rewrite forallb_forall in *. intros x Hx. specialize (Hl x Hx). unfold word_char in Hl.
  apply andb_true_iff in Hl as [H1 H2]. by destruct Hc as [-> | ->].
Qed.

(** ** States *)

Lemma process_state e w c :
  let c' := snd (process_request e w c) in
  state c' = CONN_STATE_WRITING_RESPONSE \/ state c' = CONN_STATE_CLOSING.
Proof.
  assert (forall x : Connection, after_response x = CONN_STATE_WRITING_RESPONSE \/
                                 after_response x = CONN_STATE_CLOSING) as Ha
    by (intros x; unfold after_response; destruct (keep_alive x); auto).
  unfold process_request. cbn zeta.
  destruct (route_request _); cbn [snd];
    unfold serve_static_file, serve_health, serve_ready, serve_alive, serve_metrics, serve_version,
      serve_acme_challenge; repeat case_match; first [apply Ha | by right].
Qed.

Lemma headers_complete_state e w c n :
  state (snd (headers_complete e w c n)) <> CONN_STATE_READING_HEADERS.
Proof.
  unfold headers_complete. cbn zeta. destruct (negb (pullup_ok e)); [done|].
  destruct (validate_path_early _ _) as [fl rc]. destruct (rc <? 0); [done|].
  destruct (parse_request_headers _ _ _ _) as [c2 rc2]. destruct (rc2 <? 0); [done|].
  destruct (_ >? _); [done|]. destruct (_ && _); [done|].
  destruct (downgrade_tier_to_normal _ _) as [w3 c3].
  destruct (process_state (request_env e) w3 c3) as [-> | ->]; done.
Qed.

Lemma promote_input w c n w1 c1 rc :
  try_promote_tier w c n = (w1, c1, rc) ->
  input c1 = input c /\ headers_scanned c1 = headers_scanned c /\ state c1 = state c /\
  config w1 = config w /\
  (rc = 0 -> tier_index (size_to_tier n (config w)) <= tier_index (current_tier c1)) /\ (rc = 0 \/ rc = -1).
Proof.
  unfold try_promote_tier. destruct (_ >=? _) eqn:E.
  { b2p. intros [= <- <- <-]. split_and!; try done; auto. }
  destruct (slot_manager_promote _ _ _) as [sm ok].
  destruct ok; cbn [negb]; intros [= <- <- <-]; split_and!; try done; auto; simpl; lia.
Qed.

(** A read that leaves the connection waiting for headers. *)
Lemma read_headers_waiting e w c w' c' :
  read_headers e (zlen (input c)) w c = (w', c') -> state c' = CONN_STATE_READING_HEADERS ->
  search_from (input c) (Z.to_nat (headers_scanned c)) = None /\ input c' = input c /\
  headers_scanned c' = (if zlen (input c) >? 3 then zlen (input c) - 3 else 0) /\
  zlen (input c) <= max_buffer_size (config w) /\
  tier_index (size_to_tier (zlen (input c)) (config w)) <= tier_index (current_tier c').
Proof.
  unfold read_headers. destruct (_ >? max_buffer_size _) eqn:Em; [by intros [= <- <-]|]. b2p.
  destruct (try_promote_tier w c _) as [[w1 c1] rc] eqn:Ep.
  destruct (promote_input _ _ _ _ _ _ Ep) as (Ei & Eh & Es & Ec & Et & Er).
  destruct (rc <? 0) eqn:Erc; [by intros [= <- <-]|]. b2p.
  assert (rc = 0) as Hrc by lia. specialize (Et Hrc). rewrite Ei, Eh.
  destruct (search_from _ _) as [pos|] eqn:Esr.
  - intros Hc Hs. pose proof (headers_complete_state e w1 c1 (pos + 4)) as Hn.
    rewrite Hc in Hn. done.
  - destruct (_ && pullup_ok e).
    + destruct (validate_path_early _ _) as [fl rc2]. destruct (rc2 <? 0); intros [= <- <-]; [done|].
      intros _. simpl. rewrite Ei. by split_and!.
    + intros [= <- <-] _. simpl. rewrite Ei. by split_and!.
Qed.

(** ** Reading over HTTP/1.1 *)

(** The connection speaks HTTP/1.1, and no hand-shake is pending. *)
Definition settled (c : Connection) : Prop :=
  ssl c && negb (tls_handshake_done c) = false /\ protocol c = PROTO_HTTP_1_1.

(** The state machine of [conn_read_cb]. *)
Definition read_request (e : ReadEnv) (available : Z) (w : WorkerProcess) (c : Connection)
    : WorkerProcess * Connection :=
  match state c with
  | CONN_STATE_READING_HEADERS => read_headers e available w c
  | CONN_STATE_READING_BODY => read_body e available w c
  | _ => (w, c)
  end.

Lemma http1_read e w c : settled c ->
  conn_read_cb e w c =
    match read_slowloris e (zlen (input c)) w c with
    | Continue w c1 => let '(w, c2) := read_request e (zlen (input c)) w c1 in (w, Some c2)
    | Return w r => (w, r)
    end.
Proof.
  intros [Ht Hp]. unfold conn_read_cb, read_tls. rewrite Ht. cbn [andb and_then].
  assert (match read_slowloris e (zlen (input c)) w c with
          | Continue _ c1 => protocol c1 = PROTO_HTTP_1_1 | Return _ _ => True end) as Hs.
  { unfold read_slowloris. cbv zeta. destruct (_ >? _); [done|]. destruct (_ >=? _); [|done]. by destruct (_ || _). }
  destruct (read_slowloris _ _ _ _) as [w1 c1|w1 r]; cbn [and_then finish]; [|done].
  unfold read_h2, read_request. rewrite Hs. cbn [and_then].
  destruct (state c1); try done; by destruct (_ e _ w1 c1).
Qed.

Lemma process_input e w c : input (snd (process_request e w c)) = input c.
Proof.
  unfold process_request. cbn zeta. destruct (route_request _); cbn [snd];
    unfold serve_static_file, serve_health, serve_ready, serve_alive, serve_metrics, serve_version,
      serve_acme_challenge; by repeat case_match.
Qed.

Lemma downgrade_input w c : input (snd (downgrade_tier_to_normal w c)) = input c.
Proof. unfold downgrade_tier_to_normal. by repeat case_match. Qed.

(** Once the headers are complete, the buffer is emptied or the connection
    is to be closed. *)
Lemma headers_complete_input e w c n :
  let c' := snd (headers_complete e w c n) in input c' = [] \/ state c' = CONN_STATE_CLOSING.
Proof.
  unfold headers_complete. cbv zeta. destruct (negb (pullup_ok e)); [by right|].
  destruct (validate_path_early _ _) as [fl rc]. destruct (rc <? 0); [by right|].
  destruct (parse_request_headers _ _ _ _) as [c2 rc2]. destruct (rc2 <? 0); [by right|].
  destruct (_ >? _); [by right|]. left. destruct (_ && _); [done|].
  pose proof (downgrade_input w (c2 <| input := [] |> <| body_received := zlen (drop n (input c2)) |>)) as Hd.
  destruct (downgrade_tier_to_normal _ _) as [w3 c3]. by rewrite process_input.
Qed.

(** The bytes a connection has buffered are within the limit and within
    the size of its slot. *)
Definition covered (cfg : Config) (c : Connection) : Prop :=
  zlen (input c) <= max_buffer_size cfg /\
  tier_index (size_to_tier (zlen (input c)) cfg) <= tier_index (current_tier c).

Lemma read_headers_covered e w c :
  state c = CONN_STATE_READING_HEADERS ->
  let c' := snd (read_headers e (zlen (input c)) w c) in
  covered (config w) c' \/ input c' = [] \/ state c' = CONN_STATE_CLOSING.
Proof.
  intros Hc. destruct (read_headers e (zlen (input c)) w c) as [w' c'] eqn:Er. cbv zeta. cbn [snd].
  destruct (decide (state c' = CONN_STATE_READING_HEADERS)) as [Hs|Hs].
  { left. destruct (read_headers_waiting e w c w' c' Er Hs) as (_ & Hi & _ & H1 & H2). split; by rewrite Hi. }
  right. revert Er Hs. unfold read_headers. destruct (_ >? max_buffer_size _); [intros [= <- <-]; by right|].
  destruct (try_promote_tier w c _) as [[w1 c1] rc] eqn:Ep.
  destruct (promote_input _ _ _ _ _ _ Ep) as (_ & _ & Es & _).
  destruct (rc <? 0); [intros [= <- <-]; by right|]. destruct (search_from _ _) as [pos|].
  { intros Hr _. pose proof (headers_complete_input e w1 c1 (pos + 4)) as Hn. by rewrite Hr in Hn. }
  destruct (_ && pullup_ok e); [destruct (validate_path_early _ _) as [fl rc2]; destruct (rc2 <? 0)|];
    intros [= <- <-]; try (by right).
  all: intros Hs; destruct Hs; cbn [state update]; congruence.
Qed.

(** ** Claims *)

(** C12: Every HTTP/1.1 response, to a routed request or with an error status, on a
    connection whose request identifier the server issued: a client that reads lines up to
    the first empty one gets the status line with the recorded status and headers with
    distinct names, without stray line ends, and is left with exactly the body; its size is
    what Content-Length announces and what the access log records.  Connection: close means
    that [conn_write_cb] frees the connection once all is written.  Connection: keep-alive
    means that it then waits for the next request, except that it is freed when it lost its
    slot or when its large or huge slot cannot be exchanged for a normal one. *)
Theorem responses_well_framed (e : RequestEnv) (w : WorkerProcess) (c : Connection) :
  pages_wf (static_files w) -> issued_id (request_id c) ->
  responded c (snd (process_request e w c)) /\
  forall st reason, clean reason = true -> responded c (connection_send_error c st reason).
Proof. intros Hp Hi. split; [by apply process_responded|]. intros st reason. by apply error_responded. Qed.

(** The words of a request line. *)
Lemma parse_request_line (m p version rest mem : chars) (c : Connection) :
  forallb word_char m = true -> forallb word_char p = true -> forallb word_char version = true ->
  zlen m < 16 ->
  let '(c', rc) := parse_request_headers true mem c
                     (m ++ [SP] ++ p ++ [SP] ++ version ++ CRLF ++ rest) in
  rc = 0 /\ method c' = m /\ path c' = Some p /\ path_len c' = zlen p.
Proof.
  intros Hm Hp Hv Hl. unfold parse_request_headers.
  assert (m ++ [SP] ++ p ++ [SP] ++ version ++ CRLF ++ rest =
          (m ++ [SP] ++ p ++ [SP] ++ version) ++ CRLF ++ rest) as Heq by by rewrite <- !app_assoc.
  rewrite Heq, memmem_first; cycle 1.
  { rewrite !forallb_app_iff, (word_no CR m), (word_no CR p), (word_no CR version) by auto. reflexivity. }
  rewrite take_app_length. rewrite (memchr_first SP m) by (by apply word_no; [left|]).
  destruct (Z.of_nat (length m) >=? 16) eqn:E16; [b2p; unfold zlen in Hl; lia|].
  replace (S (length m)) with (length (m ++ [SP])) by (rewrite length_app; simpl; lia).
  assert (m ++ [SP] ++ p ++ [SP] ++ version = (m ++ [SP]) ++ p ++ [SP] ++ version) as ->
    by by rewrite <- !app_assoc.
  rewrite drop_app_length, (memchr_first SP p) by (by apply word_no; [left|]).
  cbn [negb]. split; [done|]. cbn [method path path_len update].
  split; [rewrite <- app_assoc; apply take_app_length|]. by rewrite take_app_length.
Qed.

(** C16: Round trip of the request line: a request whose method is a word of at most 15 bytes
    and whose path is a word, both possibly empty, is parsed back into exactly that method
    and path, whatever headers follow. *)
Theorem request_line_roundtrip (m p version rest mem : chars) (c : Connection) :
  forallb word_char m = true -> forallb word_char p = true -> forallb word_char version = true ->
  zlen m < 16 ->
  let '(c', rc) := parse_request_headers true mem c
                     (m ++ [SP] ++ p ++ [SP] ++ version ++ CRLF ++ rest) in
  rc = 0 /\ method c' = m /\ path c' = Some p /\ path_len c' = zlen p.
Proof. apply parse_request_line. Qed.

Definition sample_page : StaticFile :=
  {| content := str "hi"; length_ := 2; content_type := HTML_TYPE |}.

Definition idle_worker : WorkerProcess :=
  {| worker_id := 0; config := default_values;
     static_files := mkStaticFiles sample_page sample_page sample_page sample_page sample_page
                       sample_page sample_page;
     slots := slot_manager_init 2 1 1; rate_limiter := rl_zero;
     ip_acl := {| blocklist := acl_zero; allowlist := acl_zero |};
     draining := false; listener := true; tls_listener := false; listener_disabled := false;
     tls_listener_disabled := false; stats := fun _ => 0; active_connections := 1;
     h2_streams_active := 0; w_start_time := 0; latency_sum_seconds := 0%Q; connections := [];
     loopexit := false; request_counter := 0; keepalive_counter := 0; h2_request_counter := 0;
     tls := zero_tls; ssl_heap := empty_heap; rpc := zero_manager; cpu_core := 0; start_wallclock := 0;
     signal_event := true; signal_event_reload := true; cleanup_event := true |}.

Definition new_conn : Connection := snd (connection_init_common idle_worker 1 SockOther 0).

Lemma request_line_roundtrip_witness :
  method (fst (parse_request_headers true [] new_conn (str "GET /tx HTTP/1.1" ++ CRLF))) = str "GET".
Proof.
  pose proof (request_line_roundtrip (str "GET") (str "/tx") (str "HTTP/1.1") [] [] new_conn
    eq_refl eq_refl eq_refl eq_refl) as Hr. rewrite app_nil_r in Hr.
  change (str "GET" ++ [SP] ++ str "/tx" ++ [SP] ++ str "HTTP/1.1" ++ CRLF)
    with (str "GET /tx HTTP/1.1" ++ CRLF) in Hr.
  destruct (parse_request_headers true [] new_conn _) as [c' rc]. apply Hr.
Defined.

(** What the position remembered in [headers_scanned] guarantees. *)
Definition scan_inv (c : Connection) : Prop :=
  forall more, search_from (input c ++ more) (Z.to_nat (headers_scanned c)) =
               memmem (input c ++ more) HEADER_END.

(** The incremental search for the blank line never misses it: from a connection whose
    scan position is sound (a new one is), after a read that appends any bytes, either the
    connection has left the header-reading state or its whole buffer holds no blank line
    and the position it remembers is sound again, so resuming the search three bytes
    before the end of the buffer is searching all of it. *)
Theorem header_end_never_missed (e : ReadEnv) (w : WorkerProcess) (c0 : Connection) (data : chars) :
  scan_inv c0 ->
  let c := c0 <| input ::= fun i => i ++ data |> in
  let '(w', c') := read_headers e (zlen (input c)) w c in
  state c' = CONN_STATE_READING_HEADERS -> memmem (input c') HEADER_END = None /\ scan_inv c'.
Proof.
  intros Hi c. destruct (read_headers e (zlen (input c)) w c) as [w' c'] eqn:Er. intros Hs.
  destruct (read_headers_waiting e w c w' c' Er Hs) as (Hn & Ein & Eh & _).
  assert (memmem (input c) HEADER_END = None) as Hm by (rewrite <- Hn; symmetry; apply (Hi data)).
  rewrite Ein. split; [done|]. intros more. rewrite Ein, Eh. apply scan_from; [done|].
  destruct (zlen (input c) >? 3) eqn:E; b2p; unfold zlen in *; lia.
Qed.

(** C15: A read never leaves a connection buffering more than its slot pays for: on an
    HTTP/1.1 connection (plain, or over TLS after the hand-shake) that waits for headers, a
    read ends with the connection freed, or to be closed, or with an empty buffer, or with
    at most [max_buffer_size] bytes under a slot of at least the tier of that many bytes.
    This is about the buffer as a read leaves it: a request that is pipelined behind
    another one is not counted until the next read. *)
Theorem tier_covers_buffer (e : ReadEnv) (w : WorkerProcess) (c : Connection) :
  settled c -> state c = CONN_STATE_READING_HEADERS ->
  match conn_read_cb e w c with
  | (_, Some c') => covered (config w) c' \/ input c' = [] \/ state c' = CONN_STATE_CLOSING
  | (_, None) => True
  end.
Proof.
  intros Hset Hs. rewrite http1_read by done.
  assert (forall c1, input c1 = input c -> state c1 = state c ->
    match (let '(w, c2) := read_request e (zlen (input c)) w c1 in (w, Some c2)) with
    | (_, Some c') => covered (config w) c' \/ input c' = [] \/ state c' = CONN_STATE_CLOSING
    | (_, None) => True
    end) as Hgo.
  { intros c1 <- Hs1. unfold read_request. rewrite Hs1, Hs.
    pose proof (read_headers_covered e w c1 (eq_trans Hs1 Hs)) as Hr. by destruct (read_headers _ _ _ _). }
  unfold read_slowloris. destruct (_ >? _); [done|]. cbv zeta.
  destruct (_ >=? _); [destruct (_ || _); [done|]|]; by apply Hgo.
Qed.

Lemma responses_well_framed_witness :
  pages_wf (static_files idle_worker) /\ issued_id (request_id new_conn) /\
  responded new_conn (snd (process_request {| health_env := mkHealthEnv 0 0 (Some []) (Some 2);
    fs := fun _ => None; send_env := mkSendEnv true true true true |}
    idle_worker new_conn)).
Proof.
  assert (pages_wf (static_files idle_worker)) as Hp.
  { unfold pages_wf. simpl. rewrite !Forall_cons, Forall_nil.
    assert (page_wf sample_page) by (split; [done|split; [vm_compute; discriminate|done]]).
    by split_and!. }
  assert (issued_id (request_id new_conn)) as Hi by (repeat eexists).
  split; [exact Hp|]. split; [exact Hi|].
  exact (proj1 (responses_well_framed _ _ _ Hp Hi)).
Defined.

Definition plain_env (t : Z) : ReadEnv :=
  {| now := t; ssl_init_finished := false; ssl_version := TLS_OTHER; alpn_offer := None;
     h2_init := mkH2InitEnv true true true true true; h2_preface := mkSessionSend [] [] true;
     pullup_ok := true; h2_recv := mkSessionRecv [] true; h2_send := mkSessionSend [] [] true;
     path_malloc_ok := true; mem_after := [];
     request_env := mkRequestEnv (mkHealthEnv 0 0 (Some []) (Some 2)) (fun _ => None)
                      (mkSendEnv true true true true) |}.

(** A new connection has a sound position; half a blank line keeps it waiting. *)
Lemma header_end_never_missed_witness :
  let c := new_conn <| input ::= fun i => i ++ (str "GET / HTTP/1.1" ++ [CR; LF; CR]) |> in
  let '(w', c') := read_headers (plain_env 1) (zlen (input c)) idle_worker c in
  state c' = CONN_STATE_READING_HEADERS /\ scan_inv c'.
Proof.
  assert (scan_inv new_conn) as Hi.
  { intros more. unfold search_from. simpl. rewrite drop_0. by destruct (memmem more HEADER_END). }
  pose proof (header_end_never_missed (plain_env 1) idle_worker new_conn
    (str "GET / HTTP/1.1" ++ [CR; LF; CR]) Hi) as Hn. cbv zeta in *.
  destruct (read_headers _ _ _ _) as [w' c'] eqn:Er.
  assert (state c' = CONN_STATE_READING_HEADERS) as Hs.
  { apply (f_equal (fun r => state (snd r))) in Er. simpl snd in Er. rewrite <- Er.
    vm_compute. reflexivity. }
  split; [exact Hs|apply Hn, Hs].
Defined.

(** Seventy thousand buffered bytes are held under a large slot. *)
Lemma tier_covers_buffer_witness :
  let c := new_conn <| input := repeat "a"%char 70000 |> in
  match conn_read_cb (plain_env 1) idle_worker c with
  | (w', Some c') => tier_index (size_to_tier (zlen (input c')) default_values) <= tier_index (current_tier c')
  | (_, None) => False
  end.
Proof.
  intros c. pose proof (tier_covers_buffer (plain_env 1) idle_worker c (conj eq_refl eq_refl) eq_refl) as Ht.
  destruct (conn_read_cb (plain_env 1) idle_worker c) as [w' [c'|]] eqn:Er.
  - assert (state c' = CONN_STATE_READING_HEADERS /\ (length (input c') =? 0)%nat = false) as [Hs Hi].
    { apply (f_equal (fun r => match r with (_, Some x) => (state x, (length (input x) =? 0)%nat)
                                       | _ => (CONN_STATE_CLOSING, true) end)) in Er.
      assert ((state c', (length (input c') =? 0)%nat) = (CONN_STATE_READING_HEADERS, false)) as Hp
        by (etransitivity; [symmetry; exact Er|vm_compute; reflexivity]).
      clear Er. exact (conj (f_equal fst Hp) (f_equal snd Hp)). }
    clear Er.
    destruct Ht as [[_ Ht]|[Ht|Ht]]; [exact Ht|rewrite Ht in Hi; discriminate|rewrite Hs in Ht; discriminate].
  - apply (f_equal (fun r => match r with (_, Some _) => true | _ => false end)) in Er.
    vm_compute in Er. discriminate.
Defined.

(** C39: The throughput check counts the bytes buffered since the window opened, whenever
    they arrived: a connection that was idle for five seconds since it was opened (or
    since its last response) and then sends a complete request of fewer than 100 bytes is
    freed on that read, without a response, and counted as a slowloris attack. *)
Theorem idle_then_small_request_killed (e : ReadEnv) (w : WorkerProcess) (c : Connection) :
  ssl c = false -> bytes_at_last_check c = 0 ->
  now e - last_progress_time c >= THROUGHPUT_CHECK_INTERVAL_SEC * NSEC ->
  zlen (input c) < MIN_BYTES_PER_CHECK ->
  conn_read_cb e w c = (connection_free (bump slowloris_kills w) c, None).
Proof.
  intros Hssl Hb Ht Hl. unfold conn_read_cb, read_tls. rewrite Hssl. cbn [andb and_then].
  unfold read_slowloris. destruct (_ >? _); [done|].
  replace (now e - last_progress_time c >=? THROUGHPUT_CHECK_INTERVAL_SEC * NSEC) with true
    by (symmetry; rewrite Z.geb_leb; apply Z.leb_le; lia).
  rewrite Hb, Z.sub_0_r. unfold u64. rewrite wrap_small; cycle 1.
  { unfold MIN_BYTES_PER_CHECK in Hl. pose proof (zlen_nonneg (input c)). lia. }
  replace (zlen (input c) <? MIN_BYTES_PER_CHECK) with true by (symmetry; apply Z.ltb_lt; lia).
  by rewrite orb_true_r.
Qed.

Lemma idle_then_small_request_killed_witness :
  snd (conn_read_cb (plain_env (6 * NSEC)) idle_worker
         (new_conn <| input := str "GET /alive HTTP/1.1" ++ HEADER_END |>)) = None.
Proof.
  rewrite (idle_then_small_request_killed (plain_env (6 * NSEC)) idle_worker
    (new_conn <| input := str "GET /alive HTTP/1.1" ++ HEADER_END |>));
    [reflexivity|reflexivity|reflexivity|vm_compute; discriminate|reflexivity].
Defined.

(** The Content-Length of a header block is not a function of that block: with an empty
    value, [strtoul] skips the blank line as white space and reads the number from the
    bytes that follow the block in memory (here a body "777"), and a header whose name
    merely ends in "Content-Length" is taken for it. *)
Theorem content_length_reads_past_headers :
  let headers := str "POST / HTTP/1.1" ++ CRLF ++ str "Content-Length:" ++ HEADER_END in
  parse_content_length headers [] = 0 /\ parse_content_length headers (str "777") = 777 /\
  parse_content_length (str "POST / HTTP/1.1" ++ CRLF ++ str "X-Content-Length: 5" ++ HEADER_END) [] = 5.
Proof. vm_compute. by split_and!. Qed.

(** ** ACME challenge tokens *)

Lemma forallb_In {A} (f : A -> bool) l x : forallb f l = true -> In x l -> f x = true.
Proof. rewrite forallb_forall. auto. Qed.

Lemma token_no_memchr c l :
  token_char c = false -> forallb token_char l = true -> memchr c l = None.
Proof.
  intros Hc Hl. apply memchr_None. rewrite forallb_forall in *. intros x Hx. specialize (Hl x Hx).
  apply negb_true_iff. destruct (eqc x c) eqn:E; [|done]. apply eqc_eq in E. congruence.
Qed.

Lemma token_c_string l : forallb token_char l = true -> c_string l = l.
Proof.
  intros Hl. apply no_nul_c_string. rewrite forallb_forall in *. intros x Hx. specialize (Hl x Hx).
  apply negb_true_iff. destruct (eqc x NUL) eqn:E; [|done]. apply eqc_eq in E. by subst.
Qed.

Lemma token_no_dots l : forallb token_char l = true -> memmem l (str "..") = None.
Proof.
  intros Hl. apply memmem_None. intros a b ->. rewrite !forallb_app_iff in Hl.
  apply andb_true_iff in Hl as [_ Hl]. done.
Qed.

Lemma acme_token_facts (p : chars) :
  acme_token p (zlen p) = acme_token_h2 p (zlen p) /\
  (forall token, acme_token p (zlen p) = Some token ->
     token = drop 28 p /\ token <> [] /\ forallb token_char token = true /\
     memchr "/"%char token = None /\ memmem token (str "..") = None).
Proof.
  unfold acme_token, acme_token_h2.
  destruct ((zlen p <? ACME_PREFIX_LEN + 2) || _) eqn:Eg; [split; [done|]; intros token [=]|]. b2p.
  assert (take (Z.to_nat (zlen p - 1 - ACME_PREFIX_LEN)) (drop 28 p) = drop 28 p) as ->.
  { apply take_ge. rewrite length_drop. unfold zlen, ACME_PREFIX_LEN in *. lia. }
  cbn zeta. destruct (forallb token_char (drop 28 p)) eqn:Et.
  - unfold strstr, strchr. rewrite (token_c_string _ Et), (token_no_dots _ Et).
    rewrite !(token_no_memchr _ (drop 28 p)) by (reflexivity || done).
    assert (bool_decide (is_Some (@None nat)) = false) as -> by by apply bool_decide_eq_false, is_Some_None.
    cbn [orb]. split; [done|]. intros token [= <-]. split_and!; try done.
    + intros En. apply (f_equal length) in En. rewrite length_drop in En. simpl in En.
      unfold zlen, ACME_PREFIX_LEN in *. lia.
    + by apply token_no_memchr.
    + by apply token_no_dots.
  - by split; repeat case_match.
Qed.

(** C17: Path traversal is impossible: the HTTP/1.1 and HTTP/2 handlers accept the same
    challenge paths and take the same token from them, the whole rest of the path after
    "/.well-known/acme-challenge/", which is not empty and holds only letters, digits, "-"
    and "_"; so the file they open is directly in the challenge directory. *)
Theorem acme_token_safe (p : chars) :
  acme_token p (zlen p) = acme_token_h2 p (zlen p) /\
  (forall token, acme_token p (zlen p) = Some token ->
     token = drop 28 p /\ token <> [] /\ forallb token_char token = true /\
     memchr "/"%char token = None /\ memmem token (str "..") = None).
Proof. apply acme_token_facts. Qed.
