(* ===== verification/Timing.v ===== *)
(** * How long a client may take

    What the time-out and the throughput check of [conn_read_cb] add up to
    over a whole sequence of reads: how long a client can hold a connection
    while it sends its headers, and how long one can upload a body. *)
From Stdlib Require Import ZArith QArith Lia Ascii String.
From stdpp Require Import base list numbers strings.
From S2P Require Import Prelude CLib Router Network Config Slots IpAcl RateLimiter Rpc Tls State Endpoints Metrics Http2 StaticFiles Connection Http1.

#[local] Open Scope Z_scope.

(** What passes the throughput check. *)
Lemma slowloris_passed e available w c w1 c1 :
  read_slowloris e available w c = Continue w1 c1 ->
  w1 = w /\ now e - start_time c <= MAX_REQUEST_TIME_SEC * NSEC /\
  ((c1 = c /\ now e - last_progress_time c < THROUGHPUT_CHECK_INTERVAL_SEC * NSEC) \/
   (c1 = c <| last_progress_time := now e |> <| bytes_at_last_check := available |> /\
    MIN_BYTES_PER_CHECK <= available - bytes_at_last_check c)).
Proof.
  unfold read_slowloris. destruct (_ >? _) eqn:E1; [done|]. cbv zeta.
  destruct (now e - last_progress_time c >=? _) eqn:E2; cycle 1.
  { intros [= <- <-]. b2p. split_and!; [done|lia|]. left. split; [done|]. lia. }
  destruct (_ || _) eqn:E3; [done|]. intros [= <- <-]. apply orb_false_iff in E3 as [E3 E4]. b2p.
  split_and!; [done|lia|]. right. split; [done|].
  assert (u64 (available - bytes_at_last_check c) <= available - bytes_at_last_check c); [|lia].
  apply Z.mod_le; lia.
Qed.

(** ** The clocks of a connection *)

(** The fields that only [read_slowloris] and a keep-alive reset change,
    and those that tell the protocol. *)
Definition clocks (c : Connection) :=
  (start_time c, last_progress_time c, bytes_at_last_check c, ssl c, tls_handshake_done c, protocol c).

Lemma clocks_settled c c' : clocks c' = clocks c -> settled c -> settled c'.
Proof. unfold clocks, settled. by intros [= _ _ _ -> -> ->]. Qed.

(** Waiting for more headers, or for more of the body, leaves them alone. *)
Lemma waiting_clocks e w c w' c' :
  read_headers e (zlen (input c)) w c = (w', c') -> state c' = CONN_STATE_READING_HEADERS ->
  clocks c' = clocks c.
Proof.
  unfold read_headers. destruct (_ >? _); [by intros [= <- <-]|].
  assert (clocks (snd (fst (try_promote_tier w c (zlen (input c))))) = clocks c) as Hp.
  { unfold try_promote_tier. by repeat case_match. }
  destruct (try_promote_tier w c _) as [[w1 c1] rc]. cbn [fst snd] in Hp. rewrite <- Hp.
  destruct (rc <? 0); [by intros [= <- <-]|]. destruct (search_from _ _) as [pos|].
  - intros Hc Hs. pose proof (headers_complete_state e w1 c1 (pos + 4)) as Hn. by rewrite Hc in Hn.
  - destruct (_ && pullup_ok e); [destruct (validate_path_early _ _) as [fl rc2]; destruct (rc2 <? 0)|];
      by intros [= <- <-].
Qed.

Lemma body_waiting e w c w' c' :
  0 <= content_length c < 2 ^ 64 ->
  read_body e (zlen (input c)) w c = (w', c') -> state c' = CONN_STATE_READING_BODY ->
  clocks c' = clocks c /\ input c' = [] /\ content_length c' = content_length c.
Proof.
  intros Hcl. unfold read_body. cbv zeta. destruct (_ >=? _) eqn:E.
  - destruct (downgrade_tier_to_normal _ _) as [w3 c3]. intros Hc Hs.
    destruct (process_state (request_env e) w3 c3) as [Hp|Hp]; rewrite Hc in Hp; cbn in Hp; congruence.
  - intros [= <- <-] _. split; [done|]. split; [|done]. cbn in E |- *.
    destruct (_ <? _) eqn:Er in E |- *.
    + apply drop_ge. unfold zlen. lia.
    + exfalso. b2p. revert E. unfold u64, wrap. rewrite Zplus_mod_idemp_r.
      replace (body_received c + _) with (content_length c) by lia. rewrite Z.mod_small by done. lia.
Qed.

(** ** Sequences of reads *)

(** Data arrives, and the read callback runs.  The worker is any worker:
    other connections may do what they like in between. *)
Record Arrival := mkArrival { a_data : chars; a_env : ReadEnv; a_worker : WorkerProcess }.

(** The connection, if after each read it is still open and in the state
    [st]. *)
Fixpoint receive_all (st : ConnState) (c : Connection) (l : list Arrival) : option Connection :=
  match l with
  | [] => Some c
  | a :: l =>
      match snd (conn_read_cb (a_env a) (a_worker a) (c <| input ::= fun i => i ++ a_data a |>)) with
      | Some c => if bool_decide (state c = st) then receive_all st c l else None
      | None => None
      end
  end.

(** The reads follow each other from the time [t] on, and none comes later
    than the read time-out of the buffer event. *)
Fixpoint in_time (t : Z) (l : list Arrival) : Prop :=
  match l with
  | [] => True
  | a :: l => t <= now (a_env a) <= t + READ_TIMEOUT_SEC * NSEC /\ in_time (now (a_env a)) l
  end.

(** The time of the last read. *)
Fixpoint last_read (t : Z) (l : list Arrival) : Z :=
  match l with [] => t | a :: l => last_read (now (a_env a)) l end.

(** From the time [t0], each window that passed the check had 100 bytes more
    than the one before and ended at most 35 seconds after it. *)
Definition window : Z := (THROUGHPUT_CHECK_INTERVAL_SEC + READ_TIMEOUT_SEC) * NSEC.

Ltac clocked :=
  unfold window, MIN_BYTES_PER_CHECK, THROUGHPUT_CHECK_INTERVAL_SEC, READ_TIMEOUT_SEC, NSEC in *; lia.

Record kept_pace (t0 b0 t : Z) (c : Connection) : Prop := {
  kp_start : start_time c = t0;
  kp_total : t - t0 <= MAX_REQUEST_TIME_SEC * NSEC;
  kp_window : t - last_progress_time c < THROUGHPUT_CHECK_INTERVAL_SEC * NSEC;
  kp_bytes : MIN_BYTES_PER_CHECK * (last_progress_time c - t0) <= window * (bytes_at_last_check c - b0)
}.

Lemma kept_pace_clocks t0 b0 t c c' : clocks c' = clocks c -> kept_pace t0 b0 t c -> kept_pace t0 b0 t c'.
Proof. unfold clocks. intros [= H1 H2 H3 _ _ _] [K1 K2 K3 K4]. split; by rewrite ?H1, ?H2, ?H3. Qed.

Lemma slowloris_pace t0 b0 t e available w c w1 c1 :
  kept_pace t0 b0 t c -> t <= now e <= t + READ_TIMEOUT_SEC * NSEC ->
  read_slowloris e available w c = Continue w1 c1 ->
  kept_pace t0 b0 (now e) c1 /\
  (bytes_at_last_check c1 = bytes_at_last_check c \/ bytes_at_last_check c1 = available) /\
  exists p b, c1 = c <| last_progress_time := p |> <| bytes_at_last_check := b |>.
Proof.
  intros [K1 K2 K3 K4] Hn Hs. apply slowloris_passed in Hs as (_ & Ht & [[-> Hl]|[-> Hb]]).
  - split; [split; [done|lia|lia|done]|]. split; [by left|].
    exists (last_progress_time c), (bytes_at_last_check c). by destruct c.
  - split; [|split; [by right|by eexists _, _]]. split; cbn; [done|lia| |].
    + unfold THROUGHPUT_CHECK_INTERVAL_SEC, NSEC. lia.
    + clocked.
Qed.

(** One read that leaves the connection waiting: [available] bytes were in
    the buffer. *)
Lemma read_pace t0 b0 t e w c w' c' :
  settled c -> kept_pace t0 b0 t c -> t <= now e <= t + READ_TIMEOUT_SEC * NSEC ->
  (state c = CONN_STATE_READING_BODY -> 0 <= content_length c < 2 ^ 64) ->
  conn_read_cb e w c = (w', Some c') -> state c' = state c ->
  (state c = CONN_STATE_READING_HEADERS \/ state c = CONN_STATE_READING_BODY) ->
  settled c' /\ kept_pace t0 b0 (now e) c' /\
  (bytes_at_last_check c' = bytes_at_last_check c \/ bytes_at_last_check c' = zlen (input c)) /\
  (state c = CONN_STATE_READING_HEADERS -> input c' = input c) /\
  (state c = CONN_STATE_READING_BODY -> input c' = [] /\ content_length c' = content_length c).
Proof.
  intros Hset Hk Ht Hcl Hr Hst Hs. rewrite http1_read in Hr by done.
  destruct (read_slowloris _ _ _ _) as [w1 c1|w1 r] eqn:El.
  2: { unfold read_slowloris in El. cbv zeta in El.
       repeat (case_match; try discriminate El); injection El as <- <-; discriminate Hr. }
  destruct (slowloris_pace _ _ _ _ _ _ _ _ _ Hk Ht El) as (Hk1 & Hb & p & b & Hc1).
  assert (settled c1 /\ input c1 = input c /\ state c1 = state c /\ content_length c1 = content_length c)
    as (Hset1 & Hi & Hst1 & Hcl1) by by rewrite Hc1.
  assert (clocks c' = clocks c1 /\ (state c = CONN_STATE_READING_HEADERS -> input c' = input c) /\
    (state c = CONN_STATE_READING_BODY -> input c' = [] /\ content_length c' = content_length c)) as (Hc' & HA & HB).
  { clear Hc1. rewrite <- Hi in Hr. unfold read_request in Hr. rewrite Hst1 in Hr.
    destruct Hs as [Hs|Hs]; rewrite Hs in *.
    - destruct (read_headers _ _ _ _) as [w2 c2] eqn:Eh. injection Hr as <- <-.
      destruct (read_headers_waiting _ _ _ _ _ Eh Hst) as (_ & Hin & _).
      split; [by eapply waiting_clocks|]. split; [by rewrite <- Hi|done].
    - destruct (read_body _ _ _ _) as [w2 c2] eqn:Eh. injection Hr as <- <-. rewrite <- Hcl1 in *.
      destruct (body_waiting _ _ _ _ _ (Hcl eq_refl) Eh Hst) as (? & ? & ?). by split_and!. }
  split; [by eapply clocks_settled|]. split; [by eapply kept_pace_clocks|]. split; [|done].
  unfold clocks in Hc'. injection Hc' as _ _ -> _ _ _. exact Hb.
Qed.

(** A step of [receive_all]. *)
Lemma receive_all_step st c a l c' :
  receive_all st c (a :: l) = Some c' ->
  exists w1 c1, conn_read_cb (a_env a) (a_worker a) (c <| input ::= fun i => i ++ a_data a |>) = (w1, Some c1) /\
    state c1 = st /\ receive_all st c1 l = Some c'.
Proof.
  cbn [receive_all]. destruct (conn_read_cb _ _ _) as [w1 [c1|]]; cbn [snd]; [|done].
  case_bool_decide; [|done]. by exists w1, c1.
Qed.

Lemma headers_pace t0 l : forall t c c',
  settled c -> state c = CONN_STATE_READING_HEADERS ->
  kept_pace t0 0 t c -> bytes_at_last_check c <= zlen (input c) -> in_time t l ->
  receive_all CONN_STATE_READING_HEADERS c l = Some c' ->
  kept_pace t0 0 (last_read t l) c' /\ bytes_at_last_check c' <= zlen (input c') /\
  input c' = input c ++ concat (a_data <$> l).
Proof.
  induction l as [|a l IH]; intros t c c' Hset Hst Hk Hb Hin Hr.
  { injection Hr as <-. by rewrite app_nil_r. }
  destruct Hin as [Ht Hin]. apply receive_all_step in Hr as (w1 & c1 & Hr & Hst1 & Hl).
  set (ca := c <| input ::= fun i => i ++ a_data a |>) in Hr.
  destruct (read_pace t0 0 t (a_env a) (a_worker a) ca w1 c1) as (Hset1 & Hk1 & Hb1 & Hi1 & _); [done|by destruct Hk; split|done| |done|..].
  { change (state ca) with (state c). by rewrite Hst. }
  { change (state ca) with (state c). by rewrite Hst, Hst1. }
  { by left. }
  specialize (Hi1 Hst). change (input ca) with (input c ++ a_data a) in *.
  destruct (IH (now (a_env a)) c1 c') as (H1 & H2 & H3); [done|done|done| |done|done|].
  { rewrite Hi1, zlen_app. pose proof (zlen_nonneg (a_data a)).
    change (bytes_at_last_check ca) with (bytes_at_last_check c) in Hb1. rewrite zlen_app in Hb1. lia. }
  split_and!; [exact H1|exact H2|]. rewrite H3, Hi1. cbn. by rewrite app_assoc.
Qed.

Lemma body_pace t0 b0 S l : forall t c c',
  settled c -> state c = CONN_STATE_READING_BODY -> 0 <= content_length c < 2 ^ 64 ->
  kept_pace t0 b0 t c -> bytes_at_last_check c <= Z.max b0 S -> input c = [] ->
  Forall (fun a => zlen (a_data a) <= S) l -> in_time t l ->
  receive_all CONN_STATE_READING_BODY c l = Some c' ->
  kept_pace t0 b0 (last_read t l) c' /\ bytes_at_last_check c' <= Z.max b0 S.
Proof.
  induction l as [|a l IH]; intros t c c' Hset Hst Hcl Hk Hb Hi HS Hin Hr.
  { by injection Hr as <-. }
  apply Forall_cons in HS as [Ha HS].
  destruct Hin as [Ht Hin]. apply receive_all_step in Hr as (w1 & c1 & Hr & Hst1 & Hl).
  set (ca := c <| input ::= fun i => i ++ a_data a |>) in Hr.
  destruct (read_pace t0 b0 t (a_env a) (a_worker a) ca w1 c1) as (Hset1 & Hk1 & Hb1 & _ & Hi1); [done|by destruct Hk; split|done|done|done|..].
  { change (state ca) with (state c). by rewrite Hst, Hst1. }
  { by right. }
  destruct (Hi1 Hst) as [Hi2 Hcl2]. change (input ca) with (input c ++ a_data a) in *.
  change (content_length ca) with (content_length c) in Hcl2.
  change (bytes_at_last_check ca) with (bytes_at_last_check c) in Hb1. rewrite Hi in Hb1.
  apply (IH (now (a_env a)) c1 c'); try done; [by rewrite Hcl2|].
  cbn [app] in Hb1. lia.
Qed.

(** ** Claims *)

(** C14: A client cannot drip its request.  Take an HTTP/1.1 connection that starts to wait for a
    request at [t0] with an empty buffer, and any sequence of reads, each within the read time-out of
    the one before, whatever happens to the rest of the worker in between.  If it is still waiting for
    the end of the headers after the last of them, at most 120 seconds have passed, the buffer holds
    what was received, and beyond the first five seconds the client has paid at least 100 bytes for
    each 35 seconds (a five-second window and the time-out). *)
Theorem slow_headers_cut_off (c0 c : Connection) (t0 : Z) (l : list Arrival) :
  settled c0 -> state c0 = CONN_STATE_READING_HEADERS -> input c0 = [] ->
  start_time c0 = t0 -> last_progress_time c0 = t0 -> bytes_at_last_check c0 = 0 ->
  in_time t0 l -> receive_all CONN_STATE_READING_HEADERS c0 l = Some c ->
  let elapsed := last_read t0 l - t0 in
  elapsed <= MAX_REQUEST_TIME_SEC * NSEC /\ input c = concat (a_data <$> l) /\
  MIN_BYTES_PER_CHECK * (elapsed - THROUGHPUT_CHECK_INTERVAL_SEC * NSEC) < window * zlen (input c).
Proof.
  intros Hset Hst Hi H1 H2 H3 Hin Hr elapsed.
  destruct (headers_pace t0 l t0 c0 c) as ([K1 K2 K3 K4] & Hb & Hx); try done.
  { split; [done| | |]; rewrite ?H2, ?H3, ?Z.sub_diag; done. }
  { by rewrite H3, Hi. }
  rewrite Hi in Hx. split; [done|]. split; [exact Hx|].
  rewrite Z.sub_0_r in K4. subst elapsed. clocked.
Qed.

(** C37: The throughput check cuts off fast uploads too.  It compares the bytes in the buffer at two
    reads, but the body is drained as it is read: while the body of a request is received in reads of
    at most [S] bytes, a connection that goes on has been at it for at most 120 seconds, and beyond the
    first five for at most 35 seconds for each 100 bytes of [S], however many reads there were and
    however much was sent. *)
Theorem upload_cut_off (c0 c : Connection) (S : Z) (l : list Arrival) :
  settled c0 -> state c0 = CONN_STATE_READING_BODY -> input c0 = [] -> 0 <= content_length c0 < 2 ^ 64 ->
  bytes_at_last_check c0 = 0 -> start_time c0 = last_progress_time c0 -> 0 <= S ->
  Forall (fun a => zlen (a_data a) <= S) l -> in_time (start_time c0) l ->
  receive_all CONN_STATE_READING_BODY c0 l = Some c ->
  let elapsed := last_read (start_time c0) l - start_time c0 in
  elapsed <= MAX_REQUEST_TIME_SEC * NSEC /\
  MIN_BYTES_PER_CHECK * (elapsed - THROUGHPUT_CHECK_INTERVAL_SEC * NSEC) < window * S.
Proof.
  intros Hset Hst Hi Hcl Hb0 Hsl HS0 HS Hin Hr elapsed.
  destruct (body_pace (start_time c0) 0 S l (start_time c0) c0 c) as ([K1 K2 K3 K4] & Hb); try done.
  { split; [done| | |]; rewrite <- ?Hsl, ?Hb0, ?Z.sub_diag; done. }
  { lia. }
  split; [done|]. rewrite Z.sub_0_r in K4.
  subst elapsed. clocked.
Qed.

(** ** Witnesses *)

Definition arrival (t : Z) (data : chars) : Arrival :=
  {| a_data := data; a_env := plain_env t; a_worker := idle_worker |}.

(** Half a request, and six seconds later a hundred bytes of a header. *)
Definition dripping : list Arrival :=
  [arrival 1 (str "GET /alive HTTP/1.1"); arrival (6 * NSEC) ([CR; LF] ++ repeat "x"%char 100)].

Lemma slow_headers_cut_off_witness :
  exists c, receive_all CONN_STATE_READING_HEADERS new_conn dripping = Some c /\
    zlen (input c) = 121 /\ 100 * (6 * NSEC - 5 * NSEC) < window * 121.
Proof.
  destruct (receive_all CONN_STATE_READING_HEADERS new_conn dripping) as [c|] eqn:Er;
    [|vm_compute in Er; discriminate].
  exists c. split; [done|].
  destruct (slow_headers_cut_off new_conn c 0 dripping) as (_ & Hi & Hp);
    [by split|done..|vm_compute; intuition discriminate|exact Er|].
  assert (zlen (input c) = 121) as Hz by (rewrite Hi; reflexivity).
  split; [exact Hz|]. rewrite Hz in Hp. exact Hp.
Defined.

(** A client that sends 150 bytes every second. *)
Definition uploading : Connection :=
  new_conn <| state := CONN_STATE_READING_BODY |> <| content_length := 100000 |>.

Definition steady (n : nat) : list Arrival :=
  (fun k => arrival (Z.of_nat (S k) * NSEC) (repeat "x"%char 150)) <$> seq 0 n.

(** Nine seconds of it are accepted, the tenth is taken for an attack. *)
Lemma upload_cut_off_witness :
  (exists c, receive_all CONN_STATE_READING_BODY uploading (steady 9) = Some c) /\
  receive_all CONN_STATE_READING_BODY uploading (steady 10) = None /\
  last_read 0 (steady 9) = 9 * NSEC /\ 100 * (9 * NSEC - 5 * NSEC) < window * 150.
Proof.
  destruct (receive_all CONN_STATE_READING_BODY uploading (steady 9)) as [c|] eqn:Er;
    [|vm_compute in Er; discriminate].
  split; [by exists c|]. split; [vm_compute; reflexivity|]. split; [reflexivity|].
  destruct (upload_cut_off uploading c 150 (steady 9)) as (_ & Hp);
    [by split|reflexivity|reflexivity|vm_compute; intuition discriminate|reflexivity|reflexivity|lia
    |repeat constructor; vm_compute; discriminate|vm_compute; intuition discriminate|exact Er|exact Hp].
Defined.
