(* ===== verification/Segments.v ===== *)
(** * TCP segments do not matter

    A request that arrives in any number of pieces is answered as if it had
    arrived at once: the search for the end of the headers that resumes near
    the end of the buffer, the early validation of partial paths, and the
    counting of the body come to the same thing as a single read. *)
From Stdlib Require Import ZArith QArith Lia Ascii String.
From stdpp Require Import base list numbers strings.
From S2P Require Import Prelude CLib Router Network Config Slots IpAcl RateLimiter Rpc Tls State Endpoints Metrics Http2 StaticFiles Connection Http1 Timing.

#[local] Open Scope Z_scope.

(** ** Reads on one connection *)

Fixpoint feed (w : WorkerProcess) (c : Connection) (l : list (chars * ReadEnv)) : WorkerProcess * option Connection :=
  match l with
  | [] => (w, Some c)
  | (data, e) :: l =>
      match conn_read_cb e w (c <| input ::= fun i => i ++ data |>) with
      | (w, Some c) => feed w c l
      | (w, None) => (w, None)
      end
  end.

(** What the scan and the validation of partial headers leave behind, which
    nothing reads once the request is complete. *)
Definition scanned (k : Z) (fl : PathFlags) (c : Connection) : Connection :=
  c <| headers_scanned := k |> <| flags := fl |>.

Lemma acme_scanned e w c k fl st :
  serve_acme_challenge e w ((scanned k fl (c <| state := st |>)) <| state := CONN_STATE_PROCESSING |>) =
  scanned k fl (serve_acme_challenge e w (c <| state := CONN_STATE_PROCESSING |>)).
Proof.
  unfold serve_acme_challenge. cbn [path path_len scanned].
  change (path (c <| state := CONN_STATE_PROCESSING |>)) with (path c).
  change (path_len (c <| state := CONN_STATE_PROCESSING |>)) with (path_len c).
  destruct (acme_token _ _) as [token|]; [|reflexivity]. by destruct (acme_read _ _ _).
Qed.

Lemma process_scanned e w c k fl st :
  process_request e w (scanned k fl (c <| state := st |>)) =
  (fst (process_request e w c), scanned k fl (snd (process_request e w c))).
Proof.
  unfold process_request. cbv zeta.
  change (path ((scanned k fl (c <| state := st |>)) <| state := CONN_STATE_PROCESSING |>)) with (path c).
  change (path (c <| state := CONN_STATE_PROCESSING |>)) with (path c).
  destruct (route_request _); cbn [fst snd]; try reflexivity.
  - unfold serve_metrics. by destruct (generate_metrics_body _ _ _).
  - by rewrite acme_scanned.
Qed.

Lemma downgrade_scanned w c k fl st :
  downgrade_tier_to_normal w (scanned k fl (c <| state := st |>)) =
  (fst (downgrade_tier_to_normal w c), scanned k fl ((snd (downgrade_tier_to_normal w c)) <| state := st |>)).
Proof.
  unfold downgrade_tier_to_normal. change (slot_held (scanned k fl (c <| state := st |>))) with (slot_held c).
  change (current_tier (scanned k fl (c <| state := st |>))) with (current_tier c).
  repeat case_match; reflexivity.
Qed.

(** ** Requests *)

(** A request that is accepted: [head] ends at its first blank line, its path
    and its request line are in order, the value of Content-Length does not
    depend on what follows the block in memory, [body] is not longer than it
    says, and everything fits the buffer and a normal slot. *)
Record request (cfg : Config) (c : Connection) (head body : chars) (len : Z) : Prop := {
  rq_end : memmem head HEADER_END = Some (length head - 4)%nat;
  rq_path : snd (validate_path_early no_flags head) = 0;
  rq_line : snd (parse_request_headers true [] c head) = 0;
  rq_length : forall mem, parse_content_length head mem = len;
  rq_body : zlen body <= len <= max_buffer_size cfg;
  rq_size : zlen (head ++ body) <= max_buffer_size cfg;
  rq_word : len < 2 ^ 64;
  rq_tier : size_to_tier (zlen (head ++ body)) cfg = TIER_NORMAL
}.

(** A read in time, with memory to spare. *)
Definition prompt (c : Connection) (e : ReadEnv) : Prop :=
  pullup_ok e = true /\ path_malloc_ok e = true /\
  now e - start_time c <= MAX_REQUEST_TIME_SEC * NSEC /\
  now e - last_progress_time c < THROUGHPUT_CHECK_INTERVAL_SEC * NSEC.

(** A connection at the start of a request. *)
Definition fresh (c : Connection) : Prop :=
  settled c /\ state c = CONN_STATE_READING_HEADERS /\ input c = [] /\ headers_scanned c = 0 /\
  validation_failed (flags c) = false.

Lemma prompt_read c0 e w c :
  prompt c0 e -> clocks c = clocks c0 -> settled c0 ->
  conn_read_cb e w c = (fst (read_request e (zlen (input c)) w c), Some (snd (read_request e (zlen (input c)) w c))).
Proof.
  intros (_ & _ & Ht & Hp) Hc Hs. rewrite http1_read by by eapply clocks_settled.
  unfold clocks in Hc. injection Hc as H1 H2 _ _ _ _. unfold read_slowloris. rewrite H1, H2. cbv zeta.
  replace (now e - start_time c0 >? _) with false by (symmetry; rewrite Z.gtb_ltb; apply Z.ltb_ge; lia).
  replace (now e - last_progress_time c0 >=? _) with false
    by (symmetry; rewrite Z.geb_leb; apply Z.leb_gt; lia).
  by destruct (read_request e _ w c).
Qed.

Lemma size_to_tier_mono n m cfg : n <= m -> size_to_tier m cfg = TIER_NORMAL -> size_to_tier n cfg = TIER_NORMAL.
Proof.
  unfold size_to_tier. rewrite !Z.geb_leb. intros Hn.
  destruct (tier_huge_threshold cfg <=? m) eqn:E1; [done|]. destruct (tier_large_threshold cfg <=? m) eqn:E2; [done|].
  intros _. apply Z.leb_gt in E1, E2. by rewrite !(proj2 (Z.leb_gt _ _)) by lia.
Qed.

Lemma no_promotion w c n : size_to_tier n (config w) = TIER_NORMAL -> try_promote_tier w c n = (w, c, 0).
Proof. unfold try_promote_tier. intros ->. by destruct (current_tier c). Qed.

Lemma prefix_accepted fl p q :
  validation_failed fl = false -> snd (validate_path_early no_flags (p ++ q)) = 0 ->
  snd (validate_path_early fl p) = 0 /\ validation_failed (fst (validate_path_early fl p)) = false.
Proof.
  intros Hf Hq. assert (snd (validate_path_early fl p) = 0) as H0.
  { rewrite early_verdict in * by done. destruct (path_seen p) as [x|] eqn:E; [|done].
    destruct (path_seen_prefix p q x E) as [y Hy]. rewrite Hy in Hq.
    destruct (validate_hex_path_cases x) as [?|Hx]; [done|].
    by rewrite (validate_hex_path_mono x y Hx) in Hq. }
  split; [exact H0|]. revert H0. unfold validate_path_early. rewrite Hf. by repeat case_match.
Qed.

(** ** The end of the headers *)

(** Where [HEADER_END] first occurs does not depend on what follows. *)
Lemma memmem_app l p k i : memmem l p = Some i -> memmem (l ++ k) p = Some i.
Proof.
  revert i. induction l as [|x l IH]; intros i.
  - cbn [memmem]. destruct p as [|y p]; cbn [starts_with]; [|done]. intros [= <-]. by destruct k.
  - cbn [memmem app]. destruct (starts_with p (x :: l)) eqn:E.
    + intros [= <-]. apply starts_with_app in E as [r Hr].
      replace (starts_with p (x :: l ++ k)) with true; [done|]. symmetry. apply starts_with_app.
      exists (r ++ k). by rewrite app_assoc, <- Hr.
    + rewrite fmap_Some. intros (j & Hj & ->).
      destruct (starts_with p (x :: l ++ k)) eqn:E2; [|by rewrite (IH j Hj)].
      exfalso. pose proof (memmem_bound _ _ _ Hj) as Hb.
      change (x :: l ++ k) with ((x :: l) ++ k) in E2. rewrite starts_with_prefix in E2 by (cbn; lia). congruence.
Qed.

(** A prefix of a request is short of its head, or has all of it. *)
Lemma prefix_head head body p rest :
  memmem head HEADER_END = Some (length head - 4)%nat -> p ++ rest = head ++ body ->
  (memmem p HEADER_END = None /\ exists q, q <> [] /\ head = p ++ q) \/
  (memmem p HEADER_END = Some (length head - 4)%nat /\ exists b, p = head ++ b /\ body = b ++ rest).
Proof.
  intros Hm He. destruct (decide (length head <= length p)%nat) as [Hl|Hl].
  - right. assert (p = head ++ drop (length head) p) as Hp.
    { rewrite <- (take_drop (length head) p) at 1. f_equal.
      apply (f_equal (take (length head))) in He. by rewrite take_app_le, take_app_length in He by done. }
    rewrite Hp. split; [by apply memmem_app|]. eexists. split; [done|].
    rewrite Hp, <- app_assoc in He. by apply app_inv_head in He.
  - left. assert (head = p ++ drop (length p) head) as Hq.
    { rewrite <- (take_drop (length p) head) at 1. f_equal.
      apply (f_equal (take (length p))) in He. rewrite take_app_length, take_app_le in He by lia. done. }
    split; [|exists (drop (length p) head); split; [|done]].
    + destruct (memmem p HEADER_END) as [i|] eqn:E; [|done]. pose proof (memmem_bound _ _ _ E) as Hb.
      apply (memmem_app _ _ (drop (length p) head)) in E. rewrite <- Hq, Hm in E. injection E as <-.
      change (length HEADER_END) with 4%nat in Hb. lia.
    + intros Hd. apply (f_equal length) in Hd. rewrite length_drop in Hd. cbn in Hd. lia.
Qed.

(** Parsing does not touch what the scan records. *)
Lemma parse_scanned mem c k fl i h head len :
  (forall mem, parse_content_length head mem = len) ->
  parse_request_headers true mem (scanned k fl (c <| input := i |> <| headers_end := h |>)) head =
  (scanned k fl ((fst (parse_request_headers true [] c head)) <| input := i |> <| headers_end := h |>),
   snd (parse_request_headers true [] c head)).
Proof.
  intros Hl. unfold parse_request_headers. rewrite !Hl. repeat case_match; reflexivity.
Qed.

Lemma parse_length c head len :
  (forall mem, parse_content_length head mem = len) -> snd (parse_request_headers true [] c head) = 0 ->
  content_length (fst (parse_request_headers true [] c head)) = len.
Proof. intros Hl. unfold parse_request_headers. rewrite !Hl. by repeat case_match. Qed.

(** ** One read *)

Lemma scanned_append k fl c p d :
  (scanned k fl (c <| input := p |>)) <| input ::= fun i => i ++ d |> = scanned k fl (c <| input := p ++ d |>).
Proof. done. Qed.

Lemma scanned_append_body k fl c d : input c = [] ->
  (scanned k fl (c <| state := CONN_STATE_READING_BODY |>)) <| input ::= fun i => i ++ d |> =
  (scanned k fl (c <| state := CONN_STATE_READING_BODY |>)) <| input := d |>.
Proof. intros Hi. destruct c. cbn in Hi. by subst. Qed.

(** [conn_read_cb] on a connection that waits for headers, or for a body. *)
Lemma read_request_headers e w k fl c p : state c = CONN_STATE_READING_HEADERS ->
  read_request e (zlen (input (scanned k fl (c <| input := p |>)))) w (scanned k fl (c <| input := p |>)) =
  read_headers e (zlen p) w (scanned k fl (c <| input := p |>)).
Proof. intros Hs. destruct c. cbn in Hs. by subst. Qed.

Lemma read_request_body e w k fl c d :
  let x := (scanned k fl (c <| state := CONN_STATE_READING_BODY |>)) <| input := d |> in
  read_request e (zlen (input x)) w x = read_body e (zlen d) w x.
Proof. done. Qed.

(** Reading all of [d] into the body of any connection. *)
Lemma drained_body e k fl c d len w :
  content_length c = len -> 0 <= body_received c -> body_received c + zlen d <= len < 2 ^ 64 ->
  read_body e (zlen d) w ((scanned k fl (c <| state := CONN_STATE_READING_BODY |>)) <| input := d |>) =
  let c := c <| input := [] |> <| body_received := body_received c + zlen d |> in
  if body_received c >=? len then
    let '(w, c) := downgrade_tier_to_normal w (scanned k fl (c <| state := CONN_STATE_READING_BODY |>)) in
    process_request (request_env e) w c
  else (w, scanned k fl (c <| state := CONN_STATE_READING_BODY |>)).
Proof.
  intros Hl Hb Hd. pose proof (zlen_nonneg d). unfold read_body. cbv zeta.
  set (x := (scanned k fl (c <| state := CONN_STATE_READING_BODY |>)) <| input := d |>).
  change (content_length x) with (content_length c). change (body_received x) with (body_received c).
  unfold u64. rewrite Hl, (wrap_small 64 (len - body_received c)) by lia.
  replace (if zlen d <? len - body_received c then zlen d else len - body_received c) with (zlen d)
    by (destruct (_ <? _) eqn:E; b2p; lia).
  assert (x <| input ::= drop (Z.to_nat (zlen d)) |> <| body_received ::= fun n => wrap 64 (n + zlen d) |> =
    scanned k fl (c <| input := [] |> <| body_received := body_received c + zlen d |>
                    <| state := CONN_STATE_READING_BODY |>)) as ->; [|by rewrite <- Hl].
  unfold x. destruct c. unfold scanned. cbn in *. rewrite wrap_small by lia.
  by rewrite drop_ge by (unfold zlen; lia).
Qed.

Section Request.
Context (w : WorkerProcess) (c0 : Connection) (head body : chars) (len : Z).
Hypothesis Hrq : request (config w) c0 head body len.
Hypothesis Hfresh : fresh c0.

(** The connection with the headers parsed and [n] bytes of the body
    received. *)
Definition got (n : Z) : Connection :=
  (fst (parse_request_headers true [] c0 head)) <| headers_end := Z.of_nat (length head) |>
    <| input := [] |> <| body_received := n |>.

(** The outcome once [b] of the body has arrived. *)
Definition outcome_of (e : ReadEnv) (b : chars) : WorkerProcess * Connection :=
  if (len >? 0) && (zlen b <? len) then (w, (got (zlen b)) <| state := CONN_STATE_READING_BODY |>)
  else let '(w, c) := downgrade_tier_to_normal w (got (zlen b)) in process_request (request_env e) w c.

Definition scan_sound (k : Z) (p : chars) : Prop :=
  forall more, search_from (p ++ more) (Z.to_nat k) = memmem (p ++ more) HEADER_END.

(** Part [p] of the request has arrived. *)
Definition waiting (p : chars) (c : Connection) : Prop :=
  exists k fl, validation_failed fl = false /\
  ((exists q, q <> [] /\ head = p ++ q /\ c = scanned k fl (c0 <| input := p |>) /\ scan_sound k p) \/
   (exists b, p = head ++ b /\ zlen b < len /\
      c = scanned k fl ((got (zlen b)) <| state := CONN_STATE_READING_BODY |>))).

Lemma got_length n : content_length (got n) = len.
Proof. exact (parse_length _ _ _ (rq_length _ _ _ _ _ Hrq) (rq_line _ _ _ _ _ Hrq)). Qed.

Lemma finish_scanned e k fl st n :
  (let '(w, c) := downgrade_tier_to_normal w (scanned k fl ((got n) <| state := st |>)) in
   process_request (request_env e) w c) =
  let r := (let '(w, c) := downgrade_tier_to_normal w (got n) in process_request (request_env e) w c) in
  (fst r, scanned k fl (snd r)).
Proof.
  rewrite downgrade_scanned. destruct (downgrade_tier_to_normal w (got n)) as [w1 c1]. apply process_scanned.
Qed.

Lemma complete_headers e k fl b :
  prompt c0 e -> validation_failed fl = false -> zlen b <= len ->
  exists fl', validation_failed fl' = false /\
    headers_complete e w (scanned k fl (c0 <| input := head ++ b |>)) (length head) =
    (fst (outcome_of e b), scanned k fl' (snd (outcome_of e b))).
Proof.
  intros (Hpu & Hpm & _) Hfl Hb. unfold headers_complete. rewrite Hpu, Hpm. cbn [negb]. cbv zeta.
  change (input ((scanned k fl (c0 <| input := head ++ b |>)) <| headers_end := Z.of_nat (length head) |>))
    with (head ++ b). rewrite take_app_length.
  change (flags ((scanned k fl (c0 <| input := head ++ b |>)) <| headers_end := Z.of_nat (length head) |>)) with fl.
  destruct (prefix_accepted fl head [] Hfl) as [Hv Hf']; [rewrite app_nil_r; apply Hrq|].
  destruct (validate_path_early fl head) as [fl' rc]. cbn [fst snd] in Hv, Hf'. rewrite Hv.
  exists fl'. split; [done|]. cbn [Z.ltb Z.compare].
  assert ((scanned k fl (c0 <| input := head ++ b |>)) <| headers_end := Z.of_nat (length head) |> <| flags := fl' |>
    = scanned k fl' (c0 <| input := head ++ b |> <| headers_end := Z.of_nat (length head) |>)) as -> by reflexivity.
  rewrite (parse_scanned _ _ _ _ _ _ _ len) by apply Hrq. rewrite (rq_line _ _ _ _ _ Hrq). cbn [Z.ltb Z.compare].
  match goal with |- context [drop _ (input ?x)] => set (c1 := x) end.
  assert (input c1 = head ++ b /\ content_length c1 = len) as [-> Hl] by (split; [done|exact (got_length 0)]).
  rewrite drop_app_length.
  assert (c1 <| input := [] |> <| body_received := zlen b |> = scanned k fl' ((got (zlen b)) <| state := state (got (zlen b)) |>))
    as -> by (subst c1; unfold got, scanned; by destruct (fst (parse_request_headers true [] c0 head))).
  assert (forall x, content_length (scanned k fl' ((got (zlen b)) <| state := x |>)) = len /\
                    body_received (scanned k fl' ((got (zlen b)) <| state := x |>)) = zlen b) as Hx
    by (intros x; split; [exact (got_length 0)|done]).
  destruct (Hx (state (got (zlen b)))) as [-> ->]. rewrite Hl. clear Hx.
  replace (len >? max_buffer_size (config w)) with false
    by (symmetry; rewrite Z.gtb_ltb; apply Z.ltb_ge; pose proof (rq_body _ _ _ _ _ Hrq); lia).
  unfold outcome_of. destruct (_ && _); [reflexivity|]. apply finish_scanned.
Qed.

(** The buffer of a request in progress is within its limits. *)
Lemma within_limits p rest c :
  p ++ rest = head ++ body ->
  (zlen p >? max_buffer_size (config w)) = false /\ try_promote_tier w c (zlen p) = (w, c, 0).
Proof.
  intros He. apply (f_equal zlen) in He. rewrite zlen_app in He. pose proof (zlen_nonneg rest).
  split; [rewrite Z.gtb_ltb; apply Z.ltb_ge; pose proof (rq_size _ _ _ _ _ Hrq); lia|].
  apply no_promotion. eapply size_to_tier_mono; [|apply Hrq]. lia.
Qed.

Lemma read_short e k fl p d q :
  prompt c0 e -> validation_failed fl = false -> scan_sound k p -> head = (p ++ d) ++ q -> q <> [] ->
  exists k' fl', validation_failed fl' = false /\ scan_sound k' (p ++ d) /\
    read_headers e (zlen (p ++ d)) w (scanned k fl (c0 <| input := p ++ d |>)) =
    (w, scanned k' fl' (c0 <| input := p ++ d |>)).
Proof.
  intros (Hpu & _) Hfl Hk Hh Hq.
  destruct (within_limits (p ++ d) (q ++ body) (scanned k fl (c0 <| input := p ++ d |>))) as [Hm Hp];
    [by rewrite Hh, <- !app_assoc|].
  unfold read_headers. rewrite Hm, Hp. cbn [Z.ltb Z.compare].
  change (headers_scanned (scanned k fl (c0 <| input := p ++ d |>))) with k.
  change (input (scanned k fl (c0 <| input := p ++ d |>))) with (p ++ d).
  assert (memmem (p ++ d) HEADER_END = None) as Hn.
  { destruct (prefix_head head body (p ++ d) (q ++ body)) as [[? _]|[_ (b & Hb & _)]];
      [apply Hrq|by rewrite Hh, <- !app_assoc|done|].
    exfalso. rewrite Hh in Hb. rewrite <- (app_nil_r (p ++ d)) in Hb at 1. rewrite <- !app_assoc in Hb.
    do 2 apply app_inv_head in Hb. symmetry in Hb. apply app_eq_nil in Hb as [-> _]. done. }
  rewrite Hk, Hn, Hpu, andb_true_r. set (k' := if zlen (p ++ d) >? 3 then zlen (p ++ d) - 3 else 0).
  assert (scan_sound k' (p ++ d)) as Hk'.
  { intros more. apply scan_from; [exact Hn|]. unfold k'. destruct (_ >? 3) eqn:E; b2p; unfold zlen in *; lia. }
  destruct (zlen (p ++ d) >? 0); cycle 1.
  { exists k', fl. split; [done|]. split; [done|reflexivity]. }
  cbv zeta. change (flags ((scanned k fl (c0 <| input := p ++ d |>)) <| headers_scanned := k' |>)) with fl.
  change (input ((scanned k fl (c0 <| input := p ++ d |>)) <| headers_scanned := k' |>)) with (p ++ d).
  destruct (prefix_accepted fl (p ++ d) q Hfl) as [Hv Hf']; [rewrite <- Hh; apply Hrq|].
  destruct (validate_path_early fl (p ++ d)) as [fl' rc]. cbn [fst snd] in Hv, Hf'. rewrite Hv.
  exists k', fl'. split; [done|]. split; [done|reflexivity].
Qed.

Lemma read_full e k fl p d b :
  prompt c0 e -> validation_failed fl = false -> scan_sound k p -> p ++ d = head ++ b ->
  (exists rest, body = b ++ rest) ->
  exists fl', validation_failed fl' = false /\
    read_headers e (zlen (p ++ d)) w (scanned k fl (c0 <| input := p ++ d |>)) =
    (fst (outcome_of e b), scanned k fl' (snd (outcome_of e b))).
Proof.
  intros He Hfl Hk Hp [rest Hr].
  destruct (within_limits (p ++ d) rest (scanned k fl (c0 <| input := p ++ d |>))) as [Hm Ht];
    [by rewrite Hp, Hr, app_assoc|].
  unfold read_headers. rewrite Hm, Ht. cbn [Z.ltb Z.compare].
  change (headers_scanned (scanned k fl (c0 <| input := p ++ d |>))) with k.
  change (input (scanned k fl (c0 <| input := p ++ d |>))) with (p ++ d).
  rewrite Hk, Hp. rewrite (memmem_app _ _ b _ (rq_end _ _ _ _ _ Hrq)).
  pose proof (memmem_bound _ _ _ (rq_end _ _ _ _ _ Hrq)) as Hb. change (length HEADER_END) with 4%nat in Hb.
  replace (length head - 4 + 4)%nat with (length head) by lia.
  apply complete_headers; [done|done|]. pose proof (rq_body _ _ _ _ _ Hrq) as [Hl _].
  rewrite Hr, zlen_app in Hl. pose proof (zlen_nonneg rest). lia.
Qed.

Lemma got_again n m : (got n) <| input := [] |> <| body_received := m |> = got m.
Proof. unfold got. by generalize (fst (parse_request_headers true [] c0 head)). Qed.

Lemma read_more_body e k fl b d :
  zlen b < len -> zlen (b ++ d) <= len ->
  read_body e (zlen d) w ((scanned k fl ((got (zlen b)) <| state := CONN_STATE_READING_BODY |>)) <| input := d |>) =
  (fst (outcome_of e (b ++ d)), scanned k fl (snd (outcome_of e (b ++ d)))).
Proof.
  intros Hb Hd. pose proof (rq_word _ _ _ _ _ Hrq). rewrite zlen_app in Hd.
  pose proof (zlen_nonneg b). pose proof (zlen_nonneg d).
  rewrite (drained_body e k fl (got (zlen b)) d len); [|apply got_length|cbn; lia|cbn; lia].
  change (body_received (got (zlen b))) with (zlen b). rewrite <- zlen_app, got_again. cbv zeta.
  change (body_received (got (zlen (b ++ d)))) with (zlen (b ++ d)). unfold outcome_of.
  replace (len >? 0) with true by (symmetry; rewrite Z.gtb_ltb; apply Z.ltb_lt; lia).
  rewrite Z.geb_leb, Z.leb_antisym. cbn [andb]. destruct (zlen (b ++ d) <? len); cbn [negb]; [reflexivity|].
  apply finish_scanned.
Qed.

(** ** Any number of reads *)

Lemma clocks_parse x head' : clocks (fst (parse_request_headers true [] x head')) = clocks x.
Proof. unfold parse_request_headers. by repeat case_match. Qed.

Lemma waiting_clocks_same p c d : waiting p c -> clocks (c <| input ::= fun i => i ++ d |>) = clocks c0.
Proof.
  intros (k & fl & _ & [(q & _ & _ & -> & _)|(b & _ & _ & ->)]); [done|]. exact (clocks_parse c0 head).
Qed.

Lemma outcome_open e b : zlen b < len ->
  outcome_of e b = (w, (got (zlen b)) <| state := CONN_STATE_READING_BODY |>).
Proof.
  intros Hb. unfold outcome_of. pose proof (zlen_nonneg b).
  by replace (len >? 0) with true by (symmetry; rewrite Z.gtb_ltb; apply Z.ltb_lt; lia);
     rewrite (proj2 (Z.ltb_lt _ _) Hb).
Qed.

Lemma body_open b rest : body = b ++ rest -> rest <> [] -> zlen b < len.
Proof.
  intros Hb Hr. pose proof (rq_body _ _ _ _ _ Hrq) as [Hl _]. rewrite Hb, zlen_app in Hl.
  destruct rest as [|x rest]; [done|]. rewrite zlen_cons in Hl. pose proof (zlen_nonneg rest). lia.
Qed.

(** After a read of [p] with [rest] to come. *)
Definition advanced (e : ReadEnv) (p rest : chars) (r : WorkerProcess * Connection) : Prop :=
  (rest <> [] -> fst r = w /\ waiting p (snd r)) /\
  (rest = [] -> fst r = fst (outcome_of e body) /\ exists k fl, snd r = scanned k fl (snd (outcome_of e body))).

Lemma outcome_advanced e k fl b rest :
  validation_failed fl = false -> body = b ++ rest ->
  advanced e (head ++ b) rest (fst (outcome_of e b), scanned k fl (snd (outcome_of e b))).
Proof.
  intros Hfl Hb. split; cbn [fst snd].
  - intros Hr. pose proof (body_open b rest Hb Hr) as Hl. rewrite (outcome_open e b Hl). cbn [fst snd].
    split; [done|]. exists k, fl. split; [done|]. right. exists b. by split_and!.
  - intros ->. rewrite app_nil_r in Hb. rewrite Hb. split; [done|]. by exists k, fl.
Qed.

Lemma short_advanced e k fl p q rest :
  validation_failed fl = false -> scan_sound k p -> q <> [] -> head = p ++ q -> p ++ rest = head ++ body ->
  advanced e p rest (w, scanned k fl (c0 <| input := p |>)).
Proof.
  intros Hfl Hk Hq Hh Hp. split; cbn [fst snd].
  - intros _. split; [done|]. exists k, fl. split; [done|]. left. by exists q.
  - intros ->. exfalso. rewrite app_nil_r in Hp. rewrite Hp in Hh.
    apply (f_equal length) in Hh. rewrite !length_app in Hh. destruct q; [done|]. cbn in Hh. lia.
Qed.

(** The next piece [d] of a request of which [rest] is still to come. *)
Lemma read_waiting e p c d rest :
  prompt c0 e -> waiting p c -> p ++ d ++ rest = head ++ body ->
  exists w1 c1, conn_read_cb e w (c <| input ::= fun i => i ++ d |>) = (w1, Some c1) /\
    advanced e (p ++ d) rest (w1, c1).
Proof.
  intros He Hw Hp. rewrite (prompt_read c0) by first [exact He|by eapply waiting_clocks_same|apply Hfresh].
  do 2 eexists. split; [reflexivity|]. rewrite <- surjective_pairing.
  destruct Hw as (k & fl & Hfl & [(q & Hq & Hh & -> & Hk)|(b & -> & Hb & ->)]).
  - rewrite scanned_append, read_request_headers by apply Hfresh. rewrite app_assoc in Hp.
    destruct (prefix_head head body (p ++ d) rest) as [(_ & q' & Hq' & Hh')|(_ & b & Hb & Hbody)]; [apply Hrq|done|..].
    + destruct (read_short e k fl p d q' He Hfl Hk Hh' Hq') as (k' & fl' & Hf' & Hk' & ->).
      by eapply short_advanced.
    + destruct (read_full e k fl p d b He Hfl Hk Hb) as (fl' & Hf' & ->); [by exists rest|].
      rewrite Hb. by apply outcome_advanced.
  - rewrite <- app_assoc in Hp. apply app_inv_head in Hp. rewrite app_assoc in Hp.
    rewrite scanned_append_body, read_request_body by done. rewrite read_more_body; [|exact Hb|].
    + rewrite <- app_assoc. by apply outcome_advanced.
    + pose proof (rq_body _ _ _ _ _ Hrq) as [Hl _]. rewrite <- Hp, zlen_app in Hl.
      pose proof (zlen_nonneg rest). lia.
Qed.

Lemma feed_waiting l : forall p c rest,
  Forall (fun x => prompt c0 (snd x)) l -> waiting p c -> p ++ concat (fst <$> l) ++ rest = head ++ body ->
  rest <> [] -> exists c1, feed w c l = (w, Some c1) /\ waiting (p ++ concat (fst <$> l)) c1.
Proof.
  induction l as [|[d e] l IH]; intros p c rest He Hw Hp Hr.
  { exists c. cbn. by rewrite app_nil_r. }
  apply Forall_cons in He as [He Hl]. cbn in Hp, He. rewrite <- app_assoc in Hp.
  destruct (read_waiting e p c d _ He Hw Hp) as (w1 & c1 & Hread & Hcont & _).
  destruct Hcont as [Hw0 Hw1]; cbn [fst snd] in *. { intros [_ ?]%app_eq_nil. done. }
  subst w1. destruct (IH (p ++ d) c1 rest) as (c2 & Hf & Hw2); [done|done|by rewrite <- app_assoc|done|].
  exists c2. cbn [feed]. rewrite Hread. split; [exact Hf|]. cbn. by rewrite app_assoc.
Qed.

Lemma waiting_start : waiting [] c0.
Proof.
  assert (head <> []) as Hh.
  { intros Hn. pose proof (memmem_bound _ _ _ (rq_end _ _ _ _ _ Hrq)) as Hb. rewrite Hn in Hb. cbn in Hb. lia. }
  destruct Hfresh as (_ & _ & Hi & Hs & Hf). exists 0, (flags c0). split; [done|]. left.
  exists head. split_and!; [done|done| |].
  - rewrite <- Hs at 1. rewrite <- Hi. by destruct c0.
  - intros more. unfold search_from. cbn. rewrite drop_0. by destruct (memmem more HEADER_END).
Qed.

End Request.

Lemma feed_last w c l d e w1 c1 w2 c2 :
  feed w c l = (w1, Some c1) -> conn_read_cb e w1 (c1 <| input ::= fun i => i ++ d |>) = (w2, Some c2) ->
  feed w c (l ++ [(d, e)]) = (w2, Some c2).
Proof.
  revert w c. induction l as [|[d0 e0] l IH]; intros w c Hf Hr; cbn [app feed] in *.
  - injection Hf as -> ->. by rewrite Hr.
  - destruct (conn_read_cb e0 w (c <| input ::= fun i => i ++ d0 |>)) as [w3 [c3|]]; [by apply IH|done].
Qed.

Lemma fresh_input c data : fresh c -> c <| input := data |> = c <| input ::= fun i => i ++ data |>.
Proof. intros (_ & _ & Hi & _). destruct c. cbn in Hi. by subst. Qed.

(** The response is out: the connection waits for the next request. *)
Lemma next_request t w c :
  output c = [] -> state c = CONN_STATE_WRITING_RESPONSE -> keep_alive c = true ->
  slot_held c = true -> current_tier c = TIER_NORMAL ->
  exists w' c', conn_write_cb t w c = (w', Some c') /\
    state c' = CONN_STATE_READING_HEADERS /\ input c' = input c /\ output c' = [] /\ response_status c' = 0.
Proof.
  intros Ho Hst Hk Hh Ht. unfold conn_write_cb. rewrite Ho, Hst, Hk. cbn [zlen length Z.of_nat Z.gtb Z.compare].
  generalize (log_request_complete w c t). intros w1.
  assert (keepalive_slot w1 (clear_request c) = (w1, clear_request c, true)) as Hs.
  { unfold keepalive_slot. change (slot_held (clear_request c)) with (slot_held c).
    change (current_tier (clear_request c)) with (current_tier c). by rewrite Hh, Ht. }
  unfold connection_reset_for_keepalive. rewrite Hs. destruct c. cbn in *. rewrite Hh.
  do 2 eexists. split; [reflexivity|]. by split_and!.
Qed.

(** ** Claims *)

(** C13: How a request that fits a normal slot is cut into TCP segments does not matter.
    Take a connection at the start of a request, a request that passes validation and parsing
    and whose bytes fit the buffer and stay below the large tier, and any pieces [l] of it
    followed by a last, non-empty piece; every piece is read with memory available and within
    five seconds of the start.  Before the last piece the worker is unchanged; with it, the
    worker and the connection (state, response, slot, counters) are exactly those of a single
    read of the whole request, up to the position of the scan and the flags of the path, which
    nothing reads any more.  (A larger request takes a larger slot while its pieces arrive, and
    a slower one meets the throughput check.) *)
Theorem segments_do_not_matter (w : WorkerProcess) (c0 : Connection) (head body : chars) (len : Z)
    (l : list (chars * ReadEnv)) (d : chars) (e : ReadEnv) :
  request (config w) c0 head body len -> fresh c0 ->
  concat (fst <$> l) ++ d = head ++ body -> d <> [] ->
  Forall (fun x => prompt c0 (snd x)) (l ++ [(d, e)]) ->
  (exists c1, feed w c0 l = (w, Some c1)) /\
  exists w' c' k fl k' fl',
    conn_read_cb e w (c0 <| input := head ++ body |>) = (w', Some (scanned k fl c')) /\
    feed w c0 (l ++ [(d, e)]) = (w', Some (scanned k' fl' c')).
Proof.
  intros Hrq Hf Hc Hd He. apply Forall_app in He as [Hl He]. apply Forall_cons in He as [He _]. cbn in He.
  pose proof (waiting_start w c0 head body len Hrq Hf) as Hw0.
  destruct (feed_waiting w c0 head body len Hrq Hf l [] c0 d Hl Hw0 Hc Hd) as (c1 & Hfeed & Hw1).
  split; [by exists c1|].
  destruct (read_waiting w c0 head body len Hrq Hf e _ c1 d [] He Hw1) as (w2 & c2 & Hr2 & _ & Ho2);
    [by rewrite app_nil_r|].
  destruct (read_waiting w c0 head body len Hrq Hf e [] c0 (head ++ body) [] He Hw0) as (w3 & c3 & Hr3 & _ & Ho3);
    [by rewrite app_nil_r|].
  destruct (Ho2 eq_refl) as (H2 & k2 & fl2 & K2). destruct (Ho3 eq_refl) as (H3 & k3 & fl3 & K3).
  cbn [fst snd] in *. exists w3, (snd (outcome_of w c0 head len e body)), k3, fl3, k2, fl2.
  rewrite <- K2, <- K3. split.
  - rewrite <- Hr3. f_equal. apply fresh_input, Hf.
  - rewrite H3, <- H2. by apply (feed_last w c0 l d e w c1).
Qed.

(** C38: A request that comes too early is not answered.  While the response to the last request of a
    keep-alive connection is being written, a read leaves the new request in the buffer; when the
    response is out, the connection is reset and goes back to waiting for headers with the request, even
    a complete one, still in its buffer and nothing to send.  It is looked at only if the client sends
    more; the comment in [conn_read_cb] says that such data is discarded. *)
Theorem pipelined_request_waits (w : WorkerProcess) (c : Connection) (data : chars) (e : ReadEnv) (t : Z) :
  settled c -> prompt c e -> state c = CONN_STATE_WRITING_RESPONSE -> keep_alive c = true ->
  slot_held c = true -> current_tier c = TIER_NORMAL ->
  let c1 := c <| input ::= fun i => i ++ data |> in
  conn_read_cb e w c1 = (w, Some c1) /\
  exists w' c', conn_write_cb t w (c1 <| output := [] |>) = (w', Some c') /\
    state c' = CONN_STATE_READING_HEADERS /\ input c' = input c ++ data /\ output c' = [] /\ response_status c' = 0.
Proof.
  intros Hs He Hst Hk Hh Ht c1. split.
  - rewrite (prompt_read c) by done. unfold read_request. change (state c1) with (state c). by rewrite Hst.
  - change (input c ++ data) with (input (c1 <| output := [] |>)). by apply next_request.
Qed.

(** A request with a body, in three pieces that split the blank line and the
    body. *)
Definition post_head : chars :=
  str "POST /alive HTTP/1.1" ++ CRLF ++ str "Content-Length: 5" ++ HEADER_END.

Definition post_pieces : list (chars * ReadEnv) :=
  [(take 40 post_head, plain_env 1); (drop 40 post_head ++ str "he", plain_env 2)].

Lemma segments_do_not_matter_witness :
  exists w' c' k fl k' fl',
    conn_read_cb (plain_env 3) idle_worker (new_conn <| input := post_head ++ str "hello" |>) =
      (w', Some (scanned k fl c')) /\
    feed idle_worker new_conn (post_pieces ++ [(str "llo", plain_env 3)]) = (w', Some (scanned k' fl' c')) /\
    response_status (scanned k fl c') = 200.
Proof.
  destruct (segments_do_not_matter idle_worker new_conn post_head (str "hello") 5 post_pieces (str "llo") (plain_env 3))
    as (_ & w' & c' & k & fl & k' & fl' & H1 & H2).
  - split; try reflexivity; try (vm_compute; intuition discriminate).
  - split; [by split|]. by split_and!.
  - reflexivity.
  - discriminate.
  - repeat constructor; vm_compute; discriminate.
  - exists w', c', k, fl, k', fl'. split; [exact H1|]. split; [exact H2|].
    apply (f_equal (fun r => match snd r with Some c => response_status c | None => 0 end)) in H1.
    cbn [snd] in H1. rewrite <- H1. vm_compute. reflexivity.
Defined.

(** A second request while the first is being answered. *)
Lemma pipelined_request_waits_witness :
  exists c, snd (conn_read_cb (plain_env 1) idle_worker (new_conn <| input := post_head ++ str "hello" |>)) = Some c /\
    conn_read_cb (plain_env 2) idle_worker (c <| input ::= fun i => i ++ post_head |>) =
      (idle_worker, Some (c <| input ::= fun i => i ++ post_head |>)).
Proof.
  destruct (snd (conn_read_cb (plain_env 1) idle_worker (new_conn <| input := post_head ++ str "hello" |>)))
    as [c|] eqn:Ec; [|vm_compute in Ec; discriminate].
  exists c. split; [done|].
  apply (pipelined_request_waits idle_worker c post_head (plain_env 2) 3); vm_compute in Ec; injection Ec as <-;
    [by split|split_and!; vm_compute; done|reflexivity..].
Defined.
