(* ===== verification/Counters.v ===== *)
(** * The statistics tell the truth

    Every response that was sent is an [Exchange]; the histogram, the
    status and method counters and the byte count that [/metrics] reports
    are sums over the exchanges of a worker's life.  The proof follows every
    handler of [Connection], [Http2] and [Worker]: one that completes an
    exchange adds it to each of the counters, every other handler leaves them
    alone. *)
From Stdlib Require Import ZArith QArith Lia Ascii String Sorted.
From stdpp Require Import base list numbers strings relations.
From S2P Require Import Prelude CLib Addr Router Network Config Slots IpAcl RateLimiter Rpc Tls Sockets State Endpoints Metrics Http2 StaticFiles Connection Balance Worker WorkerSpec Http1 Timing.

#[local] Open Scope Z_scope.

(** ** Exchanges *)

Record Exchange := mkExchange {
  x_duration : Q; x_status : Z; x_method : option chars; x_bytes : Z }.

(** The counters that describe exchanges. *)
Definition describes_exchanges (c : Counter) : bool :=
  match c with
  | latency_bucket_1ms | latency_bucket_5ms | latency_bucket_10ms | latency_bucket_50ms
  | latency_bucket_100ms | latency_bucket_500ms | latency_bucket_1s | latency_bucket_5s
  | latency_bucket_inf | status_2xx | status_4xx | status_5xx | status_200 | status_400
  | status_404 | status_408 | status_429 | status_503 | method_get | method_post | method_other
  | response_bytes_total => true
  | _ => false
  end.

Definition is_get (m : option chars) : bool :=
  match m with Some m => negb (eqc (deref m) NUL) && strcmp_eq m (str "GET") | None => false end.
Definition is_post (m : option chars) : bool :=
  match m with
  | Some m => negb (eqc (deref m) NUL) && negb (strcmp_eq m (str "GET")) && strcmp_eq m (str "POST")
  | None => false
  end.

(** What one exchange adds to a counter. *)
Definition contribution (c : Counter) (x : Exchange) : Z :=
  let le b := Z.b2z (Qle_bool (x_duration x) b) in
  let between a b := Z.b2z ((x_status x >=? a) && (x_status x <? b)) in
  let equal st := Z.b2z (x_status x =? st) in
  match c with
  | latency_bucket_1ms => le (1 # 1000) | latency_bucket_5ms => le (5 # 1000)
  | latency_bucket_10ms => le (1 # 100) | latency_bucket_50ms => le (5 # 100)
  | latency_bucket_100ms => le (1 # 10) | latency_bucket_500ms => le (5 # 10)
  | latency_bucket_1s => le 1%Q | latency_bucket_5s => le 5%Q | latency_bucket_inf => 1
  | status_2xx => between 200 300 | status_4xx => between 400 500 | status_5xx => between 500 600
  | status_200 => equal 200 | status_400 => equal 400 | status_404 => equal 404 | status_408 => equal 408
  | status_429 => equal 429 | status_503 => equal 503
  | method_get => Z.b2z (is_get (x_method x)) | method_post => Z.b2z (is_post (x_method x))
  | method_other => Z.b2z (negb (is_get (x_method x)) && negb (is_post (x_method x)))
  | response_bytes_total => x_bytes x
  | _ => 0
  end.

Definition total (c : Counter) (log : list Exchange) : Z :=
  foldr (fun x n => contribution c x + n) 0 log.

Definition total_duration (log : list Exchange) : Q :=
  foldr (fun x q => (x_duration x + q)%Q) 0%Q log.

(** The counters of [w] are those of [log], as 64-bit numbers. *)
Definition counted (log : list Exchange) (w : WorkerProcess) : Prop :=
  (forall c, describes_exchanges c = true -> stats w c = u64 (total c log)) /\
  (latency_sum_seconds w == total_duration log)%Q.

(** ** Counting one exchange *)

Lemma u64_idem n : u64 (u64 n) = u64 n.
Proof. unfold u64, wrap. by rewrite Zmod_mod. Qed.

Lemma u64_add n m : u64 (u64 n + m) = u64 (n + m).
Proof. unfold u64, wrap. by rewrite Zplus_mod_idemp_l. Qed.

Lemma u64_small n : 0 <= n < 2 ^ 64 -> u64 n = n.
Proof. intros. by apply wrap_small. Qed.

(** [w'] has [f c] more in each counter [c]. *)
Definition adds (f : Counter -> Z) (w w' : WorkerProcess) : Prop :=
  forall c, u64 (stats w c) = stats w c -> stats w' c = u64 (stats w c + f c).

Lemma adds_trans f g w w1 w2 : adds f w w1 -> adds g w1 w2 -> adds (fun c => f c + g c) w w2.
Proof.
  intros H1 H2 c Hc. rewrite (H2 c), (H1 c Hc), u64_add, Z.add_assoc; [done|].
  by rewrite (H1 c Hc), u64_idem.
Qed.

Lemma adds_none w : adds (fun _ => 0) w w.
Proof. intros c Hc. by rewrite Z.add_0_r. Qed.

(** [n] for the counter [k]. *)
Definition at_counter (k : Counter) (n : Z) (c : Counter) : Z := if bool_decide (c = k) then n else 0.

Lemma adds_stat k n w : adds (at_counter k n) w (add_stat k n w).
Proof.
  intros c Hc. unfold add_stat, at_counter. cbn. case_decide; case_bool_decide; try done.
  by rewrite Z.add_0_r.
Qed.

Lemma adds_bump_if b k w : adds (at_counter k (Z.b2z b)) w (bump_if b k w).
Proof.
  destruct b; [apply adds_stat|]. intros c Hc. unfold at_counter. by case_bool_decide; rewrite Z.add_0_r.
Qed.

Lemma adds_sum f w w' g : adds f w w' -> adds f w (w' <| latency_sum_seconds ::= g |>).
Proof. done. Qed.

(** A choice between counters. *)
Lemma adds_if (b : bool) f g w w1 w2 :
  adds f w w1 -> adds g w w2 -> adds (fun c => if b then f c else g c) w (if b then w1 else w2).
Proof. by destruct b. Qed.

(** The sequence of updates that both protocols make for an exchange. *)
Definition record_exchange (w : WorkerProcess) (x : Exchange) : WorkerProcess :=
  let w := update_latency_histogram w (x_duration x) in
  let w := update_status_counters w (x_status x) in
  let w := update_method_counters w (x_method x) in
  add_stat response_bytes_total (x_bytes x) w.

Definition latency_adds (d : Q) (c : Counter) : Z :=
  let le b := Z.b2z (Qle_bool d b) in
  at_counter latency_bucket_1ms (le (1 # 1000)) c + at_counter latency_bucket_5ms (le (5 # 1000)) c +
  at_counter latency_bucket_10ms (le (1 # 100)) c + at_counter latency_bucket_50ms (le (5 # 100)) c +
  at_counter latency_bucket_100ms (le (1 # 10)) c + at_counter latency_bucket_500ms (le (5 # 10)) c +
  at_counter latency_bucket_1s (le 1%Q) c + at_counter latency_bucket_5s (le 5%Q) c +
  at_counter latency_bucket_inf 1 c.

Lemma adds_latency w d : adds (latency_adds d) w (update_latency_histogram w d).
Proof.
  unfold update_latency_histogram, latency_adds. cbn zeta. apply adds_sum. change (bump latency_bucket_inf) with (bump_if true latency_bucket_inf).
  repeat (eapply adds_trans; [|apply adds_bump_if]). apply adds_bump_if.
Qed.

Definition status_adds (st : Z) (c : Counter) : Z :=
  (if (st >=? 200) && (st <? 300) then at_counter status_2xx 1 c
   else if (st >=? 400) && (st <? 500) then at_counter status_4xx 1 c
   else if (st >=? 500) && (st <? 600) then at_counter status_5xx 1 c else 0) +
  (if st =? 200 then at_counter status_200 1 c else if st =? 400 then at_counter status_400 1 c
   else if st =? 404 then at_counter status_404 1 c else if st =? 408 then at_counter status_408 1 c
   else if st =? 429 then at_counter status_429 1 c else if st =? 503 then at_counter status_503 1 c else 0).

Lemma adds_status w st : adds (status_adds st) w (update_status_counters w st).
Proof.
  unfold update_status_counters, status_adds. cbn zeta. eapply adds_trans;
    repeat (apply adds_if; [apply adds_stat|]); apply adds_none.
Qed.

Definition method_adds (m : option chars) (c : Counter) : Z :=
  if is_get m then at_counter method_get 1 c
  else if is_post m then at_counter method_post 1 c else at_counter method_other 1 c.

Lemma adds_method w m : adds (method_adds m) w (update_method_counters w m).
Proof.
  unfold update_method_counters, method_adds, is_get, is_post. destruct m as [m|]; [|apply adds_stat].
  destruct (eqc (deref m) NUL); [apply adds_stat|]. cbn [negb andb].
  destruct (strcmp_eq m (str "GET")); [apply adds_stat|]. cbn [negb andb].
  destruct (strcmp_eq m (str "POST")); apply adds_stat.
Qed.

Lemma get_not_post m : is_get m = true -> is_post m = false.
Proof.
  unfold is_get, is_post. destruct m as [m|]; [|done]. intros [-> ->]%andb_prop. done.
Qed.

Lemma contribution_sum c x :
  describes_exchanges c = true ->
  latency_adds (x_duration x) c + status_adds (x_status x) c + method_adds (x_method x) c +
    at_counter response_bytes_total (x_bytes x) c = contribution c x.
Proof.
  intros Hc. unfold latency_adds, status_adds, method_adds, contribution, at_counter. cbv zeta.
  pose proof (get_not_post (x_method x)) as Hgp. revert Hgp.
  generalize (is_get (x_method x)) (is_post (x_method x)). intros g p Hgp.
  generalize (x_status x) as st. intros st.
  destruct c; try discriminate Hc;
    repeat match goal with |- context [bool_decide (?a = ?b)] =>
      first [rewrite (bool_decide_eq_true_2 (a = b)) by reflexivity|rewrite (bool_decide_eq_false_2 (a = b)) by discriminate]
    end; cbv iota; destruct g, p; cbn [negb andb]; unfold Z.b2z; repeat case_match; cbn; try done; try lia;
    by discriminate (Hgp eq_refl).
Qed.

Lemma sum_stat k n w : latency_sum_seconds (add_stat k n w) = latency_sum_seconds w.
Proof. done. Qed.
Lemma sum_bump k w : latency_sum_seconds (bump k w) = latency_sum_seconds w.
Proof. done. Qed.
Lemma sum_bump_if b k w : latency_sum_seconds (bump_if b k w) = latency_sum_seconds w.
Proof. by destruct b. Qed.
Lemma sum_update g w : latency_sum_seconds (w <| latency_sum_seconds ::= g |>) = g (latency_sum_seconds w).
Proof. done. Qed.
#[local] Hint Rewrite sum_stat sum_bump sum_bump_if sum_update : relay.

Lemma sum_status w st : latency_sum_seconds (update_status_counters w st) = latency_sum_seconds w.
Proof. unfold update_status_counters. repeat case_match; by autorewrite with relay. Qed.
Lemma sum_method w m : latency_sum_seconds (update_method_counters w m) = latency_sum_seconds w.
Proof. unfold update_method_counters. repeat case_match; by autorewrite with relay. Qed.
Lemma sum_latency w d :
  latency_sum_seconds (update_latency_histogram w d) = (latency_sum_seconds w + d)%Q.
Proof. unfold update_latency_histogram. cbn zeta. by autorewrite with relay. Qed.

Lemma record_counted log w x : counted log w -> counted (x :: log) (record_exchange w x).
Proof.
  intros [Hc Hd]. split.
  - intros c Hx. cbn [total foldr]. fold (total c log).
    assert (adds (fun c => latency_adds (x_duration x) c + status_adds (x_status x) c +
                           method_adds (x_method x) c + at_counter response_bytes_total (x_bytes x) c)
              w (record_exchange w x)) as Ha.
    { unfold record_exchange. eapply adds_trans; [|apply adds_stat].
      eapply adds_trans; [|apply adds_method]. eapply adds_trans; [apply adds_latency|apply adds_status]. }
    rewrite (Ha c), (contribution_sum c x Hx), (Hc c Hx), u64_add; [f_equal; lia|].
    by rewrite (Hc c Hx), u64_idem.
  - cbn [total_duration foldr]. fold (total_duration log). unfold record_exchange. cbv zeta.
    rewrite sum_stat, sum_method, sum_status, sum_latency, Hd. apply Qplus_comm.
Qed.

(** ** Handlers *)

(** The statuses that the code sends over an established connection; 0 is
    "none yet". *)
Definition status_ok (st : Z) : Prop := st ∈ [0; 200; 400; 404; 413; 500; 503].

Ltac status := unfold status_ok; apply (bool_decide_unpack _); exact I.

Definition exchange_ok (x : Exchange) : Prop := x_status x <> 0 /\ status_ok (x_status x).

(** From [w] to [w'] at most [n] exchanges were completed, and counted. *)
Definition logs (n : nat) (w w' : WorkerProcess) : Prop :=
  exists new, (length new <= n)%nat /\ Forall exchange_ok new /\ forall log, counted log w -> counted (new ++ log) w'.

Lemma logs_trans n m w1 w2 w3 : logs n w1 w2 -> logs m w2 w3 -> logs (n + m) w1 w3.
Proof.
  intros (n1 & L1 & H1 & C1) (n2 & L2 & H2 & C2). exists (n2 ++ n1). rewrite length_app.
  split; [lia|]. split; [by apply Forall_app|]. intros log Hl. rewrite <- app_assoc. auto.
Qed.

Lemma logs_more n m w w' : (n <= m)%nat -> logs n w w' -> logs m w w'.
Proof. intros Hn (new & L & H). exists new. split; [lia|exact H]. Qed.

Lemma logs_nothing w w' : logs 0 w w' -> forall log, counted log w -> counted log w'.
Proof. intros ([|x new] & L & _ & H) log Hl; cbn in L; [exact (H log Hl)|lia]. Qed.

(** The part of a worker that [counted] reads. *)
Definition tally (w : WorkerProcess) := (stats w, latency_sum_seconds w).

Lemma logs_same n w w' : tally w' = tally w -> logs n w w'.
Proof.
  intros [= Hs Hl]. exists []. split; [cbn; lia|]. split; [done|]. intros log [Hc Hd].
  split; [by rewrite Hs|by rewrite Hl].
Qed.

Lemma logs_refl n w : logs n w w.
Proof. by apply logs_same. Qed.

Lemma logs_stat n k m w : describes_exchanges k = false -> logs n w (add_stat k m w).
Proof.
  intros Hk. exists []. split; [cbn; lia|]. split; [done|]. intros log [Hc Hd]. split; [|done]. intros c Hx.
  unfold add_stat. cbn. case_decide; [congruence|by apply Hc].
Qed.

Lemma logs_bump n k w : describes_exchanges k = false -> logs n w (bump k w).
Proof. apply logs_stat. Qed.

Lemma logs_bump_if n b k w : describes_exchanges k = false -> logs n w (bump_if b k w).
Proof. intros Hk. destruct b; [by apply logs_bump|apply logs_refl]. Qed.

Lemma logs_record w x : exchange_ok x -> logs 1 w (record_exchange w x).
Proof.
  intros Hx. exists [x]. split; [done|]. split; [by constructor|]. intros log Hl. by apply record_counted.
Qed.

#[local] Hint Resolve logs_refl logs_bump logs_bump_if logs_same : relay.

(** Before or after a step that logs, one that does not. *)
Lemma logs_after n w1 w2 w3 : logs n w1 w2 -> logs 0 w2 w3 -> logs n w1 w3.
Proof. rewrite <- (Nat.add_0_r n) at 2. apply logs_trans. Qed.

Lemma logs_before n w1 w2 w3 : logs 0 w1 w2 -> logs n w2 w3 -> logs n w1 w3.
Proof. apply logs_trans. Qed.

(** A counter other than those of exchanges, after a step that logs. *)
Lemma logs_then_bump n k w w' : describes_exchanges k = false -> logs n w w' -> logs n w (bump k w').
Proof. intros Hk Hl. eapply logs_after; [exact Hl|by apply logs_bump]. Qed.

Lemma logs_then_same n w w' w'' : tally w'' = tally w' -> logs n w w' -> logs n w w''.
Proof. intros Ht Hl. eapply logs_after; [exact Hl|by apply logs_same]. Qed.

Lemma endpoint_logs w r : logs 0 w (update_endpoint_counter w r).
Proof. destruct r; cbn [update_endpoint_counter]; auto with relay. Qed.

Lemma check_drain_tally w : tally (worker_check_drain w) = tally w.
Proof. unfold worker_check_drain. repeat case_match; done. Qed.

(** ** HTTP/2 *)

Definition stream_ok (s : H2Stream) : Prop := status_ok (s_response_status s).
Definition streams_ok (hc : H2Connection) : Prop := Forall stream_ok (streams hc).

Definition h2_logs (n : nat) (w : WorkerProcess) (hc : H2Connection) (w' : WorkerProcess) (hc' : H2Connection) : Prop :=
  streams_ok hc -> streams_ok hc' /\ logs n w w'.

Lemma h2_logs_refl n w hc : h2_logs n w hc w hc.
Proof. intros H. split; [done|apply logs_refl]. Qed.

Lemma h2_logs_trans n m w1 c1 w2 c2 w3 c3 :
  h2_logs n w1 c1 w2 c2 -> h2_logs m w2 c2 w3 c3 -> h2_logs (n + m) w1 c1 w3 c3.
Proof.
  intros H1 H2 Hc. destruct (H1 Hc) as [Hc2 L1]. destruct (H2 Hc2) as [Hc3 L2].
  split; [done|by eapply logs_trans].
Qed.

Lemma h2_logs_before n w1 c1 w2 c2 w3 c3 :
  h2_logs 0 w1 c1 w2 c2 -> h2_logs n w2 c2 w3 c3 -> h2_logs n w1 c1 w3 c3.
Proof. apply h2_logs_trans. Qed.

(** The streams are untouched. *)
Lemma h2_logs_worker n w w' hc : logs n w w' -> h2_logs n w hc w' hc.
Proof. intros Hl H. by split. Qed.

Lemma store_ok id f l : (forall s, stream_ok s -> stream_ok (f s)) -> Forall stream_ok l ->
  Forall stream_ok (store_stream id f l).
Proof.
  intros Hf Hl. induction Hl as [|s l Hs Hl IH]; cbn; [done|]. destruct (has_id id s); constructor; auto.
Qed.

Lemma remove_ok id l : Forall stream_ok l -> Forall stream_ok (remove_stream id l).
Proof.
  intros Hl. induction Hl as [|s l Hs Hl IH]; cbn; [done|]. destruct (has_id id s); [done|by constructor].
Qed.

Lemma h2_logs_store w hc id f :
  (forall s, stream_ok s -> stream_ok (f s)) -> h2_logs 0 w hc w (h2_store hc id f).
Proof. intros Hf H. split; [by apply store_ok|apply logs_refl]. Qed.

Lemma find_stream_ok hc id s : streams_ok hc -> h2_stream_find hc id = Some s -> stream_ok s.
Proof.
  intros H Hf. apply find_some in Hf as [Hin _]. unfold streams_ok in H. rewrite Forall_forall in H.
  by apply H, list_elem_of_In.
Qed.

Lemma h2_downgrade_tally w s :
  tally (fst (h2_downgrade_tier_to_normal w s)) = tally w /\
  s_response_status (snd (h2_downgrade_tier_to_normal w s)) = s_response_status s.
Proof. unfold h2_downgrade_tier_to_normal. by repeat case_match. Qed.

Lemma h2_answer_status e w route p plen :
  let '(_, _, _, status_code, _) := h2_answer e w route p plen in status_ok status_code.
Proof.
  unfold h2_answer. destruct route; repeat case_match; simplify_eq; status.
Qed.

Lemma h2_process_logs e w hc s :
  h2_logs 0 w hc (fst (fst (h2_process_stream_request e w hc s))) (snd (fst (h2_process_stream_request e w hc s))).
Proof.
  unfold h2_process_stream_request. cbv zeta.
  set (w1 := update_endpoint_counter w _).
  pose proof (h2_answer_status e w1 (route_request (default [] (s_path s))) (default [] (s_path s)) (s_path_len s)) as Ha.
  destruct (h2_answer _ _ _ _ _) as [[[[st ctype] body] code] len].
  assert (forall hc0, h2_logs 0 w hc0 w1 hc0) as Hw by (intros; apply h2_logs_worker, endpoint_logs).
  assert (h2_logs 0 w1 hc w1 (fst (fst (h2_send_response (send_env e) w1 hc (stream_id s) st ctype body)))) as Hs.
  { unfold h2_send_response. repeat case_match; cbn [fst snd]; first [apply h2_logs_refl|by apply h2_logs_store]. }
  destruct (h2_send_response _ _ _ _ _ _ _) as [[hc1 rc] resp]. cbn [fst snd] in Hs.
  set (put := fun s : H2Stream => s <| s_response_status := code |> <| s_response_bytes := len |>).
  assert (h2_logs 0 w hc w1 (h2_store hc1 (stream_id s) put)) as Hp.
  { eapply h2_logs_before; [apply Hw|]. eapply h2_logs_before; [exact Hs|]. by apply h2_logs_store. }
  destruct (h2_stream_find _ _) as [s1|] eqn:Ef; [|exact Hp].
  destruct (h2_downgrade_tally w1 s1) as [Ht Hr].
  destruct (h2_downgrade_tier_to_normal w1 s1) as [w2 s2]. cbn [fst snd] in *.
  intros Hok. destruct (Hp Hok) as [Hok1 Hl1]. split; [|by eapply logs_then_same].
  apply store_ok; [|exact Hok1]. intros _ _. unfold stream_ok. rewrite Hr. exact (find_stream_ok _ _ _ Hok1 Ef).
Qed.

Lemma h2_free_logs w hc s : h2_logs 0 w hc (fst (h2_stream_free w hc s)) (snd (h2_stream_free w hc s)).
Proof.
  intros H. unfold h2_stream_free. split; [by apply remove_ok|]. apply logs_same.
  destruct (slot_acquired s); cbn; by case_match.
Qed.

Lemma h2_log_stream_logs w s t : stream_ok s -> logs 1 w (h2_log_stream w s t).
Proof.
  intros Hs. unfold h2_log_stream. destruct (s_response_status s >? 0) eqn:E; [|apply logs_refl]. b2p.
  apply (logs_record w (mkExchange (inject_Z (t - s_start_time s) / inject_Z 1000000000)%Q
    (s_response_status s) (s_method s) (s_response_bytes s))). split; cbn; [lia|done].
Qed.

Lemma h2_begin_logs ok w hc fr t :
  h2_logs 0 w hc (fst (fst (h2_on_begin_headers_callback ok w hc fr t)))
               (snd (fst (h2_on_begin_headers_callback ok w hc fr t))).
Proof.
  unfold h2_on_begin_headers_callback. destruct (_ || _); [apply h2_logs_refl|].
  destruct (slot_manager_acquire _ _) as [sm got]. destruct got; cbn [negb];
    [|by apply h2_logs_worker, logs_then_bump; [|apply logs_same]].
  unfold h2_stream_new. destruct ok; cbn [negb]; cycle 1.
  { by apply h2_logs_worker, logs_then_bump; [|apply logs_same]. }
  cbn [fst snd]. intros H. split.
  - apply store_ok; [done|]. cbn. constructor; [|done]. unfold stream_ok. cbn. status.
  - eapply logs_then_same; [|apply logs_then_bump; [|apply logs_same]]; done.
Qed.

Lemma h2_header_logs ok w hc fr name value :
  h2_logs 0 w hc (fst (fst (h2_on_header_callback ok w hc fr name value)))
               (snd (fst (h2_on_header_callback ok w hc fr name value))).
Proof.
  unfold h2_on_header_callback. destruct (negb _); [apply h2_logs_refl|].
  destruct (h2_stream_find hc _) as [s|]; [|apply h2_logs_refl]. cbv zeta.
  destruct (name_is name ":method"); [by apply h2_logs_store|].
  destruct (name_is name ":path"); cycle 1.
  { destruct (name_is name ":authority"); [by apply h2_logs_store|].
    destruct (name_is name ":scheme"); [by apply h2_logs_store|].
    destruct (name_is name "content-length"); [by apply h2_logs_store|apply h2_logs_refl]. }
  set (hc1 := h2_store hc _ _).
  assert (h2_logs 0 w hc w hc1) as H1 by by apply h2_logs_store.
  destruct (ok && _ && _); cbn [fst snd].
  { eapply h2_logs_before; [exact H1|]. apply h2_logs_worker. by apply logs_then_bump, logs_bump. }
  destruct (tier_index _ >? _); [|exact H1]. destruct (slot_manager_promote _ _ _) as [sm okp].
  eapply h2_logs_before; [exact H1|]. destruct okp; cbn [negb fst snd].
  - eapply h2_logs_before; [|by apply h2_logs_store]. by apply h2_logs_worker, logs_same.
  - apply h2_logs_worker. do 2 (apply logs_then_bump; [done|]). by apply logs_same.
Qed.

(** The callbacks that close a stream. *)
Definition closes (evs : list H2Event) : nat :=
  length (List.filter (fun ev => match ev with EvStreamClose _ _ => true | _ => false end) evs).

Lemma h2_callback_logs w hc ev : h2_logs (closes [ev]) w hc (fst (h2_callback w hc ev)) (snd (h2_callback w hc ev)).
Proof.
  destruct ev; cbn [closes List.filter length h2_callback fst snd].
  - apply h2_begin_logs.
  - apply h2_header_logs.
  - unfold h2_on_frame_recv_callback.
    assert (forall id, h2_logs 0 w hc
      (fst (fst (match h2_stream_find hc id with
                 | None => (w, hc, None)
                 | Some stream =>
                     let stream := stream <| s_state := H2_STREAM_HALF_CLOSED_REMOTE |> in
                     h2_process_stream_request e w (h2_store hc id (fun _ => stream)) stream end)))
      (snd (fst (match h2_stream_find hc id with
                 | None => (w, hc, None)
                 | Some stream =>
                     let stream := stream <| s_state := H2_STREAM_HALF_CLOSED_REMOTE |> in
                     h2_process_stream_request e w (h2_store hc id (fun _ => stream)) stream end)))) as Hf.
    { intros id. destruct (h2_stream_find hc id) as [s|] eqn:Ef; [|apply h2_logs_refl]. cbv zeta.
      intros H. pose proof (find_stream_ok _ _ _ H Ef) as Hs.
      refine (h2_process_logs e w (h2_store hc id (fun _ => s <| s_state := H2_STREAM_HALF_CLOSED_REMOTE |>)) _ _).
      by apply store_ok. }
    destruct (fr_type frame); [destruct (flag_end_stream frame)..|]; try apply h2_logs_refl; apply Hf.
  - unfold h2_on_data_chunk_recv_callback. destruct (h2_stream_find hc id); [by apply h2_logs_store|apply h2_logs_refl].
  - unfold h2_on_stream_close_callback. destruct (h2_stream_find hc id) as [s|] eqn:Ef; [|apply h2_logs_refl].
    intros H. pose proof (find_stream_ok _ _ _ H Ef) as Hs.
    destruct (h2_free_logs (h2_log_stream w s now) hc s H) as [Hf Hl]. split; [exact Hf|].
    eapply logs_after; [by apply h2_log_stream_logs|exact Hl].
Qed.

Lemma run_callbacks_logs evs : forall w hc,
  h2_logs (closes evs) w hc (fst (run_callbacks w hc evs)) (snd (run_callbacks w hc evs)).
Proof.
  induction evs as [|ev evs IH]; intros w hc; [apply h2_logs_refl|].
  unfold run_callbacks. cbn [foldl]. pose proof (h2_callback_logs w hc ev) as Hb.
  destruct (h2_callback w hc ev) as [w1 hc1]. cbn [fst snd] in Hb.
  replace (closes (ev :: evs)) with (closes [ev] + closes evs)%nat by (unfold closes; by destruct ev).
  eapply h2_logs_trans; [exact Hb|apply IH].
Qed.

Lemma free_streams_logs l : forall w hc, logs 0 w (fst (free_streams w hc l)).
Proof.
  induction l as [|s l IH]; intros w hc; cbn [free_streams]; [apply logs_refl|].
  destruct (h2_stream_free w hc s) as [w1 hc1] eqn:Ef. eapply logs_before; [|apply IH].
  apply logs_same. unfold h2_stream_free in Ef. injection Ef as <- _.
  destruct (slot_acquired s); cbn; by case_match.
Qed.

(** ** HTTP/1.1 *)

Definition conn_fine (c : Connection) : Prop :=
  status_ok (response_status c) /\ Forall stream_ok (streams_of c).

(** A handler on a connection: its exchanges, at most [n], are counted, and a connection
    that goes on is in order. *)
Definition audited (n : nat) (w : WorkerProcess) (c : Connection) (r : WorkerProcess * option Connection) : Prop :=
  conn_fine c -> logs n w (fst r) /\ match snd r with Some c' => conn_fine c' | None => True end.

Lemma audited_keep n w c w' c' :
  logs n w w' -> response_status c' = response_status c -> streams_of c' = streams_of c ->
  audited n w c (w', Some c').
Proof. intros Hl Hs Hh [H1 H2]. split; [done|]. cbn. unfold conn_fine. by rewrite Hs, Hh. Qed.

Lemma audited_free n w c w' : logs n w w' -> audited n w c (w', None).
Proof. by intros Hl _. Qed.

(** A response with one of the statuses. *)
Lemma audited_respond n w c w' c' :
  logs n w w' -> status_ok (response_status c') -> streams_of c' = streams_of c -> audited n w c (w', Some c').
Proof. intros Hl Hs Hh [H1 H2]. split; [done|]. cbn. unfold conn_fine. by rewrite Hh. Qed.

Lemma audited_trans n m w c w1 c1 r :
  audited n w c (w1, Some c1) -> audited m w1 c1 r -> audited (n + m) w c r.
Proof.
  intros H1 H2 Hc. destruct (H1 Hc) as [L1 C1]. destruct (H2 C1) as [L2 C2]. split; [by eapply logs_trans|done].
Qed.

Lemma audited_before n w c w1 c1 r : audited 0 w c (w1, Some c1) -> audited n w1 c1 r -> audited n w c r.
Proof. apply audited_trans. Qed.

Lemma audited_after n w c w1 c1 r : audited n w c (w1, Some c1) -> audited 0 w1 c1 r -> audited n w c r.
Proof. rewrite <- (Nat.add_0_r n) at 2. apply audited_trans. Qed.

Lemma audited_more n m w c r : (n <= m)%nat -> audited n w c r -> audited m w c r.
Proof. intros Hn Ha Hc. destruct (Ha Hc). split; [by eapply logs_more|done]. Qed.

Lemma connection_free_logs w c : logs 0 w (connection_free w c).
Proof.
  unfold connection_free. cbv zeta.
  set (w1 := match h2 c with Some hc => h2_connection_free _ hc | None => _ end).
  assert (logs 0 w w1) as H1.
  { unfold w1. destruct (h2 c) as [hc|]; [|by apply logs_same]. unfold h2_connection_free.
    eapply logs_before; [|apply free_streams_logs]. by apply logs_same. }
  eapply logs_then_same; [apply check_drain_tally|]. apply logs_then_bump; [done|].
  eapply logs_then_same; [|exact H1]. by destruct (slot_held c).
Qed.

Lemma freed_audited n w c w' : logs n w w' -> audited n w c (connection_free w' c, None).
Proof. intros Hl. apply audited_free. eapply logs_after; [exact Hl|apply connection_free_logs]. Qed.

Lemma downgrade_audited w c :
  audited 0 w c (kept (downgrade_tier_to_normal w c)).
Proof.
  unfold downgrade_tier_to_normal. repeat case_match; cbn [kept]; apply audited_keep; done || by apply logs_same.
Qed.

Lemma process_audited e w c : audited 0 w c (kept (process_request e w c)).
Proof.
  unfold process_request. cbv zeta. set (route := route_request _). pose proof (endpoint_logs w route) as Hl.
  destruct route; cbn [kept]; (apply audited_respond; [exact Hl| |]);
    unfold serve_health, serve_ready, serve_metrics, serve_acme_challenge; repeat case_match; first [done|status].
Qed.

Lemma downgrade_process_audited e w c :
  audited 0 w c (kept (let '(w, c) := downgrade_tier_to_normal w c in process_request e w c)).
Proof.
  pose proof (downgrade_audited w c) as Hd. destruct (downgrade_tier_to_normal w c) as [w1 c1].
  eapply audited_before; [exact Hd|apply process_audited].
Qed.

Lemma send_error_audited w c w' c1 st text :
  logs 0 w w' -> status_ok st -> streams_of c1 = streams_of c ->
  audited 0 w c (w', Some (connection_send_error c1 st text)).
Proof. intros Hl Hs Hh. by apply audited_respond. Qed.

Lemma parse_fields ok mem c headers :
  response_status (fst (parse_request_headers ok mem c headers)) = response_status c /\
  streams_of (fst (parse_request_headers ok mem c headers)) = streams_of c.
Proof. unfold parse_request_headers. by repeat case_match. Qed.

Lemma headers_complete_audited e w c n : audited 0 w c (kept (headers_complete e w c n)).
Proof.
  unfold headers_complete. cbv zeta. destruct (negb _); [apply send_error_audited; [apply logs_refl|status|done]|].
  destruct (validate_path_early _ _) as [fl rc].
  destruct (rc <? 0); [apply send_error_audited; [by apply logs_bump|status|done]|].
  match goal with |- context [parse_request_headers ?ok ?mem ?c0 ?hs] =>
    pose proof (parse_fields ok mem c0 hs) as [Hp1 Hp2];
    destruct (parse_request_headers ok mem c0 hs) as [c1 rc1] end.
  cbn [fst] in Hp1, Hp2. change (response_status c1 = response_status c) in Hp1.
  change (streams_of c1 = streams_of c) in Hp2.
  destruct (rc1 <? 0); [apply send_error_audited; [by apply logs_bump|status|done]|].
  destruct (_ >? _); [apply send_error_audited; [apply logs_refl|status|done]|]. cbv zeta.
  destruct (_ && _); [apply audited_keep; [apply logs_refl|done..]|].
  eapply audited_before; [|apply downgrade_process_audited]. apply audited_keep; [apply logs_refl|done..].
Qed.

Lemma try_promote_audited w c size :
  audited 0 w c (fst (fst (try_promote_tier w c size)), Some (snd (fst (try_promote_tier w c size)))).
Proof.
  unfold try_promote_tier. repeat case_match; cbn [fst snd]; apply audited_keep; done || by apply logs_same.
Qed.

Lemma read_headers_audited e available w c : audited 0 w c (kept (read_headers e available w c)).
Proof.
  unfold read_headers. destruct (_ >? _); [apply send_error_audited; [apply logs_refl|status|done]|].
  pose proof (try_promote_audited w c available) as Hp.
  destruct (try_promote_tier w c available) as [[w1 c1] rc]. cbn [fst snd] in Hp.
  eapply audited_before; [exact Hp|]. clear Hp.
  destruct (rc <? 0); [apply send_error_audited; [by apply logs_bump|status|done]|].
  destruct (search_from _ _); [apply headers_complete_audited|]. cbv zeta.
  destruct (_ && _); [|apply audited_keep; [apply logs_refl|done..]].
  destruct (validate_path_early _ _) as [fl rc2].
  destruct (rc2 <? 0); [apply send_error_audited; [by apply logs_bump|status|done]|].
  apply audited_keep; [apply logs_refl|done..].
Qed.

Lemma read_body_audited e available w c : audited 0 w c (kept (read_body e available w c)).
Proof.
  unfold read_body. cbv zeta. destruct (_ >=? _); [|apply audited_keep; [apply logs_refl|done..]].
  eapply audited_before; [|apply downgrade_process_audited]. apply audited_keep; [apply logs_refl|done..].
Qed.

Lemma read_slowloris_audited e available w c : audited 0 w c (finish (read_slowloris e available w c)).
Proof.
  unfold read_slowloris. cbv zeta. destruct (_ >? _); [by apply freed_audited, logs_bump|].
  destruct (_ >=? _); [|apply audited_keep; [apply logs_refl|done..]].
  destruct (_ || _); [by apply freed_audited, logs_bump|apply audited_keep; [apply logs_refl|done..]].
Qed.

Lemma h2_pending_audited ss w c :
  audited (closes (ss_events ss)) w c
    (fst (fst (h2_send_pending ss w c)), Some (snd (fst (h2_send_pending ss w c)))).
Proof.
  unfold h2_send_pending. destruct (h2 c) as [hc|] eqn:E; [|apply audited_keep; [apply logs_refl|done..]].
  pose proof (run_callbacks_logs (ss_events ss) w hc) as Hr.
  destruct (run_callbacks _ _ _) as [w1 hc1]. cbn [fst snd] in *.
  destruct (h2_write_all_output (ss_writes ss) (c <| h2 := Some hc1 |>)) as [o ->].
  intros [Hs Hh]. unfold streams_of in Hh. rewrite E in Hh. by destruct (Hr Hh).
Qed.

Lemma h2_input_audited sr ss w c :
  audited (closes (sr_events sr) + closes (ss_events ss)) w c
    (fst (fst (h2_process_input sr ss w c)), Some (snd (fst (h2_process_input sr ss w c)))).
Proof.
  unfold h2_process_input. destruct (h2 c) as [hc|] eqn:E; [|apply audited_keep; [apply logs_refl|done..]].
  pose proof (run_callbacks_logs (sr_events sr) w hc) as Hr.
  destruct (run_callbacks _ _ _) as [w1 hc1]. cbn [fst snd] in Hr. cbv zeta.
  assert (audited (closes (sr_events sr)) w c (w1, Some (c <| h2 := Some hc1 |>))) as Ha.
  { intros [Hs Hh]. unfold streams_of in Hh. rewrite E in Hh. by destruct (Hr Hh). }
  destruct (negb _); [eapply audited_more; [|exact Ha]; lia|].
  eapply audited_trans; [exact Ha|apply h2_pending_audited].
Qed.

Lemma read_tls_audited e w c : audited (closes (ss_events (h2_preface e))) w c (finish (read_tls e w c)).
Proof.
  unfold read_tls. destruct (_ && _); [|apply audited_keep; [apply logs_refl|done..]]. cbv zeta.
  set (w1 := match ssl_version e return WorkerProcess with
             | TLS1_2_VERSION => _ | TLS1_3_VERSION => _ | TLS_OTHER => _ end).
  assert (forall n, logs n w w1) as Hw.
  { intros n. unfold w1. destruct (ssl_version e); repeat (apply logs_then_bump; [done|]); apply logs_refl. }
  destruct (tls_is_http2 _); [|by apply audited_keep].
  destruct (h2_connection_init _ _) as [c1 rc] eqn:Ei.
  assert (audited 0 w c (w1, Some c1)) as H1.
  { unfold h2_connection_init in Ei. intros [Hs Hh]. split; [apply Hw|]. cbn.
    repeat (case_match; [by injection Ei as <- <-|]). injection Ei as <- <-. split; [exact Hs|by cbn]. }
  destruct (rc <? 0).
  { eapply audited_before; [exact H1|]. apply freed_audited, logs_refl. }
  pose proof (h2_pending_audited (h2_preface e) w1 c1) as Hs.
  destruct (h2_send_pending _ _ _) as [[w2 c2] rc2]. cbn [fst snd] in Hs.
  assert (audited (closes (ss_events (h2_preface e))) w c (w2, Some c2)) as H2 by by eapply audited_before.
  destruct (rc2 <? 0); [|exact H2]. eapply audited_after; [exact H2|]. apply freed_audited, logs_refl.
Qed.

Lemma read_h2_audited e w c :
  audited (closes (sr_events (h2_recv e)) + closes (ss_events (h2_send e))) w c (finish (read_h2 e w c)).
Proof.
  unfold read_h2. assert (forall n, audited n w c (w, Some c)) as Hk
    by (intros n; apply audited_keep; [apply logs_refl|done..]).
  destruct (protocol c); [apply Hk|]. destruct (h2 c); [|apply Hk]. destruct (_ && _); [|apply Hk].
  pose proof (h2_input_audited (h2_recv e) (h2_send e) w c) as Hi.
  destruct (h2_process_input _ _ _ _) as [[w1 c1] rc]. cbn [fst snd] in Hi.
  destruct (rc <? 0); (eapply audited_after; [exact Hi|]).
  - apply freed_audited, logs_refl.
  - apply audited_keep; [apply logs_refl|done..].
Qed.

Lemma audited_and_then n m w c o k :
  audited n w c (finish o) -> (forall w1 c1, audited m w1 c1 (finish (k w1 c1))) ->
  audited (n + m) w c (finish (and_then o k)).
Proof.
  intros Ho Hk. destruct o as [w1 c1|w1 r]; [eapply audited_trans; [exact Ho|apply Hk]|].
  eapply audited_more; [|exact Ho]. lia.
Qed.

(** The state machine, on any connection. *)
Lemma read_request_audited e available w c : audited 0 w c (kept (read_request e available w c)).
Proof.
  unfold read_request. destruct (state c); try (apply audited_keep; [apply logs_refl|done..]);
    [apply read_headers_audited|apply read_body_audited].
Qed.

(** A read can close the streams that nghttp2 closes in it ... *)
Definition read_closes (e : ReadEnv) : nat :=
  closes (ss_events (h2_preface e)) + closes (sr_events (h2_recv e)) + closes (ss_events (h2_send e)).

Lemma conn_read_audited e w c : audited (read_closes e) w c (conn_read_cb e w c).
Proof.
  apply (audited_more (closes (ss_events (h2_preface e)) +
    (0 + (closes (sr_events (h2_recv e)) + closes (ss_events (h2_send e)) + 0)))); [unfold read_closes; lia|].
  unfold conn_read_cb. apply audited_and_then; [apply read_tls_audited|]. intros w1 c1.
  apply audited_and_then; [apply read_slowloris_audited|]. intros w2 c2.
  apply audited_and_then; [apply read_h2_audited|]. intros w3 c3.
  pose proof (read_request_audited e (zlen (input c)) w3 c3) as Hx. unfold read_request in Hx.
  destruct (state c3); try exact Hx; [destruct (read_headers _ _ _ _)|destruct (read_body _ _ _ _)]; exact Hx.
Qed.

(** ... and over HTTP/1.1 it completes nothing. *)
Lemma http1_read_audited e w c : settled c -> audited 0 w c (conn_read_cb e w c).
Proof.
  intros Hs. rewrite http1_read by done. pose proof (read_slowloris_audited e (zlen (input c)) w c) as Hl.
  destruct (read_slowloris _ _ _ _) as [w1 c1|w1 r]; cbn [finish] in Hl; [|exact Hl].
  pose proof (read_request_audited e (zlen (input c)) w1 c1) as Hr.
  destruct (read_request _ _ _ _). eapply audited_before; [exact Hl|exact Hr].
Qed.

(** What the write callback completes: the response is out and was not
    logged yet. *)
Definition written (c : Connection) (t : Z) : list Exchange :=
  if zlen (output c) >? 0 then [] else if response_status c =? 0 then [] else
  [{| x_duration := (inject_Z (t - start_time c) / inject_Z NSEC)%Q; x_status := response_status c;
      x_method := Some (method c); x_bytes := response_bytes c |}].

Lemma written_ok c t : conn_fine c -> Forall exchange_ok (written c t).
Proof.
  intros [Hs _]. unfold written. destruct (_ >? 0); [done|]. destruct (_ =? 0) eqn:E; [done|]. b2p.
  by constructor.
Qed.

Lemma log_complete_counted w c t log :
  (zlen (output c) >? 0) = false -> counted log w -> counted (written c t ++ log) (log_request_complete w c t).
Proof.
  intros Ho Hl. unfold log_request_complete, written. rewrite Ho. destruct (response_status c =? 0); [done|].
  cbv zeta. apply (logs_nothing (record_exchange w (mkExchange (inject_Z (t - start_time c) / inject_Z NSEC)%Q
    (response_status c) (Some (method c)) (response_bytes c)))); [by apply logs_bump_if|].
  by apply record_counted.
Qed.

(** After the line in the log, the write callback completes nothing more. *)
Lemma reset_audited w c t : audited 0 w c (kept (connection_reset_for_keepalive w c t)).
Proof.
  unfold connection_reset_for_keepalive.
  assert (tally (fst (fst (keepalive_slot w (clear_request c)))) = tally w /\
          response_status (snd (fst (keepalive_slot w (clear_request c)))) = response_status c /\
          streams_of (snd (fst (keepalive_slot w (clear_request c)))) = streams_of c) as (K1 & K2 & K3)
    by (unfold keepalive_slot; by repeat case_match).
  destruct (keepalive_slot _ _) as [[w1 c1] ok]. cbn [fst snd] in *.
  destruct ok; cbn [negb kept]; [|apply audited_keep; [by apply logs_same|done..]].
  apply audited_respond; [by apply logs_same|cbn; status|done].
Qed.

Lemma conn_write_audited t w c : conn_fine c ->
  (forall log, counted log w -> counted (written c t ++ log) (fst (conn_write_cb t w c))) /\
  match snd (conn_write_cb t w c) with Some c' => conn_fine c' | None => True end.
Proof.
  intros Hc. unfold conn_write_cb. destruct (zlen (output c) >? 0) eqn:Ho.
  { unfold written. by rewrite Ho. }
  cbv zeta. pose proof (log_complete_counted w c t) as Hl. set (w1 := log_request_complete w c t) in *.
  assert (forall r, audited 0 w1 c r ->
    (forall log, counted log w -> counted (written c t ++ log) (fst r)) /\
    match snd r with Some c' => conn_fine c' | None => True end) as Hgo.
  { intros r Ha. destruct (Ha Hc) as [Ha1 Ha2]. split; [|done]. intros log Hcl.
    by apply (logs_nothing _ _ Ha1), Hl. }
  assert (audited 0 w1 c (w1, Some c)) as Hk by (apply audited_keep; [apply logs_refl|done..]).
  apply Hgo. destruct (state c); try exact Hk; [|apply freed_audited, logs_refl].
  destruct (keep_alive c); [|exact Hk]. pose proof (reset_audited w1 c t) as Hr.
  destruct (connection_reset_for_keepalive _ _ _) as [w2 c2]. cbn [kept] in Hr.
  destruct (negb _); [|exact Hr]. eapply audited_before; [exact Hr|]. apply freed_audited, logs_refl.
Qed.

Lemma conn_event_audited ev w c : audited 0 w c (conn_event_cb ev w c).
Proof.
  unfold conn_event_cb. destruct (BEV_EVENT_CONNECTED ev); [apply audited_keep; [apply logs_refl|done..]|].
  cbv zeta. apply freed_audited. repeat case_match; repeat (apply logs_then_bump; [done|]); apply logs_refl.
Qed.

(** ** The worker *)

Section Worker.
Context `{Inet} `{SslBuild}.

(** HTTP/1.1, with no hand-shake pending: [settled] as a test. *)
Definition speaks_http1 (c : Connection) : bool :=
  negb (ssl c && negb (tls_handshake_done c)) && bool_decide (protocol c = PROTO_HTTP_1_1).

(** The exchanges that an event can complete: the one whose response has been
    written; at most as many as nghttp2 closes streams, in a read on a
    connection that is, or may become, an HTTP/2 one; otherwise none. *)
Definition completes (w : WorkerProcess) (ev : event) (new : list Exchange) : Prop :=
  match ev with
  | EvWrite id n t =>
      new = match find_conn w id with Some c => written (c <| output ::= drop n |>) t | None => [] end
  | EvRead id _ e =>
      (length new <= match find_conn w id with
                     | Some c => if speaks_http1 c then 0 else read_closes e
                     | None => 0
                     end)%nat
  | _ => new = []
  end.

(** From [w] to [w'] the exchanges [new] are completed and counted, and the
    connections stay in order. *)
Definition accounted (w : WorkerProcess) (new : list Exchange) (w' : WorkerProcess) : Prop :=
  Forall exchange_ok new /\ (forall log, counted log w -> counted (new ++ log) w') /\
  Forall conn_fine (connections w').

Lemma accounted_none w w' : logs 0 w w' -> Forall conn_fine (connections w') -> accounted w [] w'.
Proof. intros Hl Hc. split; [done|]. split; [exact (logs_nothing _ _ Hl)|exact Hc]. Qed.

Lemma accounted_same w w' : tally w' = tally w -> connections w' = connections w ->
  Forall conn_fine (connections w) -> accounted w [] w'.
Proof. intros Ht Hc Hw. apply accounted_none; [by apply logs_same|by rewrite Hc]. Qed.

Lemma counted_links log w f : counted log w -> counted log (w <| connections ::= f |>).
Proof. done. Qed.

Lemma with_conn_accounted w id (h : WorkerProcess -> Connection -> WorkerProcess * option Connection)
    (f : Connection -> Connection) (P : Connection -> list Exchange -> Prop) :
  (forall c, conn_id (f c) = conn_id c) -> (forall w c, handled w c (h w c)) ->
  (forall c, conn_fine c -> exists new, P c new /\ Forall exchange_ok new /\
     (forall log, counted log w -> counted (new ++ log) (fst (h w (f c)))) /\
     match snd (h w (f c)) with Some c' => conn_fine c' | None => True end) ->
  Forall conn_fine (connections w) ->
  exists new, match find_conn w id with Some c => P c new | None => new = [] end /\
    accounted w new (with_conn w id (fun w c => h w (f c))).
Proof.
  intros Hi Hh Ha Hw. destruct (with_conn_cases w id h f Hi Hh) as [_ Hc]. cbv zeta in Hc.
  destruct Hc as [[-> Hn]|(c & Hfc & _ & Hc)].
  { exists []. rewrite Hn. split; [done|]. by apply accounted_same. }
  destruct (Ha c (find_forall _ _ _ _ Hw Hfc)) as (new & HP & Hx & Hl & Hk). exists new. rewrite Hfc.
  split; [exact HP|]. split; [exact Hx|]. split.
  - intros log Hlog. specialize (Hl log Hlog). unfold with_conn. rewrite Hfc.
    destruct (h w (f c)) as [w1 [c1|]]; [by apply counted_links|exact Hl].
  - destruct (snd (h w (f c))); [|rewrite Hc; by apply unlink_forall].
    destruct Hc as [-> _]. by apply store_forall.
Qed.

(** A handler that completes at most [k] exchanges. *)
Lemma audited_accounted k w c r : audited k w c r -> conn_fine c ->
  exists new, (length new <= k)%nat /\ Forall exchange_ok new /\
    (forall log, counted log w -> counted (new ++ log) (fst r)) /\
    match snd r with Some c' => conn_fine c' | None => True end.
Proof. intros Ha Hc. destruct (Ha Hc) as [(new & Hn & Hx & Hl) Hk]. by exists new. Qed.

Lemma read_accounted e data w c : conn_fine c ->
  let r := conn_read_cb e w (c <| input ::= fun i => i ++ data |>) in
  exists new, (length new <= if speaks_http1 c then 0 else read_closes e)%nat /\ Forall exchange_ok new /\
    (forall log, counted log w -> counted (new ++ log) (fst r)) /\
    match snd r with Some c' => conn_fine c' | None => True end.
Proof.
  intros Hc r. apply (audited_accounted _ w (c <| input ::= fun i => i ++ data |>) r); [|exact Hc]. unfold r.
  destruct (speaks_http1 c) eqn:E; [|apply conn_read_audited]. apply http1_read_audited.
  apply andb_prop in E as [E1 E2]. apply negb_true_iff in E1. by apply bool_decide_eq_true in E2.
Qed.

Lemma check_client_logs e w addr :
  match check_client e w addr with inl (w', _) | inr w' => logs 0 w w' end.
Proof.
  unfold check_client. destruct (draining w); [apply logs_refl|].
  destruct (bool_decide _); [by apply logs_bump|]. set (r := if bool_decide _ then _ else _).
  assert (logs 0 w (fst r)) as Hr.
  { unfold r. destruct (bool_decide _); [by apply logs_bump|]. destruct (rate_limiter_allow _ _ _ _).
    by apply logs_same. }
  destruct r as [w1 allowed]. cbn [fst] in Hr. destruct allowed; cbn [negb]; [|by apply logs_then_bump].
  destruct (slot_manager_acquire _ _) as [sm got].
  assert (logs 0 w (w1 <| slots := sm |>)) as Hs by by eapply logs_then_same.
  destruct got; cbn [negb]; [|by apply logs_then_bump].
  eapply logs_then_same; [|by apply (logs_then_bump 0 connections_accepted)]. done.
Qed.

(** A new connection has no response. *)
Lemma new_conn_fine c : response_status c = 0 -> h2 c = None -> conn_fine c.
Proof. unfold conn_fine, streams_of. intros -> ->. split; [status|done]. Qed.

Lemma accept_accounted e w addr :
  Forall conn_fine (connections w) -> accounted w [] (fst (accept_cb e w addr)).
Proof.
  intros Hw. unfold accept_cb. pose proof (check_client_logs e w addr) as Hl.
  pose proof (check_client_keeps e w addr) as Hk.
  destruct (check_client e w addr) as [[w1 r]|w1]; destruct Hk as [_ Hk]; rewrite <- Hk in Hw;
    [by apply accounted_none|].
  unfold connection_new. destruct (conn_ok e), (bev_ok e); cbn -[accounted];
    (apply accounted_none; [by eapply logs_then_same; [|exact Hl]|]); try exact Hw.
  constructor; [|exact Hw]. by apply new_conn_fine.
Qed.

Lemma tls_accept_accounted e w addr :
  Forall conn_fine (connections w) -> accounted w [] (fst (tls_accept_cb e w addr)).
Proof.
  intros Hw. unfold tls_accept_cb. pose proof (check_client_logs e w addr) as Hl.
  pose proof (check_client_keeps e w addr) as Hk.
  destruct (check_client e w addr) as [[w1 r]|w1]; destruct Hk as [_ Hk]; rewrite <- Hk in Hw;
    [by apply accounted_none|].
  destruct (tls_create_ssl _ _), (ssl_bev_ok e); cbn -[accounted connection_new_with_bev];
    try (apply accounted_none; [by eapply logs_then_same; [|exact Hl]|exact Hw]).
  unfold connection_new_with_bev. destruct (conn_ok e); cbn -[accounted store_conn];
    (apply accounted_none; [by eapply logs_then_same; [|exact Hl]|]); [|exact Hw].
  apply store_forall; [by apply new_conn_fine|]. constructor; [by apply new_conn_fine|exact Hw].
Qed.

Lemma dispatch_accounted w ev : Forall conn_fine (connections w) ->
  exists new, completes w ev new /\ accounted w new (dispatch w ev).
Proof.
  intros Hw. destruct ev; cbn [dispatch completes].
  - exists []. split; [done|by apply accept_accounted].
  - exists []. split; [done|by apply tls_accept_accounted].
  - destruct (with_conn_accounted w id (conn_read_cb e) (fun c => c <| input ::= fun i => i ++ data |>)
      (fun c new => (length new <= if speaks_http1 c then 0 else read_closes e)%nat)) as (new & Hn & Ha);
      [done|apply conn_read_cb_handled|intros c Hc; by apply read_accounted|exact Hw|].
    exists new. split; [|exact Ha]. destruct (find_conn w id); [exact Hn|by subst].
  - destruct (with_conn_accounted w id (conn_write_cb t) (fun c => c <| output ::= drop n |>)
      (fun c new => new = written (c <| output ::= drop n |>) t)) as (new & Hn & Ha);
      [done|apply conn_write_cb_handled|intros c Hc|exact Hw|].
    + eexists. split; [done|]. split; [by apply written_ok|]. by apply conn_write_audited.
    + exists new. split; [|exact Ha]. by destruct (find_conn w id).
  - destruct (with_conn_accounted w id (conn_event_cb ev) (fun c => c) (fun _ new => (length new <= 0)%nat))
      as (new & Hn & Ha);
      [done|apply conn_event_cb_handled|intros c Hc|exact Hw|].
    { exact (audited_accounted 0 w c _ (conn_event_audited ev w c) Hc). }
    exists new. split; [|exact Ha]. destruct (find_conn w id); [|exact Hn]. by destruct new; cbn in Hn; [|lia].
  - exists []. split; [done|]. apply accounted_same; [exact (check_drain_tally (w <| draining := true |>))| |exact Hw].
    exact (proj2 (check_drain_keeps (w <| draining := true |>))).
  - exists []. split; [done|]. unfold signal_reload_cb. repeat case_match; by apply accounted_same.
  - exists []. split; [done|]. by apply accounted_same.
  - exists []. split; [done|]. destruct err; by apply accounted_same.
Qed.

(** The exchanges of a run, the last one first. *)
Inductive history (w0 : WorkerProcess) : list Exchange -> WorkerProcess -> Prop :=
  | history_start : history w0 [] w0
  | history_event log w ev new :
      history w0 log w -> fresh_event w ev -> completes w ev new -> history w0 (new ++ log) (dispatch w ev).

Lemma reachable_history w0 w : rtc step w0 w -> counted [] w0 -> connections w0 = [] ->
  exists log, history w0 log w /\ accounted w0 log w.
Proof.
  intros Hr Hz Hc0. revert w Hr. apply rtc_ind_r.
  - exists []. split; [apply history_start|]. apply accounted_same; [done|done|by rewrite Hc0].
  - intros w w' _ [w1 ev Hf] (log & Hh & Hx & Hl & Hw).
    destruct (dispatch_accounted w1 ev Hw) as (new & Hn & Hx' & Hl' & Hw'). exists (new ++ log).
    split; [by apply history_event|]. split; [by apply Forall_app|]. split; [|exact Hw'].
    intros old Hold. rewrite <- app_assoc. auto.
Qed.

Lemma started_zero e wid cfg w :
  worker_main e wid cfg = Started w -> counted [] w /\ connections w = [].
Proof.
  unfold worker_main, start_tls, new_worker, setup_worker_signals. intros Hm.
  repeat case_match; try discriminate; injection Hm as <-; simplify_eq; by split; [split|].
Qed.

End Worker.

(** ** What the sums say *)

Lemma total_cons c x log : total c (x :: log) = contribution c x + total c log.
Proof. done. Qed.

Lemma total_bounds c log :
  (forall x, 0 <= contribution c x <= 1) -> 0 <= total c log <= zlen log.
Proof.
  intros Hc. unfold zlen. induction log as [|x log IH]; [done|].
  rewrite total_cons. cbn [length]. specialize (Hc x). lia.
Qed.

Lemma total_mono c d log :
  (forall x, contribution c x <= contribution d x) -> total c log <= total d log.
Proof.
  intros Hc. induction log as [|x log IH]; [done|]. rewrite !total_cons. specialize (Hc x). lia.
Qed.

(** Each bucket includes the smaller ones. *)
Lemma bucket_mono (a b d : Q) : Qle_bool a b = true -> Z.b2z (Qle_bool d a) <= Z.b2z (Qle_bool d b).
Proof.
  intros Hab. apply Qle_bool_iff in Hab. destruct (Qle_bool d a) eqn:E; [|by destruct (Qle_bool d b)].
  apply Qle_bool_iff in E. rewrite (proj2 (Qle_bool_iff d b)); [done|by eapply Qle_trans].
Qed.

Lemma total_inf log : total latency_bucket_inf log = zlen log.
Proof.
  unfold zlen. induction log as [|x log IH]; [done|]. rewrite total_cons. cbn [length contribution]. lia.
Qed.

Lemma total_methods log : total method_get log + total method_post log + total method_other log = zlen log.
Proof.
  unfold zlen. induction log as [|x log IH]; [done|]. rewrite !total_cons. cbn [length contribution].
  pose proof (get_not_post (x_method x)) as Hgp.
  destruct (is_get _), (is_post _); cbn; lia || by specialize (Hgp eq_refl).
Qed.

(** No other statuses occur: the classes partition the responses, and 200 is
    the only success. *)
Lemma total_statuses log : Forall exchange_ok log ->
  total status_2xx log + total status_4xx log + total status_5xx log = zlen log /\
  total status_200 log = total status_2xx log.
Proof.
  unfold zlen. induction 1 as [|x log [Hz Hx] _ [IH1 IH2]]; [done|]. rewrite !total_cons. cbn [length contribution].
  unfold status_ok in Hx. repeat (apply elem_of_cons in Hx as [Hx|Hx]; [rewrite Hx in *; cbn; lia|]).
  by apply elem_of_nil in Hx.
Qed.

(** The buckets of the histogram, in the order of their bounds. *)
Definition buckets : list Counter :=
  [latency_bucket_1ms; latency_bucket_5ms; latency_bucket_10ms; latency_bucket_50ms; latency_bucket_100ms;
   latency_bucket_500ms; latency_bucket_1s; latency_bucket_5s; latency_bucket_inf].

(** The counters that one exchange raises by at most one. *)
Definition unit_counter (c : Counter) : bool :=
  describes_exchanges c && negb (bool_decide (c = response_bytes_total)).

Lemma unit_contribution c x : unit_counter c = true -> 0 <= contribution c x <= 1.
Proof.
  assert (forall b, 0 <= Z.b2z b <= 1) as Hb by by intros [].
  destruct c; try discriminate; intros _; cbn [contribution]; apply Hb || lia.
Qed.

Lemma counted_exact log w c :
  counted log w -> zlen log < 2 ^ 64 -> unit_counter c = true -> stats w c = total c log.
Proof.
  intros [Hc _] Hl Hu. pose proof Hu as [Hd _]%andb_prop. rewrite (Hc c Hd). apply u64_small.
  pose proof (total_bounds c log (fun x => unit_contribution c x Hu)). lia.
Qed.

Lemma buckets_sorted log : Sorted Z.le ((fun c => total c log) <$> buckets).
Proof.
  assert (forall c d, (forall x, contribution c x <= contribution d x) ->
    forall l, HdRel Z.le (total c log) (total d log :: l)) as Hm
    by (intros c d Hcd l; constructor; by apply total_mono).
  cbn [fmap list_fmap buckets]. repeat (constructor; [|first [apply Hm; intros x; by apply bucket_mono|idtac]]);
    [constructor|constructor|].
  apply Hm. intros x. cbn. by destruct (Qle_bool _ _).
Qed.

(** C3: The statistics are true.  Every run that reaches a state has a list of exchanges, each with a
    status of 200, 400, 404, 413, 500 or 503: the write callback completes exactly the exchange whose
    response has left the buffer, a read on a connection that may speak HTTP/2 at most as many as nghttp2
    closes streams in it, and no other event completes any.  Every counter of the latency histogram, of
    the statuses, of the methods and of the bytes sent is the sum of what these exchanges contribute
    (modulo 2^64), and the sum of latencies is the sum of their durations.  Below 2^64 exchanges the
    buckets are cumulative, the last one is the number of exchanges, the three status classes add up to
    it, so do the three kinds of method, and the successes are the responses with status 200. *)
Theorem metrics_are_counts `{Inet} `{SslBuild} (e : StartEnv) (wid : Z) (cfg : Config) (w0 w : WorkerProcess) :
  worker_main e wid cfg = Started w0 -> rtc step w0 w ->
  exists log : list Exchange, history w0 log w /\ Forall exchange_ok log /\
    (forall c, describes_exchanges c = true -> stats w c = u64 (total c log)) /\
    (latency_sum_seconds w == total_duration log)%Q /\
    (zlen log < 2 ^ 64 ->
      Sorted Z.le (stats w <$> buckets) /\ stats w latency_bucket_inf = zlen log /\
      stats w status_2xx + stats w status_4xx + stats w status_5xx = zlen log /\
      stats w method_get + stats w method_post + stats w method_other = zlen log /\
      stats w status_200 = stats w status_2xx).
Proof.
  intros Hm Hr. destruct (started_zero _ _ _ _ Hm) as [Hz0 Hc0].
  destruct (reachable_history _ _ Hr Hz0 Hc0) as (log & Hh & Hx & Hl & _).
  specialize (Hl [] Hz0). rewrite app_nil_r in Hl. exists log. split; [done|]. split; [done|]. split; [apply Hl|].
  split; [apply Hl|]. intros Hb. pose proof (fun c => counted_exact log w c Hl Hb) as He.
  destruct (total_statuses log Hx) as [Hs1 Hs2].
  rewrite !He by done. rewrite total_inf, total_methods, Hs1, Hs2. split; [|done].
  cbn [fmap list_fmap buckets]. rewrite !He by done. apply buckets_sorted.
Qed.

(** The answer to the first client of [sample_events] is written out. *)
Definition answered_events : list event := sample_events ++ [EvWrite 1 1000 3000].

Lemma metrics_are_counts_witness :
  exists w0, @worker_main inet_quad openssl3 sample_start 0 default_values = Started w0 /\
    exists log, @history inet_quad openssl3 w0 log (run w0 answered_events) /\ u64 (zlen log) = 1 /\
      (latency_sum_seconds (run w0 answered_events) == total_duration log)%Q.
Proof.
  destruct (@worker_main inet_quad openssl3 sample_start 0 default_values) as [w0| |] eqn:Hm;
    [|vm_compute in Hm; discriminate..].
  exists w0. split; [done|].
  assert (rtc (@step inet_quad openssl3) w0 (run w0 answered_events)) as Hr.
  { unfold answered_events, run. rewrite foldl_app. eapply rtc_r; [exact (sample_reachable w0 Hm)|].
    by apply step_event. }
  destruct (@metrics_are_counts inet_quad openssl3 sample_start 0 default_values w0 _ Hm Hr)
    as (log & Hh & Hx & Hc & Hd & _).
  exists log. split; [done|]. split; [|done]. specialize (Hc latency_bucket_inf eq_refl).
  rewrite total_inf in Hc. rewrite <- Hc. vm_compute in Hm. injection Hm as <-. vm_compute. reflexivity.
Defined.
