(* ===== verification/AccessLog.v ===== *)
(** * The access log of a worker

    What [log_request_complete] of [src/connection.c] and
    [h2_on_stream_close_callback] of [src/http2.c] hand to [log_access], and
    how a worker sets its logger up. *)
From Stdlib Require Import ZArith QArith Lia Ascii String.
From stdpp Require Import base list numbers strings.
From S2P Require Import Prelude CLib Log Router Network Config Slots IpAcl RateLimiter Rpc Tls State Endpoints Metrics Http2 StaticFiles Connection Http1.

#[local] Open Scope Z_scope.

(** The first lines of [worker_main]. *)
Definition worker_log_setup (wid : Z) (cfg : Config) (g : LogState) : LogState :=
  let identity := snprintf 32 (str "worker[" ++ print_dec wid ++ str "]") in
  let g := log_set_identity identity g in
  let g := log_set_json_mode (json_logging cfg) g in
  log_set_verbose (verbose cfg) g.

Definition duration_ms (now start : Z) : Q := (inject_Z (now - start) / inject_Z 1000000)%Q.

(** The call at the end of [log_request_complete]. *)
Definition request_access_line (g : LogState) (t : Tm) (c : Connection) (now : Z) : chars :=
  if response_status c =? 0 then [] else
  log_access g t (client_ip c)
    (if eqc (deref (method c)) NUL then str "???" else method c)
    (default (str "/") (path c))
    (response_status c) (response_bytes c) (duration_ms now (start_time c)) (request_id c).

Definition log_request_access := log_access.

(** The call in [h2_on_stream_close_callback]. *)
Definition stream_access_line (g : LogState) (t : Tm) (c : Connection) (s : H2Stream) (now : Z) : chars :=
  if s_response_status s >? 0 then
    log_request_access g t (client_ip c) (default (str "???") (s_method s)) (default (str "/") (s_path s))
      (s_response_status s) (s_response_bytes s) (duration_ms now (s_start_time s)) (s_request_id s)
  else [].

(** Without [verbose] nothing about a client is logged. *)
Lemma minimal_mode_hides_clients wid cfg g t c s now ip ip' :
  verbose cfg = 0 ->
  let g := worker_log_setup wid cfg g in
  request_access_line g t c now = [] /\ stream_access_line g t c s now = [] /\
  log_format_ip g ip = log_format_ip g ip'.
Proof.
  intros Hv g0. assert (g_verbose g0 = false) as Hg.
  { unfold g0, worker_log_setup, log_set_verbose. by rewrite Hv. }
  unfold request_access_line, stream_access_line, log_request_access, log_access, log_format_ip. rewrite Hg.
  split_and!; [by case_match..|]. by destruct ip, ip'; repeat case_match.
Qed.

Lemma take_while_stop (f : ascii -> bool) p x r :
  f x = false -> (length (take_while f (p ++ x :: r)) <= length p)%nat.
Proof.
  intros Hx. induction p as [|y p IH]; simpl; [by rewrite Hx|]. destruct (f y); simpl; lia.
Qed.

(** Early validation looks no further than the first line feed. *)
Lemma early_stops_at_lf fl m p r :
  validation_failed fl = false -> forallb word_char m = true -> zlen p < 64 ->
  snd (validate_path_early fl (m ++ [SP] ++ p ++ LF :: r)) = 0.
Proof.
  intros Hf Hm Hp. unfold validate_path_early. rewrite Hf, (memchr_first SP m) by (by apply word_no; [left|]).
  replace (S (length m)) with (length (m ++ [SP])) by (rewrite length_app; simpl; lia).
  rewrite app_assoc, drop_app_length.
  assert (forall q, (length q <= length p)%nat ->
    zlen (take_while (fun c => negb (path_stop c)) (q ++ LF :: r)) <? 64 = true) as Ht.
  { intros q Hq. apply Z.ltb_lt. unfold zlen in *.
    pose proof (take_while_stop (fun c => negb (path_stop c)) q LF r eq_refl). lia. }
  destruct p as [|c p]; simpl app; cbv iota.
  - destruct (eqc LF "/"%char) eqn:E; [discriminate E|]. cbn [andb].
    pose proof (Ht [] ltac:(simpl; lia)) as H0. simpl app in H0. by rewrite H0.
  - destruct (eqc c "/"%char); cbn [tail andb].
    + destruct (_ =? 0); [done|]. by rewrite (Ht p ltac:(simpl; lia)).
    + pose proof (Ht (c :: p) ltac:(simpl; lia)) as H0. simpl app in H0. by rewrite H0.
Qed.

(** C35: A client can forge lines of the text access log.  A request line whose path contains
    a bare line feed passes early validation when it comes within the first 64 bytes, is
    parsed with the line feed in its path, and in verbose text mode [log_access] prints the
    path as it is: what follows the line feed starts a line of the log that the client has
    composed. *)
Theorem access_log_line_forged (g : LogState) (t : Tm) (c : Connection) (m p forged version rest : chars)
    (fl : PathFlags) (now : Z) :
  g_verbose g = true -> g_json_mode g = false -> validation_failed fl = false ->
  forallb word_char m = true -> zlen m < 16 -> forallb word_char version = true ->
  forallb (fun x => word_char x && negb (eqc x NUL)) (p ++ [LF] ++ forged) = true -> zlen p < 64 ->
  let request := m ++ [SP] ++ (p ++ [LF] ++ forged) ++ [SP] ++ version ++ CRLF ++ rest in
  snd (validate_path_early fl request) = 0 /\
  let c' := fst (parse_request_headers true [] c request) in
  path c' = Some (p ++ [LF] ++ forged) /\
  forall st bytes, st <> 0 ->
    exists before after,
      request_access_line g t (c' <| response_status := st |> <| response_bytes := bytes |>) now =
      before ++ [LF] ++ forged ++ str " HTTP/1.1" ++ after.
Proof.
  intros Hg Hj Hf Hm Hl Hv Hp Hs request.
  assert (forallb word_char (p ++ [LF] ++ forged) = true /\
          forallb (fun x => negb (eqc x NUL)) (p ++ [LF] ++ forged) = true) as [Hw Hz].
  { rewrite !forallb_forall in *. split; intros x Hx; specialize (Hp x Hx); by apply andb_true_iff in Hp as [? ?]. }
  split.
  - unfold request. rewrite <- app_assoc. by apply early_stops_at_lf.
  - pose proof (parse_request_line m (p ++ [LF] ++ forged) version rest [] c Hm Hw Hv Hl) as Hr.
    fold request in Hr. destruct (parse_request_headers true [] c request) as [c' rc]. cbn [fst].
    destruct Hr as (_ & _ & Hpath & _). split; [exact Hpath|]. intros st bytes Hst.
    apply no_nul_c_string in Hz. clear Hw Hp request.
    unfold request_access_line. cbn [response_status path method client_ip request_id start_time update].
    rewrite (proj2 (Z.eqb_neq _ _) Hst).
    change (path _) with (path c'). rewrite Hpath.
    change (default _ (Some (p ++ [LF] ++ forged))) with (p ++ [LF] ++ forged).
    match goal with |- context [log_access g t ?ip ?m0 _ ?s0 ?b0 ?d0 ?r0] =>
      destruct (log_access_text g t ip m0 s0 b0 d0 r0 Hg Hj) as (before & after & E) end.
    exists (before ++ p), after. rewrite E, Hz, <- !app_assoc. reflexivity.
Qed.

Lemma access_log_line_forged_witness :
  let g := log_set_verbose 1 log_start in
  let t := mkTm 124 0 1 0 0 0 (str "+0000") 0 in
  let request := str "GET" ++ [SP] ++ (str "/docs" ++ [LF] ++ str "10.0.0.9") ++ [SP] ++ str "HTTP/1.1" ++ CRLF ++ [] in
  exists before after,
    request_access_line g t
      ((fst (parse_request_headers true [] new_conn request))
         <| response_status := 404 |> <| response_bytes := 2 |>) 0 =
    before ++ [LF] ++ str "10.0.0.9" ++ str " HTTP/1.1" ++ after.
Proof.
  intros g t request.
  destruct (access_log_line_forged g t new_conn (str "GET") (str "/docs") (str "10.0.0.9") (str "HTTP/1.1") []
    Router.no_flags 0 eq_refl eq_refl eq_refl eq_refl eq_refl eq_refl eq_refl eq_refl) as (_ & _ & H).
  exact (H 404 2 ltac:(discriminate)).
Defined.
