(* ===== verification/Http2Spec.v ===== *)
(** * What the HTTP/2 side promises

    Theorems about [Http2]: the body provider delivers the body, and a
    request gets the same answer over HTTP/2 as over HTTP/1.1. *)
From Stdlib Require Import ZArith QArith Lia Ascii String.
From stdpp Require Import base list numbers strings.
From S2P Require Import Prelude CLib Router Network Config Slots IpAcl RateLimiter Rpc Tls State Endpoints Metrics Http2 StaticFiles Connection Http1.

#[local] Open Scope Z_scope.

(** ** The body provider *)

(** nghttp2 calls the provider with the size of its buffer until it reports
    the end. *)
Fixpoint pump (bs : H2BodySource) (lens : list Z) : chars * bool :=
  match lens with
  | [] => ([], false)
  | n :: r =>
      let '(bs, data, eof) := h2_body_read_callback bs n in
      if eof then (data, true) else let '(rest, e) := pump bs r in (data ++ rest, e)
  end.

Lemma pump_from body lens : forall p,
  (p <= length body)%nat -> Forall (fun n => 0 < n) lens ->
  lens <> [] -> (length body - p <= length lens)%nat ->
  pump {| bs_data := body; bs_len := zlen body; bs_pos := Z.of_nat p |} lens = (drop p body, true).
Proof.
  induction lens as [|n lens IH]; intros p Hp Hpos Hne Hlen; [done|].
  apply Forall_cons in Hpos as [Hn Hpos]. cbn [pump]. unfold h2_body_read_callback.
  cbn [bs_data bs_len bs_pos update]. rewrite Nat2Z.id.
  destruct (zlen body - Z.of_nat p <? n) eqn:El; b2p.
  - replace (_ >=? _) with true by (symmetry; rewrite Z.geb_leb; apply Z.leb_le; lia).
    rewrite take_ge; [done|]. rewrite length_drop. unfold zlen. lia.
  - destruct (_ >=? _) eqn:Eg; b2p.
    + rewrite take_ge; [done|]. rewrite length_drop. unfold zlen in *. lia.
    + set (q := (p + Z.to_nat n)%nat).
      replace (Z.of_nat p + n) with (Z.of_nat q) by lia. simpl in Hlen.
      assert (zlen body = Z.of_nat (length body)) as Hz by done.
      rewrite (IH q); [|lia|done|destruct lens; [simpl in Hlen; lia|done]|lia].
      f_equal. unfold q. rewrite <- drop_drop, take_drop. done.
Qed.

(** C19: The response body survives: the provider that [h2_send_response] registers, called
    with any positive buffer sizes at least as many times as there are body bytes (and at
    least once), delivers exactly the body in order and reports the end of data. *)
Theorem body_provider_delivers (body : chars) (lens : list Z) :
  Forall (fun n => 0 < n) lens -> lens <> [] -> (length body <= length lens)%nat ->
  pump {| bs_data := body; bs_len := zlen body; bs_pos := 0 |} lens = (body, true).
Proof.
  intros Hpos Hne Hlen. pose proof (pump_from body lens 0 ltac:(lia) Hpos Hne ltac:(lia)) as Hf.
  by rewrite drop_0 in Hf.
Qed.

Lemma body_provider_delivers_witness :
  pump {| bs_data := str "hello"; bs_len := 5; bs_pos := 0 |} [2; 1; 4; 9; 9] = (str "hello", true).
Proof.
  apply (body_provider_delivers (str "hello") [2; 1; 4; 9; 9]); [|done|simpl; lia].
  by rewrite !Forall_cons, Forall_nil.
Defined.

(** ** The same answer over both protocols *)

Lemma page_body file : page_wf file -> zlen (take (Z.to_nat (length_ file)) (content file)) = length_ file.
Proof. intros (Hl & _ & _). rewrite Hl, take_ge; [done|]. unfold zlen. lia. Qed.

Lemma answers_agree (e : RequestEnv) (w : WorkerProcess) (c : Connection) (p : chars) :
  pages_wf (static_files w) -> path c = Some p -> path_len c = zlen p ->
  let route := route_request p in
  let '(st, _, body, recorded, len) := h2_answer e (update_endpoint_counter w route) route p (zlen p) in
  let c' := snd (process_request e w c) in
  response_status c' = st /\ response_bytes c' = zlen body /\
  (route <> ROUTE_ACME_CHALLENGE -> recorded = st /\ len = zlen body).
Proof.
  unfold pages_wf. rewrite !Forall_cons. intros (H1 & H2 & H3 & H4 & H5 & H6 & H7 & _) Hp Hl.
  unfold process_request. cbn [path update]. rewrite Hp. cbn zeta. simpl (default _ (Some p)).
  unfold h2_answer. destruct (route_request p); cbn [snd].
  1-7: rewrite page_body by assumption; by split_and!.
  - unfold serve_health. pose proof (health_body_len
      (update_endpoint_counter w ROUTE_HEALTH) (health_env e) 1024 ltac:(lia)) as Hh.
    destruct (generate_health_body _ _ _) as [body len]. cbn [fst snd] in Hh. subst len.
    rewrite take_ge by (unfold zlen; lia). by split_and!.
  - by split_and!.
  - by split_and!.
  - unfold serve_metrics. pose proof (metrics_body_len (update_endpoint_counter w ROUTE_METRICS)
      (health_env e) 16384) as Hm.
    destruct (generate_metrics_body _ _ _) as [body len]. cbn [fst snd] in Hm. subst len.
    rewrite take_ge by (unfold zlen; lia). by split_and!.
  - by split_and!.
  - unfold serve_acme_challenge, acme_challenge_h2. cbn [path path_len update].
    destruct (acme_token_facts p) as [Ht _]. rewrite Hl. simpl (default _ (Some p)).
    rewrite Ht. destruct (acme_token_h2 p (zlen p)) as [t|]; [|by split_and!].
    destruct (acme_read _ _ t) as [data|]; [|by split_and!].
    destruct (zlen data >? 0); by split_and!.
Qed.

(** The bytes of a header block that asks for "/" followed by [q]. *)
Definition asks_for (q headers : chars) : Prop :=
  exists m stop rest, memchr SP m = None /\ path_stop stop = true /\
    headers = m ++ SP :: "/"%char :: q ++ stop :: rest.

Lemma refused_http1 (e : ReadEnv) (w : WorkerProcess) (c : Connection) (q : chars) n :
  forallb (fun x => negb (path_stop x)) q = true -> asks_for q (take n (input c)) ->
  validation_failed (flags c) = false -> pullup_ok e = true -> validate_hex_path q = -1 ->
  headers_complete e w c n =
  (bump errors_parse w,
   connection_send_error (c <| headers_end := Z.of_nat n |>
                            <| flags := fst (validate_path_early (flags c) (take n (input c))) |>)
     400 (str "Bad Request - Invalid Characters")).
Proof.
  intros Hq (m & stop & rest & Hm & Hs & Ht) Hf Hp Hv. unfold headers_complete. cbv zeta. rewrite Hp. cbn [negb].
  change (flags (c <| headers_end := Z.of_nat n |>)) with (flags c).
  change (input (c <| headers_end := Z.of_nat n |>)) with (input c).
  assert (snd (validate_path_early (flags c) (take n (input c))) = -1) as He
    by (rewrite Ht, early_verdict, path_seen_full by done; exact Hv).
  destruct (validate_path_early (flags c) (take n (input c))) as [fl rc]. cbn [fst snd] in *. by subst rc.
Qed.

Lemma refused_http2 (w : WorkerProcess) (hc : H2Connection) (frame : Frame) (s : H2Stream) (q : chars) :
  fr_type frame = NGHTTP2_HEADERS -> h2_stream_find hc (fr_stream_id frame) = Some s ->
  forallb (fun x => negb (eqc x NUL)) q = true -> validate_hex_path q = -1 ->
  let '(w', _, rc) := h2_on_header_callback true w hc frame (str ":path") ("/"%char :: q) in
  w' = bump errors_parse (bump h2_rst_stream_total w) /\ rc = NGHTTP2_ERR_TEMPORAL_CALLBACK_FAILURE.
Proof.
  intros Ht Hf Hz Hv. unfold h2_on_header_callback. rewrite bool_decide_eq_true_2 by done. cbn [negb]. rewrite Hf.
  change (name_is (str ":path") ":method") with false. change (name_is (str ":path") ":path") with true. cbv iota zeta.
  rewrite no_nul_c_string by exact Hz. cbn [tail]. rewrite Hv.
  replace (zlen ("/"%char :: q) >? 1) with true; [done|]. symmetry. apply Z.gtb_lt. rewrite zlen_cons.
  destruct q; [done|]. rewrite zlen_cons. pose proof (zlen_nonneg q). lia.
Qed.

(** C18: A path that validation accepts gets the same status and the same number of body
    bytes over HTTP/1.1 and over HTTP/2, for every route; and over HTTP/2 the status and
    size recorded for the access log are the ones sent, except for ACME challenges.  A path
    that validation refuses is answered over neither: over HTTP/1.1 the request gets 400 in
    place of the page, over HTTP/2 the header callback fails, so that the stream is reset
    without a response; both count a parse error. *)
Theorem same_answer_over_http2 (e : ReadEnv) (w : WorkerProcess) (c : Connection) (q : chars)
    (hc : H2Connection) (frame : Frame) (s : H2Stream) :
  pages_wf (static_files w) ->
  forallb (fun x => negb (path_stop x) && negb (eqc x NUL)) q = true ->
  pullup_ok e = true -> validation_failed (flags c) = false ->
  fr_type frame = NGHTTP2_HEADERS -> h2_stream_find hc (fr_stream_id frame) = Some s ->
  let p := "/"%char :: q in
  let route := route_request p in
  if validate_hex_path q =? 0 then
    let '(st, _, body, recorded, len) :=
      h2_answer (request_env e) (update_endpoint_counter w route) route p (zlen p) in
    let c' := snd (process_request (request_env e) w (c <| path := Some p |> <| path_len := zlen p |>)) in
    response_status c' = st /\ response_bytes c' = zlen body /\
    (route <> ROUTE_ACME_CHALLENGE -> recorded = st /\ len = zlen body)
  else
    (forall n, asks_for q (take n (input c)) ->
       let '(w', c') := headers_complete e w c n in
       w' = bump errors_parse w /\ response_status c' = 400 /\ state c' = CONN_STATE_CLOSING) /\
    let '(w', _, rc) := h2_on_header_callback true w hc frame (str ":path") p in
    w' = bump errors_parse (bump h2_rst_stream_total w) /\ rc = NGHTTP2_ERR_TEMPORAL_CALLBACK_FAILURE.
Proof.
  intros Hpw Hq Hpu Hfl Hft Hst p route. destruct (validate_hex_path_cases q) as [Hv|Hv]; rewrite Hv; cbn [Z.eqb].
  - by apply answers_agree.
  - assert (forallb (fun x => negb (path_stop x)) q = true /\ forallb (fun x => negb (eqc x NUL)) q = true)
      as [Hq1 Hq2] by (rewrite !forallb_forall in *; split; intros x Hx; specialize (Hq x Hx);
          by apply andb_true_iff in Hq as [? ?]).
    split; [|by eapply refused_http2]. intros n Ha. by rewrite (refused_http1 e w c q n).
Qed.

(** A session in which stream 1 has just been opened. *)
Definition one_stream : H2Connection :=
  match h2_stream_new true idle_worker {| streams := []; stream_count := 0;
          max_concurrent_streams := 100; initial_window_size := H2_INITIAL_WINDOW_SIZE |} 1 0 with
  | Some (_, hc) => hc
  | None => {| streams := []; stream_count := 0; max_concurrent_streams := 0; initial_window_size := 0 |}
  end.

Definition headers_frame : Frame :=
  {| fr_type := NGHTTP2_HEADERS; fr_stream_id := 1; flag_end_stream := true; hcat_request := true |}.

(** "/alive" is served over both; a path of 64 letters z over neither. *)
Lemma same_answer_over_http2_witness :
  let zs := repeat "z"%char 64 in
  let c := new_conn <| input := str "GET /" ++ zs ++ str " HTTP/1.1" |> in
  response_status (snd (process_request (request_env (plain_env 0)) idle_worker
    (c <| path := Some (str "/alive") |> <| path_len := 6 |>))) = 200 /\
  response_status (snd (headers_complete (plain_env 0) idle_worker c 100)) = 400 /\
  snd (h2_on_header_callback true idle_worker one_stream headers_frame (str ":path") ("/"%char :: zs)) =
    NGHTTP2_ERR_TEMPORAL_CALLBACK_FAILURE.
Proof.
  intros zs c.
  assert (page_wf sample_page) as Hw by (split; [done|split; [vm_compute; discriminate|done]]).
  assert (pages_wf (static_files idle_worker)) as Hp.
  { unfold pages_wf. simpl. rewrite !Forall_cons, Forall_nil. by split_and!. }
  destruct (h2_stream_find one_stream 1) as [s|] eqn:Es; [|discriminate Es].
  split.
  - destruct (same_answer_over_http2 (plain_env 0) idle_worker c (str "alive") one_stream headers_frame s
      Hp eq_refl eq_refl eq_refl eq_refl Es) as [Hs _]. exact Hs.
  - pose proof (same_answer_over_http2 (plain_env 0) idle_worker c zs one_stream headers_frame s
      Hp eq_refl eq_refl eq_refl eq_refl Es) as Hs. cbv zeta in Hs.
    assert (validate_hex_path zs = -1) as Hv by (vm_compute; reflexivity). rewrite Hv in Hs. cbn [Z.eqb] in Hs.
    destruct Hs as [H1 H2]. specialize (H1 100%nat). split.
    + destruct (headers_complete (plain_env 0) idle_worker c 100) as [w' c']. apply H1.
      exists (str "GET"), SP, (str "HTTP/1.1"). by split_and!.
    + destruct (h2_on_header_callback _ _ _ _ _ _) as [[w' hc'] rc]. apply H2.
Defined.
