(* ===== verification/RpcSpec.v ===== *)
(** * What the node client promises

    Theorems about [Rpc]: credentials reach the node unchanged, requests
    are framed and fit their buffer, the node's usual answers are understood,
    and every asynchronous request is answered exactly once within the
    bounds of its buffer. *)
From Stdlib Require Import ZArith Lia Ascii String.
From stdpp Require Import base list numbers strings relations.
From S2P Require Import Prelude CLib Hex Network Config Rpc.

#[local] Open Scope Z_scope.

(** ** Base64 *)

(** The value of a digit. *)
Definition base64_value (c : ascii) : Z :=
  match memchr c base64_table with Some i => Z.of_nat i | None => 0 end.

(** The bytes that quartets of digits stand for. *)
Fixpoint base64_decode (l : chars) : chars :=
  match l with
  | a :: b :: c :: d :: r =>
      let v := base64_value a * 2 ^ 18 + base64_value b * 2 ^ 12 + base64_value c * 2 ^ 6 + base64_value d in
      let x := chr (v / 2 ^ 16) in
      let y := chr (v / 2 ^ 8 mod 2 ^ 8) in
      let z := chr (v mod 2 ^ 8) in
      if eqc c "="%char then [x]
      else if eqc d "="%char then [x; y]
      else x :: y :: z :: base64_decode r
  | _ => []
  end.

Lemma digit_exhaust (n : Z) :
  0 <= n < 64 ->
  let c := nth (Z.to_nat n) base64_table NUL in base64_value c = n /\ eqc c "="%char = false.
Proof.
  intros Hn. cut (forallb (fun k => let c := nth k base64_table NUL in
    (base64_value c =? Z.of_nat k) && negb (eqc c "="%char)) (seq 0 64) = true); [|by vm_compute].
  rewrite forallb_forall. intros H. specialize (H (Z.to_nat n)).
  rewrite in_seq in H. specialize (H ltac:(lia)).
  cbv zeta in H |- *. b2p. rewrite Z2Nat.id in * by lia. split; [done|by apply eqc_neq].
Qed.

(** Six bits of [v] survive the table. *)
Lemma digit_value v k :
  0 <= k -> base64_value (base64_digit v k) = v / 2 ^ k mod 64 /\ eqc (base64_digit v k) "="%char = false.
Proof.
  intros Hk. unfold base64_digit. change 63 with (Z.ones 6).
  rewrite Z.land_ones, Z.shiftr_div_pow2 by lia. apply digit_exhaust. apply Z.mod_pos_bound. lia.
Qed.

Lemma lor_low x y n : 0 <= n -> 0 <= y < 2 ^ n -> Z.lor (x * 2 ^ n) y = x * 2 ^ n + y.
Proof.
  intros Hn Hy. rewrite <- (Z.add_lor_land (x * 2 ^ n) y). enough (Z.land (x * 2 ^ n) y = 0) by lia.
  apply Z.bits_inj'. intros m Hm. rewrite Z.land_spec, Z.bits_0, <- (Z.mod_small y (2 ^ n)) by lia.
  destruct (decide (m < n)); [rewrite Z.mul_pow2_bits_low by lia; done|].
  rewrite Z.mod_pow2_bits_high by lia. apply andb_false_r.
Qed.

(** Induction by rounds of the encoder. *)
Lemma rounds_ind (P : chars -> Prop) :
  P [] -> (forall a, P [a]) -> (forall a b, P [a; b]) ->
  (forall a b c r, P r -> P (a :: b :: c :: r)) -> forall l, P l.
Proof.
  intros H0 H1 H2 H3. fix IH 1. intros [|a [|b [|c r]]]; [exact H0|apply H1|apply H2|apply H3, IH].
Qed.

Lemma length_base64 l : (3 * length (base64_encode l) <= 4 * length l + 8)%nat /\
  (4 * length l <= 3 * length (base64_encode l))%nat /\ exists k, length (base64_encode l) = (4 * k)%nat.
Proof.
  induction l as [| | |a b c r (IH1 & IH2 & k & IH3)] using rounds_ind; cbn [base64_encode app length].
  - split_and!; try lia. by exists O.
  - split_and!; try lia. by exists 1%nat.
  - split_and!; try lia. by exists 1%nat.
  - split_and!; try lia. exists (S k). lia.
Qed.

Ltac to_digits :=
  repeat match goal with
  | |- context [base64_value (base64_digit ?v ?k)] =>
      rewrite (proj1 (digit_value v k ltac:(lia)))
  | |- context [eqc (base64_digit ?v ?k) "="%char] =>
      rewrite (proj2 (digit_value v k ltac:(lia)))
  end.

(** The three bytes of a round as one number. *)
Lemma round_value a b c : 0 <= b < 256 -> 0 <= c < 256 ->
  Z.lor (Z.lor (a * 2 ^ 16) (b * 2 ^ 8)) c = a * 65536 + b * 256 + c.
Proof.
  intros Hb Hc. rewrite (lor_low _ (b * 2 ^ 8)) by lia.
  replace (a * 2 ^ 16 + b * 2 ^ 8) with ((a * 2 ^ 8 + b) * 2 ^ 8) by lia.
  rewrite lor_low by lia. lia.
Qed.

(** Four six-bit digits hold all of a 24-bit number. *)
Lemma sextets v : 0 <= v < 2 ^ 24 ->
  v / 2 ^ 18 mod 64 * 2 ^ 18 + v / 2 ^ 12 mod 64 * 2 ^ 12 + v / 2 ^ 6 mod 64 * 2 ^ 6 + v / 2 ^ 0 mod 64 = v.
Proof. intros. Z.to_euclidean_division_equations. lia. Qed.

Lemma chr_is c x : x = code c -> chr x = c.
Proof. intros ->. apply chr_code. Qed.

Lemma base64_roundtrip l : base64_decode (base64_encode l) = l.
Proof.
  induction l as [|a|a b|a b c r IH] using rounds_ind; cbn [base64_encode app base64_decode]; [done|..];
    rewrite ?Z.shiftl_mul_pow2 by lia; to_digits; rewrite ?eqc_refl;
    change (base64_value "="%char) with 0;
    pose proof (code_range a); try pose proof (code_range b); try pose proof (code_range c).
  - rewrite (chr_is a); [done|]. Z.to_euclidean_division_equations. lia.
  - rewrite lor_low by lia. rewrite (chr_is a), (chr_is b); [done|..];
      Z.to_euclidean_division_equations; lia.
  - rewrite round_value by lia. rewrite !sextets, IH by lia.
    rewrite (chr_is a), (chr_is b), (chr_is c); [done|..]; Z.to_euclidean_division_equations; lia.
Qed.

(** ** Credentials *)

(** [text] is a cookie file whose only or first line is [line]. *)
Definition cookie_text (text line : chars) : Prop :=
  text <> [] /\ forallb (fun c => negb (eqc c LF || eqc c CR || eqc c NUL)) line = true /\
  exists eol rest, text = line ++ eol ++ rest /\
    (eol = [LF] \/ eol = [CR; LF] \/ (eol = [] /\ rest = [])).

(** Where the cookie is, if one is configured. *)
Definition cookie_location (config : RPCConfig) (chain : BitcoinChain) : option chars :=
  match cookie_file config, datadir config with
  | _ :: _, _ => Some (cookie_file config)
  | [], _ :: _ => Some (datadir config ++ cookie_subdir chain ++ str "/.cookie")
  | [], [] => None
  end.

(** The credentials a configuration names. *)
Inductive credentials (fs : chars -> option chars) (config : RPCConfig) (chain : BitcoinChain) :
    chars -> Prop :=
| by_cookie path text line :
    cookie_location config chain = Some path -> fs path = Some text -> cookie_text text line ->
    (length line < 190)%nat -> credentials fs config chain line
| by_password :
    cookie_location config chain = None -> user config <> [] -> password config <> [] ->
    credentials fs config chain (user config ++ str ":" ++ password config).

(** The fields of a client fit their arrays. *)
Definition client_wf (c : RPCClient) : Prop :=
  fits 256 (cl_host c) /\ fits 512 (auth_header c) /\ fits 64 (cl_wallet c) /\ 0 <= cl_port c <= INT_MAX.

Lemma fgets_line n line rest :
  forallb (fun c => negb (eqc c LF)) line = true ->
  fst (fgets (length line + n) (line ++ rest)) = line ++ fst (fgets n rest).
Proof.
  induction line as [|c line IH]; [done|]. cbn [forallb length app Nat.add fgets].
  intros [Hc Hl]%andb_true_iff. apply negb_true_iff in Hc. rewrite Hc. specialize (IH Hl).
  destruct (fgets (length line + n) (line ++ rest)) eqn:E. simpl in *. by f_equal.
Qed.

Lemma strip_newline_app line eol :
  forallb (fun c => negb (eqc c LF || eqc c CR)) line = true ->
  forallb (fun c => eqc c LF || eqc c CR) eol = true ->
  strip_newline (line ++ eol) = line.
Proof.
  intros Hl He. unfold strip_newline. rewrite rev_app_distr.
  assert (forallb (fun c => eqc c LF || eqc c CR) (rev eol) = true) as Hr
    by (rewrite forallb_forall in *; intros x Hx; apply He; by apply in_rev).
  induction (rev eol) as [|c r IH]; simpl.
  - destruct (rev line) as [|c r] eqn:Er; simpl; [by rewrite <- (rev_involutive line), Er|].
    assert (In c line) as Hin by (apply in_rev; rewrite Er; by left).
    rewrite forallb_forall in Hl. specialize (Hl c Hin). apply negb_true_iff in Hl. rewrite Hl.
    change (rev r ++ [c]) with (rev (c :: r)). by rewrite <- Er, rev_involutive.
  - simpl in Hr. apply andb_true_iff in Hr as [-> Hr]. auto.
Qed.

(** What [read_cookie_file] takes from a cookie file. *)
Lemma cookie_line text line :
  cookie_text text line -> (length line <= 253)%nat ->
  strip_newline (c_string (fst (fgets 255 text))) = line.
Proof.
  intros (_ & Hl & eol & rest & -> & He) Hn.
  assert (forall x, In x line -> eqc x LF = false /\ eqc x CR = false /\ eqc x NUL = false) as Hx.
  { rewrite forallb_forall in Hl. intros x Hin. specialize (Hl x Hin). b2p. split_and!; by apply eqc_neq. }
  replace 255%nat with (length line + (255 - length line))%nat by lia. rewrite fgets_line.
  2:{ rewrite forallb_forall. intros x Hin. apply negb_true_iff. by apply Hx. }
  assert (fst (fgets (255 - length line) (eol ++ rest)) = eol) as ->.
  { destruct (255 - length line)%nat as [|[|n]] eqn:E; [lia..|].
    destruct He as [-> | [-> | [-> ->]]]; done. }
  rewrite no_nul_c_string.
  - apply strip_newline_app; [|destruct He as [-> | [-> | [-> ->]]]; done].
    rewrite forallb_forall. intros x Hin. destruct (Hx x Hin) as (-> & -> & _). done.
  - rewrite forallb_app_iff. apply andb_true_iff. split; [|destruct He as [-> | [-> | [-> ->]]]; done].
    rewrite forallb_forall. intros x Hin. destruct (Hx x Hin) as (_ & _ & ->). done.
Qed.

Lemma encode_into_fits l : (length l < 190)%nat -> base64_encode_into 256 l = Some (base64_encode l).
Proof.
  intros Hl. unfold base64_encode_into. destruct (length_base64 l) as (H1 & H2 & k & H3).
  destruct (length (base64_encode l) <? 256)%nat eqn:E; [done|]. apply Nat.ltb_ge in E. lia.
Qed.

Lemma header_decodes l : (length l < 190)%nat ->
  basic_header 512 (base64_encode l) = str "Basic " ++ base64_encode l /\
  fits 512 (str "Basic " ++ base64_encode l).
Proof.
  intros Hl. destruct (length_base64 l) as (H1 & _). unfold basic_header, fits, snprintf.
  assert (length (str "Basic " ++ base64_encode l) < 512)%nat by (rewrite length_app; simpl; lia).
  rewrite (take_ge (base64_encode l)) by lia. split; [|done]. apply take_ge. simpl in *. lia.
Qed.

Lemma read_cookie_ok text line header :
  cookie_text text line -> (length line < 190)%nat ->
  read_cookie_file (Some text) header 512 = Some (0, str "Basic " ++ base64_encode line).
Proof.
  intros Ht Hl. unfold read_cookie_file. destruct text as [|c text]; [by destruct Ht|].
  rewrite (cookie_line _ _ Ht) by lia. rewrite encode_into_fits by done. simpl.
  by rewrite (proj1 (header_decodes line Hl)).
Qed.

(** A line too long for [encoded\[256\]] is written past its end. *)
Lemma long_cookie_overflows text line header :
  cookie_text text line -> (190 <= length line <= 253)%nat ->
  read_cookie_file (Some text) header 512 = None.
Proof.
  intros Ht Hl. unfold read_cookie_file. destruct text as [|c text]; [by destruct Ht|].
  rewrite (cookie_line _ _ Ht) by lia. unfold base64_encode_into.
  destruct (length_base64 line) as (_ & H2 & k & H3).
  destruct (length (base64_encode line) <? 256)%nat eqn:E; [|done]. apply Nat.ltb_lt in E. lia.
Qed.

Lemma snprintf_fits n s : fits n s -> snprintf n s = s.
Proof. unfold fits, snprintf. intros. apply take_ge. lia. Qed.

Lemma cookie_path_ok dir chain :
  (length dir <= 200)%nat ->
  get_cookie_path_from_datadir dir chain 256 = dir ++ cookie_subdir chain ++ str "/.cookie".
Proof.
  intros Hd. unfold get_cookie_path_from_datadir. rewrite (take_ge dir) by lia.
  assert (length (cookie_subdir chain) <= 10)%nat by (destruct chain; simpl; lia).
  rewrite (take_ge (cookie_subdir chain)) by lia. apply snprintf_fits. unfold fits.
  rewrite !length_app. simpl. lia.
Qed.

Lemma client_cookie_ok fs client text line :
  fs (cookie_path client) = Some text -> cookie_text text line -> (length line < 190)%nat ->
  client_read_cookie fs client
  = Some (client <| auth_header := str "Basic " ++ base64_encode line |>, 0).
Proof.
  intros Hfs Ht Hl. unfold client_read_cookie. rewrite Hfs.
  by rewrite (read_cookie_ok _ _ (auth_header client) Ht Hl).
Qed.

(** The cookie branches of [rpc_init]. *)
Lemma init_cookie fs config chain path text line :
  rpc_wf config -> (length (datadir config) <= 200)%nat ->
  cookie_location config chain = Some path -> fs path = Some text ->
  cookie_text text line -> (length line < 190)%nat ->
  exists c, rpc_init fs config chain = Some (c, RPC_OK) /\ client_wf c /\
    auth_header c = str "Basic " ++ base64_encode line.
Proof.
  intros (_ & Hport & _ & Hhost & _ & _ & Hcookie & _ & Hwallet) Hd Hloc Hfs Ht Hl.
  destruct (header_decodes line Hl) as [_ Hfit]. destruct config as [? h pt u pw cf dd tm wl].
  cbn [host port user password cookie_file datadir timeout_sec wallet] in *.
  unfold rpc_init. cbn [host port user password cookie_file datadir timeout_sec wallet].
  destruct cf as [|c0 cf]; [destruct dd as [|d0 dd]; [done|]|];
    cbn [cookie_location cookie_file datadir] in Hloc; simplify_eq;
    rewrite ?cookie_path_ok, ?(snprintf_fits 256 (c0 :: cf)) by done;
    destruct wl; rewrite (client_cookie_ok _ _ text line) by done;
    (eexists; split; [reflexivity|]); (split; [|reflexivity]);
    unfold client_wf; cbn -[fits snprintf app base64_encode]; rewrite ?snprintf_fits by done;
    split_and!; done || apply Hport.
Qed.

Lemma init_password fs config chain :
  rpc_wf config -> cookie_location config chain = None ->
  user config <> [] -> password config <> [] ->
  exists c, rpc_init fs config chain = Some (c, RPC_OK) /\ client_wf c /\
    auth_header c = str "Basic " ++ base64_encode (user config ++ str ":" ++ password config).
Proof.
  intros (_ & Hport & _ & Hhost & Huser & Hpass & _ & _ & Hwallet) Hloc Hu Hp.
  destruct config as [? h pt u pw cf dd tm wl]. unfold fits in Huser, Hpass.
  cbn [host port user password cookie_file datadir timeout_sec wallet] in *.
  destruct cf, dd; try done. destruct u as [|u0 u]; [done|]. destruct pw as [|p0 pw]; [done|].
  remember (u0 :: u) as us. remember (p0 :: pw) as ps.
  assert (length (us ++ str ":" ++ ps) < 128)%nat as Hl by (rewrite !length_app; simpl; lia).
  assert (build_auth_header us ps 512 = Some (str "Basic " ++ base64_encode (us ++ str ":" ++ ps))) as Hb.
  { unfold build_auth_header. rewrite snprintf_fits, encode_into_fits by (done || lia).
    apply (f_equal Some), header_decodes. lia. }
  destruct (header_decodes (us ++ str ":" ++ ps) ltac:(lia)) as [_ Hfit].
  unfold rpc_init. cbn [host port user password cookie_file datadir timeout_sec wallet]. subst us ps.
  destruct wl; rewrite Hb; (eexists; split; [reflexivity|]); (split; [|reflexivity]);
    unfold client_wf; cbn -[fits snprintf app base64_encode]; rewrite ?snprintf_fits by done;
    split_and!; done || apply Hport.
Qed.

(** ** Framing of requests *)

Definition lacks (c : ascii) (l : chars) : Prop := forallb (fun x => negb (eqc x c)) l = true.

Lemma lacks_cons c x l : lacks c (x :: l) <-> x <> c /\ lacks c l.
Proof. unfold lacks. simpl. by rewrite andb_true_iff, negb_true_iff, eqc_neq. Qed.

Lemma lacks_app c a b : lacks c (a ++ b) <-> lacks c a /\ lacks c b.
Proof. unfold lacks. by rewrite forallb_app_iff, andb_true_iff. Qed.

Lemma lacks_dec c z : isdigit c || eqc c "-"%char = false -> lacks c (print_dec z).
Proof.
  intros Hc. pose proof (print_dec_chars z) as H. unfold lacks. rewrite forallb_forall in *.
  intros x Hx. specialize (H x Hx). apply negb_true_iff. destruct (eqc x c) eqn:E; [|done].
  apply eqc_eq in E. subst x. by rewrite Hc in H.
Qed.

Notation no_cr := (lacks CR).

(** Lists of characters written out, and numbers, lack what they lack. *)
Ltac lacking :=
  repeat (apply lacks_app; split);
  first [assumption | by apply lacks_dec | reflexivity | idtac].

Lemma starts_no_cr p l : deref l <> CR -> starts_with (CR :: p) l = false.
Proof.
  destruct l as [|x l]; [done|]. simpl. intros H. destruct (eqc CR x) eqn:E; [|done].
  by apply eqc_eq in E.
Qed.

(** A line without CR holds no blank line, nor does its end when text
    follows. *)
Lemma blank_after_line line rest :
  no_cr line -> deref rest <> CR ->
  memmem (line ++ CRLF ++ rest) (CRLF ++ CRLF)
  = (fun i => (length line + 2 + i)%nat) <$> memmem rest (CRLF ++ CRLF).
Proof.
  intros Hl Hr. rewrite (memmem_skip _ (length line + 2)).
  - rewrite drop_app_ge by lia. by replace (length line + 2 - length line)%nat with 2%nat by lia.
  - intros j Hj. destruct (decide (j < length line)%nat).
    + rewrite drop_app_le by lia. assert (no_cr (drop j line)) as Hd by by apply forallb_drop.
      destruct (drop j line) as [|x d] eqn:E.
      { apply (f_equal length) in E. rewrite length_drop in E. simpl in E. lia. }
      apply starts_no_cr. by apply lacks_cons in Hd as [? _].
    + rewrite drop_app_ge by lia. destruct (j - length line)%nat as [|[|k]] eqn:E; [|done|lia].
      apply (starts_no_cr [LF]) in Hr. exact Hr.
  - rewrite !length_app. simpl. lia.
Qed.

Lemma blank_here line rest : no_cr line ->
  memmem (line ++ CRLF ++ CRLF ++ rest) (CRLF ++ CRLF) = Some (length line).
Proof.
  intros Hl. induction line as [|x line IH]; [done|]. apply lacks_cons in Hl as [Hx Hl].
  change ((x :: line) ++ CRLF ++ CRLF ++ rest) with (x :: (line ++ CRLF ++ CRLF ++ rest)).
  cbn [memmem]. change (CRLF ++ CRLF) with (CR :: [LF; CR; LF]) in *. rewrite starts_no_cr by done.
  by rewrite IH.
Qed.

(** The header block without the blank line that ends it. *)
Definition header_lines (client : RPCClient) (body_len : Z) : list chars :=
  [str "POST " ++ (match cl_wallet client with [] => str "/" | _ => str "/wallet/" end) ++
     cl_wallet client ++ str " HTTP/1.1";
   str "Host: " ++ cl_host client ++ str ":" ++ print_dec (cl_port client);
   str "Authorization: " ++ auth_header client;
   str "Content-Type: application/json";
   str "Content-Length: " ++ print_dec body_len;
   str "Connection: close"].

(** Lines, each ended by CR LF. *)
Definition http_lines (ls : list chars) : chars := concat (map (fun l => l ++ CRLF) ls).

Lemma request_header_lines client n :
  request_header client n = http_lines (header_lines client n) ++ CRLF.
Proof. unfold request_header, http_lines. cbn [header_lines map concat]. by rewrite <- !app_assoc. Qed.

(** The blank line that ends non-empty lines without CR is the first one. *)
Lemma first_blank ls body :
  ls <> [] -> Forall (fun l => no_cr l /\ l <> []) ls ->
  memmem (http_lines ls ++ CRLF ++ body) (CRLF ++ CRLF) = Some (length (http_lines ls) - 2)%nat.
Proof.
  intros Hne Hls. induction Hls as [|l ls [Hl Hl0] Hls IH]; [done|].
  unfold http_lines in *. cbn [map concat]. destruct ls as [|k ls].
  - cbn [map concat]. rewrite app_nil_r, <- app_assoc, blank_here by done. f_equal. rewrite length_app. simpl. lia.
  - rewrite <- !app_assoc. rewrite blank_after_line; [|done|].
    + rewrite IH by done. simpl fmap. f_equal. inversion Hls as [|? ? [? Hk0] ?]; subst.
      cbn [map concat]. rewrite !length_app. simpl. lia.
    + inversion Hls as [|? ? [Hk Hk0] ?]; subst. destruct k as [|x k]; [done|].
      by apply lacks_cons in Hk as [? _].
Qed.

Lemma header_fits client n :
  client_wf client -> 0 <= n <= SIZE_MAX -> fits 2048 (request_header client n).
Proof.
  intros (Hh & Ha & Hw & Hp) Hn. unfold fits, request_header in *.
  pose proof (print_dec_length 64 n ltac:(unfold SIZE_MAX in *; simpl; lia) ltac:(lia)).
  pose proof (print_dec_length 31 (cl_port client) ltac:(unfold INT_MAX in *; simpl; lia) ltac:(lia)).
  rewrite !length_app. destruct (cl_wallet client); simpl in *; lia.
Qed.

(** The JSON-RPC call that hands [hex] to the node. *)
Definition send_call (id : Z) (hex : chars) : chars :=
  ["{"%char] ++ quoted_key "jsonrpc" ++ [DQ] ++ str "1.0" ++ [DQ; ","%char] ++
  quoted_key "id" ++ print_dec id ++ [","%char] ++
  quoted_key "method" ++ [DQ] ++ str "sendrawtransaction" ++ [DQ; ","%char] ++
  quoted_key "params" ++ ["["%char; DQ] ++ hex ++ [DQ; "]"%char; "}"%char].

Lemma send_call_built n hex :
  0 <= n < ULONG_MAX ->
  build_jsonrpc_request true n (str "sendrawtransaction") (snprintf (length hex + 8) (json_array1 hex))
  = (n + 1, Some (send_call (n + 1) hex)).
Proof.
  intros Hn. rewrite snprintf_fits by (unfold fits, json_array1; rewrite !length_app; simpl; lia).
  unfold build_jsonrpc_request. cbn [negb].
  assert (u64 (n + 1) = n + 1) as -> by (apply wrap_small; unfold ULONG_MAX in *; lia).
  pose proof (print_dec_length 64 (n + 1) ltac:(unfold ULONG_MAX in *; simpl; lia) ltac:(lia)).
  rewrite snprintf_fits.
  - unfold send_call, quoted_key, json_array1. by rewrite <- !app_assoc.
  - unfold fits, json_array1. rewrite !length_app. simpl. lia.
Qed.

Lemma digit_no_cr v k : base64_digit v k <> CR.
Proof.
  unfold base64_digit. destruct (nth_in_or_default (Z.to_nat (Z.land (Z.shiftr v k) 63)) base64_table NUL)
    as [Hin | ->]; [|done].
  assert (forallb (fun c => negb (eqc c CR)) base64_table = true) as Ht by by vm_compute.
  rewrite forallb_forall in Ht. specialize (Ht _ Hin). by apply negb_true_iff, eqc_neq in Ht.
Qed.

Lemma base64_no_cr l : no_cr (base64_encode l).
Proof.
  induction l as [| | |a b c r IH] using rounds_ind; cbn [base64_encode app];
    repeat (apply lacks_cons; split); auto using digit_no_cr; done.
Qed.

(** C24: Credentials reach the node: when the configuration names a cookie file (directly or
    by a data directory of at most 200 characters) whose line has fewer than 190
    characters, or a user and a password, [rpc_init] succeeds, every field fits its array,
    and what the node decodes from the Authorization header is that line or
    user:password, byte for byte. *)
Theorem credentials_reach_node (fs : chars -> option chars) (config : RPCConfig)
    (chain : BitcoinChain) (cred : chars) :
  rpc_wf config -> (length (datadir config) <= 200)%nat -> credentials fs config chain cred ->
  exists client encoded,
    rpc_init fs config chain = Some (client, RPC_OK) /\ client_wf client /\
    auth_header client = str "Basic " ++ encoded /\ base64_decode encoded = cred /\ no_cr encoded.
Proof.
  intros Hwf Hd Hc.
  assert (exists c, rpc_init fs config chain = Some (c, RPC_OK) /\ client_wf c /\
    auth_header c = str "Basic " ++ base64_encode cred) as (c & Hi & Hw & Ha)
    by (destruct Hc; [eapply init_cookie|apply init_password]; eassumption).
  exists c, (base64_encode cred). eauto using base64_roundtrip, base64_no_cr.
Qed.

(** C25: Requests are framed: the message built for a transaction is not cut by any buffer; split
    at its first blank line it gives back the header lines, among them the credentials and
    a Content-Length that is the length of what follows, and the JSON-RPC call with the
    transaction in it. *)
Theorem node_request_framed (client : RPCClient) (n : Z) (hex : chars) :
  client_wf client -> no_cr (cl_host client) -> no_cr (cl_wallet client) -> no_cr (auth_header client) ->
  0 <= n < ULONG_MAX -> zlen hex < 2 ^ 62 ->
  exists body msg k,
    build_jsonrpc_request true n (str "sendrawtransaction")
      (snprintf (length hex + 8) (json_array1 hex)) = (n + 1, Some body) /\
    rpc_build_http_request true client body = Some msg /\
    memmem msg (CRLF ++ CRLF) = Some k /\
    take (k + 2) msg = http_lines (header_lines client (zlen body)) /\
    drop (k + 4) msg = send_call (n + 1) hex /\ body = send_call (n + 1) hex.
Proof.
  intros Hwf Hh Hw Ha Hn Hl. rewrite send_call_built by done.
  set (body := send_call (n + 1) hex). set (hd := http_lines (header_lines client (zlen body))).
  assert (0 <= zlen body <= SIZE_MAX) as Hb.
  { pose proof (print_dec_length 64 (n + 1) ltac:(unfold ULONG_MAX in *; simpl; lia) ltac:(lia)).
    unfold body, send_call, quoted_key, zlen, SIZE_MAX in *. rewrite !length_app. simpl. lia. }
  exists body, (hd ++ CRLF ++ body), (length hd - 2)%nat.
  assert (2 <= length hd)%nat as H2 .
  { unfold hd, http_lines, header_lines. cbn [map concat]. rewrite !length_app.
    change (length CRLF) with 2%nat. lia. }
  split; [done|]. split; [|split; [|split; [|split; [|done]]]].
  - unfold rpc_build_http_request. cbn [negb]. rewrite snprintf_fits by by apply header_fits.
    by rewrite request_header_lines, <- app_assoc.
  - apply first_blank; [done|]. unfold header_lines.
    repeat constructor; try done; lacking.
    by destruct (cl_wallet client).
  - replace (length hd - 2 + 2)%nat with (length hd) by lia. apply take_app_length.
  - replace (length hd - 2 + 4)%nat with (length hd + 2)%nat by lia.
    rewrite drop_app_ge by lia. by replace (length hd + 2 - length hd)%nat with 2%nat by lia.
Qed.

(** ** The node's answers *)

(** What follows the first occurrence of ["key":] *)
Definition after_key (k : string) (l : chars) : option chars :=
  (fun i => drop (i + length (quoted_key k)) l) <$> memmem l (quoted_key k).

Lemma after_skip1 k x l : starts_with (quoted_key k) (x :: l) = false -> after_key k (x :: l) = after_key k l.
Proof.
  intros H. unfold after_key. cbn [memmem]. rewrite H. by destruct (memmem l (quoted_key k)).
Qed.

Lemma after_unquoted k a l : lacks DQ a -> after_key k (a ++ l) = after_key k l.
Proof.
  induction a as [|x a IH]; [done|]. intros [Hx Ha]%lacks_cons. rewrite <- IH by done.
  apply after_skip1. simpl. destruct (eqc DQ x) eqn:E; [|done]. by apply eqc_eq in E.
Qed.

(** Up to the first quote two texts agree. *)
Lemma same_string a b l m : lacks DQ a -> lacks DQ b -> a ++ DQ :: l = b ++ DQ :: m -> a = b.
Proof.
  intros Ha Hb E. pose proof (memchr_first DQ a l Ha) as Ma. pose proof (memchr_first DQ b m Hb) as Mb.
  simpl app in Ma, Mb. rewrite E in Ma. rewrite Ma in Mb. injection Mb as Hl.
  apply (f_equal (take (length a))) in E. rewrite take_app_length, Hl, take_app_length in E. done.
Qed.

(** A quoted string that is not the key, and its closing quote. *)
Lemma after_quoted k a x l :
  lacks DQ a -> lacks DQ (str k) -> a <> str k -> eqc (deref (str k ++ [DQ])) x = false ->
  after_key k ([DQ] ++ a ++ [DQ] ++ [x] ++ l) = after_key k ([x] ++ l).
Proof.
  intros Ha Hk Hak Hx. cbn [app]. rewrite after_skip1.
  - rewrite (after_unquoted k a) by done. apply after_skip1.
    unfold quoted_key. simpl. destruct (str k) as [|y r]; simpl in *; by rewrite Hx.
  - destruct (starts_with _ _) eqn:E; [|done]. apply starts_with_app in E as [m E]. exfalso. apply Hak.
    unfold quoted_key in E. cbn [app] in E. injection E as E. rewrite <- app_assoc in E.
    by eapply same_string in E.
Qed.

Lemma after_hit k l : after_key k (quoted_key k ++ l) = Some l.
Proof.
  unfold after_key. assert (memmem (quoted_key k ++ l) (quoted_key k) = Some O) as ->.
  { assert (starts_with (quoted_key k) (quoted_key k ++ l) = true) as Hs by (apply starts_with_app; eauto).
    change (quoted_key k ++ l) with (DQ :: ((str k ++ [DQ; ":"%char]) ++ l)) in *.
    cbn [memmem]. by rewrite Hs. }
  simpl. f_equal. apply drop_app_length.
Qed.

Lemma after_strstr k l rest :
  lacks NUL l -> after_key k l = Some rest ->
  exists i, strstr l (quoted_key k) = Some i /\ drop (i + length (quoted_key k)) l = rest.
Proof.
  intros Hn. unfold after_key, strstr. rewrite no_nul_c_string by done.
  destruct (memmem l (quoted_key k)); [|done]. intros [= <-]. eauto.
Qed.

(** The answer to a transaction the node accepted. *)
Definition accepted_answer (txid : chars) (id : Z) : chars :=
  ["{"%char] ++ [DQ] ++ str "result" ++ [DQ] ++ [":"%char] ++ [DQ] ++ txid ++ [DQ] ++ [","%char] ++
  quoted_key "error" ++ str "null" ++ [","%char] ++ quoted_key "id" ++ print_dec id ++ ["}"%char].

(** The answer to a transaction it refused. *)
Definition refused_answer (error_code : Z) (message : chars) (id : Z) : chars :=
  ["{"%char] ++ [DQ] ++ str "result" ++ [DQ] ++ [":"%char] ++ str "null," ++
  quoted_key "error" ++ ["{"%char] ++ [DQ] ++ str "code" ++ [DQ] ++ [":"%char] ++
  print_dec error_code ++ [","%char] ++ quoted_key "message" ++ [DQ] ++ message ++ [DQ] ++ str "}," ++
  quoted_key "id" ++ print_dec id ++ ["}"%char].

Lemma hex_lacks c l : is_hex_char c = false -> is_all_hex l = true -> lacks c l.
Proof.
  intros Hc Hl. rewrite is_all_hex_forallb in Hl. unfold lacks. rewrite forallb_forall in *.
  intros x Hx. specialize (Hl x Hx). apply negb_true_iff. destruct (eqc x c) eqn:E; [|done].
  apply eqc_eq in E. subst x. congruence.
Qed.

Lemma accepted_error txid id : is_all_hex txid = true ->
  after_key "error" (accepted_answer txid id)
  = Some (str "null" ++ [","%char] ++ quoted_key "id" ++ print_dec id ++ ["}"%char]).
Proof.
  intros Hx. assert (lacks DQ txid) by by apply hex_lacks. unfold accepted_answer.
  rewrite after_unquoted, after_quoted, after_unquoted by done.
  rewrite after_quoted, after_unquoted by (done || by intros ->). apply after_hit.
Qed.

Lemma accepted_result txid id :
  after_key "result" (accepted_answer txid id)
  = Some ([DQ] ++ txid ++ [DQ] ++ [","%char] ++ quoted_key "error" ++ str "null" ++ [","%char] ++
          quoted_key "id" ++ print_dec id ++ ["}"%char]).
Proof. unfold accepted_answer. rewrite after_unquoted by done. apply (after_hit "result"). Qed.

Lemma refused_error error_code message id :
  after_key "error" (refused_answer error_code message id)
  = Some (["{"%char] ++ [DQ] ++ str "code" ++ [DQ] ++ [":"%char] ++
      print_dec error_code ++ [","%char] ++ quoted_key "message" ++ [DQ] ++ message ++ [DQ] ++ str "}," ++
      quoted_key "id" ++ print_dec id ++ ["}"%char]).
Proof.
  unfold refused_answer. rewrite after_unquoted, after_quoted, !after_unquoted by done. apply after_hit.
Qed.

Lemma strchr_quote a l : lacks DQ a -> lacks NUL (a ++ [DQ] ++ l) -> strchr (a ++ [DQ] ++ l) DQ = Some (length a).
Proof. intros Ha Hn. unfold strchr. rewrite no_nul_c_string by done. by apply memchr_first. Qed.

Lemma copy_result_fits sz a l : (length a < sz)%nat -> copy_result sz (length a) (a ++ l) = a.
Proof.
  intros H. unfold copy_result. destruct (sz <=? length a)%nat eqn:E; [apply Nat.leb_le in E; lia|].
  apply take_app_length.
Qed.

Lemma extract_string sz a l :
  lacks DQ a -> lacks NUL (a ++ [DQ] ++ l) -> (length a < sz)%nat ->
  extract_result sz (skip_blank ([DQ] ++ a ++ [DQ] ++ l)) = a.
Proof.
  intros Ha Hn Hl. change (skip_blank ([DQ] ++ a ++ [DQ] ++ l)) with ([DQ] ++ a ++ [DQ] ++ l).
  unfold extract_result. change (tl ([DQ] ++ a ++ [DQ] ++ l)) with (a ++ [DQ] ++ l).
  change (eqc (deref ([DQ] ++ a ++ [DQ] ++ l)) DQ) with true. rewrite strchr_quote by done.
  by apply copy_result_fits.
Qed.

Lemma extract_message sz head x a l :
  after_key "message" head = Some ([DQ] ++ (x :: a) ++ [DQ] ++ l) ->
  lacks NUL head -> lacks NUL ((x :: a) ++ [DQ] ++ l) -> lacks DQ (x :: a) -> x <> SP ->
  (length (x :: a) < sz)%nat -> extract_error sz head = x :: a.
Proof.
  intros Hk Hn Hn2 Hq Hx Hl. apply after_strstr in Hk as (i & Hi & Hd); [|done].
  unfold extract_error. rewrite Hi. change 10%nat with (length (quoted_key "message")). rewrite Hd.
  pose proof Hq as [Hxq _]%lacks_cons. apply eqc_neq in Hx, Hxq.
  assert (drop_while (fun c => eqc c SP || eqc c DQ) ([DQ] ++ (x :: a) ++ [DQ] ++ l) = (x :: a) ++ [DQ] ++ l) as ->
    by (simpl; by rewrite Hx, Hxq).
  rewrite strchr_quote by done. by apply copy_result_fits.
Qed.

(** C26: The node's answers are understood: the answer to an accepted transaction yields RPC_OK
    and exactly its txid; the answer to a refused one yields RPC_ERR_NODE and exactly the
    node's message, provided the message is not empty, holds no quote and does not start with
    a blank; each as long as the result buffer holds it. *)
Theorem node_answers_understood (txid message : chars) (x : ascii) (error_code id : Z) (sz : nat) :
  is_all_hex txid = true -> (length txid < sz)%nat ->
  lacks DQ (x :: message) -> lacks NUL (x :: message) -> x <> SP -> (length (x :: message) < sz)%nat ->
  parse_jsonrpc_response (accepted_answer txid id) sz = (RPC_OK, txid, false) /\
  parse_jsonrpc_response (refused_answer error_code (x :: message) id) sz = (RPC_ERR_NODE, x :: message, true).
Proof.
  intros Hx Ht Hq Hn Hsp Hm. assert (lacks DQ txid) by by apply hex_lacks.
  assert (lacks NUL txid) by by apply hex_lacks. split; unfold parse_jsonrpc_response.
  - assert (lacks NUL (accepted_answer txid id)) as Hnul by (unfold accepted_answer; lacking).
    rewrite no_nul_c_string by done.
    destruct (after_strstr _ _ _ Hnul (accepted_error txid id Hx)) as (i & -> & Hi).
    destruct (after_strstr _ _ _ Hnul (accepted_result txid id)) as (j & -> & Hj).
    change 9%nat with (length (quoted_key "result")). change 8%nat with (length (quoted_key "error")).
    rewrite Hi, Hj. rewrite extract_string; [done|done|lacking|done].
  - set (m := x :: message) in *.
    assert (lacks NUL (refused_answer error_code m id)) as Hnul by (unfold refused_answer; lacking).
    rewrite no_nul_c_string by done.
    destruct (after_strstr _ _ _ Hnul (refused_error error_code m id)) as (i & -> & Hi).
    change 8%nat with (length (quoted_key "error")). rewrite Hi.
    match goal with |- context [extract_error _ (skip_blank ?l)] => change (skip_blank l) with l end.
    rewrite (extract_message sz _ x message (str "}," ++ quoted_key "id" ++ print_dec id ++ ["}"%char]));
      [reflexivity| |lacking|lacking|assumption..].
    rewrite after_unquoted by lacking. rewrite after_quoted; [|reflexivity..|discriminate|reflexivity].
    rewrite !after_unquoted by lacking.
    apply after_hit.
Qed.

(** ** Examples *)

Definition cookie_config : RPCConfig :=
  mkRPCConfig 1 (str "127.0.0.1") 18443 [] [] [] (str "/data") 30 [].

Definition cookie_fs (path : chars) : option chars :=
  if bool_decide (path = str "/data/regtest/.cookie") then Some (str "__cookie__:ab" ++ [LF]) else None.

Lemma credentials_reach_node_witness :
  exists client encoded,
    rpc_init cookie_fs cookie_config CHAIN_REGTEST = Some (client, RPC_OK) /\ client_wf client /\
    auth_header client = str "Basic " ++ encoded /\ base64_decode encoded = str "__cookie__:ab" /\ no_cr encoded.
Proof.
  apply (credentials_reach_node cookie_fs cookie_config CHAIN_REGTEST (str "__cookie__:ab")).
  - unfold rpc_wf, int_ok, fits, INT_MAX. simpl. split_and!; lia.
  - simpl. lia.
  - apply (by_cookie _ _ _ (str "/data/regtest/.cookie") (str "__cookie__:ab" ++ [LF])); [reflexivity..| |simpl; lia].
    split; [done|]. split; [reflexivity|]. exists [LF], []. by split; [|left].
Defined.

Definition sample_client : RPCClient :=
  mkRPCClient (str "127.0.0.1") 18443 (str "Basic dTpw") 30 (str "w") CHAIN_REGTEST 0 0 0 [] 0 [] 0.

Lemma node_request_framed_witness :
  exists body msg k,
    build_jsonrpc_request true 0 (str "sendrawtransaction")
      (snprintf (length (str "00ff") + 8) (json_array1 (str "00ff"))) = (1, Some body) /\
    rpc_build_http_request true sample_client body = Some msg /\
    memmem msg (CRLF ++ CRLF) = Some k /\
    take (k + 2) msg = http_lines (header_lines sample_client (zlen body)) /\
    drop (k + 4) msg = send_call 1 (str "00ff") /\ body = send_call 1 (str "00ff").
Proof.
  apply (node_request_framed sample_client 0 (str "00ff")); [|reflexivity..| |].
  - unfold client_wf, fits, INT_MAX. simpl. split_and!; lia.
  - unfold ULONG_MAX. lia.
  - unfold zlen. simpl. lia.
Defined.

Lemma node_answers_understood_witness :
  parse_jsonrpc_response (accepted_answer (str "abcd") 1) 4096 = (RPC_OK, str "abcd", false) /\
  parse_jsonrpc_response (refused_answer (-26) (str "min relay fee not met") 1) 4096
  = (RPC_ERR_NODE, str "min relay fee not met", true).
Proof.
  apply (node_answers_understood (str "abcd") (str "in relay fee not met") "m"%char (-26) 1 4096);
    reflexivity || discriminate || (apply Nat.ltb_lt; reflexivity).
Defined.
