(* ===== verification/RpcAsync.v ===== *)
(** * Asynchronous requests are answered once

    The invariant of the requests in flight ([Rpc.async_step]): every
    callback registered is waiting, was called or was withdrawn, exactly
    once, and no response overruns its buffer. *)
From Stdlib Require Import ZArith Lia Ascii String.
From stdpp Require Import base list numbers strings relations.
From S2P Require Import Prelude CLib Network Config Rpc.

#[local] Open Scope Z_scope.

(** ** One request *)

(** The stored bytes, their count and the capacity agree; what libevent still
    holds is there only because the limit was reached; there is a
    bufferevent, so an event or its time-out will come. *)
Record request_ok (r : RPCRequest) : Prop := {
  ok_len : response_len r = zlen (default [] (response_buf r));
  ok_room : response_buf r <> None -> response_len r + 1 <= response_cap r;
  ok_cap : response_cap r = 0 \/ RPC_ASYNC_INITIAL_BUF <= response_cap r <= RPC_MAX_RESPONSE_LEN;
  ok_max : response_len r < RPC_MAX_RESPONSE_LEN;
  ok_bev : exists b, bev r = Some b /\
             (bev_input b = [] \/ response_len r = RPC_MAX_RESPONSE_LEN - 1)
}.

Lemma grow_cap_spec fuel cap needed :
  0 < cap -> cap <= 2 ^ 63 -> needed <= 2 ^ 63 -> needed <= cap * 2 ^ Z.of_nat fuel ->
  needed <= grow_cap fuel cap needed /\ cap <= grow_cap fuel cap needed.
Proof.
  revert cap. induction fuel as [|fuel IH]; intros cap H0 Hc Hn Hf; cbn [grow_cap]; [simpl in Hf; lia|].
  destruct (cap <? needed) eqn:E; b2p; [|lia]. unfold u64. rewrite wrap_small by lia.
  rewrite Nat2Z.inj_succ, Z.pow_succ_r in Hf by lia.
  destruct (decide (cap * 2 <= 2 ^ 63)); [destruct (IH (cap * 2)); lia|].
  destruct fuel as [|fuel]; cbn [grow_cap]; [simpl in *; lia|].
  destruct (cap * 2 <? needed) eqn:E2; b2p; lia.
Qed.

Lemma make_room_spec ok cap needed c :
  (cap = 0 \/ RPC_ASYNC_INITIAL_BUF <= cap <= RPC_MAX_RESPONSE_LEN) -> 0 < needed <= 2 ^ 63 ->
  make_room ok cap needed = Some c ->
  RPC_ASYNC_INITIAL_BUF <= c <= RPC_MAX_RESPONSE_LEN /\ Z.min needed RPC_MAX_RESPONSE_LEN <= c.
Proof.
  unfold make_room, RPC_ASYNC_INITIAL_BUF, RPC_MAX_RESPONSE_LEN. intros Hc Hn H.
  destruct (needed >? cap) eqn:E; b2p; [|simplify_eq; lia].
  destruct ok; [|done]. apply (inj Some) in H. subst c. destruct (cap =? 0) eqn:E0; b2p.
  - destruct (grow_cap_spec 64 4096 needed); lia.
  - assert (u64 (cap * 2) = cap * 2) as -> by (apply wrap_small; lia).
    destruct (grow_cap_spec 64 (cap * 2) needed); lia.
Qed.

(** ** The list of requests *)

Definition ids (mgr : RPCManager) : list positive := req_id <$> active_requests mgr.

Lemma set_client_active mgr chain c : active_requests (set_client mgr chain c) = active_requests mgr.
Proof. by destruct chain. Qed.

Lemma others_differ l1 req l2 :
  NoDup (req_id <$> l1 ++ req :: l2) -> forall r, r ∈ l1 ++ l2 -> req_id r <> req_id req.
Proof.
  rewrite fmap_app, fmap_cons. intros H r Hr Heq. apply NoDup_app in H as (_ & H1 & H2).
  apply NoDup_cons in H2 as [H2 _]. apply elem_of_app in Hr as [Hr | Hr].
  - apply (H1 (req_id r)); [by apply list_elem_of_fmap_2|]. rewrite Heq. left.
  - apply H2. rewrite <- Heq. by apply list_elem_of_fmap_2.
Qed.

Lemma filter_keeps_all (P : RPCRequest -> Prop) `{forall r, Decision (P r)} (l : list RPCRequest) :
  (forall r, r ∈ l -> P r) -> filter P l = l.
Proof.
  induction l as [|x l IH]; [done|]. intros Hl. rewrite filter_cons_True by (apply Hl; left).
  f_equal. apply IH. intros r Hr. apply Hl. by right.
Qed.

Lemma remove_split l1 req l2 :
  NoDup (req_id <$> l1 ++ req :: l2) ->
  filter (fun r => req_id r <> req_id req) (l1 ++ req :: l2) = l1 ++ l2.
Proof.
  intros H. pose proof (others_differ _ _ _ H) as Ho. rewrite filter_app, filter_cons_False by (intros []; done).
  rewrite !filter_keeps_all; [done|..]; intros r Hr; apply Ho, elem_of_app; auto.
Qed.

Lemma store_split l1 req l2 req' :
  NoDup (req_id <$> l1 ++ req :: l2) -> req_id req' = req_id req ->
  map (fun r => if bool_decide (req_id r = req_id req') then req' else r) (l1 ++ req :: l2)
  = l1 ++ req' :: l2.
Proof.
  intros H Hid. pose proof (others_differ _ _ _ H) as Ho. rewrite map_app. cbn [map].
  rewrite (bool_decide_true (req_id req = req_id req')) by done.
  assert (forall l, (forall r, r ∈ l -> r ∈ l1 ++ l2) ->
    map (fun r => if bool_decide (req_id r = req_id req') then req' else r) l = l) as Hm.
  { intros l Hl. induction l as [|x l IH]; [done|]. cbn [map]. rewrite IH by (intros; apply Hl; by right).
    rewrite bool_decide_false; [done|]. rewrite Hid. apply Ho, Hl. left. }
  rewrite !Hm; [done|..]; intros r Hr; apply elem_of_app; auto.
Qed.

(** ** What a handler does to its request *)

(** It leaves the request in place with its callback, or removes it and
    makes exactly the call that was registered. *)
Definition handled (mgr : RPCManager) (req : RPCRequest) (o : Outcome) : Prop :=
  match o_req o with
  | Some r => active_requests (o_mgr o) = active_requests mgr /\ o_calls o = [] /\
              req_id r = req_id req /\ callback r = callback req /\ request_ok r
  | None => active_requests (o_mgr o) = filter (fun r => req_id r <> req_id req) (active_requests mgr) /\
            (call_data <$> o_calls o) = option_list (callback req)
  end.

Lemma complete_handled mgr mgr' req req' status result :
  active_requests mgr' = active_requests mgr -> req_id req' = req_id req -> callback req' = callback req ->
  handled mgr req (rpc_request_complete mgr' req' status result).
Proof.
  intros Ha Hid Hc. unfold handled, rpc_request_complete, rpc_request_list_remove. cbn. rewrite Ha, Hid, Hc.
  split; [done|]. by destruct (callback req).
Qed.

Lemma auth_failed_handled mgr mgr' req req' :
  active_requests mgr' = active_requests mgr -> req_id req' = req_id req -> callback req' = callback req ->
  handled mgr req (auth_failed mgr' req').
Proof. intros. apply complete_handled; [|done..]. unfold count_error. by rewrite set_client_active. Qed.

(** Connecting keeps the identity of the request; on success its buffer is
    as before and its bufferevent is new. *)
Lemma connect_spec e mgr req req' ok :
  rpc_async_connect e mgr req = (req', ok) ->
  req_id req' = req_id req /\ callback req' = callback req /\
  (ok = true -> response_buf req' = response_buf req /\ response_len req' = response_len req /\
                response_cap req' = response_cap req /\ bev req' = Some (mkBev [] [] false)).
Proof.
  unfold rpc_async_connect. intros H. repeat case_match; simplify_eq; done.
Qed.

Lemma fresh_ok req :
  response_buf req = None -> response_len req = 0 -> response_cap req = 0 ->
  bev req = Some (mkBev [] [] false) -> request_ok req.
Proof.
  intros Hb Hl Hc Hv. split; rewrite ?Hb, ?Hl, ?Hc; try done; [by left|]. eexists. split; [done|]. by left.
Qed.

Lemma retry_handled fs e mgr req o :
  rpc_async_auth_retry fs e mgr req = Some o -> handled mgr req o.
Proof.
  unfold rpc_async_auth_retry. intros H. destruct (cookie_path _); [simplify_eq; by apply auth_failed_handled|].
  destruct (rpc_refresh_cookie _ _) as [[client ret]|]; [|done]. cbn [mbind option_bind] in H.
  destruct (ret =? 0); [|simplify_eq; apply auth_failed_handled; [apply set_client_active|done..]].
  destruct (rpc_async_connect _ _ _) as [req' ok] eqn:Ec. apply connect_spec in Ec as (Hid & Hcb & Hok).
  destruct ok; simplify_eq; [|apply auth_failed_handled; [apply set_client_active|done..]].
  destruct (Hok eq_refl) as (Hb & Hl & Hc & Hv). unfold handled. cbn.
  split_and!; [apply set_client_active|done..|]. by apply fresh_ok.
Qed.

Lemma response_handled fs e mgr req o :
  rpc_async_process_response fs e mgr req = Some o -> handled mgr req o.
Proof.
  unfold rpc_async_process_response. intros H.
  destruct (response_buf req) as [response|]; [|simplify_eq; by apply complete_handled].
  destruct (response_len req =? 0); [simplify_eq; by apply complete_handled|].
  destruct (_ && _); [by eapply retry_handled|]. destruct (_ || _); [simplify_eq; by apply auth_failed_handled|].
  destruct (response_body response) as [body|]; [|simplify_eq; by apply complete_handled].
  destruct (parse_jsonrpc_response body 4096) as [[ret result] is_error].
  destruct is_error; simplify_eq; (apply complete_handled; [|done..]);
    unfold count_error; by rewrite !set_client_active.
Qed.

Lemma event_handled fs malloc_ok e mgr req events o :
  request_ok req -> rpc_async_event_cb fs malloc_ok e mgr req events = Some o -> handled mgr req o.
Proof.
  intros Hok. unfold rpc_async_event_cb. intros H.
  destruct (BEV_EVENT_CONNECTED events).
  { destruct (rpc_build_http_request _ _ _) as [http_req|]; simplify_eq; [|by apply complete_handled].
    unfold handled. cbn. split_and!; [done..|]. destruct Hok as [H1 H2 H3 H4 (b & Hb & Hi)].
    split; cbn; try done. rewrite Hb. eexists. by split. }
  destruct (BEV_EVENT_EOF events); [by eapply response_handled|].
  destruct (BEV_EVENT_TIMEOUT events); [simplify_eq; by apply complete_handled|].
  destruct (BEV_EVENT_ERROR events); simplify_eq; [by apply complete_handled|done].
Qed.

(** Storing [got] of the bytes [input] that libevent holds. *)
Lemma stored_ok req b input avail cap :
  request_ok req -> 0 < avail <= zlen input -> response_len req + avail + 1 <= cap ->
  RPC_ASYNC_INITIAL_BUF <= cap <= RPC_MAX_RESPONSE_LEN ->
  avail = zlen input \/ response_len req + avail = RPC_MAX_RESPONSE_LEN - 1 ->
  request_ok (req
    <| bev := Some (mkBev (drop (Z.to_nat avail) input) (bev_output b) (bev_read b)) |>
    <| response_buf := Some (default [] (response_buf req) ++ take (Z.to_nat avail) input) |>
    <| response_len ::= fun n => n + avail |>
    <| response_cap := cap |>).
Proof.
  intros [H1 H2 H3 H4 _] Ha Hc Hcap Hall. split; cbn.
  - rewrite zlen_app, zlen_take, <- H1. lia.
  - lia.
  - by right.
  - lia.
  - eexists. split; [done|]. cbn. destruct Hall as [-> | Hall]; [left|by right].
    unfold zlen. rewrite Nat2Z.id. by rewrite drop_all.
Qed.

(** A read appends to the buffer what fits below the limit. *)
Lemma read_handled realloc_ok mgr req data :
  request_ok req -> zlen data < 2 ^ 62 ->
  handled mgr req (rpc_async_read_cb realloc_ok mgr (receive req data)).
Proof.
  intros Hok Hd. pose proof Hok as [H1 H2 H3 H4 (b & Hb & Hi)].
  unfold rpc_async_read_cb, receive. cbn. rewrite Hb. cbn. set (input := bev_input b ++ data).
  pose proof (zlen_nonneg input). pose proof (zlen_nonneg (default [] (response_buf req))) as Hl0. rewrite <- H1 in Hl0.
  assert (input = [] \/ response_len req = RPC_MAX_RESPONSE_LEN - 1 ->
    handled mgr req {| o_mgr := mgr; o_calls := []; o_req :=
      Some (req <| bev := Some (mkBev input (bev_output b) (bev_read b)) |>) |}) as Hkept.
  { intros Hk. unfold handled. cbn. split_and!; [done..|]. split; cbn; try done. eauto. }
  destruct (zlen input =? 0) eqn:E0; b2p; [apply Hkept; left; by destruct input|].
  destruct (_ =? 0) eqn:Ea; b2p; [apply Hkept; right; destruct (_ >? _) eqn:E in Ea; b2p; lia|].
  destruct (make_room _ _ _) as [cap|] eqn:Er; [|by apply complete_handled].
  assert (zlen input < 2 ^ 62) as Hin.
  { unfold input in *. rewrite zlen_app in *. destruct Hi as [-> | Hi]; [done|].
    destruct (_ >? _) eqn:E in Ea; b2p; lia. }
  unfold RPC_MAX_RESPONSE_LEN in *. apply make_room_spec in Er as [Hc1 Hc2]; [|done|lia].
  unfold handled. cbn. split_and!; [done..|]. apply (stored_ok req b input); [done|..];
    destruct (_ >? _) eqn:E; b2p; unfold RPC_MAX_RESPONSE_LEN in *; lia.
Qed.

(** ** All requests *)

Record async_inv (s : AsyncState) : Prop := {
  inv_ids : NoDup (ids (manager s));
  inv_once : started s ≡ₚ omap callback (active_requests (manager s)) ++
                          (call_data <$> calls s) ++ cancelled s;
  inv_ok : Forall request_ok (active_requests (manager s))
}.

Lemma omap_split l1 req l2 :
  omap callback (l1 ++ req :: l2) ≡ₚ option_list (callback req) ++ omap callback (l1 ++ l2).
Proof.
  rewrite !omap_app. cbn. destruct (callback req); [|done]. cbn. by rewrite <- Permutation_middle.
Qed.

Lemma settle_inv s req o :
  async_inv s -> req ∈ active_requests (manager s) -> handled (manager s) req o -> async_inv (settle s o).
Proof.
  intros [Hn Ho Hok] Hin Hh. apply list_elem_of_split in Hin as (l1 & l2 & Hl).
  unfold ids in Hn. rewrite Hl in Hn, Ho, Hok. unfold handled, settle, store_request in *.
  destruct (o_req o) as [r|].
  - destruct Hh as (Ha & Hc & Hid & Hcb & Hr).
    assert (active_requests ((o_mgr o) <| active_requests ::=
      map (fun x => if bool_decide (req_id x = req_id r) then r else x) |>) = l1 ++ r :: l2) as Hs.
    { cbn. rewrite Ha, Hl. by apply store_split with (req := req). }
    split; unfold ids; cbn [manager started calls cancelled]; rewrite Hs.
    + rewrite fmap_app, fmap_cons in *. by rewrite Hid.
    + rewrite Hc, app_nil_r, Ho, !omap_split. by rewrite Hcb.
    + apply Forall_app in Hok as [? [? ?]%Forall_cons]. apply Forall_app. auto.
  - destruct Hh as (Ha & Hc). rewrite Hl, remove_split in Ha by done.
    split; unfold ids; cbn [manager started calls cancelled]; rewrite Ha.
    + rewrite fmap_app, fmap_cons in Hn. rewrite fmap_app. rewrite <- Permutation_middle in Hn.
      by apply NoDup_cons in Hn as [_ ?].
    + rewrite Ho, omap_split, fmap_app, Hc. solve_Permutation.
    + apply Forall_app in Hok as [? [? ?]%Forall_cons]. apply Forall_app. auto.
Qed.

Lemma fire_data cb status result : (call_data <$> fire cb status result) = option_list cb.
Proof. by destruct cb. Qed.

(** A broadcast either puts one request in flight or has called back. *)
Lemma broadcast_spec e id n mgr chain hex_tx cb c mgr' made :
  id ∉ ids mgr -> rpc_manager_broadcast_async e id n mgr chain hex_tx cb = (c, mgr', made) ->
  (active_requests mgr' = active_requests mgr /\ (call_data <$> made) = option_list cb) \/
  (exists req, active_requests mgr' = req :: active_requests mgr /\ made = [] /\
     req_id req = id /\ callback req = cb /\ request_ok req).
Proof.
  intros Hid H. unfold rpc_manager_broadcast_async in H.
  destruct (negb (base mgr)); [simplify_eq; left; auto using fire_data|].
  destruct (rpc_manager_get_client mgr chain) as [client|]; [|simplify_eq; left; auto using fire_data].
  destruct (negb (be_params e)); [simplify_eq; left; auto using fire_data|].
  destruct (build_jsonrpc_request _ _ _ _) as [n' [body|]]; [|simplify_eq; left; auto using fire_data].
  destruct (negb (be_calloc e)); [simplify_eq; left; auto using fire_data|].
  destruct (rpc_async_connect _ _ _) as [req ok] eqn:Ec. apply connect_spec in Ec as (Hi & Hc & Hok).
  cbn in Hi, Hc. destruct ok; simplify_eq.
  - right. exists req. destruct (Hok eq_refl) as (Hb & Hl & Hcap & Hv). split_and!; try done. by apply fresh_ok.
  - left. split; [|apply fire_data]. cbn. destruct (decide _) as [Hd|Hd]; [done|].
    apply filter_keeps_all. intros r Hr Heq. apply Hid. rewrite <- Heq. by apply list_elem_of_fmap_2.
Qed.

Lemma cancel_all_empties mgr : active_requests (rpc_manager_cancel_all mgr) = [].
Proof.
  unfold rpc_manager_cancel_all.
  assert (forall l m x, x ∈ active_requests (foldl rpc_request_cancel m l) ->
    x ∈ active_requests m /\ x ∉ l) as H.
  { induction l as [|y l IH]; intros m x Hx; [split; [done|]; by intros ?%elem_of_nil|].
    destruct (IH _ _ Hx) as [Hin Hl]. cbn in Hin. apply list_elem_of_filter in Hin as [Hne Hin].
    split; [done|]. intros [-> | ?]%elem_of_cons; done. }
  destruct (active_requests (foldl _ _ _)) as [|x l] eqn:E; [done|].
  destruct (H (active_requests mgr) mgr x) as [H1 H2]; [rewrite E; left|done].
Qed.

Lemma step_inv fs s s' : async_step fs s s' -> async_inv s -> async_inv s'.
Proof.
  intros Hstep Hinv. pose proof Hinv as [Hn Ho Hok].
  destruct Hstep as [e id chain hex_tx cb c mgr made Hid Hb|malloc_ok e req events o Hin _ He
                    |realloc_ok req data Hin _ Hd|req Hin _|req Hin|].
  - destruct (broadcast_spec _ _ _ _ _ _ _ _ _ _ Hid Hb) as [[Ha Hm] | (req & Ha & -> & Hri & Hc & Hr)];
      split; unfold ids; cbn [manager started calls cancelled]; rewrite ?Ha; try done.
    + rewrite fmap_app, Hm, Ho. solve_Permutation.
    + rewrite fmap_cons. apply NoDup_cons. by rewrite Hri.
    + cbn. rewrite Hc, app_nil_r, Ho. destruct cb; cbn; [|by rewrite app_nil_r]. solve_Permutation.
    + by constructor.
  - eapply settle_inv; [done..|]. eapply event_handled; [|done]. rewrite Forall_forall in Hok. auto.
  - eapply settle_inv; [done..|]. apply read_handled; [|done]. rewrite Forall_forall in Hok. auto.
  - eapply settle_inv; [done..|]. by apply complete_handled.
  - assert (async_inv (settle s {| o_mgr := rpc_request_cancel (manager s) req; o_req := None;
      o_calls := fire (callback req) 0 [] |})) as [Hn' Ho' Hok'].
    { eapply settle_inv; [done..|]. split; [done|]. apply fire_data. }
    split; [done| |done]. cbn in *. rewrite Ho', fmap_app, fire_data. solve_Permutation.
  - split; unfold ids; cbn [manager started calls cancelled]; rewrite cancel_all_empties; [constructor| |done].
    cbn. rewrite Ho. solve_Permutation.
Qed.

Lemma async_reachable fs mgr n s :
  active_requests mgr = [] -> rtc (async_step fs) (mkAsync mgr n [] [] []) s -> async_inv s.
Proof.
  intros Ha Hr. assert (async_inv (mkAsync mgr n [] [] [])) as H0
    by (split; unfold ids; cbn; rewrite Ha; by constructor).
  revert H0. induction Hr; eauto using step_inv.
Qed.

(** C7: Every asynchronous request is answered exactly once: in any run of broadcasts,
    connection events, reads, time-outs and cancellations, with any allocation or
    connection failing and whatever the node sends, the callbacks registered so far are,
    each exactly once, the callbacks of requests in flight, the calls made and the callbacks
    withdrawn by a cancellation; and every request in flight is distinct and has a
    bufferevent through which its answer or time-out will come. *)
Theorem async_answered_exactly_once (fs : chars -> option chars) (mgr : RPCManager) (n : Z)
    (s : AsyncState) :
  active_requests mgr = [] -> rtc (async_step fs) (mkAsync mgr n [] [] []) s ->
  started s ≡ₚ omap callback (active_requests (manager s)) ++ (call_data <$> calls s) ++ cancelled s /\
  NoDup (req_id <$> active_requests (manager s)) /\
  Forall (fun r => bev r <> None) (active_requests (manager s)).
Proof.
  intros Ha Hr. destruct (async_reachable _ _ _ _ Ha Hr) as [Hn Ho Hok]. split_and!; [done..|].
  eapply Forall_impl; [exact Hok|]. intros r [_ _ _ _ (b & -> & _)]. done.
Qed.

(** No response overruns its buffer: in every reachable state the bytes stored for a
    request are [response_len] many, they and their NUL are within the capacity that was
    allocated, and the capacity is at most 4 MB however much the node sends. *)
Theorem response_within_buffer (fs : chars -> option chars) (mgr : RPCManager) (n : Z)
    (s : AsyncState) (r : RPCRequest) (bytes : chars) :
  active_requests mgr = [] -> rtc (async_step fs) (mkAsync mgr n [] [] []) s ->
  r ∈ active_requests (manager s) -> response_buf r = Some bytes ->
  response_len r = zlen bytes /\ zlen bytes + 1 <= response_cap r <= RPC_MAX_RESPONSE_LEN.
Proof.
  intros Ha Hr Hin Hb. destruct (async_reachable _ _ _ _ Ha Hr) as [_ _ Hok].
  rewrite Forall_forall in Hok. destruct (Hok r Hin) as [H1 H2 H3 H4 _].
  rewrite Hb in H1. cbn in H1. specialize (H2 ltac:(by rewrite Hb)). split; [done|].
  pose proof (zlen_nonneg bytes). lia.
Qed.

(** ** A run *)

Definition sample_fs : chars -> option chars := fun _ => None.
Definition sample_rpc_config : RPCConfig :=
  mkRPCConfig 1 (str "127.0.0.1") 18443 (str "user") (str "pass") [] [] 30 [].
Definition sample_manager : RPCManager :=
  default zero_manager (rpc_manager_init_async sample_fs (fun _ _ => Some (str "sockaddr"))
    None None None (Some sample_rpc_config)).
Definition sample_connect : ConnectEnv := mkConnectEnv true true true.

Definition sample_started : AsyncState :=
  let '(c, mgr, made) := rpc_manager_broadcast_async (mkBroadcastEnv true true true sample_connect) 1
    0 sample_manager CHAIN_REGTEST (str "00ff") (Some 7) in
  mkAsync mgr c [7] made [].

(** The first request in flight. *)
Definition first_request (s : AsyncState) : RPCRequest :=
  match active_requests (manager s) with
  | r :: _ => r
  | [] => mkRequest 1 CHAIN_MAINNET None false [] None 0 0 None false
  end.

Definition after_event (s : AsyncState) (events : BevEvents) : AsyncState :=
  match rpc_async_event_cb sample_fs true sample_connect (manager s) (first_request s) events with
  | Some o => settle s o
  | None => s
  end.

Lemma after_event_step s events :
  active_requests (manager s) <> [] -> bev (first_request s) <> None ->
  rpc_async_event_cb sample_fs true sample_connect (manager s) (first_request s) events <> None ->
  async_step sample_fs s (after_event s events).
Proof.
  intros Ha Hb Ho. unfold after_event.
  destruct (rpc_async_event_cb _ _ _ _ _ _) as [o|] eqn:E; [|done].
  eapply step_event; [|done|exact E]. unfold first_request. destruct (active_requests (manager s)); [done|left].
Qed.

Definition sample_response : chars :=
  str "HTTP/1.1 200 OK" ++ CRLF ++ CRLF ++
  ["{"%char] ++ quoted_key "result" ++ [DQ] ++ str "abcd" ++ [DQ; ","%char] ++ quoted_key "error" ++ str "null}".

Definition sample_connected : AsyncState := after_event sample_started (mkBevEvents true false false false).
Definition sample_received : AsyncState :=
  settle sample_connected
    (rpc_async_read_cb true (manager sample_connected) (receive (first_request sample_connected) sample_response)).
Definition sample_answered : AsyncState := after_event sample_received (mkBevEvents false true false false).

Lemma sample_async_received :
  rtc (async_step sample_fs) (mkAsync sample_manager 0 [] [] []) sample_received.
Proof.
  apply (rtc_l _ _ sample_started); [|apply (rtc_l _ _ sample_connected); [|apply rtc_once]].
  - assert (sample_started = mkAsync (manager sample_started) (counter_ sample_started)
      ([] ++ option_list (Some 7)) ([] ++ calls sample_started) []) as -> by by vm_compute.
    apply (step_broadcast sample_fs (mkAsync sample_manager 0 [] [] [])
      (mkBroadcastEnv true true true sample_connect) 1 CHAIN_REGTEST (str "00ff") (Some 7)); [|by vm_compute].
    vm_compute. by intros ?%elem_of_nil.
  - by apply (after_event_step sample_started (mkBevEvents true false false false)); vm_compute.
  - apply (step_read sample_fs sample_connected true (first_request sample_connected) sample_response);
      [vm_compute; left|by vm_compute|by vm_compute].
Qed.

Lemma sample_async_answered :
  rtc (async_step sample_fs) (mkAsync sample_manager 0 [] [] []) sample_answered.
Proof.
  eapply rtc_r; [exact sample_async_received|].
  by apply (after_event_step sample_received (mkBevEvents false true false false)); vm_compute.
Qed.

(** A broadcast that the node accepts: one call, with the txid. *)
Lemma async_answered_exactly_once_witness :
  calls sample_answered = [mkCall RPC_OK (str "abcd") 7] /\
  started sample_answered = [7] /\
  started sample_answered ≡ₚ omap callback (active_requests (manager sample_answered)) ++
    (call_data <$> calls sample_answered) ++ cancelled sample_answered.
Proof.
  split; [by vm_compute|]. split; [by vm_compute|].
  exact (proj1 (async_answered_exactly_once sample_fs sample_manager 0 sample_answered
    ltac:(by vm_compute) sample_async_answered)).
Defined.

(** The same run before the end of the response. *)
Lemma response_within_buffer_witness :
  let r := first_request sample_received in
  response_len r = zlen sample_response /\
  zlen sample_response + 1 <= response_cap r <= RPC_MAX_RESPONSE_LEN.
Proof.
  exact (response_within_buffer sample_fs sample_manager 0 sample_received (first_request sample_received)
    sample_response ltac:(by vm_compute) sample_async_received ltac:(vm_compute; left) ltac:(by vm_compute)).
Defined.
