(* ===== verification/Broadcast.v ===== *)
(** * What happens to a transaction

    The worker has a client of the Bitcoin node ([Rpc]); this file follows
    it through the event loop of [Worker] and looks at what a request with a
    transaction does with it. *)
From Stdlib Require Import ZArith QArith Lia Ascii String.
From stdpp Require Import base list numbers strings relations.
From S2P Require Import Prelude CLib Addr Hex Router Network Config Slots IpAcl RateLimiter Rpc Tls Sockets State Endpoints Metrics Http2 StaticFiles Connection Balance Worker WorkerSpec Http1.

#[local] Open Scope Z_scope.

(** A manager that has not been asked for anything. *)
Definition unused (mgr : RPCManager) : Prop :=
  active_requests mgr = [] /\ total_broadcasts mgr = 0 /\ successful_broadcasts mgr = 0 /\
  failed_broadcasts mgr = 0.

Lemma set_client_unused mgr chain c : unused mgr -> unused (set_client mgr chain c).
Proof. by destruct chain. Qed.

Lemma init_chain_unused fs config chain mgr mgr' :
  unused mgr -> manager_init_chain fs config chain mgr = Some mgr' -> unused mgr'.
Proof.
  intros Hu. unfold manager_init_chain. destruct config as [c|]; [|by intros [= <-]].
  destruct (_ =? 0); [by intros [= <-]|]. destruct (rpc_init fs c chain) as [[client rc]|]; [|done].
  intros [= <-]. by apply set_client_unused.
Qed.

Lemma resolve_unused resolve chains mgr : unused mgr -> unused (foldl (resolve_chain resolve) mgr chains).
Proof.
  revert mgr. induction chains as [|chain chains IH]; intros mgr Hu; [done|]. cbn [foldl]. apply IH.
  unfold resolve_chain. destruct (eqc _ _); [done|]. by apply set_client_unused.
Qed.

Lemma init_async_unused fs resolve cm ct cs cr mgr :
  rpc_manager_init_async fs resolve cm ct cs cr = Some mgr -> unused mgr.
Proof.
  unfold rpc_manager_init_async, rpc_manager_init.
  destruct (manager_init_chain fs cm _ _) as [m1|] eqn:E1; [|done]. cbn [mbind option_bind].
  destruct (manager_init_chain fs ct _ _) as [m2|] eqn:E2; [|done]. cbn [mbind option_bind].
  destruct (manager_init_chain fs cs _ _) as [m3|] eqn:E3; [|done]. cbn [mbind option_bind].
  destruct (manager_init_chain fs cr _ _) as [m4|] eqn:E4; [|done]. intros Hs. apply (inj Some) in Hs as <-.
  apply (resolve_unused resolve [CHAIN_MAINNET; CHAIN_TESTNET; CHAIN_SIGNET; CHAIN_REGTEST]
    (m4 <| base := true |> <| active_requests := [] |>)). assert (unused zero_manager) as Hz by done.
  assert (unused m4) as [_ H4] by eauto 6 using init_chain_unused. done.
Qed.

Section Loop.
Context `{Inet} `{SslBuild}.

Lemma dispatch_rpc w ev : fresh_event w ev -> rpc (dispatch w ev) = rpc w.
Proof.
  intros Hf. pose proof (dispatch_tls_part w ev Hf) as Hp. unfold tls_part in Hp.
  destruct ev; try congruence. cbn [dispatch]. unfold signal_reload_cb. by repeat case_match.
Qed.

Lemma reachable_rpc w w' : rtc step w w' -> rpc w' = rpc w.
Proof. induction 1 as [|x y z [w0 ev Hf] _ IH]; [done|]. by rewrite IH, dispatch_rpc. Qed.

Lemma start_tls_rpc e cfg w w' : start_tls e cfg w = Some w' -> rpc w' = rpc w.
Proof. unfold start_tls. repeat case_match; intros; simplify_eq; done. Qed.

Lemma worker_main_unused e wid cfg w : worker_main e wid cfg = Started w -> unused (rpc w).
Proof.
  unfold worker_main. destruct (rate_limiter_init _ _ _) as [rl rc]. destruct (rc <? 0); [done|].
  destruct (ip_acl_context_init _ _) as [acl rc']. destruct (rc' <? 0); [done|]. cbv zeta.
  destruct (static_files_load _ _) as [files|]; [|done]. destruct (negb _); [done|].
  destruct (rpc_manager_init_async _ _ _ _ _ _) as [mgr|] eqn:Em; [|done].
  destruct (create_reuseport_socket _ _); [done|]. destruct (negb _); [done|].
  destruct (start_tls _ _ _) as [w1|] eqn:Es; [|done]. intros [= <-].
  apply start_tls_rpc in Es. cbn [rpc update eta eta_WorkerProcess setup_worker_signals]. rewrite Es.
  by eapply init_async_unused.
Qed.

(** C36: Transactions are never sent.  In every state that a worker reaches, its client of the
    node is exactly as it was at the start: no request is in flight and none was ever counted.
    Yet every path that the router takes for a transaction is answered with status 200 and the
    broadcast page, without the client being used.  The function that would send it,
    [rpc_manager_broadcast_async], has no caller. *)
Theorem broadcast_never_sent (e : StartEnv) (wid : Z) (cfg : Config) (w0 w : WorkerProcess)
    (r : RequestEnv) (c : Connection) (p : chars) :
  worker_main e wid cfg = Started w0 -> rtc step w0 w ->
  path c = Some p -> route_request p = ROUTE_BROADCAST ->
  rpc w = rpc w0 /\ unused (rpc w) /\
  exists w' c', process_request r w c = (w', c') /\ rpc w' = rpc w /\ response_status c' = 200 /\
    response_bytes c' = length_ (broadcast (static_files w)).
Proof.
  intros Hm Hr Hp Hb. pose proof (reachable_rpc _ _ Hr) as Hk. rewrite Hk.
  split; [done|]. split; [by eapply worker_main_unused|].
  unfold process_request. cbv zeta. change (path (c <| state := CONN_STATE_PROCESSING |>)) with (path c).
  rewrite Hp. change (default [] (Some p)) with p. rewrite Hb.
  eexists _, _. split; [reflexivity|]. by split_and!.
Qed.

End Loop.

(** A transaction of 200 hex digits. *)
Definition sample_tx : chars := str "/" ++ replicate 200 "a"%char.

Lemma broadcast_never_sent_witness :
  exists w0, @worker_main inet_quad openssl3 sample_start 0 default_values = Started w0 /\
    active_requests (rpc (run w0 sample_events)) = [] /\
    route_request sample_tx = ROUTE_BROADCAST.
Proof.
  destruct (@worker_main inet_quad openssl3 sample_start 0 default_values) as [w0| |] eqn:Hm;
    [|vm_compute in Hm; discriminate..].
  exists w0. split; [done|].
  assert (route_request sample_tx = ROUTE_BROADCAST) as Hb by (vm_compute; reflexivity). split; [|exact Hb].
  set (c := (snd (connection_init_common w0 1 SockOther 0)) <| path := Some sample_tx |>).
  assert (path c = Some sample_tx) as Hc by reflexivity.
  apply (@broadcast_never_sent inet_quad openssl3 sample_start 0 default_values w0 (run w0 sample_events)
    sample_request_env c sample_tx Hm (sample_reachable w0 Hm) Hc Hb).
Defined.
