(* ===== verification/Master.v ===== *)
(** * The master process ([src/master.c], [include/master.h])

    Start-up limits, forking, supervision, reload and shutdown.  The results
    of [fork], [waitpid], [getrlimit] and the clock are arguments; the
    children the kernel still holds for the master (running, or exited and
    not waited for) are a list of process ids. *)
From Stdlib Require Import ZArith Lia.
From stdpp Require Import base list numbers relations.
From S2P Require Import Prelude Network Config.

#[local] Open Scope Z_scope.

(** [worker_pids] are the entries below [num_workers]; [pids_alloc] is how
    many the array was allocated with.  The entries of [draining_pids] below
    [num_draining] are the list; [None] is the NULL pointer. *)
Record MasterProcess := mkMaster {
  m_config : Config;
  num_workers : nat;
  worker_pids : list Z;
  draining_pids : option (list Z);
  shutdown_requested : bool;
  reload_requested : bool;
  pids_alloc : nat
}.

#[export] Instance eta_MasterProcess : Eta MasterProcess := fun m =>
  mkMaster (m_config m) (num_workers m) (worker_pids m) (draining_pids m)
    (shutdown_requested m) (reload_requested m) (pids_alloc m).

(** ** Start-up *)

(** [getrlimit] before, whether [setrlimit] works, and the soft limit that
    the second [getrlimit] finds. *)
Record LimitEnv := mkLimitEnv {
  rlimit : option (Z * Z); setrlimit_ok : bool; rlimit_again : Z }.

(** [true] is the return value 0. *)
Definition check_fd_limits (e : LimitEnv) (num_workers slots_per_worker : Z) : bool :=
  match rlimit e with
  | None => true
  | Some (cur, max) =>
      let per_worker := u64 (u64 slots_per_worker + 15) in
      let required := u64 (u64 num_workers * per_worker + 50) in
      let minimum := u64 (u64 num_workers * 20 + 20) in
      let cur := if cur <? required then
                   let new_limit := if required <? max then required else max in
                   if setrlimit_ok e then new_limit else rlimit_again e
                 else cur in
      negb (cur <? minimum)
  end.

(** One worker per CPU when [max_connections] is not positive. *)
Definition worker_count (max_connections num_cpus : Z) : Z :=
  let n := if max_connections <=? 0 then num_cpus else max_connections in
  let n := if n <? 1 then 1 else n in
  if n >? 64 then 64 else n.

(** [config] is the result of [config_load].  The slots are added as [int]s;
    an overflow, which the language leaves undefined, wraps around. *)
Definition master_init (config : option Config) (num_cpus : Z) (e : LimitEnv) (calloc_ok : bool) :
    option MasterProcess :=
  config ← config;
  let n := worker_count (max_connections config) num_cpus in
  let total_slots := to_int (to_int (slots_normal_max config + slots_large_max config) + slots_huge_max config) in
  if negb (check_fd_limits e n total_slots) then None else
  if negb calloc_ok then None else
  Some (mkMaster config (Z.to_nat n) (replicate (Z.to_nat n) 0) None false false (Z.to_nat n)).

(** The parent's side of [fork]: [None] when it fails. *)
Definition fork_worker (fork : option Z) : Z :=
  match fork with Some pid => pid | None => -1 end.

(** [forks] are the results of the calls of [fork], one per worker; [None]
    when the loop stores outside the array. *)
Definition start_workers (m : MasterProcess) (forks : list (option Z)) : option MasterProcess :=
  if (pids_alloc m <? num_workers m)%nat then None else
  Some (m <| worker_pids := fork_worker <$> forks |>).

(** ** Supervision *)

(** The first index that holds [pid]. *)
Definition find_worker_by_pid (pids : list Z) (pid : Z) : option nat :=
  fst <$> list_find (fun p => p = pid) pids.

(** [draining_pids\[i\] = draining_pids\[num_draining - 1\]; num_draining--] *)
Definition swap_remove (i : nat) (l : list Z) : list Z :=
  match last l with
  | Some x => take (length l - 1) (<[i := x]> l)
  | None => l
  end.

Definition remove_draining_worker (m : MasterProcess) (pid : Z) : MasterProcess * bool :=
  match draining_pids m with
  | None => (m, false)
  | Some l =>
      match find_worker_by_pid l pid with
      | Some i => (m <| draining_pids := Some (swap_remove i l) |>, true)
      | None => (m, false)
      end
  end.

(** [fork] is the result of the call, if it is made; the child started is
    returned too. *)
Definition handle_worker_exit (m : MasterProcess) (pid : Z) (fork : option Z) :
    MasterProcess * option Z :=
  match remove_draining_worker m pid with
  | (m, true) => (m, None)
  | (m, false) =>
      match find_worker_by_pid (worker_pids m) pid with
      | None => (m, None)
      | Some worker_id =>
          if negb (shutdown_requested m)
          then (m <| worker_pids ::= <[worker_id := fork_worker fork]> |>, fork)
          else (m <| worker_pids ::= <[worker_id := 0]> |>, None)
      end
  end.

(** The running workers; [kill(pid, SIGUSR1)] goes to each of them. *)
Definition positive_pids (pids : list Z) : list Z := filter (fun p => 0 < p) pids.

#[global] Arguments positive_pids : simpl never.

Definition master_shutdown_workers (m : MasterProcess) : list Z := positive_pids (worker_pids m).

(** A new worker for every running one. *)
Definition refork (pids : list Z) (forks : list (option Z)) : list Z :=
  zip_with (fun p fork => if 0 <? p then fork_worker fork else p) pids forks.

(** The pids that those calls of [fork] returned. *)
Definition forked (pids : list Z) (forks : list (option Z)) : list Z :=
  omap id (zip_with (fun p fork => if 0 <? p then fork else None) pids forks).

(** The processes signalled and the children started are returned too;
    [None] when [calloc] fails: the code then writes through a null
    pointer. *)
Definition master_reload (m : MasterProcess) (new_config : option Config) (calloc_ok : bool)
    (forks : list (option Z)) : option (MasterProcess * list Z * list Z) :=
  match new_config with
  | None => Some (m, [], [])
  | Some c =>
      if bool_decide (draining_pids m = None) && negb calloc_ok then None else
      let m := m <| draining_pids := Some (positive_pids (worker_pids m)) |> in
      let signalled := master_shutdown_workers m in
      Some (m <| m_config := c |> <| worker_pids ::= fun pids => refork pids forks |>, signalled,
            forked (worker_pids m) forks)
  end.

(** ** Shutdown *)

(** [waitpid(-1, &status, WNOHANG)] *)
Inductive WaitResult := WaitPid (pid : Z) | WaitNone | WaitError (eintr : bool).

(** The loop, with the clock and [waitpid] of each round: the workers left
    and their pids; [None] while it is still waiting. *)
Fixpoint wait_loop (deadline : Z) (remaining : nat) (pids : list Z) (rounds : list (Z * WaitResult)) :
    option (nat * list Z) :=
  if bool_decide (remaining = 0)%nat then Some (remaining, pids) else
  match rounds with
  | [] => None
  | (now, r) :: rounds =>
      if negb (now <? deadline) then Some (remaining, pids) else
      match r with
      | WaitPid pid =>
          match find_worker_by_pid pids pid with
          | Some i => wait_loop deadline (remaining - 1) (<[i := 0]> pids) rounds
          | None => wait_loop deadline remaining pids rounds
          end
      | WaitNone => wait_loop deadline remaining pids rounds
      | WaitError eintr => if eintr : bool then wait_loop deadline remaining pids rounds else Some (remaining, pids)
      end
  end.

(** The processes killed with SIGKILL and waited for are returned too. *)
Definition wait_for_workers (m : MasterProcess) (now timeout_sec : Z) (rounds : list (Z * WaitResult)) :
    option (MasterProcess * list Z) :=
  let deadline := now + timeout_sec in
  let remaining := length (positive_pids (worker_pids m)) in
  '(remaining, pids) ← wait_loop deadline remaining (worker_pids m) rounds;
  Some (if bool_decide (0 < remaining)%nat
        then (m <| worker_pids := (fun p => if 0 <? p then 0 else p) <$> pids |>, positive_pids pids)
        else (m <| worker_pids := pids |>, [])).

Definition sigterm_handler (m : MasterProcess) : MasterProcess := m <| shutdown_requested := true |>.
Definition sighup_handler (m : MasterProcess) : MasterProcess := m <| reload_requested := true |>.

(** It only interrupts a sleep. *)
Definition sigchld_handler (m : MasterProcess) : MasterProcess := m.

Inductive Signal := SIGTERM | SIGINT | SIGHUP | SIGCHLD | SIGPIPE.

Inductive Disposition := Handler (h : MasterProcess -> MasterProcess) | SIG_IGN.

(** What [sigaction] is told about each signal. *)
Definition setup_master_signals (sig : Signal) : Disposition :=
  match sig with
  | SIGTERM | SIGINT => Handler sigterm_handler
  | SIGHUP => Handler sighup_handler
  | SIGCHLD => Handler sigchld_handler
  | SIGPIPE => SIG_IGN
  end.

Definition receive (m : MasterProcess) (sig : Signal) : MasterProcess :=
  match setup_master_signals sig with Handler h => h m | SIG_IGN => m end.

(** ** The main loop *)

Record MasterState := mkMasterState { master : MasterProcess; children : list Z }.

(** The kernel gives new children positive ids that no child has. *)
Definition fresh_pids (children new : list Z) : Prop :=
  NoDup new /\ Forall (fun p => 0 < p /\ p ∉ children) new.

(** What can happen to the master between the start of its workers and the
    end of its loop.  [forks_work] says that no [fork] fails. *)
Inductive master_step (forks_work : bool) (s : MasterState) : MasterState -> Prop :=
| step_sigterm :
    master_step forks_work s (mkMasterState (sigterm_handler (master s)) (children s))
| step_sighup :
    master_step forks_work s (mkMasterState (sighup_handler (master s)) (children s))
| step_reload new_config calloc_ok forks m signalled started :
    reload_requested (master s) = true ->
    length forks = length (worker_pids (master s)) ->
    (forks_work = true -> Forall is_Some forks) ->
    master_reload ((master s) <| reload_requested := false |>) new_config calloc_ok forks
      = Some (m, signalled, started) ->
    fresh_pids (children s) started ->
    master_step forks_work s (mkMasterState m (children s ++ started))
| step_exit pid fork m started :
    pid ∈ children s -> (forks_work = true -> is_Some fork) ->
    handle_worker_exit (master s) pid fork = (m, started) ->
    let left := filter (fun p => p <> pid) (children s) in
    fresh_pids left (option_list started) ->
    master_step forks_work s (mkMasterState m (left ++ option_list started)).

(** *** The loop of [master_run]

    What the system answers in one round.  Signals come before the condition
    of the loop, between it and the check for a reload, or after the reload:
    the handlers only set flags, and these are the places that read them. *)
Record Round := mkRound {
  sigs_condition : list Signal; sigs_reload : list Signal; sigs_wait : list Signal;
  r_config : option Config; r_calloc : bool; r_forks : list (option Z);
  r_wait : WaitResult; r_fork : option Z }.

Definition deliver (sigs : list Signal) (s : MasterState) : MasterState :=
  mkMasterState (foldl receive (master s) sigs) (children s).

Definition reload_phase (r : Round) (s : MasterState) : option MasterState :=
  if reload_requested (master s) then
    '(m, _, started) ←
      master_reload ((master s) <| reload_requested := false |>) (r_config r) (r_calloc r) (r_forks r);
    Some (mkMasterState m (children s ++ started))
  else Some s.

Definition wait_phase (r : Round) (s : MasterState) : MasterState :=
  match r_wait r with
  | WaitPid pid =>
      let '(m, started) := handle_worker_exit (master s) pid (r_fork r) in
      mkMasterState m (filter (fun p => p <> pid) (children s) ++ option_list started)
  | _ => s
  end.

Definition master_round (r : Round) (s : MasterState) : option MasterState :=
  s ← reload_phase r (deliver (sigs_reload r) s);
  Some (wait_phase r (deliver (sigs_wait r) s)).

(** [Looping] when the rounds are used up, [NullWrite] when [calloc] failed
    in a reload. *)
Inductive LoopResult := Left (s : MasterState) | Looping (s : MasterState) | NullWrite.

Fixpoint master_loop (rounds : list Round) (s : MasterState) : LoopResult :=
  match rounds with
  | [] => Looping s
  | r :: rounds =>
      let s := deliver (sigs_condition r) s in
      if shutdown_requested (master s) then Left s else
      match master_round r s with
      | Some s => master_loop rounds s
      | None => NullWrite
      end
  end.

(** The master when its workers have been started. *)
Definition master_started (m : MasterProcess) (forks : list (option Z)) : option MasterState :=
  m ← start_workers m forks; Some (mkMasterState m (omap id forks)).

(** A run that has returned: the return value, the master, the workers that
    were sent SIGUSR1 and the ones that had to be killed.  [None] otherwise.
    [now] is the clock when the loop is left, [waits] what the rounds of
    [wait_for_workers] see. *)
Definition master_run (m : MasterProcess) (forks : list (option Z)) (rounds : list Round) (now : Z)
    (waits : list (Z * WaitResult)) : option (Z * MasterProcess * list Z * list Z) :=
  s ← master_started m forks;
  match master_loop rounds s with
  | Left s =>
      let signalled := master_shutdown_workers (master s) in
      '(m, killed) ← wait_for_workers (master s) now 30 waits;
      Some (0, m, signalled, killed)
  | _ => None
  end.

(** ** Invariant *)

Definition draining (m : MasterProcess) : list Z := default [] (draining_pids m).

(** Running workers and draining ones are distinct children; with working
    forks every slot has a running worker until a shutdown is requested. *)
Record master_inv (forks_work : bool) (s : MasterState) : Prop := {
  mi_slots : length (worker_pids (master s)) = num_workers (master s);
  mi_distinct : NoDup (positive_pids (worker_pids (master s)) ++ draining (master s));
  mi_children : positive_pids (worker_pids (master s)) ++ draining (master s) ⊆ children s;
  mi_positive : Forall (fun p => 0 < p) (children s);
  mi_staff : forks_work = true -> shutdown_requested (master s) = false ->
             Forall (fun p => 0 < p) (worker_pids (master s))
}.

Lemma positive_app l k : positive_pids (l ++ k) = positive_pids l ++ positive_pids k.
Proof. apply filter_app. Qed.

Lemma positive_cons p l : positive_pids (p :: l) = (if 0 <? p then [p] else []) ++ positive_pids l.
Proof.
  unfold positive_pids. rewrite filter_cons. destruct (decide (0 < p)), (0 <? p) eqn:E; b2p; done || lia.
Qed.

Lemma positive_elem p l : p ∈ positive_pids l <-> 0 < p /\ p ∈ l.
Proof. apply list_elem_of_filter. Qed.

Lemma fork_positive fork : Forall (fun p => 0 < p) (option_list fork) -> positive_pids [fork_worker fork] = option_list fork.
Proof.
  intros H. rewrite positive_cons. destruct fork as [p|]; [|done]. cbn in *. inversion H; subst.
  destruct (0 <? p) eqn:E; b2p; [done|lia].
Qed.

Lemma find_worker_Some pids pid i :
  find_worker_by_pid pids pid = Some i -> exists l1 l2, pids = l1 ++ pid :: l2 /\ i = length l1.
Proof.
  unfold find_worker_by_pid. destruct (list_find _ pids) as [[j x]|] eqn:E; [|done]. intros [= ->].
  apply list_find_Some in E as (Hx & -> & _). exists (take i pids), (drop (S i) pids).
  split; [symmetry; by apply take_drop_middle|]. rewrite length_take. apply lookup_lt_Some in Hx. lia.
Qed.

Lemma find_worker_None pids pid : find_worker_by_pid pids pid = None -> pid ∉ pids.
Proof.
  unfold find_worker_by_pid. destruct (list_find _ pids) as [[j x]|] eqn:E; [done|]. intros _ Hin.
  apply list_find_None in E. rewrite Forall_forall in E. by apply (E pid).
Qed.

Lemma swap_remove_perm l1 x l2 : swap_remove (length l1) (l1 ++ x :: l2) ≡ₚ l1 ++ l2.
Proof.
  unfold swap_remove. destruct l2 as [|y l2] using rev_ind.
  - rewrite last_snoc, length_app. cbn. rewrite list_insert_id.
    + rewrite take_app_le, take_ge, app_nil_r by lia. done.
    + by apply list_lookup_middle.
  - clear IHl2. rewrite app_comm_cons, app_assoc, last_snoc, insert_app_l, insert_app_r_alt by (rewrite ?length_app; cbn; lia).
    rewrite Nat.sub_diag. cbn. rewrite take_app_le by (rewrite !length_app; cbn; lia).
    rewrite take_ge by (rewrite !length_app; cbn; lia). rewrite app_assoc. by rewrite <- Permutation_middle, <- Permutation_cons_append.
Qed.

(** ** Reload *)

Lemma forked_cons p pids fork forks :
  forked (p :: pids) (fork :: forks) = (if 0 <? p then option_list fork else []) ++ forked pids forks.
Proof. unfold forked. cbn. by destruct (0 <? p), fork. Qed.

Lemma refork_length pids forks : length forks = length pids -> length (refork pids forks) = length pids.
Proof. intros. unfold refork. rewrite length_zip_with. lia. Qed.

(** Exactly the children forked by a reload are its new workers. *)
Lemma refork_positive pids forks :
  length forks = length pids -> Forall (fun p => 0 < p) (forked pids forks) ->
  positive_pids (refork pids forks) = forked pids forks.
Proof.
  revert forks. induction pids as [|p pids IH]; intros [|fork forks] Hl Hf; try done.
  rewrite forked_cons in *. apply Forall_app in Hf as [Hf1 Hf2].
  change (refork (p :: pids) (fork :: forks))
    with ((if 0 <? p then fork_worker fork else p) :: refork pids forks).
  change ((if 0 <? p then fork_worker fork else p) :: refork pids forks)
    with ([if 0 <? p then fork_worker fork else p] ++ refork pids forks).
  rewrite positive_app, IH by (done || (cbn in Hl; lia)). f_equal.
  destruct (0 <? p) eqn:E; [by apply fork_positive|]. rewrite positive_cons. by rewrite E.
Qed.

Lemma refork_staff pids forks :
  Forall is_Some forks -> Forall (fun p => 0 < p) (forked pids forks) ->
  Forall (fun p => 0 < p) pids -> Forall (fun p => 0 < p) (refork pids forks).
Proof.
  revert forks. induction pids as [|p pids IH]; intros [|fork forks] Hs Hf Hp; try by constructor.
  rewrite forked_cons in Hf. apply Forall_app in Hf as [Hf1 Hf2]. apply Forall_cons in Hs as [[q ->] Hs].
  apply Forall_cons in Hp as [Hp Hps]. unfold refork in *. cbn.
  destruct (0 <? p) eqn:E; b2p; [|lia]. constructor; [by inversion Hf1|by apply IH].
Qed.

Lemma reload_inv fw s new_config calloc_ok forks m signalled started :
  master_inv fw s -> length forks = length (worker_pids (master s)) ->
  (fw = true -> Forall is_Some forks) ->
  master_reload ((master s) <| reload_requested := false |>) new_config calloc_ok forks
    = Some (m, signalled, started) ->
  fresh_pids (children s) started -> master_inv fw (mkMasterState m (children s ++ started)).
Proof.
  intros [Hl Hd Hc Hp Hs] Hlen Hall Hr [Hn Hf]. unfold master_reload in Hr.
  destruct new_config as [c|]; [|simplify_eq; rewrite app_nil_r; by split].
  destruct (_ && _); [done|]. simplify_eq. cbn in Hn, Hf.
  assert (Forall (fun p => 0 < p) (forked (worker_pids (master s)) forks)) as Hpos
    by (eapply Forall_impl; [exact Hf|]; by intros ? []).
  split; cbn.
  - by rewrite refork_length.
  - rewrite refork_positive by done. apply NoDup_app. split; [done|].
    apply NoDup_app in Hd as (Hd1 & _ & _). split; [|done]. intros x Hx Hin.
    rewrite Forall_forall in Hf. apply (Hf x Hx). apply Hc, elem_of_app. by left.
  - rewrite refork_positive by done. intros x [Hx | Hx]%elem_of_app; apply elem_of_app; [by right|left].
    apply Hc, elem_of_app. by left.
  - by apply Forall_app.
  - intros -> Hsh. apply refork_staff; auto.
Qed.

(** ** Exits *)

Lemma positive_insert l1 pid l2 new :
  positive_pids (<[length l1 := new]> (l1 ++ pid :: l2)) ≡ₚ positive_pids [new] ++ positive_pids (l1 ++ l2).
Proof.
  rewrite insert_app_r_alt, Nat.sub_diag by lia. change (<[0%nat := new]> (pid :: l2)) with (new :: l2).
  rewrite !positive_app, (positive_cons new l2), (positive_cons new []), app_nil_r. solve_Permutation.
Qed.

(** A slot whose worker exited: [new] is what replaces its pid. *)
Lemma replace_inv fw s l1 pid l2 new started :
  master_inv fw s -> worker_pids (master s) = l1 ++ pid :: l2 -> 0 < pid ->
  fresh_pids (filter (fun p => p <> pid) (children s)) (option_list started) ->
  positive_pids [new] = option_list started ->
  (fw = true -> shutdown_requested (master s) = false -> 0 < new) ->
  master_inv fw (mkMasterState ((master s) <| worker_pids ::= <[length l1 := new]> |>)
    (filter (fun p => p <> pid) (children s) ++ option_list started)).
Proof.
  intros [Hl Hd Hc Hp Hs] Hw Hpid [Hn Hf] Hnew Hstaff.
  rewrite Hw in *. rewrite positive_app, positive_cons in Hd, Hc. destruct (0 <? pid) eqn:E; b2p; [|lia].
  cbn in Hd, Hc. assert (positive_pids (l1 ++ l2) ++ draining (master s) ⊆ filter (fun p => p <> pid) (children s)) as Hrest.
  { rewrite positive_app. intros x Hx. apply list_elem_of_filter. split.
    - intros ->. rewrite <- app_assoc in Hd. cbn in Hd. rewrite <- Permutation_middle in Hd.
      apply NoDup_cons in Hd as [Hd _]. apply Hd. by rewrite app_assoc.
    - apply Hc. rewrite <- !app_assoc in *. rewrite !elem_of_app in *. rewrite elem_of_cons. tauto. }
  split; cbn; rewrite ?Hw.
  - by rewrite length_insert.
  - rewrite positive_insert, Hnew, <- app_assoc. apply NoDup_app. split; [done|]. split.
    + intros x Hx Hin. rewrite Forall_forall in Hf. by apply (Hf x Hx), Hrest.
    + rewrite positive_app. rewrite <- app_assoc in *. cbn in Hd. rewrite <- Permutation_middle in Hd.
      by apply NoDup_cons in Hd as [_ ?].
  - intros x [Hx | Hx]%elem_of_app; [rewrite positive_insert in Hx; apply elem_of_app in Hx as [Hx | Hx]|];
      apply elem_of_app; [right; by rewrite <- Hnew|left; apply Hrest, elem_of_app; by left|left; apply Hrest, elem_of_app; by right].
  - apply Forall_app. split; [|eapply Forall_impl; [exact Hf|]; by intros ? []].
    rewrite Forall_forall in *. intros x [_ Hx]%list_elem_of_filter. auto.
  - intros Hfw Hsh. specialize (Hs Hfw Hsh). rewrite insert_app_r_alt, Nat.sub_diag by lia. cbn.
    apply Forall_app in Hs as [? [? ?]%Forall_cons]. apply Forall_app. split; [done|]. constructor; auto.
Qed.

(** An exit is that of a draining worker, or it is looked up among the
    current ones. *)
Lemma exit_cases m pid fork :
  (exists l i, draining_pids m = Some l /\ find_worker_by_pid l pid = Some i /\
     handle_worker_exit m pid fork = (m <| draining_pids := Some (swap_remove i l) |>, None)) \/
  (pid ∉ draining m /\
   handle_worker_exit m pid fork =
     match find_worker_by_pid (worker_pids m) pid with
     | None => (m, None)
     | Some worker_id =>
         if shutdown_requested m then (m <| worker_pids ::= <[worker_id := 0]> |>, None)
         else (m <| worker_pids ::= <[worker_id := fork_worker fork]> |>, fork)
     end).
Proof.
  unfold handle_worker_exit, remove_draining_worker, draining.
  destruct (draining_pids m) as [l|] eqn:El; [destruct (find_worker_by_pid l pid) as [i|] eqn:Ei|].
  - left. by exists l, i.
  - right. split; [by apply find_worker_None|]. by destruct (find_worker_by_pid _ _), (shutdown_requested m).
  - right. split; [apply not_elem_of_nil|]. by destruct (find_worker_by_pid _ _), (shutdown_requested m).
Qed.

Lemma drained_inv fw s pid l i :
  master_inv fw s -> draining_pids (master s) = Some l -> find_worker_by_pid l pid = Some i ->
  master_inv fw (mkMasterState ((master s) <| draining_pids := Some (swap_remove i l) |>)
    (filter (fun p => p <> pid) (children s))).
Proof.
  intros [Hl Hd Hc Hp Hs] El Ei. apply find_worker_Some in Ei as (l1 & l2 & -> & ->).
  pose proof (swap_remove_perm l1 pid l2) as Hperm. unfold draining in *.
  rewrite El in Hd, Hc. cbn in Hd, Hc.
  rewrite (app_assoc _ l1), <- Permutation_middle, <- app_assoc in Hd. apply NoDup_cons in Hd as [Hnot Hd].
  split; cbn; try done.
  - by rewrite Hperm.
  - intros x Hx. rewrite Hperm in Hx. apply list_elem_of_filter. split; [by intros ->|].
    apply Hc. rewrite !elem_of_app in *. rewrite elem_of_cons. tauto.
  - rewrite Forall_forall in *. intros x [_ Hx]%list_elem_of_filter. auto.
Qed.

Lemma exit_inv fw s pid fork m started :
  master_inv fw s -> pid ∈ children s -> (fw = true -> is_Some fork) ->
  handle_worker_exit (master s) pid fork = (m, started) ->
  fresh_pids (filter (fun p => p <> pid) (children s)) (option_list started) ->
  master_inv fw (mkMasterState m (filter (fun p => p <> pid) (children s) ++ option_list started)).
Proof.
  intros Hinv Hin Hall Hh Hfresh. pose proof Hinv as [Hl Hd Hc Hp Hs].
  assert (0 < pid) as Hpid by (rewrite Forall_forall in Hp; auto).
  destruct (exit_cases (master s) pid fork) as [(l & i & El & Ei & Heq) | [Hnd Heq]]; rewrite Heq in Hh.
  { simplify_eq. cbn. rewrite app_nil_r. by apply drained_inv. }
  destruct (find_worker_by_pid (worker_pids (master s)) pid) as [i|] eqn:Ew.
  - apply find_worker_Some in Ew as (l1 & l2 & Hw & ->).
    destruct (shutdown_requested (master s)) eqn:Esh; simplify_eq.
    + apply (replace_inv fw s l1 pid l2 0 None); try done. by rewrite Esh.
    + apply (replace_inv fw s l1 pid l2 (fork_worker started) started); try done.
      * apply fork_positive. destruct Hfresh as [_ Hf]. eapply Forall_impl; [exact Hf|]. by intros ? [].
      * intros Hfw _. destruct (Hall Hfw) as [q ->]. destruct Hfresh as [_ Hf]. by inversion Hf as [|? ? [? ?] ?].
  - apply find_worker_None in Ew. simplify_eq. cbn. rewrite app_nil_r. split; try done.
    + intros x Hx. apply list_elem_of_filter. split; [|by apply Hc].
      intros ->. apply elem_of_app in Hx as [[_ Hx]%positive_elem | Hx]; done.
    + rewrite Forall_forall in *. intros x [_ Hx]%list_elem_of_filter. auto.
Qed.

Lemma master_step_inv fw s s' : master_step fw s s' -> master_inv fw s -> master_inv fw s'.
Proof.
  intros Hstep Hinv. destruct Hstep as [| |nc co forks m sg st Hrq Hlen Hall Hr Hf|pid fork m st Hin Hall Hh left Hf].
  - destruct Hinv as [H1 H2 H3 H4 H5]. by split.
  - destruct Hinv as [H1 H2 H3 H4 H5]. by split.
  - by eapply reload_inv.
  - by eapply exit_inv.
Qed.

Lemma started_inv fw m forks s0 :
  master_started m forks = Some s0 -> length forks = num_workers m -> draining_pids m = None -> (fw = true -> Forall is_Some forks) ->
  fresh_pids [] (omap id forks) -> master_inv fw s0.
Proof.
  unfold master_started, start_workers. destruct (_ <? _)%nat; [done|]. cbn. intros [= <-] Hl Hd Hall [Hn Hf].
  assert (Forall (fun p => 0 < p) (omap id forks)) as Hpos by (eapply Forall_impl; [exact Hf|]; by intros ? []).
  assert (positive_pids (fork_worker <$> forks) = omap id forks) as He.
  { clear - Hpos. induction forks as [|fork forks IH]; [done|].
    change (omap id (fork :: forks)) with (match fork with Some p => p :: omap id forks | None => omap id forks end) in *.
    rewrite fmap_cons, positive_cons. destruct fork as [p|]; cbn.
    - apply Forall_cons in Hpos as [Hp Hpos]. destruct (0 <? p) eqn:E; b2p; [|lia]. cbn. f_equal. auto.
    - auto. }
  split; unfold draining; cbn; rewrite ?Hd, ?He, ?app_nil_r; try done.
  - by rewrite length_fmap.
  - intros Hfw _. specialize (Hall Hfw). clear - Hall Hpos. induction Hall as [|fork forks [p ->] Hall IH]; [constructor|].
    cbn in Hpos. apply Forall_cons in Hpos as [Hp Hpos]. constructor; auto.
Qed.

Lemma master_reachable fw m forks s0 s :
  master_started m forks = Some s0 -> length forks = num_workers m -> draining_pids m = None -> (fw = true -> Forall is_Some forks) ->
  fresh_pids [] (omap id forks) -> rtc (master_step fw) s0 s -> master_inv fw s.
Proof.
  intros Hs Hl Hd Hall Hf Hr. pose proof (started_inv fw m forks s0 Hs Hl Hd Hall Hf) as H0.
  clear Hs. revert H0. induction Hr; eauto using master_step_inv.
Qed.

(** ** Shutdown *)

Definition waited (rounds : list (Z * WaitResult)) (pid : Z) : Prop := WaitPid pid ∈ rounds.*2.

Lemma positive_zero l1 p l2 :
  0 < p -> positive_pids (l1 ++ p :: l2) ≡ₚ p :: positive_pids (<[length l1 := 0]> (l1 ++ p :: l2)).
Proof.
  intros Hp. rewrite positive_insert. rewrite !positive_app, positive_cons.
  destruct (0 <? p) eqn:E; b2p; [|lia]. cbn. rewrite <- Permutation_middle. done.
Qed.

(** The loop counts the workers that are left, and forgets only those it
    has waited for. *)
Lemma wait_loop_spec deadline rounds : forall remaining pids remaining' pids',
  Forall (fun r => match r with WaitPid p => 0 < p | _ => True end) rounds.*2 ->
  remaining = length (positive_pids pids) ->
  wait_loop deadline remaining pids rounds = Some (remaining', pids') ->
  remaining' = length (positive_pids pids') /\
  forall p, p ∈ positive_pids pids -> p ∈ positive_pids pids' \/ waited rounds p.
Proof.
  unfold waited. induction rounds as [|[now r] rounds IH]; intros remaining pids remaining' pids' Hpos Hr H; cbn [wait_loop] in H;
    (case_bool_decide; [simplify_eq; by auto|]); [done|].
  rewrite fmap_cons in *. apply Forall_cons in Hpos as [Hp Hpos].
  assert (forall rem0 pids0, rem0 = length (positive_pids pids0) ->
    (forall p, p ∈ positive_pids pids -> p ∈ positive_pids pids0 \/ r = WaitPid p) ->
    wait_loop deadline rem0 pids0 rounds = Some (remaining', pids') ->
    remaining' = length (positive_pids pids') /\
    forall p, p ∈ positive_pids pids -> p ∈ positive_pids pids' \/ WaitPid p ∈ (now, r).2 :: rounds.*2) as Hgo.
  { intros rem0 pids0 H1 H2 H3. destruct (IH _ _ _ _ Hpos H1 H3) as [H4 H5]. split; [done|].
    intros p Hin. rewrite elem_of_cons. destruct (H2 p Hin) as [Hin0 | ->]; [|auto].
    destruct (H5 p Hin0); auto. }
  destruct (negb _); [simplify_eq; by auto|].
  destruct r as [pid| |[]]; [|by eapply Hgo; eauto..|simplify_eq; auto].
  destruct (find_worker_by_pid pids pid) as [i|] eqn:E; [|by eapply Hgo; eauto].
  apply find_worker_Some in E as (l1 & l2 & -> & ->). pose proof (positive_zero l1 pid l2 Hp) as Hz.
  eapply Hgo; [|..|exact H].
  - rewrite Hr, Hz. cbn. lia.
  - intros p Hin. rewrite Hz in Hin. apply elem_of_cons in Hin as [-> | ?]; auto.
Qed.

(** The loop is over when the clock has reached the deadline. *)
Lemma wait_loop_ends deadline rounds : forall remaining pids,
  Exists (fun now => deadline <= now) rounds.*1 -> is_Some (wait_loop deadline remaining pids rounds).
Proof.
  induction rounds as [|[now r] rounds IH]; intros remaining pids He; [by inversion He|].
  cbn [wait_loop]. case_bool_decide; [by eauto|].
  destruct (now <? deadline) eqn:En; cbn [negb]; [|by eauto]. b2p.
  rewrite fmap_cons in He. apply Exists_cons in He as [He | He]; [cbn in He; lia|].
  destruct r as [pid| |[]]; eauto. destruct (find_worker_by_pid pids pid); eauto.
Qed.

(** ** The loop *)

Lemma deliver_steps fw sigs s : rtc (master_step fw) s (deliver sigs s).
Proof.
  destruct s as [m ch]. unfold deliver. cbn. revert m.
  induction sigs as [|[] sigs IH]; intros m; cbn; [constructor|..]; try apply IH;
    (eapply rtc_l; [|apply IH]).
  - apply (step_sigterm fw (mkMasterState m ch)).
  - apply (step_sigterm fw (mkMasterState m ch)).
  - apply (step_sighup fw (mkMasterState m ch)).
Qed.

(** What the kernel promises about a round: as many calls of [fork] as
    workers, new children with fresh ids, and only children are waited for. *)
Record round_fits (fw : bool) (s : MasterState) (r : Round) : Prop := {
  rf_length : length (r_forks r) = length (worker_pids (master s));
  rf_forks : fw = true -> Forall is_Some (r_forks r) /\ is_Some (r_fork r);
  rf_reload : fresh_pids (children s) (forked (worker_pids (master s)) (r_forks r));
  rf_wait pid s1 :
    r_wait r = WaitPid pid -> reload_phase r (deliver (sigs_reload r) s) = Some s1 ->
    pid ∈ children s1 /\ fresh_pids (filter (fun p => p <> pid) (children s1)) (option_list (r_fork r))
}.

Fixpoint rounds_fit (fw : bool) (rounds : list Round) (s : MasterState) : Prop :=
  match rounds with
  | [] => True
  | r :: rounds =>
      let s := deliver (sigs_condition r) s in
      shutdown_requested (master s) = false ->
      round_fits fw s r /\ forall s', master_round r s = Some s' -> rounds_fit fw rounds s'
  end.

Lemma deliver_pids sigs s : worker_pids (master (deliver sigs s)) = worker_pids (master s).
Proof.
  unfold deliver. cbn. generalize (master s) as m. induction sigs as [|[] sigs IH]; intros m; cbn; [done|by rewrite IH..].
Qed.

Lemma fresh_nil ch : fresh_pids ch [].
Proof. split; [apply NoDup_nil_2|constructor]. Qed.

(** A round of the loop is made of steps of the relation. *)
Lemma master_round_steps fw r s s' :
  round_fits fw s r -> master_round r s = Some s' -> rtc (master_step fw) s s'.
Proof.
  intros [Hlen Hfw Hrel Hwait] Hround. unfold master_round in Hround.
  destruct (reload_phase r _) as [s1|] eqn:E1; [|done]. cbn in Hround. injection Hround as <-.
  etransitivity; [apply (deliver_steps fw (sigs_reload r))|].
  etransitivity.
  { instantiate (1 := s1). unfold reload_phase in E1. destruct (reload_requested _) eqn:Er; [|injection E1 as <-; constructor].
    destruct (master_reload _ _ _ _) as [[[m sg] st]|] eqn:Em; [|done]. cbn in E1. injection E1 as <-.
    apply rtc_once. apply (step_reload fw (deliver (sigs_reload r) s) (r_config r) (r_calloc r) (r_forks r) m sg st); [done|by rewrite deliver_pids|naive_solver|done|].
    unfold master_reload in Em. destruct (r_config r); [|simplify_eq; apply fresh_nil].
    destruct (_ && _); [done|]. injection Em as <- <- <-. by rewrite <- (deliver_pids (sigs_reload r) s) in Hrel. }
  etransitivity; [apply (deliver_steps fw (sigs_wait r))|].
  unfold wait_phase. destruct (r_wait r) as [pid| |] eqn:Ew; [|constructor..].
  destruct (Hwait pid s1 eq_refl eq_refl) as [Hin Hf]. destruct (handle_worker_exit _ _ _) as [m st] eqn:Eh.
  apply rtc_once. apply (step_exit fw (deliver (sigs_wait r) s1) pid (r_fork r) m st); [exact Hin|naive_solver|exact Eh|].
  assert (st = r_fork r \/ st = None) as [-> | ->].
  { unfold handle_worker_exit in Eh. repeat case_match; simplify_eq; auto. }
  - exact Hf.
  - apply fresh_nil.
Qed.

(** So a run of the loop is a run of the relation, wherever it stands. *)
Lemma master_loop_steps fw rounds : forall s s',
  rounds_fit fw rounds s -> master_loop rounds s = Left s' \/ master_loop rounds s = Looping s' ->
  rtc (master_step fw) s s'.
Proof.
  induction rounds as [|r rounds IH]; intros s s' Hfit Hloop; cbn [master_loop] in Hloop.
  { destruct Hloop as [|[= ->]]; [done|constructor]. }
  etransitivity; [apply (deliver_steps fw (sigs_condition r))|]. cbn [rounds_fit] in Hfit. cbv zeta in Hloop, Hfit.
  destruct (shutdown_requested _) eqn:Esh; [destruct Hloop as [[= ->]|]; [constructor|done]|].
  destruct (Hfit eq_refl) as [Hr Hnext]. destruct (master_round r _) as [s1|] eqn:E1; [|naive_solver].
  etransitivity; [by eapply master_round_steps|]. by apply IH; [apply Hnext|].
Qed.

(** *** SIGTERM *)

Definition asks_shutdown (sig : Signal) : Prop := sig = SIGTERM \/ sig = SIGINT.

Lemma deliver_shutdown sigs s :
  Exists asks_shutdown sigs \/ shutdown_requested (master s) = true ->
  shutdown_requested (master (deliver sigs s)) = true.
Proof.
  unfold deliver. cbn. generalize (master s) as m.
  induction sigs as [|sig sigs IH]; intros m H; cbn; [by destruct H as [?%Exists_nil|]|].
  apply IH. destruct H as [[[-> | ->] | ?]%Exists_cons | H]; [by right|by right|by left|]. right. by destruct sig.
Qed.

Lemma reload_phase_shutdown r s s' :
  reload_phase r s = Some s' -> shutdown_requested (master s') = shutdown_requested (master s).
Proof.
  unfold reload_phase. destruct (reload_requested _); [|by intros [= <-]]. unfold master_reload.
  destruct (r_config r); [|by intros [= <-]]. destruct (_ && _); [done|]. by intros [= <-].
Qed.

Lemma wait_phase_shutdown r s : shutdown_requested (master (wait_phase r s)) = shutdown_requested (master s).
Proof.
  unfold wait_phase, handle_worker_exit, remove_draining_worker. repeat (case_match; simplify_eq; cbn); done.
Qed.

Lemma master_round_ok r s : r_calloc r = true -> is_Some (master_round r s).
Proof.
  intros Hc. unfold master_round, reload_phase, master_reload. rewrite Hc, andb_false_r.
  repeat case_match; simplify_eq; cbn; eauto.
Qed.

(** A SIGTERM in any round ends the loop, at the next check of its
    condition. *)
Lemma sigterm_leaves_loop before r after : forall s,
  Forall (fun r => r_calloc r = true) (before ++ r :: after) -> after <> [] ->
  Exists asks_shutdown (sigs_condition r ++ sigs_reload r ++ sigs_wait r) ->
  exists s', master_loop (before ++ r :: after) s = Left s'.
Proof.
  induction before as [|b before IH]; intros s Hc Ha Hsig; cbn [app master_loop]; cbv zeta;
    apply Forall_cons in Hc as [Hb Hc]; destruct (shutdown_requested _) eqn:Esh; eauto.
  - destruct (master_round_ok r (deliver (sigs_condition r) s) Hb) as [s1 E1]. rewrite E1.
    assert (shutdown_requested (master s1) = true) as Hs1.
    { unfold master_round in E1. destruct (reload_phase r _) as [s2|] eqn:E2; [|done]. cbn in E1. injection E1 as <-.
      rewrite wait_phase_shutdown. apply reload_phase_shutdown in E2. apply deliver_shutdown. rewrite E2.
      rewrite !Exists_app in Hsig. destruct Hsig as [H1 | [H2 | H3]]; [|right; by apply deliver_shutdown; left|by left].
      rewrite (deliver_shutdown (sigs_condition r) s) in Esh by (by left). done. }
    destruct after as [|a after]; [done|]. cbn [master_loop]. rewrite deliver_shutdown by (by right). eauto.
  - destruct (master_round_ok b (deliver (sigs_condition b) s) Hb) as [s1 ->]. by apply IH.
Qed.

(** C8: Supervision keeps every slot staffed.  In every state of the main loop, through any
    sequence of exits, reloads and signals: there are between 1 and 64 slots; the workers in
    them and the ones still draining are distinct children of the master; and as long as no
    fork fails and no shutdown was requested, every slot holds a running worker. *)
Theorem master_keeps_full_staff (config : option Config) (num_cpus : Z) (e : LimitEnv)
    (m : MasterProcess) (forks_work : bool) (forks : list (option Z)) (s0 s : MasterState) :
  master_init config num_cpus e true = Some m -> master_started m forks = Some s0 -> length forks = num_workers m ->
  (forks_work = true -> Forall is_Some forks) -> fresh_pids [] (omap id forks) ->
  rtc (master_step forks_work) s0 s ->
  let pids := worker_pids (master s) in
  (1 <= num_workers m <= 64)%nat /\
  length pids = num_workers (master s) /\
  NoDup (positive_pids pids ++ draining (master s)) /\
  positive_pids pids ++ draining (master s) ⊆ children s /\
  (forks_work = true -> shutdown_requested (master s) = false -> Forall (fun p => 0 < p) pids).
Proof.
  intros Hi Hs Hl Hall Hf Hr pids. unfold master_init in Hi. destruct config as [c|]; [|done]. cbn in Hi.
  destruct (negb (check_fd_limits _ _ _)); simplify_eq.
  assert (1 <= worker_count (max_connections c) num_cpus <= 64) as Hn
    by (unfold worker_count; repeat case_match; b2p; lia).
  destruct (master_reachable _ _ _ _ _ Hs Hl eq_refl Hall Hf Hr) as [H1 H2 H3 _ H5].
  cbn in *. split; [lia|done].
Qed.

(** Shutdown leaves no worker behind: once the clock has reached the deadline
    [wait_for_workers] has returned, no slot holds a running worker, and every worker that was
    running has been waited for or was killed. *)
Theorem shutdown_leaves_no_worker (m : MasterProcess) (now timeout_sec : Z) (rounds : list (Z * WaitResult)) :
  Forall (fun r => match r with WaitPid p => 0 < p | _ => True end) rounds.*2 ->
  Exists (fun t => now + timeout_sec <= t) rounds.*1 ->
  exists m' killed, wait_for_workers m now timeout_sec rounds = Some (m', killed) /\
  positive_pids (worker_pids m') = [] /\
  forall p, p ∈ master_shutdown_workers m -> waited rounds p \/ p ∈ killed.
Proof.
  intros Hpos Hend. unfold wait_for_workers, master_shutdown_workers.
  destruct (wait_loop_ends _ rounds (length (positive_pids (worker_pids m))) (worker_pids m) Hend) as [[rem pids] E].
  rewrite E. cbn [mbind option_bind]. destruct (wait_loop_spec _ _ _ _ _ _ Hpos eq_refl E) as [Hr Hw].
  case_bool_decide as Hrem; eexists _, _; (split; [reflexivity|]); cbn.
  - split; [|intros p Hp; destruct (Hw p Hp); auto].
    clear. induction pids as [|p pids IH]; [done|]. rewrite fmap_cons, positive_cons, IH.
    destruct (0 <? p) eqn:E0; [done|]. by rewrite E0.
  - assert (positive_pids pids = []) as Hnil by (apply nil_length_inv; lia).
    split; [done|]. intros p Hp. destruct (Hw p Hp) as [Hin | ?]; [|auto].
    rewrite Hnil in Hin. by apply not_elem_of_nil in Hin.
Qed.

(** C27: SIGTERM and SIGINT stop the server.  Take any run of [master_run]: worker processes that fail to
    start, exits, reloads and signals in any order, and a SIGTERM or SIGINT at any point of some
    round that is not the last one considered.  The loop is left, and once the clock has moved on by
    30 seconds the master has returned 0: it sent SIGUSR1 to a set of workers, each of which was
    waited for or killed, and no slot holds a running worker. *)
Theorem sigterm_stops_master (m : MasterProcess) (forks : list (option Z)) (before after : list Round) (r : Round)
    (now : Z) (waits : list (Z * WaitResult)) :
  (num_workers m <= pids_alloc m)%nat -> after <> [] ->
  Forall (fun r => r_calloc r = true) (before ++ r :: after) ->
  Exists asks_shutdown (sigs_condition r ++ sigs_reload r ++ sigs_wait r) ->
  Forall (fun r => match r with WaitPid p => 0 < p | _ => True end) waits.*2 ->
  Exists (fun t => now + 30 <= t) waits.*1 ->
  exists s m' signalled killed,
    (s0 ← master_started m forks; Some (master_loop (before ++ r :: after) s0)) = Some (Left s) /\
    master_run m forks (before ++ r :: after) now waits = Some (0, m', signalled, killed) /\
    signalled = positive_pids (worker_pids (master s)) /\
    positive_pids (worker_pids m') = [] /\
    forall p, p ∈ signalled -> waited waits p \/ p ∈ killed.
Proof.
  intros Hn Ha Hc Hsig Hpos Hend. unfold master_run, master_started, start_workers.
  rewrite (proj2 (Nat.ltb_ge _ _)) by done. cbn [mbind option_bind].
  edestruct (sigterm_leaves_loop before r after) as [s Hs]; [exact Hc|exact Ha|exact Hsig|]; rewrite Hs.
  destruct (shutdown_leaves_no_worker (master s) now 30 waits Hpos Hend) as (m' & killed & -> & Hm & Hp).
  exists s, m', (master_shutdown_workers (master s)), killed. cbn. by split_and!.
Qed.

(** A slot whose fork failed stays empty: neither exits nor reloads retry it. *)
Lemma failed_fork_never_retried fw s s' i :
  master_step fw s s' -> Forall (fun p => 0 < p) (children s) ->
  worker_pids (master s) !! i = Some (-1) -> worker_pids (master s') !! i = Some (-1).
Proof.
  intros Hstep Hp Hi. destruct Hstep as [| |nc co forks m sg st Hrq Hlen Hall Hr Hf|pid fork m st Hin Hall Hh left Hf]; cbn; try done.
  - unfold master_reload in Hr. destruct nc; [|by simplify_eq]. destruct (_ && _); [done|]. simplify_eq. cbn.
    unfold refork. rewrite lookup_zip_with, Hi. cbn.
    destruct (lookup_lt_is_Some_2 forks i) as [f ->]; [|done]. rewrite Hlen. by eapply lookup_lt_Some.
  - destruct (exit_cases (master s) pid fork) as [(l & j & El & Ej & Heq) | [Hnd Heq]]; rewrite Heq in Hh; [by simplify_eq|].
    destruct (find_worker_by_pid (worker_pids (master s)) pid) as [j|] eqn:Ew; [|by simplify_eq].
    apply find_worker_Some in Ew as (l1 & l2 & Hw & ->). rewrite Forall_forall in Hp. specialize (Hp pid Hin).
    assert (length l1 <> i) by (intros <-; rewrite Hw, list_lookup_middle in Hi by done; simplify_eq; lia).
    destruct (shutdown_requested (master s)); simplify_eq; cbn; by rewrite list_lookup_insert_ne.
Qed.

(** ** Examples *)

Definition two_workers : Config := default_values <| max_connections := 2 |>.
Definition sample_master : MasterProcess :=
  mkMaster two_workers 2 [0; 0] None false false 2.

Definition sample_started : MasterState :=
  mkMasterState (sample_master <| worker_pids := [10; 11] |>) [10; 11].

(** Two workers, of which the first exits and is replaced. *)
Definition sample_supervised : MasterState :=
  mkMasterState (sample_master <| worker_pids := [12; 11] |>) [11; 12].

Lemma sample_supervised_reachable :
  rtc (master_step true) sample_started sample_supervised.
Proof.
  apply rtc_once.
  apply (step_exit true sample_started 10 (Some 12)
    (sample_master <| worker_pids := [12; 11] |>) (Some 12)); [by left|done|done|].
  cbn. split; [apply NoDup_singleton|]. repeat constructor. set_solver.
Qed.

Lemma master_keeps_full_staff_witness :
  master_init (Some two_workers) 4 (mkLimitEnv None true 0) true = Some sample_master /\
  Forall (fun p => 0 < p) (worker_pids (master sample_supervised)).
Proof.
  split; [done|].
  apply (master_keeps_full_staff (Some two_workers) 4 (mkLimitEnv None true 0) sample_master true
    [Some 10; Some 11] sample_started sample_supervised); [done|done|done|by repeat constructor| |exact sample_supervised_reachable|done|done].
  split; [|repeat constructor; set_solver]. cbn. apply NoDup_cons. split; [set_solver|apply NoDup_singleton].
Defined.

(** One worker exits in time, the other is killed. *)
Lemma shutdown_leaves_no_worker_witness :
  let m := sample_master <| worker_pids := [10; 11] |> in
  let rounds := [(100, WaitPid 11); (131, WaitNone)] in
  exists m' killed, wait_for_workers m 100 30 rounds = Some (m', killed) /\
  positive_pids (worker_pids m') = [] /\
  forall p, p ∈ master_shutdown_workers m -> waited rounds p \/ p ∈ killed.
Proof.
  apply (shutdown_leaves_no_worker (sample_master <| worker_pids := [10; 11] |>) 100 30
    [(100, WaitPid 11); (131, WaitNone)]); [by repeat constructor|]. right. left. cbn. lia.
Defined.

(** Two workers; one exits and is replaced, and while it is waited for
    SIGTERM comes. *)
Definition sample_rounds : list Round :=
  [mkRound [] [] [] None true [] (WaitPid 10) (Some 12);
   mkRound [] [SIGHUP] [SIGTERM] None true [] WaitNone None;
   mkRound [] [] [] None true [] WaitNone None].

Lemma sigterm_stops_master_witness :
  master_run sample_master [Some 10; Some 11] sample_rounds 100 [(101, WaitPid 11); (130, WaitNone)]
    = Some (0, sample_master <| worker_pids := [0; 0] |> <| shutdown_requested := true |>, [12; 11], [12]) /\
  exists s m' signalled killed,
    (s0 ← master_started sample_master [Some 10; Some 11]; Some (master_loop sample_rounds s0)) = Some (Left s) /\
    master_run sample_master [Some 10; Some 11] sample_rounds 100 [(101, WaitPid 11); (130, WaitNone)]
      = Some (0, m', signalled, killed) /\
    signalled = positive_pids (worker_pids (master s)) /\
    positive_pids (worker_pids m') = [] /\
    forall p, p ∈ signalled -> waited [(101, WaitPid 11); (130, WaitNone)] p \/ p ∈ killed.
Proof.
  split; [reflexivity|].
  apply (sigterm_stops_master sample_master [Some 10; Some 11]
    [mkRound [] [] [] None true [] (WaitPid 10) (Some 12)] [mkRound [] [] [] None true [] WaitNone None]
    (mkRound [] [SIGHUP] [SIGTERM] None true [] WaitNone None)).
  - cbn. lia.
  - done.
  - by repeat constructor.
  - cbn. right. left. by left.
  - by repeat constructor.
  - right. left. cbn. lia.
Defined.
