(* ===== verification/Main.v ===== *)
(** * The command line ([src/main.c])

    Arguments, the overrides they ask for, and how the master is started. *)
From Stdlib Require Import ZArith QArith Lia Ascii String.
From stdpp Require Import base list numbers strings.
From S2P Require Import Prelude CLib Network Config Master.

#[local] Open Scope Z_scope.

Record Options := mkOptions {
  config_path : chars;
  test_mode : bool;
  benchmark_mode : bool;
  override_workers : Z
}.

#[export] Instance eta_Options : Eta Options := fun r =>
  mkOptions (config_path r) (test_mode r) (benchmark_mode r) (override_workers r).

Definition default_options : Options := mkOptions (str "config.ini") false false 0.

(** The help text, the refusal of a worker count, or the options. *)
Inductive ParseResult := Usage | InvalidWorkers (arg : chars) | Parsed (o : Options).

Definition is_option (arg : chars) (short long : string) : bool :=
  strcmp_eq arg (str short) || strcmp_eq arg (str long).

(** [strtol] and its checks; [None] is a refusal. *)
Definition parse_workers (arg : chars) : option Z :=
  let r := strtol arg in
  if st_erange r || negb (st_conv r) || negb (eqc (deref (st_end r)) NUL) ||
     (st_val r <=? 0) || (st_val r >? 64)
  then None else Some (st_val r).

(** The loop over [argv\[1\]], [argv\[2\]], ... *)
Fixpoint parse_args (o : Options) (args : list chars) : ParseResult :=
  match args with
  | [] => Parsed o
  | a :: args =>
      if is_option a "-h" "--help" then Usage else
      if is_option a "-t" "--test" then parse_args (o <| test_mode := true |>) args else
      if is_option a "-b" "--benchmark" then parse_args (o <| benchmark_mode := true |>) args else
      match is_option a "-w" "--workers", args with
      | true, arg :: args =>
          match parse_workers arg with
          | None => InvalidWorkers arg
          | Some val => parse_args (o <| override_workers := val |>) args
          end
      | _, _ => parse_args (o <| config_path := a |>) args
      end
  end.

(** [if (benchmark_mode)] *)
Definition benchmark_overrides (c : Config) : Config :=
  c <| rate_limit_rps := Finite 0 |> <| rate_limit_burst := Finite 0 |> <| slots_normal_max := 10000 |>
    <| slots_large_max := 1000 |> <| slots_huge_max := 100 |> <| max_connections := 10000 |>.

(** [if (override_workers > 0)]: the array keeps the size it was allocated
    with; its entries are 0. *)
Definition apply_override (n : Z) (m : MasterProcess) : MasterProcess :=
  if n >? 0
  then m <| num_workers := Z.to_nat n |> <| worker_pids := replicate (Z.to_nat n) 0 |> else m.

(** A return before the master runs, the report of [-t], or the master that
    [master_run] is called with. *)
Inductive MainResult := Exit (code : Z) | ConfigOk (m : MasterProcess) | Run (m : MasterProcess).

(** [load] is [config_load]; the other arguments are those of
    [master_init]. *)
Definition main (load : chars -> option Config) (num_cpus : Z) (e : LimitEnv) (calloc_ok : bool)
    (args : list chars) : MainResult :=
  match parse_args default_options args with
  | Usage => Exit 0
  | InvalidWorkers _ => Exit 1
  | Parsed o =>
      match master_init (load (config_path o)) num_cpus e calloc_ok with
      | None => Exit 1
      | Some m =>
          let m := apply_override (override_workers o) m in
          let m := if benchmark_mode o then m <| m_config ::= benchmark_overrides |> else m in
          if test_mode o then ConfigOk m else Run m
      end
  end.

(** ** Worker counts *)

Definition counts : list Z := map Z.of_nat (seq 1 64).

Lemma parse_workers_print n : 1 <= n <= 64 -> parse_workers (print_dec n) = Some n.
Proof.
  intros Hn. assert (forallb (fun n => bool_decide (parse_workers (print_dec n) = Some n)) counts = true) as Hall
    by (vm_compute; reflexivity).
  rewrite forallb_forall in Hall. specialize (Hall n).
  apply (bool_decide_unpack _), Is_true_true, Hall. unfold counts. apply in_map_iff. exists (Z.to_nat n).
  split; [lia|]. apply in_seq. lia.
Qed.

(** Only numbers from 1 to 64 are accepted. *)
Lemma parse_workers_range arg n : parse_workers arg = Some n -> 1 <= n <= 64.
Proof.
  unfold parse_workers. cbv zeta.
  destruct (_ || (st_val (strtol arg) >? 64)) eqn:E; [done|]. intros [= <-]. b2p. lia.
Qed.

Lemma master_init_alloc config num_cpus e ok m :
  master_init config num_cpus e ok = Some m ->
  pids_alloc m = num_workers m /\ (1 <= num_workers m <= 64)%nat.
Proof.
  unfold master_init. destruct config as [c|]; [|done]. cbn -[check_fd_limits].
  destruct (negb (check_fd_limits _ _ _)); [done|]. destruct ok; [|done]. intros [= <-]. cbn.
  split; [done|]. unfold worker_count. repeat case_match; b2p; lia.
Qed.

(** C34: The worker count of the command line.  Every count from 1 to 64 given with -w is accepted
    and becomes the number of workers, but the array of their process ids keeps the size that
    the configuration gave it: starting the workers stores outside the array exactly when the
    count is larger than the configured one. *)
Theorem workers_option_overflows (load : chars -> option Config) (num_cpus : Z) (e : LimitEnv) (n : Z)
    (m : MasterProcess) (forks : list (option Z)) :
  1 <= n <= 64 -> master_init (load (str "config.ini")) num_cpus e true = Some m ->
  exists m', main load num_cpus e true [str "-w"; print_dec n] = Run m' /\
    num_workers m' = Z.to_nat n /\ pids_alloc m' = num_workers m /\
    (start_workers m' forks = None <-> (num_workers m < Z.to_nat n)%nat).
Proof.
  intros Hn Hm. destruct (master_init_alloc _ _ _ _ _ Hm) as [Ha _].
  unfold main. cbn [parse_args].
  change (is_option (str "-w") "-h" "--help") with false.
  change (is_option (str "-w") "-t" "--test") with false.
  change (is_option (str "-w") "-b" "--benchmark") with false.
  change (is_option (str "-w") "-w" "--workers") with true. cbv iota.
  rewrite (parse_workers_print n Hn). cbn [config_path default_options update eta eta_Options override_workers
    benchmark_mode test_mode]. rewrite Hm. unfold apply_override.
  rewrite (proj2 (Z.gtb_lt n 0)) by lia. eexists. split; [reflexivity|]. cbn.
  split_and!; [done|done|]. unfold start_workers. cbn [pids_alloc num_workers update eta eta_MasterProcess]. rewrite Ha.
  destruct (Nat.ltb_spec (num_workers m) (Z.to_nat n)); split; intros; (done || lia).
Qed.

(** Two workers configured, eight asked for. *)
Lemma workers_option_overflows_witness :
  exists m', main (fun _ => Some two_workers) 4 (mkLimitEnv None true 0) true [str "-w"; str "8"] = Run m' /\
    start_workers m' (replicate 8 (Some 10)) = None.
Proof.
  destruct (workers_option_overflows (fun _ => Some two_workers) 4 (mkLimitEnv None true 0) 8 sample_master
    (replicate 8 (Some 10)) ltac:(lia) eq_refl) as (m' & H1 & _ & _ & H2).
  exists m'. split; [exact H1|]. apply H2. apply Nat.ltb_lt. reflexivity.
Defined.
