(* ===== verification/Report.v ===== *)
(** * What the program prints about itself

    [config_print] of [src/config.c], the banner, the help text and the
    report of [-t] in [src/main.c], and the status messages of
    [src/rpc.c] and [src/security.c].  Text for stdout is the characters
    printed; messages for the log are the list of their texts. *)
From Stdlib Require Import ZArith QArith Lia Ascii String.
From stdpp Require Import base list numbers strings.
From S2P Require Import Prelude CLib Network Config Rpc Security Master Main.

#[local] Open Scope Z_scope.

(** A line of text. *)
Definition printf_ln (parts : list chars) : chars := concat parts ++ [LF].

Definition on_off (flag : Z) : chars := if flag =? 0 then str "DISABLED" else str "ENABLED".

(** ** The configuration *)

(** The name and the mark of a chain; [None] is the value -1 that no
    enumerator has, which counts as a test network. *)
Definition chain_label (chain : option BitcoinChain) : chars :=
  match chain with
  | Some c => network_chain_to_string c ++
              (if network_is_test_network c then str " [TEST NETWORK - coins have no value]" else [])
  | None => str "unknown" ++ str " [TEST NETWORK - coins have no value]"
  end.

(** [size / 1024.0] and [size / (1024.0 * 1024.0)] *)
Definition kilobytes (n : Z) : Q := (inject_Z n / inject_Z 1024)%Q.
Definition megabytes (n : Z) : Q := (inject_Z n / inject_Z (1024 * 1024))%Q.

Definition print_limits (c : Config) : chars :=
  printf_ln [str "  Buffer:"] ++
  printf_ln [str "    initial_size:     "; print_dec (initial_buffer_size c); str " bytes"] ++
  printf_ln [str "    max_size:         "; print_dec (max_buffer_size c); str " bytes (";
             print_fixed 1 (megabytes (max_buffer_size c)); str " MB)"] ++
  printf_ln [str "  Tiers:"] ++
  printf_ln [str "    large_threshold:  "; print_dec (tier_large_threshold c); str " bytes (";
             print_fixed 1 (kilobytes (tier_large_threshold c)); str " KB)"] ++
  printf_ln [str "    huge_threshold:   "; print_dec (tier_huge_threshold c); str " bytes (";
             print_fixed 1 (megabytes (tier_huge_threshold c)); str " MB)"] ++
  printf_ln [str "  Server:"] ++
  printf_ln [str "    port:             "; print_dec (listen_port c)] ++
  printf_ln [str "    max_connections:  "; print_dec (max_connections c)] ++
  printf_ln [str "    read_timeout:     "; print_dec (read_timeout_sec c); str " seconds"] ++
  printf_ln [str "  Static:"] ++
  printf_ln [str "    dir:              "; static_dir c] ++
  printf_ln [str "    cache_max_age:    "; print_dec (cache_max_age c); str " seconds"] ++
  printf_ln [str "  Slots (per worker):"] ++
  printf_ln [str "    normal_max:       "; print_dec (slots_normal_max c)] ++
  printf_ln [str "    large_max:        "; print_dec (slots_large_max c)] ++
  printf_ln [str "    huge_max:         "; print_dec (slots_huge_max c)].

Definition print_rate_limit (c : Config) : chars :=
  printf_ln [str "  Rate Limiting (per worker, per IP):"] ++
  (if double_ltb (Finite 0) (rate_limit_rps c) then
     printf_ln [str "    rps:              "; print_double 1 (rate_limit_rps c); str " req/sec"] ++
     printf_ln [str "    burst:            "; print_double 1 (rate_limit_burst c); str " requests"]
   else printf_ln [str "    status:           DISABLED"]).

Definition print_tls (c : Config) : chars :=
  printf_ln [str "  TLS:"] ++
  (if negb (tls_enabled c =? 0) then
     printf_ln [str "    status:           ENABLED"] ++
     printf_ln [str "    port:             "; print_dec (tls_port c)] ++
     printf_ln [str "    cert_file:        "; tls_cert_file c] ++
     printf_ln [str "    key_file:         "; tls_key_file c] ++
     printf_ln [str "    http2:            "; on_off (http2_enabled c)]
   else printf_ln [str "    status:           DISABLED"]).

(** [s\[0\] ? s : "(disabled)"] *)
Definition file_or_disabled (s : chars) : chars :=
  if eqc (deref s) NUL then str "(disabled)" else s.

Definition print_policy (c : Config) : chars :=
  printf_ln [str "  Logging:"] ++
  printf_ln [str "    json_format:      "; on_off (json_logging c)] ++
  printf_ln [str "    verbose:          ";
             if verbose c =? 0 then str "DISABLED (IPs hidden)" else str "ENABLED (full IPs)"] ++
  printf_ln [str "  ACME:"] ++
  printf_ln [str "    challenge_dir:    "; acme_challenge_dir c] ++
  printf_ln [str "  Security:"] ++
  printf_ln [str "    blocklist_file:   "; file_or_disabled (blocklist_file c)] ++
  printf_ln [str "    allowlist_file:   "; file_or_disabled (allowlist_file c)] ++
  printf_ln [str "    seccomp:          "; on_off (seccomp_enabled c)].

(** [None] is a null pointer. *)
Definition config_print (c : option Config) : chars :=
  match c with
  | None => printf_ln [str "Config: NULL"]
  | Some c =>
      printf_ln [str "Configuration:"] ++ printf_ln [str "  Network:"] ++
      printf_ln [str "    chain:            "; chain_label (chain c)] ++
      print_limits c ++ print_rate_limit c ++ print_tls c ++ print_policy c
  end.

(** ** [src/main.c] *)

Definition print_banner : chars :=
  printf_ln [] ++
  printf_ln [str "  ____                ____       _             "] ++
  printf_ln [str " |  _ \ __ ___      _|  _ \ ___| | __ _ _   _ "] ++
  printf_ln [str " | |_) / _` \ \ /\ / / |_) / _ \ |/ _` | | | |"] ++
  printf_ln [str " |  _ < (_| |\ V  V /|  _ <  __/ | (_| | |_| |"] ++
  printf_ln [str " |_| \_\__,_| \_/\_/ |_| \_\___|_|\__,_|\__, |"] ++
  printf_ln [str "                                        |___/ "] ++
  printf_ln [] ++
  printf_ln [str "  sendrawtx.com Production Server v6"] ++
  printf_ln [str "  Multi-Process Architecture with SO_REUSEPORT"] ++
  printf_ln [].

Definition print_usage (prog : chars) : chars :=
  printf_ln [str "Usage: "; prog; str " [options] [config_file]"] ++
  printf_ln [] ++
  printf_ln [str "Options:"] ++
  printf_ln [str "  -h, --help      Show this help message"] ++
  printf_ln [str "  -t, --test      Test configuration and exit"] ++
  printf_ln [str "  -w, --workers N Override number of workers"] ++
  printf_ln [str "  -b, --benchmark Disable rate limits & raise slot limits for benchmarking"] ++
  printf_ln [] ++
  printf_ln [str "Arguments:"] ++
  printf_ln [str "  config_file     Path to configuration file (default: config.ini)"] ++
  printf_ln [] ++
  printf_ln [str "Signals:"] ++
  printf_ln [str "  SIGTERM, SIGINT - Graceful shutdown"] ++
  printf_ln [str "  SIGHUP          - Graceful reload (re-read config)"] ++
  printf_ln [str "  SIGUSR1         - (to workers) Graceful drain"] ++
  printf_ln [] ++
  printf_ln [str "Examples:"] ++
  printf_ln [str "  "; prog; str "                      # Use default config.ini"] ++
  printf_ln [str "  "; prog; str " /etc/rawrelay.ini    # Use custom config"] ++
  printf_ln [str "  "; prog; str " -w 8                 # Force 8 workers"] ++
  printf_ln [].

(** What [-t] prints; [cpus] is [get_num_cpus()]. *)
Definition test_report (m : MasterProcess) (cpus : Z) : chars :=
  printf_ln [str "Configuration OK:"] ++ config_print (Some (m_config m)) ++
  printf_ln [] ++ printf_ln [str "Workers: "; print_dec (Z.of_nat (num_workers m))] ++
  printf_ln [str "CPUs available: "; print_dec cpus].

(** Everything [main] writes to stdout before the workers are started. *)
Definition main_stdout (prog : chars) (cpus : Z) (args : list chars) (r : MainResult) : chars :=
  match parse_args default_options args, r with
  | Usage, _ => print_usage prog
  | InvalidWorkers _, _ => []
  | Parsed _, ConfigOk m => print_banner ++ test_report m cpus
  | Parsed _, _ => print_banner
  end.

(** ** Status messages *)

(** One configured node; [host\[0\]] tells whether there is one. *)
Definition node_status (label : string) (client : RPCClient) : list chars :=
  if eqc (deref (cl_host client)) NUL then [] else
  [str "  " ++ str label ++ str ": " ++ cl_host client ++ str ":" ++ print_dec (cl_port client) ++
   str " (" ++ (if available client =? 0 then str "DOWN" else str "UP") ++ str ")"].

Definition rpc_manager_log_status (mgr : RPCManager) : list chars :=
  [str "RPC Manager Status:";
   str "  Total broadcasts: " ++ print_dec (total_broadcasts mgr);
   str "  Successful: " ++ print_dec (successful_broadcasts mgr);
   str "  Failed: " ++ print_dec (failed_broadcasts mgr)] ++
  node_status "Mainnet" (mainnet mgr) ++ node_status "Testnet" (testnet mgr) ++
  node_status "Signet" (signet mgr) ++ node_status "Regtest" (regtest mgr).

Definition security_log_status `{Platform} (e : PrctlEnv) : list chars :=
  [if security_seccomp_available e then str "Security: seccomp available"
   else str "Security: seccomp not available"].

(** ** No credentials *)

(** Two configurations that differ only in the nodes' sections, and two
    managers whose clients differ only in credentials, are reported alike:
    passwords and cookies never reach a terminal or a log. *)
Lemma config_report_hides_nodes c m t s r :
  config_print (Some (c <| rpc_mainnet := m |> <| rpc_testnet := t |> <| rpc_signet := s |>
                        <| rpc_regtest := r |>)) = config_print (Some c).
Proof. by destruct c. Qed.

Definition without_secrets (c : RPCClient) : RPCClient := c <| auth_header := [] |> <| cookie_path := [] |>.

Lemma status_hides_credentials mgr mgr' :
  total_broadcasts mgr = total_broadcasts mgr' ->
  successful_broadcasts mgr = successful_broadcasts mgr' ->
  failed_broadcasts mgr = failed_broadcasts mgr' ->
  (forall chain, without_secrets (client_at mgr chain) = without_secrets (client_at mgr' chain)) ->
  rpc_manager_log_status mgr = rpc_manager_log_status mgr'.
Proof.
  intros H1 H2 H3 Hc. unfold rpc_manager_log_status. rewrite H1, H2, H3.
  assert (forall label a b, without_secrets a = without_secrets b -> node_status label a = node_status label b)
    as Hn.
  { intros label a b E. destruct a, b. unfold without_secrets in E. cbv in E. injection E. intros. subst. done. }
  by rewrite (Hn _ _ _ (Hc CHAIN_MAINNET)), (Hn _ _ _ (Hc CHAIN_TESTNET)),
    (Hn _ _ _ (Hc CHAIN_SIGNET)), (Hn _ _ _ (Hc CHAIN_REGTEST)).
Qed.
